(* ===== verification/_CoqProject ===== *)
-Q . S2P
Prelude.v
GoInt.v
GoStr.v
GoUtf8.v
GoParse.v
GoFloat.v
GoTime.v
GoCalendar.v
Values.v
GoJson.v
Qdb.v
FieldPath.v
Convert.v
Steps.v
Compute.v
Subject.v
MapEntry.v
Unpack.v
Proto.v
Schema.v
Explode.v
Exploded.v
Filter.v
Parser.v
Yaml.v
Backoff.v
Breaker.v
SinkOptions.v
Sink.v
Hooks.v
Manager.v
Source.v
Stats.v
Liveness.v
Worker.v
Health.v
Connector.v
Window.v
Lag.v
Telemetry.v
Options.v
Flags.v
FlagLaws.v
Factory.v
System.v
Orchestrator.v
FetchThread.v
Schedule.v
Lifecycle.v
Boot.v
Server.v
Loader.v
Batching.v
Feed.v
Publish.v
LoaderRun.v
LoaderStop.v
LoaderSystem.v
GenIterator.v
GenPattern.v
GenEngine.v
GenParallel.v
FloatOrder.v
GenWaves.v
GenFields.v
GenState.v
GenRegistry.v
GenRun.v
ToolChain.v
TestData.v
TestLib.v
Witnesses.v
RunWitnesses.v
ToolWitnesses.v
GenWitnesses.v
ChainWitnesses.v
