(* ===== verification/Prelude.v ===== *)
(** * qdb-nats-connector: a verification development

    qdb-nats-connector moves the messages of a NATS JetStream consumer into
    QuasarDB tables.  One fetch loop pulls batches from the stream and hands
    them to a pool of workers over a bounded channel; a worker parses each
    message of a batch with a pipeline compiled from a YAML file, filters and
    merges the resulting tables, writes them to the cluster under a circuit
    breaker and a retry loop, and acknowledges or rejects every message of the
    batch.  A health monitor, two probes, metrics and a statistics line watch
    it.  This library is a shallow embedding of that program with the theorems
    that make it correct.

    ** Conventions

    A Go function that returns a value and an error is a function to [res]
    (this file): [Ok], [Err] or [Panic], the last one a run-time panic, so that
    a theorem whose conclusion is [Ok] excludes panics.  int64 and uint64 are Z
    with the wrap-around written out ([wrap64], [wrapu64], GoInt); float64 is
    the binary64 of SpecFloat (GoFloat); strings are byte strings (GoStr); a
    time is its seconds and nanoseconds since year one (GoTime) and a duration
    an int64 of nanoseconds.  A Go map is a [gmap]; where the code ranges over
    a map, the order is a permutation chosen by the class [MapIter], so that
    theorems hold for every order.  State is passed explicitly.  Goroutines are
    step relations or, where one goroutine owns the state, functions over the
    sequence of what its select receives.  Code outside src/ is a parameter:
    the class [GoLib] (gzip, hashes, float parsing and printing, layouts of
    times), [JsonText] (the text of a float in JSON), [ProtoLib] (the protobuf
    runtime), [NatsEnv] and [SinkEnv] (the answers of the server and of the
    cluster, call by call), with documented laws as [GoLibLaws],
    [JsonTextLaws] and [ProtoLibLaws].  What a theorem needs of a deployment's
    own protobuf schemas, that their google.protobuf.Timestamp is the well-known
    one, is a hypothesis of its own ([standard_timestamps] of one configuration,
    [StandardTimestamps] of all): no library promises it, and without it a
    message can panic the parser ([foreign_timestamp_panics]).

    ** Files

    Foundations: Prelude (results, lists), GoInt, GoStr, GoParse (number texts
    with base prefixes), GoUtf8 (runes, base64), GoFloat, GoTime,
    GoCalendar (the text of a time, and what instant a text denotes).
    - Values: dynamic values of parsed documents, errors (internal/errors).
    - GoJson: encoding/json, its scanner as a state machine, decoding into a map
      and encoding of a value; what is marshalled reads back.
    - Qdb: tables, columns, merging and error classes of the vendored client
      (vendor/.../qdb-api-go/v3), in so far as it is Go.

    The parser (internal/parser):
    - FieldPath, Convert, Steps, Compute: field paths, typed conversions and
      the steps of yaml.go; Subject, MapEntry, Unpack, Proto: the steps of
      subject.go, mapentry.go, unpack.go and proto.go; Schema: columns and
      their validation; Explode: explode.go; Exploded: what an explode step
      means, read off its configuration map.
    - Parser: the interface every parser keeps ([LawfulParser]) and noop.go;
      Yaml: compilation and the life cycle of a message; Factory: factory.go
      and the resolution of schema paths.
    - Filter: internal/filter.

    Delivery:
    - Backoff, Breaker, Manager, Hooks: connector/resilience, connector/hooks.
    - SinkOptions, Sink: internal/sink and the options of internal/source.
    - Source: internal/source, from connecting to acknowledging.
    - Stats, Liveness, Health: connector/stats.go, liveness.go, health.go and
      the verdicts of internal/telemetry/probes.go.
    - Worker: connector/worker.go, one batch at a time.
    - Connector: the fetch loop and the re-bind ladder of
      connector/connector.go as sequential functions.
    - System: NewWorker and what a stream of batches does to a worker.
    - Orchestrator: RunWithContext and Close, the goroutines, their channels
      and the signals as a step relation; FetchThread: its fetch goroutine
      refines the functions of Connector; Schedule: the pace it keeps, a
      language of events with every pause in closed form; Lifecycle: what every
      run guarantees.
    - Options: connector/options.go, validation, the parsed fields and their
      getters; Flags: LoadConfig, its flag table, the parsing of an argument
      list (pflag), the lookup of a setting (viper) and its decoding
      (mapstructure), as vendored; FlagLaws: what LoadConfig computes.
    - Boot: NewConnector, runMain and the systemd watchdog
      (cmd/qdb-nats-connector); Server: the log handler (internal/logging), the
      HTTP server of the probes (internal/telemetry/server.go, probes.go), whose
      bodies are documents of GoJson, and the watchdog loop.
    - TestData: the draws and assertions the tests share (internal/util), with
      the property-based testing library as an interface.

    Telemetry: Window, Lag (internal/telemetry/window.go, lag.go), Telemetry
    (collector.go, stats.go, internal/metrics).

    The data loader (tools/loader):
    - Feed: detection of the format and the line parsers (internal/detector,
      internal/parser); a parser's two channels are one sequence of events.
    - Loader: the fixed and the adaptive batcher (internal/batch); Batching:
      the interface runLoader uses them through, with its laws.
    - Publish: the pool of publisher workers (internal/publisher), a step
      relation with one rule per select and per answer of the connection.
    - LoaderRun: the connection ladder (internal/nats.go), the command and what
      one run reads and sends (main.go); LoaderStop: how the goroutines of that
      run end or are interrupted, a step relation; LoaderSystem: goroutines,
      batcher and pool composed into one system.

    The data generator (tools/generator):
    - GenEngine: templates, generator registry, transformers, and the record
      engine, serial and parallel, against the interface [FieldGenerator];
      GenParallel: the parallel run against the serial one.
    - GenIterator, GenPattern: the mixed-radix iterator and the composite
      identifiers (generators/pattern_iterator.go, pattern_composite.go).
    - FloatOrder: the order of floats and math.Max and Min; GenWaves: the burst,
      signal and stress generators; GenFields: all nineteen field generators,
      [field_generator] being the instance of the interface; GenState: their
      Initialize, Reset and GetState and the state manager (state.go,
      lifecycle.go); GenRegistry: what the registry constructs.
    - GenRun: the rate limiter, the continuous engine and main.go.

    - ToolChain: the three programs in a row, a record from the generator
      through the loader to the fields of a message.

    TestLib holds concrete instances of the library classes and sample data;
    Witnesses, RunWitnesses, ToolWitnesses, GenWitnesses and ChainWitnesses the
    properties at concrete inputs, GenWitnesses also inputs on which identifiers
    repeat, ChainWitnesses an exact decimal text of floats.

    ** How the parts meet

    Worker is proved against the interface of Parser: any [LawfulParser] for
    one schema will do; Yaml, Parser and Factory show that every parser the
    factory returns is one.  Worker uses the outcome of Sink and of Breaker;
    System shows that a worker built from validated options has what Worker
    assumes ([worker_ready]) and keeps it.  Orchestrator runs the functions of
    Connector, Source and Worker in every interleaving; Lifecycle uses
    [batch_settled] of System for each processed batch.  Boot closes the
    circle: what NewConnector builds has every hypothesis of Lifecycle
    ([constructed_connector_ready]), hence [booted_connector_safe].

    In the loader a step of LoaderSystem is one of LoaderStop, a round of any
    [BatchingLaws] batcher, or one of Publish; [coupled] relates the three, so
    that the system projects onto LoaderStop ([system_projects]) and inherits
    the accounts of Publish although its batches come as it runs.

    ** What the theorems show

    - Delivery: acknowledgment only after a successful write, each message
      settled once, no batch lost or duplicated between fetch and settlement,
      counters that account for every message (Worker, System, Connector,
      Lifecycle, Boot).
    - Parsing: total and classified for every accepted configuration whose
      schemas have the well-known Timestamp, exact content of rows and of
      exploded rows with their time axis, rectangular tables, exact steps, exact
      values of decoded messages, byte round trips (Yaml, Unpack, Explode,
      Exploded, MapEntry, Proto, Compute, Filter).
    - Resilience: the breaker refines the progressive recovery automaton, in
      which its success threshold has no part although the comments and the
      decision records give it one, and completes it; bounded retries and
      re-binds with their delays in closed form; one breaker per resource
      (Breaker, Sink, Backoff, Connector, Manager, Schedule).
    - Concurrency: no deadlock, termination after cancellation, no blocking on
      the error channel, the state RunWithContext returns in and the event that
      decided its result (Lifecycle).
    - Observation: conditions, probes, windows, statistics and scrapes report
      exactly what happened (Health, Window, Lag, Telemetry).
    - Configuration and process: every option holds the value given, else the
      one of the environment, else the default, under the names of the code,
      which are not those of the README ([readme_configuration_differs]);
      arguments read back in every
      form; a variable and an argument are interchangeable; validated flags give
      each component what its theorems assume; the process stops what it started
      (FlagLaws, Options, Boot).
    - Surface: the server answers each path with the documented verdict, in a
      body that is one line of JSON and reads back as a document with each input
      under its name, and the watchdog is petted exactly on its liveness
      verdicts (Server).
    - Test data: texts drawn as valid JSON parse, texts drawn as invalid do not,
      so the tests exercise the branch they name (TestData).
    - Loader: batching loses, repeats and reorders nothing and keeps its size
      bounds under concurrent resizing; the publisher pool accounts for every
      message and terminates; whatever the interleaving, a run publishes no line
      more often than its file has it, goes on until it returns (or panics on a
      batch that waited five seconds), and, when no interrupt came, returns with
      every accepted line published or given up after a refusal (Loader,
      Publish, LoaderRun, LoaderStop, LoaderSystem).
    - Generator: parallel generation succeeds exactly when serial generation
      does and makes its records, iteration enumerates the pattern space, the
      calls of one pattern enumerate its combinations as long as they read its
      map in one order, values stay in their bounds, constructed
      generators do not panic, a burst lasts its duration, a reset generator
      starts again as a new one, the continuous engine counts its records
      (GenParallel, GenIterator, GenPattern, GenFields, GenWaves, GenState,
      GenRegistry, GenRun).
    - The chain: what a run of the loader publishes of a file of generated
      records, plain or packed as compressed base64, is parsed back to the
      fields of the records, each once (ToolChain).

    ** Bounds and fuel

    Loops that are not structural take a natural number: the retry loop its
    attempts, the re-bind ladder its budget, quantile and maximum loops the
    number of buckets; the theorems state the results for the fuel the caller
    passes, so that no result depends on a fuel chosen for the proof.  The runs
    of Orchestrator are unbounded; [rank] bounds what is left of a cancelled
    one.  [pub_rank] bounds a run of the publisher, [weight] of LoaderStop one
    of the goroutines of the loader, and [load_rank] one of the whole loader.
    [create_nested] follows nested generator configurations to a depth;
    [create_depth_enough] shows that any depth above the nesting of the
    configuration gives one result.

    ** Not modelled

    Log lines, buffer pools of the parser (a pooled buffer is observably a
    fresh one), printing of usage and version, sockets, and the helpers that
    compile test schemas or drive containers (prototest, test/): input and
    output around the modelled parts.  The C client behind Push and the network are environments.  Message
    text of errors is kept as format and arguments, not rendered.  Of pflag,
    viper and mapstructure only what LoadConfig reaches is translated: no
    aliases, configuration files, slices or nested keys.  The text of a
    duration (Duration.String) and of a float (FormatFloat) are parameters with
    the laws [TextLaws].

    Of the tools: gzip, the shortest text of a float in JSON ([JsonTextLaws]
    says that it reads back), Sscanf and Sprintf with a format, YAML and the
    draws of math/rand are parameters.  Nested maps of a record are values: a
    dotted field that writes below a constant map changes a map the records
    share in the program, and [own_maps] excludes it where it would matter.  math.Sin is a parameter, and the
    floating-point expressions of the generators are read without fused
    multiply-adds.  Progress and metric logs and the deprecated back-pressure
    flags are left out. *)
From stdpp Require Export base tactics list gmap fin_maps sets strings sorting.
From Stdlib Require Export ZArith Lia.
From Stdlib Require Import Ascii.

#[global] Set Warnings "-register-all".

Declare Scope qnc_scope.
Delimit Scope qnc_scope with qnc.
Open Scope Z_scope.

(** ** Results of Go code

    A Go function that returns [(T, error)] is modelled by [res E T]: [Ok] for
    a nil error, [Err] for a non-nil one.  [Panic] is a run-time panic (index
    out of range, a call whose documented precondition fails); a theorem that
    excludes it is a theorem that the code does not panic. *)
Inductive res (E A : Type) : Type :=
  | Ok (a : A)
  | Err (e : E)
  | Panic.
Arguments Ok {E A} a.
Arguments Err {E A} e.
Arguments Panic {E A}.

#[export] Instance res_ret {E} : MRet (res E) := fun A a => Ok a.
#[export] Instance res_bind {E} : MBind (res E) := fun A B f m =>
  match m with Ok a => f a | Err e => Err e | Panic => Panic end.
#[export] Instance res_fmap {E} : FMap (res E) := fun A B f m =>
  match m with Ok a => Ok (f a) | Err e => Err e | Panic => Panic end.

(** [map_err f m] rewrites the error of [m], the way a caller wraps it. *)
Definition map_err {E A} (f : E -> E) (m : res E A) : res E A :=
  match m with Ok a => Ok a | Err e => Err (f e) | Panic => Panic end.

(** [of_option o e] is the Go pattern [x, ok := ...; if !ok { return e }]. *)
Definition of_option {E A} (o : option A) (e : E) : res E A :=
  match o with Some a => Ok a | None => Err e end.

(** [guard_err b e] is [if b { return e }]. *)
Definition guard_err {E} (b : bool) (e : E) : res E unit :=
  if b then Err e else Ok tt.

Definition is_ok {E A} (m : res E A) : bool :=
  match m with Ok _ => true | _ => false end.
Definition no_panic {E A} (m : res E A) : Prop := m <> Panic.

(** A loop that threads a value and returns at the first error. *)
Fixpoint fold_res {E A B} (f : A -> B -> res E A) (l : list B) (a : A) : res E A :=
  match l with
  | [] => Ok a
  | b :: rest => f a b ≫= fold_res f rest
  end.

Section res_lemmas.
Context {E : Type}.

Lemma res_bind_ok {A B} (m : res E A) (f : A -> res E B) b :
  m ≫= f = Ok b <-> exists a, m = Ok a /\ f a = Ok b.
Proof. destruct m; cbn; naive_solver. Qed.

Lemma res_bind_no_panic {A B} (m : res E A) (f : A -> res E B) :
  no_panic m -> (forall a, m = Ok a -> no_panic (f a)) -> no_panic (m ≫= f).
Proof. unfold no_panic; destruct m; cbn; naive_solver. Qed.

Lemma map_err_ok {A} f (m : res E A) a : map_err f m = Ok a <-> m = Ok a.
Proof. destruct m; cbn; naive_solver. Qed.

Lemma map_err_no_panic {A} f (m : res E A) : no_panic m -> no_panic (map_err f m).
Proof. unfold no_panic; destruct m; cbn; naive_solver. Qed.

Lemma of_option_ok {A} (o : option A) (e : E) a : of_option o e = Ok a <-> o = Some a.
Proof. destruct o; cbn; naive_solver. Qed.

Lemma of_option_no_panic {A} (o : option A) (e : E) : no_panic (of_option o e).
Proof. unfold no_panic; by destruct o. Qed.

Lemma guard_err_ok b (e : E) u : guard_err b e = Ok u <-> b = false.
Proof. destruct b, u; cbn; naive_solver. Qed.

Lemma guard_err_no_panic b (e : E) : no_panic (guard_err b e).
Proof. unfold no_panic; by destruct b. Qed.

Lemma ok_no_panic {A} (a : A) : no_panic (Ok (E:=E) a).
Proof. by unfold no_panic. Qed.

Lemma err_no_panic {A} (e : E) : no_panic (Err (A:=A) e).
Proof. by unfold no_panic. Qed.

Lemma is_ok_true {A} (m : res E A) : is_ok m = true <-> exists a, m = Ok a.
Proof. destruct m; cbn; naive_solver. Qed.
End res_lemmas.

Create HintDb qnc discriminated.
#[export] Hint Resolve ok_no_panic err_no_panic guard_err_no_panic
  of_option_no_panic map_err_no_panic : qnc.

(** ** Tactics *)

(** Invert every [do]-style bind that is known to have returned. *)
Ltac inv_res :=
  repeat match goal with
  | H : _ ≫= _ = Ok _ |- _ =>
      apply res_bind_ok in H; destruct H as (? & ? & ?)
  | H : map_err _ _ = Ok _ |- _ => apply map_err_ok in H
  | H : of_option _ _ = Ok _ |- _ => apply of_option_ok in H
  | H : guard_err _ _ = Ok _ |- _ => apply guard_err_ok in H
  | H : Ok _ = Ok _ |- _ => injection H as H
  | H : Err _ = Ok _ |- _ => discriminate H
  | H : Panic = Ok _ |- _ => discriminate H
  | H : mret _ = Ok _ |- _ => injection H as H
  end.

(** Split a conjunction of boolean tests in the context. *)
Ltac bools :=
  repeat match goal with
  | H : (_ && _)%bool = true |- _ => apply andb_true_iff in H; destruct H
  | H : (_ || _)%bool = false |- _ => apply orb_false_iff in H; destruct H
  | H : negb _ = true |- _ => apply negb_true_iff in H
  | H : negb _ = false |- _ => apply negb_false_iff in H
  | H : Z.ltb _ _ = true |- _ => apply Z.ltb_lt in H
  | H : Z.ltb _ _ = false |- _ => apply Z.ltb_ge in H
  | H : Z.leb _ _ = true |- _ => apply Z.leb_le in H
  | H : Z.leb _ _ = false |- _ => apply Z.leb_gt in H
  | H : Z.eqb _ _ = true |- _ => apply Z.eqb_eq in H
  | H : Z.eqb _ _ = false |- _ => apply Z.eqb_neq in H
  | H : String.eqb _ _ = true |- _ => apply String.eqb_eq in H
  | H : String.eqb _ _ = false |- _ => apply String.eqb_neq in H
  end.

(** ** Lists *)

Section list_lemmas.
Context {A : Type}.

Lemma forallb_Forall_true (f : A -> bool) l :
  forallb f l = true <-> Forall (fun x => f x = true) l.
Proof.
  induction l as [|x l IH]; cbn; [naive_solver|].
  rewrite andb_true_iff, IH, Forall_cons. done.
Qed.

Lemma length_concat (ls : list (list A)) :
  length (concat ls) = sum_list (length <$> ls).
Proof. induction ls; cbn; [done|]. rewrite length_app. f_equal. done. Qed.

Lemma omap_length_le {B} (f : A -> option B) l : (length (omap f l) <= length l)%nat.
Proof. induction l as [|x l IH]; cbn; [lia|]. destruct (f x); cbn; lia. Qed.

Lemma Forall_seq_lookup (P : nat -> A -> Prop) (l : list A) :
  (forall i x, l !! i = Some x -> P i x) -> Forall (fun x => exists i, P i x) l.
Proof. intros H. apply Forall_lookup. eauto. Qed.
End list_lemmas.

(** ** [mapM] in the result monad: a loop with an early return *)

Section mapM_lemmas.
Context {E : Type}.

Lemma mapM_res_Forall2 {A B} (f : A -> res E B) l k :
  mapM (M := res E) f l = Ok k <-> Forall2 (fun x y => f x = Ok y) l k.
Proof.
  revert k. induction l as [|x l IH]; intros k; cbn.
  - split; [intros [= <-]; constructor|]. by intros ->%Forall2_nil_inv_l.
  - split.
    + intros H. apply res_bind_ok in H as (y & Hy & H). apply res_bind_ok in H as (ys & Hys & H).
      injection H as <-. constructor; [done|]. by apply IH.
    + intros (y & ys & Hy & Hys & ->)%Forall2_cons_inv_l. rewrite Hy. cbn.
      apply IH in Hys. by rewrite Hys.
Qed.

Lemma mapM_res_length {A B} (f : A -> res E B) l k :
  mapM (M := res E) f l = Ok k -> length k = length l.
Proof. intros H%mapM_res_Forall2. symmetry. by eapply Forall2_length. Qed.

Lemma mapM_res_no_panic {A B} (f : A -> res E B) l :
  (forall x, x ∈ l -> no_panic (f x)) -> no_panic (mapM (M := res E) f l).
Proof.
  induction l as [|x l IH]; cbn; intros H; [apply ok_no_panic|].
  apply res_bind_no_panic; [apply H; left|]. intros y _.
  apply res_bind_no_panic; [apply IH; intros; apply H; by right|]. intros; apply ok_no_panic.
Qed.

Lemma mapM_res_ok {A B} (f : A -> res E B) (g : A -> B) l :
  (forall x, x ∈ l -> f x = Ok (g x)) -> mapM (M := res E) f l = Ok (g <$> l).
Proof.
  intros H. apply mapM_res_Forall2. induction l as [|x l IH]; cbn; constructor.
  - apply H. left.
  - apply IH. intros y Hy. apply H. by right.
Qed.

Lemma fold_res_app {A B} (f : A -> B -> res E A) l1 l2 a :
  fold_res f (l1 ++ l2) a = fold_res f l1 a ≫= fold_res f l2.
Proof.
  revert a. induction l1 as [|b l1 IH]; intros a; cbn; [done|].
  destruct (f a b); cbn; auto.
Qed.

Lemma fold_res_no_panic {A B} (f : A -> B -> res E A) l a :
  (forall a b, no_panic (f a b)) -> no_panic (fold_res f l a).
Proof.
  intros H. revert a. induction l as [|b l IH]; intros a; cbn; [apply ok_no_panic|].
  apply res_bind_no_panic; [apply H|intros; apply IH].
Qed.

(** An invariant of the loop. *)
Lemma fold_res_inv {A B} (f : A -> B -> res E A) (I : A -> Prop) l a a' :
  I a -> (forall a b a', b ∈ l -> I a -> f a b = Ok a' -> I a') -> fold_res f l a = Ok a' -> I a'.
Proof.
  revert a. induction l as [|b l IH]; intros a Ha Hs H; cbn in H; [by injection H as <-|].
  apply res_bind_ok in H as (a1 & H1 & H). apply (IH a1); [|set_solver|done].
  eapply Hs; [left|done|done].
Qed.
End mapM_lemmas.

Lemma list_elem_of_seq_bound i j n : i ∈ seq j n -> (j <= i < j + n)%nat.
Proof. rewrite elem_of_seq. done. Qed.

(** ** Updating one element of a list: sums, concatenations, conditions *)

Lemma sum_list_insert {A} (g : A -> nat) (l : list A) i x y :
  l !! i = Some x -> (sum_list (g <$> <[i:=y]> l) + g x = sum_list (g <$> l) + g y)%nat.
Proof.
  revert i. induction l as [|a l IH]; intros [|i] E; try done.
  - injection E as ->. cbn. lia.
  - specialize (IH i E). change (<[S i:=y]> (a :: l)) with (a :: <[i:=y]> l).
    rewrite !fmap_cons. cbn [sum_list_with]. lia.
Qed.

Lemma concat_insert {A B} (g : A -> list B) (l : list A) i x y :
  l !! i = Some x -> concat (g <$> <[i:=y]> l) ++ g x ≡ₚ concat (g <$> l) ++ g y.
Proof.
  revert i. induction l as [|a l IH]; intros [|i] E; try done.
  - injection E as ->. cbn. solve_Permutation.
  - change (<[S i:=y]> (a :: l)) with (a :: <[i:=y]> l). rewrite !fmap_cons. cbn [concat].
    rewrite <- !app_assoc. by rewrite (IH i E).
Qed.

Lemma Forall_insert_weak {A} (P : A -> Prop) (l : list A) i x : Forall P l -> P x -> Forall P (<[i:=x]> l).
Proof. intros F X. by apply Forall_insert. Qed.

Lemma sum_list_lookup {A} (g : A -> nat) (l : list A) i x : l !! i = Some x -> (g x <= sum_list (g <$> l))%nat.
Proof.
  revert i. induction l as [|a l IH]; intros [|i] L; try done; cbn; [injection L as ->; lia|].
  specialize (IH i L). cbn in IH. lia.
Qed.
