(* ===== verification/GoInt.v ===== *)
(** * Go's fixed-width integers and their decimal text

    [int] and [int64] are 64-bit two's complement (the connector is built for
    64-bit targets), [uint64] is unsigned.  A Go integer is a [Z] in range;
    every operation that can leave the range wraps explicitly with [wrap64] or
    [wrapu64].  [ParseInt]/[FormatInt]/[Atoi] model the base-10 functions of
    [strconv] that the parser uses. *)
From S2P Require Import Prelude.
From Stdlib Require Import Ascii DecimalString DecimalZ DecimalN DecimalFacts.

Definition min_int64 : Z := - 2 ^ 63.
Definition max_int64 : Z := 2 ^ 63 - 1.

Definition wrap64 (z : Z) : Z := (z + 2 ^ 63) mod 2 ^ 64 - 2 ^ 63.
Definition wrapu64 (z : Z) : Z := z mod 2 ^ 64.

Definition in_int64 (z : Z) : Prop := min_int64 <= z <= max_int64.
Definition in_uint64 (z : Z) : Prop := 0 <= z < 2 ^ 64.

#[export] Instance in_int64_dec z : Decision (in_int64 z).
Proof. unfold in_int64. apply _. Defined.

(** Go's [/] and [%] truncate toward zero. *)
Definition go_div (a b : Z) : Z := Z.quot a b.
Definition go_rem (a b : Z) : Z := Z.rem a b.

(** Reinterpret the low [w] bits as a two's-complement number, the Go
    conversions [int8(x)], [int16(x)], [int32(x)], [int64(x)]. *)
Definition sign_extend (w x : Z) : Z :=
  if x <? 2 ^ (w - 1) then x else x - 2 ^ w.

Ltac unfold_ints := unfold in_int64, in_uint64, wrap64, wrapu64, min_int64, max_int64 in *.

Ltac unfold_range := unfold in_int64, in_uint64, min_int64, max_int64 in *.

(** Linear arithmetic with divisions by constants. *)
Ltac zdiv := Z.to_euclidean_division_equations; lia.

Lemma wrap64_range z : in_int64 (wrap64 z).
Proof. unfold_ints. pose proof (Z.mod_pos_bound (z + 2 ^ 63) (2 ^ 64)). lia. Qed.

Lemma wrap64_id z : in_int64 z -> wrap64 z = z.
Proof. unfold_ints. intros H. rewrite Z.mod_small; lia. Qed.

Lemma wrap64_idem z : wrap64 (wrap64 z) = wrap64 z.
Proof. apply wrap64_id, wrap64_range. Qed.

Lemma wrap64_mod z : wrap64 z mod 2 ^ 64 = z mod 2 ^ 64.
Proof.
  unfold wrap64. rewrite Zminus_mod_idemp_l. f_equal. lia.
Qed.

Lemma wrap64_eq a b : a mod 2 ^ 64 = b mod 2 ^ 64 -> wrap64 a = wrap64 b.
Proof.
  unfold wrap64. intros H. f_equal.
  rewrite <- (Zplus_mod_idemp_l a), <- (Zplus_mod_idemp_l b), H. done.
Qed.

Lemma wrap64_add_l a b : wrap64 (wrap64 a + b) = wrap64 (a + b).
Proof.
  apply wrap64_eq. rewrite <- Zplus_mod_idemp_l, wrap64_mod, Zplus_mod_idemp_l. done.
Qed.

Lemma wrap64_add_r a b : wrap64 (a + wrap64 b) = wrap64 (a + b).
Proof. rewrite (Z.add_comm a (wrap64 b)), wrap64_add_l. f_equal; lia. Qed.

Lemma wrap64_sub_l a b : wrap64 (wrap64 a - b) = wrap64 (a - b).
Proof.
  apply wrap64_eq. rewrite <- Zminus_mod_idemp_l, wrap64_mod, Zminus_mod_idemp_l. done.
Qed.

Lemma wrapu64_range z : in_uint64 (wrapu64 z).
Proof. unfold_ints. apply Z.mod_pos_bound. lia. Qed.

Lemma wrapu64_id z : in_uint64 z -> wrapu64 z = z.
Proof. unfold_ints. apply Z.mod_small. Qed.

Lemma wrapu64_add_l a b : wrapu64 (wrapu64 a + b) = wrapu64 (a + b).
Proof. unfold wrapu64. apply Zplus_mod_idemp_l. Qed.

Lemma wrapu64_add_r a b : wrapu64 (a + wrapu64 b) = wrapu64 (a + b).
Proof. unfold wrapu64. apply Zplus_mod_idemp_r. Qed.

Lemma sign_extend_range w x : 0 < w -> 0 <= x < 2 ^ w -> - 2 ^ (w - 1) <= sign_extend w x < 2 ^ (w - 1).
Proof.
  intros Hw Hx. unfold sign_extend.
  assert (2 ^ w = 2 * 2 ^ (w - 1)) by (rewrite <- Z.pow_succ_r by lia; f_equal; lia).
  destruct (Z.ltb_spec x (2 ^ (w - 1))); lia.
Qed.

Lemma sign_extend_mod w x : 0 < w -> - 2 ^ (w - 1) <= x < 2 ^ (w - 1) -> sign_extend w (x mod 2 ^ w) = x.
Proof.
  intros Hw Hx. unfold sign_extend.
  assert (Hp : 2 ^ w = 2 * 2 ^ (w - 1)) by (rewrite <- Z.pow_succ_r by lia; f_equal; lia).
  destruct (Z.lt_ge_cases x 0).
  - rewrite <- (Z.mod_add x 1), (Z.mod_small (x + 1 * 2 ^ w)) by lia.
    destruct (Z.ltb_spec (x + 1 * 2 ^ w) (2 ^ (w - 1))); lia.
  - rewrite Z.mod_small by lia. destruct (Z.ltb_spec x (2 ^ (w - 1))); lia.
Qed.

(** ** Decimal text *)

(** [strconv.FormatInt(v, 10)]. *)
Definition FormatInt (z : Z) : string := NilZero.string_of_int (Z.to_int z).

Inductive num_error := ErrSyntax | ErrRange.

(** [strconv.ParseUint(s, 10, 64)] on the digits left after the sign. *)
Definition parse_digits (s : string) : option N :=
  match s with
  | EmptyString => None
  | _ => match NilEmpty.uint_of_string s with
         | Some d => Some (N.of_uint d)
         | None => None
         end
  end.

(** [strconv.ParseInt(s, 10, 64)]: an optional sign, then decimal digits only
    (underscores are accepted for base 0 only), then the int64 range check. *)
Definition ParseInt (s : string) : res num_error Z :=
  let '(neg, body) :=
    match s with
    | String c rest =>
        if Ascii.eqb c "-"%char then (true, rest)
        else if Ascii.eqb c "+"%char then (false, rest)
        else (false, s)
    | EmptyString => (false, s)
    end in
  match parse_digits body with
  | None => Err ErrSyntax
  | Some n =>
      if neg then if Z.of_N n <=? 2 ^ 63 then Ok (- Z.of_N n) else Err ErrRange
      else if Z.of_N n <? 2 ^ 63 then Ok (Z.of_N n) else Err ErrRange
  end.

(** [strconv.Atoi]: the int result of [ParseInt]. *)
Definition Atoi (s : string) : res num_error Z := ParseInt s.

Lemma ParseInt_range s z : ParseInt s = Ok z -> in_int64 z.
Proof.
  unfold ParseInt. destruct (match s with EmptyString => _ | _ => _ end) as [neg body].
  destruct (parse_digits body) as [n|]; [|done].
  destruct neg; case_match; intros; simplify_eq; bools; unfold_ints; lia.
Qed.

Lemma string_of_uint_head u :
  u <> Decimal.Nil ->
  exists c s, NilEmpty.string_of_uint u = String c s /\ c <> "-"%char /\ c <> "+"%char.
Proof. destruct u; cbn; intros; try done; eauto 10. Qed.

Lemma pos_to_uint_nonnil p : Pos.to_uint p <> Decimal.Nil.
Proof. apply DecimalPos.Unsigned.to_uint_nonnil. Qed.

Lemma parse_digits_string_of_uint u :
  u <> Decimal.Nil -> parse_digits (NilEmpty.string_of_uint u) = Some (N.of_uint u).
Proof.
  intros Hu. pose proof (string_of_uint_head u Hu) as (c & s & E & _).
  unfold parse_digits. rewrite E, <- E, NilEmpty.usu. done.
Qed.

Lemma FormatInt_nonneg p : FormatInt (Zpos p) = NilEmpty.string_of_uint (Pos.to_uint p).
Proof.
  unfold FormatInt. cbn. unfold NilZero.string_of_uint.
  pose proof (pos_to_uint_nonnil p). by destruct (Pos.to_uint p).
Qed.

Lemma FormatInt_neg p : FormatInt (Zneg p) = String "-" (NilEmpty.string_of_uint (Pos.to_uint p)).
Proof.
  unfold FormatInt. cbn. unfold NilZero.string_of_uint.
  pose proof (pos_to_uint_nonnil p). by destruct (Pos.to_uint p).
Qed.

(** Decimal text round trip: what [FormatInt] prints, [ParseInt] reads back. *)
Lemma ParseInt_FormatInt z : in_int64 z -> ParseInt (FormatInt z) = Ok z.
Proof.
  intros Hz. destruct z as [|p|p]; [done| |].
  - rewrite FormatInt_nonneg.
    destruct (string_of_uint_head (Pos.to_uint p) (pos_to_uint_nonnil p)) as (c & s & E & N1 & N2).
    unfold ParseInt. rewrite E.
    rewrite (proj2 (Ascii.eqb_neq c "-") N1), (proj2 (Ascii.eqb_neq c "+") N2), <- E.
    rewrite parse_digits_string_of_uint by apply pos_to_uint_nonnil.
    change (N.of_uint (Pos.to_uint p)) with (Pos.of_uint (Pos.to_uint p)).
    rewrite DecimalPos.Unsigned.of_to. cbn.
    unfold_ints. destruct (Z.ltb_spec (Zpos p) (2 ^ 63)); [done|lia].
  - rewrite FormatInt_neg. unfold ParseInt. cbn [Ascii.eqb Bool.eqb].
    rewrite parse_digits_string_of_uint by apply pos_to_uint_nonnil.
    change (N.of_uint (Pos.to_uint p)) with (Pos.of_uint (Pos.to_uint p)).
    rewrite DecimalPos.Unsigned.of_to.
    change (Ascii.eqb "-" "-") with true. cbn.
    unfold_ints. destruct (Z.leb_spec (Zpos p) (2 ^ 63)); [done|lia].
Qed.

Lemma FormatInt_inj i j : in_int64 i -> in_int64 j -> FormatInt i = FormatInt j -> i = j.
Proof. intros I J E. pose proof (ParseInt_FormatInt i I) as Pi. rewrite E, (ParseInt_FormatInt j J) in Pi. by injection Pi. Qed.

#[export] Hint Resolve wrap64_range wrapu64_range : qnc.
#[export] Hint Rewrite wrap64_idem wrap64_add_l wrap64_add_r wrap64_sub_l
  wrapu64_add_l wrapu64_add_r : gowrap.

(** Reinterpreting an unsigned 64-bit value as a signed one wraps. *)
Lemma sign_extend_64 x : 0 <= x < 2 ^ 64 -> sign_extend 64 x = wrap64 x.
Proof.
  intros R. unfold sign_extend, wrap64. change (64 - 1) with 63.
  destruct (Z.ltb_spec x (2 ^ 63)) as [L|L].
  - rewrite Z.mod_small; lia.
  - rewrite <- (Z.mod_add _ (-1)), Z.mod_small by lia. lia.
Qed.
