(* ===== verification/GoStr.v ===== *)
(** * Go strings

    A Go string is a byte string, a Stdlib [string]; [len] counts bytes.  This
    file models the functions of package [strings] the source uses, by
    structural recursion, and proves the laws the components rely on. *)
From S2P Require Import Prelude GoInt.
From Stdlib Require Import Ascii.
From Stdlib.Strings Require Import Byte.

(** The double-quote character, for messages that contain one. *)
Definition dq : string := String (ascii_of_nat 34) EmptyString.
(** The null terminator the parser appends to table and column names. *)
Definition nul : string := String (ascii_of_nat 0) EmptyString.

Definition len (s : string) : Z := Z.of_nat (String.length s).

(** [strings.HasPrefix], [strings.HasSuffix], [strings.Contains]. *)
Definition HasPrefix (s pre : string) : bool := String.prefix pre s.

Fixpoint HasSuffix (s suf : string) : bool :=
  String.eqb s suf || match s with EmptyString => false | String _ s' => HasSuffix s' suf end.

Fixpoint Contains (s sub : string) : bool :=
  String.prefix sub s || match s with EmptyString => false | String _ s' => Contains s' sub end.

(** [strings.TrimSuffix]: remove the suffix once, when present. *)
Fixpoint trim_suffix_go (s suf : string) : string :=
  if String.eqb s suf then EmptyString
  else match s with EmptyString => EmptyString | String c s' => String c (trim_suffix_go s' suf) end.
Definition TrimSuffix (s suf : string) : string :=
  if HasSuffix s suf then trim_suffix_go s suf else s.

(** [strings.Split] with a non-empty separator: [skip] counts the separator's
    remaining bytes, [cur] is the part being read. *)
Fixpoint split_go (sep : string) (skip : nat) (cur s : string) : list string :=
  match s with
  | EmptyString => [cur]
  | String c s' =>
      match skip with
      | S k => split_go sep k cur s'
      | O => if String.prefix sep s
             then cur :: split_go sep (String.length sep - 1) EmptyString s'
             else split_go sep 0 (cur +:+ String c EmptyString) s'
      end
  end.
Definition Split (s sep : string) : list string := split_go sep 0 EmptyString s.

(** [strings.Join]. *)
Fixpoint Join (parts : list string) (sep : string) : string :=
  match parts with
  | [] => EmptyString
  | [p] => p
  | p :: ps => p +:+ sep +:+ Join ps sep
  end.

(** The Go slice expression [s[lo:hi]]; Go panics unless
    [0 <= lo <= hi <= len(s)], which the callers' guards establish. *)
Definition slice_string (s : string) (lo hi : Z) : string :=
  String.substring (Z.to_nat lo) (Z.to_nat (hi - lo)) s.

(** Byte at an index, [s[i]]. *)
Definition byte_at (s : string) (i : Z) : option ascii := String.get (Z.to_nat i) s.

Fixpoint rev_string (acc s : string) : string :=
  match s with EmptyString => acc | String c s' => rev_string (String c acc) s' end.

Fixpoint in_cutset (c : ascii) (cutset : string) : bool :=
  match cutset with
  | EmptyString => false
  | String d rest => Ascii.eqb c d || in_cutset c rest
  end.

Fixpoint TrimLeft (s cutset : string) : string :=
  match s with
  | EmptyString => EmptyString
  | String c s' => if in_cutset c cutset then TrimLeft s' cutset else s
  end.

(** [strings.Trim] for an ASCII cutset (byte-wise in Go as well). *)
Definition trim_ascii (s cutset : string) : string :=
  rev_string EmptyString (TrimLeft (rev_string EmptyString (TrimLeft s cutset)) cutset).

Fixpoint is_ascii (s : string) : bool :=
  match s with
  | EmptyString => true
  | String c s' => (nat_of_ascii c <? 128)%nat && is_ascii s'
  end.

(** [[]byte(s)] and [string(b)]. *)
Definition bytes_of_string (s : string) : list byte := String.list_byte_of_string s.
Definition string_of_bytes (b : list byte) : string := String.string_of_list_byte b.

(** [encoding/hex]. *)
Definition hex_digit (n : N) : ascii :=
  ascii_of_N (if N.ltb n 10 then 48 + n else 87 + n)%N.
Fixpoint EncodeToString (b : list byte) : string :=
  match b with
  | [] => EmptyString
  | x :: xs =>
      String (hex_digit (Byte.to_N x / 16)) (String (hex_digit (Byte.to_N x mod 16)) (EncodeToString xs))
  end.

(** Byte-wise lexicographic order, Go's [<] on strings. *)
Definition string_le (a b : string) : Prop := String.leb a b = true.
#[export] Instance string_le_dec a b : Decision (string_le a b).
Proof. unfold string_le. apply _. Defined.

(** ** Laws *)

#[local] Arguments String.append !_ _ / : simpl nomatch.

Lemma app_string_assoc (a b c : string) : (a +:+ b) +:+ c = a +:+ (b +:+ c).
Proof. induction a; cbn; congruence. Qed.

Lemma app_string_nil_r (a : string) : a +:+ EmptyString = a.
Proof. induction a; cbn; congruence. Qed.

Lemma length_app_string (a b : string) :
  String.length (a +:+ b) = (String.length a + String.length b)%nat.
Proof. induction a; cbn; [done|]. congruence. Qed.

Lemma HasSuffix_spec s suf : HasSuffix s suf = true <-> exists p, s = p +:+ suf.
Proof.
  induction s as [|c s IH]; cbn [HasSuffix].
  - rewrite orb_false_r, String.eqb_eq. split.
    + intros <-. by exists EmptyString.
    + intros ([|? ?] & E); [done|discriminate].
  - rewrite orb_true_iff, IH, String.eqb_eq. split.
    + intros [<-|(p & ->)]; [by exists EmptyString|by exists (String c p)].
    + intros ([|d p] & E); cbn in E; [auto|]. injection E as -> ->. eauto.
Qed.

Lemma app_string_same_length (p s : string) : s = p +:+ s -> p = EmptyString.
Proof.
  intros E. assert (String.length s = String.length (p +:+ s)) by congruence.
  rewrite length_app_string in H. destruct p; [done|cbn in H; lia].
Qed.

Lemma trim_suffix_go_app p suf : trim_suffix_go (p +:+ suf) suf = p.
Proof.
  induction p as [|c p IH].
  - change (EmptyString +:+ suf) with suf.
    destruct suf; unfold trim_suffix_go; fold trim_suffix_go; by rewrite String.eqb_refl.
  - change (String c p +:+ suf) with (String c (p +:+ suf)). cbn [trim_suffix_go].
    destruct (String.eqb_spec (String c (p +:+ suf)) suf) as [E|_].
    + exfalso. symmetry in E. apply (app_string_same_length (String c p)) in E. discriminate.
    + by rewrite IH.
Qed.

Lemma HasSuffix_app p suf : HasSuffix (p +:+ suf) suf = true.
Proof. apply HasSuffix_spec. eauto. Qed.

Lemma TrimSuffix_app p suf : TrimSuffix (p +:+ suf) suf = p.
Proof. unfold TrimSuffix. rewrite HasSuffix_app. apply trim_suffix_go_app. Qed.

Lemma TrimSuffix_none s suf : HasSuffix s suf = false -> TrimSuffix s suf = s.
Proof. unfold TrimSuffix. by intros ->. Qed.

(** A name either carries the suffix, or re-appending it is the identity on
    the trimmed name: trimming and re-appending is idempotent. *)
Lemma TrimSuffix_app_inv s suf : HasSuffix s suf = true -> TrimSuffix s suf +:+ suf = s.
Proof. rewrite HasSuffix_spec. intros (p & ->). by rewrite TrimSuffix_app. Qed.

Lemma prefix_spec p s : String.prefix p s = true <-> exists t, s = p +:+ t.
Proof.
  revert s. induction p as [|c p IH]; intros s; cbn.
  - split; [eauto|]. intros (t & ->). by destruct t.
  - destruct s as [|d s]; cbn.
    + split; [done|]. intros (t & E). discriminate.
    + destruct (ascii_dec c d) as [->|N].
      * rewrite IH. split; intros (t & E); exists t; cbn; congruence.
      * split; [done|]. intros (t & E). cbn in E. congruence.
Qed.

Lemma split_go_nonempty sep skip cur s : split_go sep skip cur s <> [].
Proof.
  revert skip cur. induction s as [|c s IH]; intros skip cur; cbn; [done|].
  destruct skip; [|apply IH]. case_match; [done|apply IH].
Qed.

Lemma Split_nonempty s sep : Split s sep <> [].
Proof. apply split_go_nonempty. Qed.

Lemma Join_cons p ps sep : ps <> [] -> Join (p :: ps) sep = p +:+ sep +:+ Join ps sep.
Proof. by destruct ps. Qed.

Lemma split_go_skip sep u cur s :
  split_go sep (String.length u) cur (u +:+ s) = split_go sep 0 cur s.
Proof. induction u; cbn; [|done]. by destruct s. Qed.

(** Splitting loses nothing: joining the parts with the separator gives the
    string back. *)
Lemma Join_split_go sep cur s :
  sep <> EmptyString ->
  Join (split_go sep 0 cur s) sep = cur +:+ s.
Proof.
  intros Hsep. remember (String.length s) as n eqn:Hn.
  revert cur s Hn. induction n as [n IH] using lt_wf_ind. intros cur s ->.
  destruct s as [|c s]; cbn [split_go]; [by rewrite app_string_nil_r|].
  destruct (String.prefix sep (String c s)) eqn:Hp.
  - apply prefix_spec in Hp as (t & E).
    destruct sep as [|d sep']; [done|]. cbn in E. injection E as -> ->.
    rewrite Join_cons by apply split_go_nonempty.
    cbn [String.length]. rewrite Nat.sub_succ, Nat.sub_0_r, split_go_skip.
    rewrite (IH (String.length t)); [done| |done].
    cbn. rewrite length_app_string. lia.
  - rewrite (IH (String.length s)); [|cbn; lia|done].
    rewrite app_string_assoc. done.
Qed.

Lemma Join_Split s sep : sep <> EmptyString -> Join (Split s sep) sep = s.
Proof. apply Join_split_go. Qed.

Lemma bytes_of_string_of_bytes b : bytes_of_string (string_of_bytes b) = b.
Proof. apply String.list_byte_of_string_of_list_byte. Qed.

Lemma string_of_bytes_of_string s : string_of_bytes (bytes_of_string s) = s.
Proof. apply String.string_of_list_byte_of_string. Qed.

Lemma length_EncodeToString b :
  String.length (EncodeToString b) = (2 * length b)%nat.
Proof. induction b; cbn; [done|]. rewrite IHb. lia. Qed.

Lemma slice_string_prefix a b : slice_string (a +:+ b) 0 (len a) = a.
Proof.
  unfold slice_string, len. rewrite Z.sub_0_r, Nat2Z.id. change (Z.to_nat 0) with 0%nat.
  induction a as [|c a IH]; cbn; [by destruct b|]. by rewrite IH.
Qed.

Lemma len_app a b : len (a +:+ b) = len a + len b.
Proof. unfold len. rewrite length_app_string. lia. Qed.

Lemma len_nonneg a : 0 <= len a.
Proof. unfold len. lia. Qed.

Lemma length_substring n m s :
  (n + m <= String.length s)%nat -> String.length (String.substring n m s) = m.
Proof.
  revert n m. induction s as [|c s IH]; intros [|n] [|m] H; cbn in *; try lia.
  - f_equal. apply (IH 0%nat m). lia.
  - rewrite IH; lia.
  - apply IH. lia.
Qed.

(** The length of an in-range slice. *)
Lemma len_slice s lo hi : 0 <= lo <= hi -> hi <= len s -> len (slice_string s lo hi) = hi - lo.
Proof. unfold len, slice_string. intros. rewrite length_substring; lia. Qed.

(** [Contains] is the existence of an occurrence. *)
Lemma Contains_spec s sub : Contains s sub = true <-> exists a b, s = a +:+ (sub +:+ b).
Proof.
  induction s as [|c s IH]; cbn [Contains].
  - rewrite orb_false_r, prefix_spec. split.
    + intros [t E]. exists EmptyString, t. exact E.
    + intros (a & b & E). destruct a; [|done]. exists b. exact E.
  - rewrite orb_true_iff, prefix_spec, IH. split.
    + intros [[t E]|(a & b & E)]; [exists EmptyString, t|exists (String c a), b; cbn; by f_equal].
      exact E.
    + intros ([|x a] & b & E); [left; exists b; exact E|]. right. injection E as -> E. eauto.
Qed.

Lemma app_string_inj_len (a b c d : string) :
  String.length a = String.length c -> a +:+ b = c +:+ d -> a = c /\ b = d.
Proof.
  revert c. induction a as [|x a IH]; intros [|y c] L E; cbn in *; try done.
  injection E as -> E. destruct (IH c) as [-> ->]; [lia|done|done].
Qed.

Lemma split_go_free sep skip cur s :
  sep <> EmptyString ->
  match skip with
  | O => forall a b, a +:+ (sep +:+ b) = cur +:+ s -> (String.length cur <= String.length a)%nat
  | S _ => cur = EmptyString
  end ->
  Forall (fun p => Contains p sep = false) (split_go sep skip cur s).
Proof.
  intros Hs. revert skip cur. induction s as [|c s IH]; intros skip cur I; cbn [split_go].
  - constructor; [|done]. destruct skip as [|k]; [|subst; by destruct sep].
    apply not_true_iff_false. rewrite Contains_spec. intros (a & b & E).
    specialize (I a b). rewrite app_string_nil_r in I. specialize (I (eq_sym E)).
    rewrite E, !length_app_string in I. destruct sep; cbn in I; [done|lia].
  - destruct skip as [|k].
    + destruct (String.prefix sep (String c s)) eqn:P.
      * constructor.
        -- apply not_true_iff_false. rewrite Contains_spec. intros (a & b & E).
           specialize (I a (b +:+ String c s)). rewrite E, !app_string_assoc in I. specialize (I eq_refl).
           rewrite !length_app_string in I. destruct sep; cbn in I; [done|lia].
        -- apply IH. destruct (String.length sep - 1)%nat; [|done]. cbn. lia.
      * apply IH. intros a b E. rewrite app_string_assoc in E. cbn in E.
        pose proof (I a b E) as L. rewrite length_app_string. cbn.
        destruct (decide (String.length a = String.length cur)) as [Q|Q]; [|lia].
        destruct (app_string_inj_len _ _ _ _ Q E) as [_ E2].
        assert (String.prefix sep (String c s) = true) by (apply prefix_spec; eauto). congruence.
    + apply IH. destruct k; [|done]. subst. cbn. lia.
Qed.

(** No part of a split contains the separator. *)
Lemma Split_free s sep :
  sep <> EmptyString -> Forall (fun p => Contains p sep = false) (Split s sep).
Proof. intros H. apply split_go_free; [done|]. cbn. lia. Qed.

Lemma length_split_go sep skip cur s :
  (length (split_go sep skip cur s) <= S (String.length s))%nat.
Proof.
  revert skip cur. induction s as [|c s IH]; intros [|k] cur; cbn [split_go]; cbn; try lia.
  - case_match; cbn.
    + specialize (IH (String.length sep - 1)%nat EmptyString). lia.
    + specialize (IH 0%nat (cur +:+ String c EmptyString)). lia.
  - specialize (IH k cur). lia.
Qed.

Lemma length_Split s sep : Z.of_nat (length (Split s sep)) <= len s + 1.
Proof. unfold Split, len. pose proof (length_split_go sep 0 EmptyString s). lia. Qed.

(** A slice is a sublist of the bytes. *)
Lemma list_ascii_substring n m s :
  String.list_ascii_of_string (String.substring n m s) =
    take m (drop n (String.list_ascii_of_string s)).
Proof.
  revert n m. induction s as [|c s IH]; intros [|n] [|m]; cbn; try done; by rewrite IH.
Qed.

Lemma length_list_ascii s : length (String.list_ascii_of_string s) = String.length s.
Proof. induction s; cbn; [done|]. by f_equal. Qed.

#[export] Instance string_le_total : Total string_le.
Proof.
  intros a b. unfold string_le. destruct (String.leb_total a b); auto.
Qed.

#[export] Instance string_le_trans : Transitive string_le.
Proof.
  intros a b c. unfold string_le, String.leb.
  revert b c. induction a as [|x a IH]; intros [|y b] [|z c]; cbn; try done.
  specialize (IH b c).
  unfold Ascii.compare.
  destruct (N.compare_spec (N_of_ascii x) (N_of_ascii y)),
    (N.compare_spec (N_of_ascii y) (N_of_ascii z)),
    (N.compare_spec (N_of_ascii x) (N_of_ascii z)); try done; try lia; auto.
Qed.

#[export] Instance string_le_antisymm : AntiSymm (=) string_le.
Proof.
  intros a b. unfold string_le. apply String.leb_antisym.
Qed.

#[export] Hint Resolve Split_nonempty HasSuffix_app : qnc.
#[export] Hint Rewrite app_string_assoc app_string_nil_r TrimSuffix_app : gostr.
