(* ===== verification/GoUtf8.v ===== *)
(** * GoUtf8: UTF-8 (unicode/utf8) and base64 (encoding/base64)

    A byte string as the sequence of what a range over it yields: an ASCII
    byte, a longer rune, or a byte that starts no rune.  The texts of JSON and
    of the tools are read through it. *)
From S2P Require Import Prelude GoStr.
From Stdlib.Strings Require Import Byte.

#[export] Instance byte_eq_dec : EqDecision byte := Byte.byte_eq_dec.

(** ** Runes *)

Module Utf8.

Inductive rune : Type :=
  | Ascii (b : byte)
  | Multi (bs : list byte)        (* the two to four bytes of a rune *)
  | Bad.                          (* RuneError, one byte wide *)

Definition within (lo hi : N) (b : byte) : bool := ((lo <=? to_N b) && (to_N b <=? hi))%N.
Definition is_self (b : byte) : bool := (to_N b <? 128)%N.
Definition continues : byte -> bool := within 128 191.

(** What a lead byte announces: how many bytes follow, and the range of the
    first of them. *)
Definition lead (b : byte) : option (nat * (N * N)) :=
  let n := to_N b in
  (if n <? 194 then None
   else if n <=? 223 then Some (1%nat, (128, 191))
   else if n =? 224 then Some (2%nat, (160, 191))
   else if n =? 237 then Some (2%nat, (128, 159))
   else if n <=? 239 then Some (2%nat, (128, 191))
   else if n =? 240 then Some (3%nat, (144, 191))
   else if n <=? 243 then Some (3%nat, (128, 191))
   else if n =? 244 then Some (3%nat, (128, 143))
   else None)%N.

Fixpoint runes (s : list byte) : list rune :=
  match s with
  | [] => []
  | b :: s1 =>
      if is_self b then Ascii b :: runes s1
      else
        match lead b, s1 with
        | Some (n, (lo, hi)), c :: s2 =>
            if within lo hi c then
              match n, s2 with
              | 1%nat, _ => Multi [b; c] :: runes s2
              | 2%nat, d :: s3 => if continues d then Multi [b; c; d] :: runes s3 else Bad :: runes s1
              | 3%nat, d :: e :: s4 =>
                  if continues d && continues e then Multi [b; c; d; e] :: runes s4 else Bad :: runes s1
              | _, _ => Bad :: runes s1
              end
            else Bad :: runes s1
        | _, _ => Bad :: runes s1
        end
  end.

(** U+FFFD. *)
Definition RuneError_bytes : list byte := [xef; xbf; xbd].

(** Appending a rune that was read: AppendRune. *)
Definition rune_bytes (r : rune) : list byte :=
  match r with Ascii b => [b] | Multi bs => bs | Bad => RuneError_bytes end.

(** Each byte that starts no rune as U+FFFD, and the strings without one. *)
Definition ToValidUTF8 (s : list byte) : list byte := concat (rune_bytes <$> runes s).
Definition is_bad (r : rune) : bool := match r with Bad => true | _ => false end.
Definition ValidUTF8 (s : list byte) : bool := forallb (fun r => negb (is_bad r)) (runes s).

(** A code point in UTF-8; a surrogate or a number out of range is U+FFFD. *)
Definition byte_of (n : N) : byte := default x00 (of_N n).
Definition AppendRune (r : N) : list byte :=
  (if r <? 128 then [byte_of r]
   else if r <? 2048 then [byte_of (192 + r / 64); byte_of (128 + r mod 64)]
   else if (55296 <=? r) && (r <? 57344) then RuneError_bytes
   else if r <? 65536 then [byte_of (224 + r / 4096); byte_of (128 + r / 64 mod 64); byte_of (128 + r mod 64)]
   else if r <? 1114112 then
     [byte_of (240 + r / 262144); byte_of (128 + r / 4096 mod 64); byte_of (128 + r / 64 mod 64); byte_of (128 + r mod 64)]
   else RuneError_bytes)%N.

(** *** Laws *)

(** A rune stands for itself, whatever follows. *)
Definition rune_ok (r : rune) : Prop :=
  match r with
  | Ascii b => is_self b = true
  | Multi bs => (forall s, runes (bs ++ s) = Multi bs :: runes s) /\ (1 < length bs)%nat /\ Forall (fun b => is_self b = false) bs
  | Bad => True
  end.

Lemma within_high lo hi b : (128 <= lo)%N -> within lo hi b = true -> is_self b = false.
Proof. unfold within, is_self. rewrite andb_true_iff, !N.leb_le, N.ltb_ge. lia. Qed.

Lemma lead_low b n lo hi : lead b = Some (n, (lo, hi)) -> (128 <= lo)%N.
Proof. unfold lead. repeat case_match; intros; simplify_eq; lia. Qed.

(** What the head of a string reads as. *)
Lemma runes_cons b s :
  exists r rest, runes (b :: s) = r :: runes rest /\ rune_ok r /\ (length rest <= length s)%nat /\
    (r <> Bad -> b :: s = rune_bytes r ++ rest).
Proof.
  cbn [runes]. destruct (is_self b) eqn:Sb; [by exists (Ascii b), s|].
  assert (exists r rest, Bad :: runes s = r :: runes rest /\ rune_ok r /\ (length rest <= length s)%nat /\
    (r <> Bad -> b :: s = rune_bytes r ++ rest)) as No by by exists Bad, s.
  destruct (lead b) as [[n [lo hi]]|] eqn:L; [|done]. destruct s as [|c s2]; [done|].
  destruct (within lo hi c) eqn:W; [|done]. pose proof (within_high _ _ _ (lead_low _ _ _ _ L) W) as Hc.
  assert (forall d, continues d = true -> is_self d = false) as Hd by (intros d; by apply within_high).
  destruct n as [|[|[|[|n]]]]; [done| | | |by destruct s2 as [|? [|]]].
  - exists (Multi [b; c]), s2. split_and!; [done| |cbn; lia|done].
    split_and!; [intros s; cbn [app runes]; by rewrite Sb, L, W|cbn; lia|by repeat constructor].
  - destruct s2 as [|d s3]; [done|]. destruct (continues d) eqn:Cd; [|done].
    exists (Multi [b; c; d]), s3. split_and!; [done| |cbn; lia|done].
    split_and!; [intros s; cbn [app runes]; by rewrite Sb, L, W, Cd|cbn; lia|repeat constructor; auto].
  - destruct s2 as [|d [|e s4]]; [done..|]. destruct (continues d) eqn:Cd; [|done]. destruct (continues e) eqn:Ce; [|done].
    exists (Multi [b; c; d; e]), s4. split_and!; [done| |cbn; lia|done].
    split_and!; [intros s; cbn [app runes]; by rewrite Sb, L, W, Cd, Ce|cbn; lia|repeat constructor; auto].
Qed.

(** Induction along the runes of a string. *)
Lemma runes_ind (P : list byte -> list rune -> Prop) :
  P [] [] ->
  (forall b s r rest, runes (b :: s) = r :: runes rest -> rune_ok r -> (r <> Bad -> b :: s = rune_bytes r ++ rest) ->
     P rest (runes rest) -> P (b :: s) (r :: runes rest)) ->
  forall s, P s (runes s).
Proof.
  intros Z St s. induction s as [s IH] using (induction_ltof1 _ (@length byte)); unfold ltof in IH.
  destruct s as [|b s]; [done|]. destruct (runes_cons b s) as (r & rest & E & O & L & Bs). rewrite E.
  apply St; try done. apply IH. cbn. lia.
Qed.

Lemma runes_ok s : Forall rune_ok (runes s).
Proof. apply (runes_ind (fun _ rs => Forall rune_ok rs)); [done|]. intros. by constructor. Qed.

Lemma ToValidUTF8_id s : ValidUTF8 s = true -> ToValidUTF8 s = s.
Proof.
  unfold ValidUTF8, ToValidUTF8. pattern s, (runes s). apply runes_ind; [done|]. clear s.
  intros b s r rest _ _ Bs IH. cbn [forallb fmap list_fmap concat]. rewrite andb_true_iff. intros [N V]. rewrite IH by done.
  symmetry. apply Bs. by destruct r.
Qed.

(** Ascii bytes read as themselves. *)
Lemma runes_ascii l s : Forall (fun b => is_self b = true) l -> runes (l ++ s) = (Ascii <$> l) ++ runes s.
Proof. induction 1 as [|b l B _ IH]; [done|]. cbn. by rewrite B, IH. Qed.

Lemma ToValidUTF8_ascii l : Forall (fun b => is_self b = true) l -> ToValidUTF8 l = l.
Proof.
  intros F. unfold ToValidUTF8. rewrite <- (app_nil_r l) at 1. rewrite runes_ascii, app_nil_r by done. clear F.
  induction l as [|b l IH]; [done|]. cbn. by rewrite IH.
Qed.

Lemma ValidUTF8_ascii l : Forall (fun b => is_self b = true) l -> ValidUTF8 l = true.
Proof.
  intros F. unfold ValidUTF8. rewrite <- (app_nil_r l), runes_ascii, app_nil_r by done. clear F. by induction l.
Qed.

Lemma runes_app_rune r s : rune_ok r -> runes (rune_bytes r ++ s) = (match r with Bad => Multi RuneError_bytes | _ => r end) :: runes s.
Proof. destruct r as [b|bs|]; cbn [rune_ok rune_bytes]; [|by intros [M _]|done]. intros B. cbn. by rewrite B. Qed.

End Utf8.

(** ** Base64, the standard encoding with padding *)

Module Base64.
Import Utf8.

Definition digit (n : N) : byte :=
  byte_of (if n <? 26 then 65 + n else if n <? 52 then 71 + n else if n <? 62 then n - 4 else if n =? 62 then 43 else 47)%N.

Definition value_of (b : byte) : option N :=
  let n := to_N b in
  (if within 65 90 b then Some (n - 65)
   else if within 97 122 b then Some (n - 71)
   else if within 48 57 b then Some (n + 4)
   else if n =? 43 then Some 62
   else if n =? 47 then Some 63
   else None)%N.

Definition pad : byte := x3d.

(** EncodeToString. *)
Fixpoint EncodeToString (s : list byte) : list byte :=
  match s with
  | [] => []
  | [a] => let a := to_N a in [digit (a / 4); digit (a mod 4 * 16); pad; pad]
  | [a; b] =>
      let a := to_N a in let b := to_N b in
      [digit (a / 4); digit (a mod 4 * 16 + b / 16); digit (b mod 16 * 4); pad]
  | a :: b :: c :: s =>
      let a := to_N a in let b := to_N b in let c := to_N c in
      digit (a / 4) :: digit (a mod 4 * 16 + b / 16) :: digit (b mod 16 * 4 + c / 64) ::
      digit (c mod 64) :: EncodeToString s
  end%N.

(** decodeQuantum, quantum by quantum: padding ends the text, and the bits that
    do not fill a byte are dropped. *)
Fixpoint quanta (s : list byte) : option (list byte) :=
  match s with
  | [] => Some []
  | a :: b :: c :: d :: s =>
      match value_of a, value_of b, value_of c, value_of d with
      | Some a, Some b, Some c, Some d =>
          rest ← quanta s;
          Some (byte_of (a * 4 + b / 16) :: byte_of (b mod 16 * 16 + c / 4) :: byte_of (c mod 4 * 64 + d) :: rest)
      | Some a, Some b, Some c, None =>
          if Byte.eqb d pad && bool_decide (s = []) then Some [byte_of (a * 4 + b / 16); byte_of (b mod 16 * 16 + c / 4)] else None
      | Some a, Some b, None, None =>
          if Byte.eqb c pad && Byte.eqb d pad && bool_decide (s = []) then Some [byte_of (a * 4 + b / 16)] else None
      | _, _, _, _ => None
      end
  | _ => None
  end%N.

(** DecodeString skips line breaks wherever they are. *)
Definition is_break (b : byte) : bool := Byte.eqb b x0a || Byte.eqb b x0d.
Definition DecodeString (s : list byte) : option (list byte) := quanta (List.filter (fun b => negb (is_break b)) s).

(** *** Laws *)

Lemma to_N_byte_of n : (n < 256)%N -> to_N (byte_of n) = n.
Proof.
  intros L. unfold byte_of. destruct (of_N n) as [b|] eqn:E; [by apply to_of_N|]. apply of_N_None_iff in E. lia.
Qed.

Lemma byte_of_to_N b : byte_of (to_N b) = b.
Proof. unfold byte_of. by rewrite of_to_N. Qed.

(** The sixty-four digits. *)
Definition digit_ok (n : N) : bool :=
  bool_decide (value_of (digit n) = Some n) && negb (is_break (digit n)) && is_self (digit n)
  && (32 <=? to_N (digit n))%N.

Lemma digits_good n : (n < 64)%N -> digit_ok n = true.
Proof.
  intros L. assert (forallb (fun k => digit_ok (N.of_nat k)) (seq 0 64) = true) as A by by vm_compute.
  rewrite forallb_forall in A. specialize (A (N.to_nat n)). rewrite N2Nat.id in A. apply A, in_seq. lia.
Qed.

Lemma value_of_digit n : (n < 64)%N -> value_of (digit n) = Some n.
Proof. intros L%digits_good. unfold digit_ok in L. rewrite !andb_true_iff in L. destruct L as [[[L _] _] _]. by apply bool_decide_eq_true in L. Qed.

(** Induction three bytes at a time. *)
Lemma triples_ind (P : list byte -> Prop) :
  P [] -> (forall a, P [a]) -> (forall a b, P [a; b]) -> (forall a b c s, P s -> P (a :: b :: c :: s)) -> forall s, P s.
Proof.
  intros P0 P1 P2 P3. refine (fix go s := match s with [] => P0 | [a] => P1 a | [a; b] => P2 a b | a :: b :: c :: s => P3 a b c s (go s) end).
Qed.

(** The arithmetic of a quantum. *)
Lemma quantum_low a b n : (b < n)%N -> ((a * n + b) mod n)%N = b.
Proof. intros L. rewrite N.add_comm, N.Div0.mod_add. by apply N.mod_small. Qed.
Lemma quantum_high a b n : (b < n)%N -> ((a * n + b) / n)%N = a.
Proof. intros L. rewrite N.div_add_l, N.div_small by lia. lia. Qed.
Lemma quantum_whole b n : (0 < n)%N -> byte_of (to_N b / n * n + to_N b mod n) = b.
Proof. intros L. rewrite <- (byte_of_to_N b) at 3. f_equal. pose proof (N.div_mod (to_N b) n). lia. Qed.

Ltac sextets a b c :=
  pose proof (to_N_bounded a); pose proof (to_N_bounded b); pose proof (to_N_bounded c);
  assert (to_N a / 4 < 64)%N by (apply N.Div0.div_lt_upper_bound; lia);
  pose proof (N.mod_lt (to_N a) 4 ltac:(done)); pose proof (N.mod_lt (to_N b) 16 ltac:(done)); pose proof (N.mod_lt (to_N c) 64 ltac:(done));
  assert (to_N b / 16 < 16)%N by (apply N.Div0.div_lt_upper_bound; lia);
  assert (to_N c / 64 < 4)%N by (apply N.Div0.div_lt_upper_bound; lia).

Lemma EncodeToString_chars s : Forall (fun b => is_break b = false /\ is_self b = true /\ (32 <= to_N b)%N) (EncodeToString s).
Proof.
  assert (forall n, (n < 64)%N -> is_break (digit n) = false /\ is_self (digit n) = true /\ (32 <= to_N (digit n))%N) as G.
  { intros n L%digits_good. unfold digit_ok in L. rewrite !andb_true_iff, negb_true_iff, N.leb_le in L. by destruct L as [[[_ ?] ?] ?]. }
  induction s as [|a|a b|a b c s IH] using triples_ind; cbn [EncodeToString]; [constructor|sextets a a a|sextets a b b|sextets a b c].
  all: repeat (apply Forall_cons_2; [first [done|apply G; lia]|]); done.
Qed.

Lemma quanta_Encode s : quanta (EncodeToString s) = Some s.
Proof.
  induction s as [|a|a b|a b c s IH] using triples_ind; cbn [EncodeToString quanta].
  - done.
  - sextets a a a. rewrite !value_of_digit by lia. cbn. by rewrite N.div_mul, quantum_whole.
  - sextets a b b. rewrite !value_of_digit by lia. cbn. rewrite quantum_high, quantum_low, N.div_mul, !quantum_whole; done || lia.
  - sextets a b c. rewrite !value_of_digit, IH by lia. cbn [mbind option_bind].
    by rewrite !quantum_high, !quantum_low, !quantum_whole by lia.
Qed.

(** What is encoded decodes to itself. *)
Lemma DecodeString_EncodeToString s : DecodeString (EncodeToString s) = Some s.
Proof.
  unfold DecodeString. rewrite <- quanta_Encode. f_equal. apply forallb_filter_id, forallb_forall. intros b B.
  pose proof (EncodeToString_chars s) as F. rewrite Forall_forall in F. destruct (F b) as [-> _]; [by apply list_elem_of_In|done].
Qed.

Lemma EncodeToString_nonempty s : s <> [] -> EncodeToString s <> [].
Proof. by destruct s as [|? [|? [|? ?]]]. Qed.

End Base64.
