(* ===== verification/GoParse.v ===== *)
(** * GoParse: base-0 integers and letter case
    (strconv.ParseInt, strconv.ParseUint, strings.ToUpper, strings.ToLower)

    With base 0 the prefix of a number chooses its base and underscores may
    separate digits.  The case functions are those of ASCII strings; no letter
    outside ASCII maps into the words the program compares them with. *)
From S2P Require Import Prelude GoInt GoStr.
From Stdlib Require Import Ascii DecimalString DecimalPos.

(** ** Letter case *)

Definition lower_ascii (c : ascii) : ascii :=
  let n := N_of_ascii c in if ((65 <=? n) && (n <=? 90))%N then ascii_of_N (n + 32) else c.

Definition upper_ascii (c : ascii) : ascii :=
  let n := N_of_ascii c in if ((97 <=? n) && (n <=? 122))%N then ascii_of_N (n - 32) else c.

Fixpoint map_string (f : ascii -> ascii) (s : string) : string :=
  match s with EmptyString => EmptyString | String c s => String (f c) (map_string f s) end.

Definition ToLower : string -> string := map_string lower_ascii.
Definition ToUpper : string -> string := map_string upper_ascii.

(** ** Base 0 *)

Inductive base0 : Type := Base (base : Z) (digits : string).

(** The base a prefix chooses, and the text after the prefix. *)
Definition detect_base (s : string) : base0 :=
  match s with
  | String "0" s1 =>
      match s1 with
      | String c (String _ _ as s2) =>
          let c := lower_ascii c in
          if Ascii.eqb c "b" then Base 2 s2
          else if Ascii.eqb c "o" then Base 8 s2
          else if Ascii.eqb c "x" then Base 16 s2
          else Base 8 s1
      | _ => Base 8 s1
      end
  | _ => Base 10 s
  end.

(** The value of a digit: 0 to 9, then the letters. *)
Definition digit (c : ascii) : option Z :=
  let n := Z.of_N (N_of_ascii c) in
  let l := Z.of_N (N_of_ascii (lower_ascii c)) in
  if (48 <=? n) && (n <=? 57) then Some (n - 48)
  else if (97 <=? l) && (l <=? 122) then Some (l - 97 + 10)
  else None.

Definition max_uint64 : Z := 2 ^ 64 - 1.

(** The digit loop: the number, and whether there were underscores. *)
Fixpoint digits_from (base : Z) (s : string) (n : Z) (underscores : bool) : res num_error (Z * bool) :=
  match s with
  | EmptyString => Ok (n, underscores)
  | String c s =>
      if Ascii.eqb c "_" then digits_from base s n true
      else match digit c with
      | Some d =>
          if base <=? d then Err ErrSyntax
          else if max_uint64 <? n * base + d then Err ErrRange
          else digits_from base s (n * base + d) underscores
      | None => Err ErrSyntax
      end
  end.

(** underscoreOK: an underscore stands between digits, or between the prefix
    and a digit. *)
Inductive seen : Type := SeenStart | SeenDigit | SeenUnderscore | SeenOther.

Fixpoint underscore_scan (hex : bool) (s : string) (i : seen) : bool :=
  match s with
  | EmptyString => match i with SeenUnderscore => false | _ => true end
  | String c s =>
      match digit c with
      | Some d =>
          if d <? (if hex then 16 else 10) then underscore_scan hex s SeenDigit
          else match i with SeenUnderscore => false | _ => underscore_scan hex s SeenOther end
      | None =>
          if Ascii.eqb c "_" then match i with SeenDigit => underscore_scan hex s SeenUnderscore | _ => false end
          else match i with SeenUnderscore => false | _ => underscore_scan hex s SeenOther end
      end
  end.

Definition unsigned_part (s : string) : string :=
  match s with
  | String c rest => if Ascii.eqb c "-" || Ascii.eqb c "+" then rest else s
  | EmptyString => s
  end.

Definition underscoreOK (s : string) : bool :=
  let s := unsigned_part s in
  match s with
  | String "0" (String c rest) =>
      let c := lower_ascii c in
      if Ascii.eqb c "b" || Ascii.eqb c "o" || Ascii.eqb c "x" then underscore_scan (Ascii.eqb c "x") rest SeenDigit
      else underscore_scan false s SeenStart
  | _ => underscore_scan false s SeenStart
  end.

(** [strconv.ParseUint(s, 0, 64)]. *)
Definition ParseUint0 (s : string) : res num_error Z :=
  match s with
  | EmptyString => Err ErrSyntax
  | _ =>
      let '(Base base digits) := detect_base s in
      match digits_from base digits 0 false with
      | Ok (n, underscores) => if underscores && negb (underscoreOK s) then Err ErrSyntax else Ok n
      | Err e => Err e
      | Panic => Panic
      end
  end.

(** [strconv.ParseInt(s, 0, 64)]. *)
Definition ParseInt0 (s : string) : res num_error Z :=
  let neg := match s with String c _ => Ascii.eqb c "-" | EmptyString => false end in
  match ParseUint0 (unsigned_part s) with
  | Ok n =>
      if negb neg && (2 ^ 63 <=? n) then Err ErrRange
      else if neg && (2 ^ 63 <? n) then Err ErrRange
      else Ok (if neg then - n else n)
  | Err e => Err e
  | Panic => Panic
  end.

Example base0_forms :
  omap (fun s => match ParseInt0 s with Ok z => Some z | _ => None end)
    ["42"; "-0x2A"; "0b101010"; "052"; "0o52"; "4_2"; "0x_2a"; "+42"; "_42"; "42_"; "09"; "0x"; ""]
  = [42; -42; 42; 42; 42; 42; 42; 42].
Proof. by vm_compute. Qed.

(** ** Decimal text reads back *)

Lemma of_uint_acc_ge u p : (p <= Pos.of_uint_acc u p)%positive.
Proof. revert p. induction u; intros p; cbn [Pos.of_uint_acc]; [lia|etrans; [|apply IHu]; lia..]. Qed.

Ltac read_digit :=
  cbn [Ascii.eqb Bool.eqb];
  match goal with |- context [digit ?c] => let d := eval vm_compute in (digit c) in change (digit c) with d end;
  cbn iota.

Lemma digits_from_uint u p b :
  Zpos (Pos.of_uint_acc u p) <= max_uint64 ->
  digits_from 10 (NilEmpty.string_of_uint u) (Zpos p) b = Ok (Zpos (Pos.of_uint_acc u p), b).
Proof.
  revert p. induction u as [|u IH|u IH|u IH|u IH|u IH|u IH|u IH|u IH|u IH|u IH]; intros p B; [done|..];
    cbn [NilEmpty.string_of_uint digits_from Pos.of_uint_acc] in *; specialize (IH _ B);
    match type of B with Zpos ?q <= _ => match type of IH with digits_from _ _ ?n _ = _ => assert (n <= Zpos q) by apply of_uint_acc_ge end end;
    read_digit; rewrite (proj2 (Z.leb_gt _ _)) by lia; rewrite (proj2 (Z.ltb_ge _ _)) by lia; rewrite <- IH; f_equal; lia.
Qed.

Lemma to_uint_no_zero p u : Pos.to_uint p <> Decimal.D0 u.
Proof.
  intros E. pose proof (DecimalPos.Unsigned.to_of (Pos.to_uint p)) as T. rewrite DecimalPos.Unsigned.of_to in T.
  change (N.to_uint (Npos p)) with (Pos.to_uint p) in T. rewrite E in T. unfold Decimal.unorm in T. cbn [Decimal.nzhead] in T.
  pose proof (DecimalFacts.nb_digits_nzhead u) as M.
  destruct (Decimal.nzhead u) as [|u'| | | | | | | | |] eqn:N; try discriminate T.
  - injection T as ->. by apply (DecimalPos.Unsigned.to_uint_nonzero p).
  - injection T as ->. cbn in M. lia.
Qed.

(** The digits of a positive number. *)
Lemma digits_from_pos p :
  Zpos p <= max_uint64 ->
  detect_base (NilEmpty.string_of_uint (Pos.to_uint p)) = Base 10 (NilEmpty.string_of_uint (Pos.to_uint p)) /\
  digits_from 10 (NilEmpty.string_of_uint (Pos.to_uint p)) 0 false = Ok (Zpos p, false).
Proof.
  intros B. pose proof (DecimalPos.Unsigned.of_to p) as E. pose proof (to_uint_no_zero p) as Z0.
  destruct (Pos.to_uint p) as [|u|u|u|u|u|u|u|u|u|u]; [done|by destruct (Z0 u)|..];
    cbn [Pos.of_uint] in E; injection E as E; rewrite <- E in *; (split; [done|]); cbn [NilEmpty.string_of_uint digits_from];
    read_digit; rewrite <- digits_from_uint by done; done.
Qed.

Lemma ParseUint0_pos p : Zpos p <= max_uint64 -> ParseUint0 (NilEmpty.string_of_uint (Pos.to_uint p)) = Ok (Zpos p).
Proof.
  intros B. destruct (digits_from_pos p B) as [D F]. unfold ParseUint0.
  destruct (string_of_uint_head (Pos.to_uint p) (pos_to_uint_nonnil p)) as (c & s & E & _).
  rewrite E in *. by rewrite D, F.
Qed.

Lemma ParseUint0_FormatInt z : 0 <= z <= max_uint64 -> ParseUint0 (FormatInt z) = Ok z.
Proof. intros B. destruct z as [|p|p]; [done| |lia]. rewrite FormatInt_nonneg. apply ParseUint0_pos; lia. Qed.

Lemma ParseInt0_FormatInt z : in_int64 z -> ParseInt0 (FormatInt z) = Ok z.
Proof.
  intros B. unfold_range. unfold max_uint64 in *. destruct z as [|p|p]; [done| |].
  - rewrite FormatInt_nonneg. destruct (string_of_uint_head (Pos.to_uint p) (pos_to_uint_nonnil p)) as (c & s & E & N1 & N2).
    assert (ParseUint0 (NilEmpty.string_of_uint (Pos.to_uint p)) = Ok (Zpos p)) as P by (apply ParseUint0_pos; unfold max_uint64; lia). unfold ParseInt0. rewrite E in *. cbn [unsigned_part].
    rewrite (proj2 (Ascii.eqb_neq c "-") N1), (proj2 (Ascii.eqb_neq c "+") N2). cbn [orb]. rewrite P. cbn [negb andb].
    by rewrite (proj2 (Z.leb_gt _ _)) by lia.
  - rewrite FormatInt_neg. unfold ParseInt0. cbn [unsigned_part]. change (Ascii.eqb "-" "-") with true. cbn [orb]. rewrite ParseUint0_pos by (unfold max_uint64; lia).
    cbn. by rewrite (proj2 (Z.ltb_ge _ _)) by lia.
Qed.

Lemma ParseUint0_range s n : ParseUint0 s = Ok n -> 0 <= n <= max_uint64.
Proof.
  assert (forall base t m b r, 0 <= base -> 0 <= m <= max_uint64 -> digits_from base t m b = Ok r -> 0 <= r.1 <= max_uint64) as D.
  { intros base t. induction t as [|c t IH]; intros m b r B M; cbn; [by intros [= <-]|].
    case_match; [by apply IH|]. destruct (digit c) as [d|] eqn:Dg; [|done]. case_match; [done|]. case_match; [done|]. bools. apply IH; [done|].
    assert (0 <= d) by (revert Dg; unfold digit; repeat case_match; intros; simplify_eq; bools; lia). nia. }
  unfold ParseUint0. destruct s as [|c s]; [done|]. destruct (detect_base _) as [base t] eqn:Db.
  assert (0 <= base) by (revert Db; unfold detect_base; repeat case_match; intros; simplify_eq; lia).
  destruct (digits_from base t 0 false) as [[m b]| |] eqn:E; [|done..]. case_match; [done|]. intros [= <-].
  apply (D base t 0 false (m, b)); [done|unfold max_uint64; lia|done].
Qed.
