(* ===== verification/GoFloat.v ===== *)
(** * Go's float64

    IEEE-754 binary64 with the Standard Library's executable [spec_float]
    (53-bit significand, exponents up to 1024; one NaN, whose payload no code of
    the connector observes).  The file gives the conversions and the [math]
    functions the source uses and one semantic lemma: comparison of finite
    floats is comparison of the integers they denote at the scale 2^-1074. *)
From S2P Require Import Prelude GoInt.
From Stdlib Require Import SpecFloat.

Abbreviation float64 := spec_float.

Definition f64_valid (f : float64) : bool := valid_binary 53 1024 f.
Definition f64_of_Z (z : Z) : float64 := binary_normalize 53 1024 z 0 false.
Definition f64_nan : float64 := S754_nan.
Definition f64_mul (a b : float64) : float64 := SFmul 53 1024 a b.
Definition f64_add (a b : float64) : float64 := SFadd 53 1024 a b.
Definition f64_sub (a b : float64) : float64 := SFsub 53 1024 a b.
Definition f64_div (a b : float64) : float64 := SFdiv 53 1024 a b.
Definition f64_lt (a b : float64) : bool := SFltb a b.
Definition f64_gt (a b : float64) : bool := SFltb b a.
Definition f64_le (a b : float64) : bool := SFleb a b.
Definition f64_ge (a b : float64) : bool := SFleb b a.
Definition f64_eq (a b : float64) : bool := SFeqb a b.

(** [math.IsNaN] and [math.IsInf(f, 0)]. *)
Definition IsNaN (f : float64) : bool := match f with S754_nan => true | _ => false end.
Definition IsInf (f : float64) : bool := match f with S754_infinity _ => true | _ => false end.

Definition signed (s : bool) (z : Z) : Z := if s then - z else z.

(** Truncation toward zero as an integer; [None] for NaN and infinities. *)
Definition f64_trunc (f : float64) : option Z :=
  match f with
  | S754_zero _ => Some 0
  | S754_finite s m e =>
      Some (signed s (if 0 <=? e then Zpos m * 2 ^ e else Zpos m / 2 ^ (- e)))
  | _ => None
  end.

(** The Go conversion [int64(f)]: truncation when the result fits, otherwise an
    implementation-dependent value (Go specification, "Conversions between
    numeric types"), which is the parameter [oor]. *)
Definition f64_to_int64 (oor : float64 -> Z) (f : float64) : Z :=
  match f64_trunc f with
  | Some z => if decide (in_int64 z) then z else oor f
  | None => oor f
  end.

(** [math.Modf]: integer and fractional part, both with the sign of [f]. *)
Definition Modf (f : float64) : float64 * float64 :=
  match f with
  | S754_nan => (S754_nan, S754_nan)
  | S754_infinity s => (S754_infinity s, S754_nan)
  | S754_zero s => (f, f)
  | S754_finite s m e =>
      if 0 <=? e then (f, S754_zero s)
      else (binary_normalize 53 1024 (signed s (Zpos m / 2 ^ (- e))) 0 s,
            binary_normalize 53 1024 (signed s (Zpos m mod 2 ^ (- e))) e s)
  end.

(** [math.Round]: nearest integer, halves away from zero. *)
Definition Round (f : float64) : float64 :=
  match f with
  | S754_finite s m e =>
      if 0 <=? e then f
      else let d := 2 ^ (- e) in
           let q := Zpos m / d in
           let q' := if d <=? 2 * (Zpos m mod d) then q + 1 else q in
           binary_normalize 53 1024 (signed s q') 0 s
  | _ => f
  end.

(** [math.Float64frombits] and [math.Float32frombits] followed by the exact
    widening to float64. *)
Definition finite_of (s : bool) (m : Z) (e : Z) : float64 :=
  match m with Zpos p => S754_finite s p e | _ => S754_zero s end.

Definition Float64frombits (b : Z) : float64 :=
  let s := Z.testbit b 63 in
  let e := Z.land (Z.shiftr b 52) 2047 in
  let m := Z.land b (Z.ones 52) in
  if e =? 2047 then (if m =? 0 then S754_infinity s else S754_nan)
  else if e =? 0 then finite_of s m (-1074)
  else finite_of s (m + 2 ^ 52) (e - 1075).

Definition Float32frombits (b : Z) : float64 :=
  let s := Z.testbit b 31 in
  let e := Z.land (Z.shiftr b 23) 255 in
  let m := Z.land b (Z.ones 23) in
  if e =? 255 then (if m =? 0 then S754_infinity s else S754_nan)
  else if e =? 0 then binary_normalize 53 1024 (signed s m) (-149) s
  else binary_normalize 53 1024 (signed s (m + 2 ^ 23)) (e - 150) s.

(** ** Comparison of finite floats *)

(** The integer [f * 2^1074] of a finite float. *)
Definition f64_scaled (f : float64) : option Z :=
  match f with
  | S754_zero _ => Some 0
  | S754_finite s m e => Some (signed s (Zpos m * 2 ^ (e + 1074)))
  | _ => None
  end.

Lemma digits2_pos_bounds m :
  2 ^ (Zpos (digits2_pos m) - 1) <= Zpos m < 2 ^ Zpos (digits2_pos m).
Proof.
  induction m as [m IH|m IH|]; [| |cbn; lia];
    cbn [digits2_pos]; rewrite Pos2Z.inj_succ;
    replace (Z.succ (Zpos (digits2_pos m)) - 1) with (Zpos (digits2_pos m)) by lia;
    rewrite Z.pow_succ_r by lia;
    assert (2 ^ Zpos (digits2_pos m) = 2 * 2 ^ (Zpos (digits2_pos m) - 1))
      by (rewrite <- Z.pow_succ_r by lia; f_equal; lia); lia.
Qed.

(** A canonical significand fits 53 bits, fills them unless the exponent is
    minimal, and the exponent is in range. *)
Lemma f64_bounded_spec m e :
  bounded 53 1024 m e = true ->
  -1074 <= e <= 971 /\ Zpos m < 2 ^ 53 /\ (-1074 < e -> 2 ^ 52 <= Zpos m).
Proof.
  unfold bounded, canonical_mantissa, fexp, emin. intros H. bools.
  pose proof (digits2_pos_bounds m) as [Hl Hu].
  set (d := Zpos (digits2_pos m)) in *. split_and!; try lia.
  - assert (2 ^ d <= 2 ^ 53) by (apply Z.pow_le_mono_r; lia). lia.
  - intros He. assert (E : d = 53) by lia. rewrite E in Hl. lia.
Qed.

Lemma canonical_lt m1 e1 m2 e2 :
  bounded 53 1024 m1 e1 = true -> bounded 53 1024 m2 e2 = true ->
  e1 < e2 -> Zpos m1 * 2 ^ (e1 + 1074) < Zpos m2 * 2 ^ (e2 + 1074).
Proof.
  intros (B1 & U1 & _)%f64_bounded_spec (B2 & _ & L2)%f64_bounded_spec He.
  specialize (L2 ltac:(lia)).
  assert (E : 2 ^ (e2 + 1074) = 2 * 2 ^ (e2 - e1 - 1) * 2 ^ (e1 + 1074)).
  { rewrite <- Z.pow_succ_r, <- Z.pow_add_r by lia. f_equal. lia. }
  rewrite E. assert (0 < 2 ^ (e1 + 1074)) by (apply Z.pow_pos_nonneg; lia).
  assert (1 <= 2 ^ (e2 - e1 - 1)) by (apply (Z.pow_le_mono_r 2 0); lia).
  nia.
Qed.

Lemma SFcompare_scaled a b x y :
  f64_valid a = true -> f64_valid b = true ->
  f64_scaled a = Some x -> f64_scaled b = Some y ->
  SFcompare a b = Some (x ?= y).
Proof.
  intros Va Vb. destruct a as [sa|?| |sa ma ea], b as [sb|?| |sb mb eb]; cbn -[Z.compare Z.mul Z.pow Z.opp]; intros; simplify_eq.
  - done.
  - assert (0 < 2 ^ (eb + 1074)) by (apply Z.pow_pos_nonneg; apply f64_bounded_spec in Vb; lia).
    destruct sb; cbn -[Z.compare Z.mul Z.pow Z.opp]; [symmetry; f_equal; apply Z.compare_gt_iff; lia|symmetry; f_equal; apply Z.compare_lt_iff; lia].
  - assert (0 < 2 ^ (ea + 1074)) by (apply Z.pow_pos_nonneg; apply f64_bounded_spec in Va; lia).
    destruct sa; cbn -[Z.compare Z.mul Z.pow Z.opp]; symmetry; f_equal; [apply Z.compare_lt_iff; lia|apply Z.compare_gt_iff; lia].
  - assert (0 < 2 ^ (ea + 1074)) by (apply Z.pow_pos_nonneg; apply f64_bounded_spec in Va; lia).
    assert (0 < 2 ^ (eb + 1074)) by (apply Z.pow_pos_nonneg; apply f64_bounded_spec in Vb; lia).
    assert (Hlt := canonical_lt ma ea mb eb Va Vb).
    assert (Hgt := canonical_lt mb eb ma ea Vb Va).
    assert (Heq : ea = eb -> (Zpos ma * 2 ^ (ea + 1074) ?= Zpos mb * 2 ^ (eb + 1074)) = Pos.compare_cont Eq ma mb).
    { intros ->. rewrite <- Zmult_compare_compat_r by lia. done. }
    destruct sa, sb; cbn -[Z.compare Z.mul Z.pow Z.opp].
    + destruct (Z.compare_spec ea eb) as [->|?|?].
      * f_equal. rewrite <- Heq by done. rewrite <- Z.compare_antisym. symmetry. apply Z.compare_opp.
      * symmetry; f_equal. apply Z.compare_gt_iff. lia.
      * symmetry; f_equal. apply Z.compare_lt_iff. lia.
    + symmetry; f_equal. apply Z.compare_lt_iff. lia.
    + symmetry; f_equal. apply Z.compare_gt_iff. lia.
    + destruct (Z.compare_spec ea eb) as [->|?|?].
      * rewrite <- Heq by done. done.
      * symmetry; f_equal. apply Z.compare_lt_iff. lia.
      * symmetry; f_equal. apply Z.compare_gt_iff. lia.
Qed.

Lemma f64_lt_scaled a b x y :
  f64_valid a = true -> f64_valid b = true ->
  f64_scaled a = Some x -> f64_scaled b = Some y ->
  f64_lt a b = (x <? y).
Proof.
  intros. unfold f64_lt, SFltb. rewrite (SFcompare_scaled a b x y) by done.
  unfold Z.ltb. by destruct (x ?= y).
Qed.

(** Truncation is division of the scaled integer toward zero. *)
Lemma f64_trunc_scaled f x :
  f64_valid f = true -> f64_scaled f = Some x -> f64_trunc f = Some (Z.quot x (2 ^ 1074)).
Proof.
  assert (P : 0 < 2 ^ 1074) by (apply Z.pow_pos_nonneg; lia).
  intros V. destruct f as [s|?| |s m e]; cbn; intros; simplify_eq; [by rewrite Z.quot_0_l by lia|].
  apply f64_bounded_spec in V as (B & _). f_equal.
  assert (E : Z.quot (Zpos m * 2 ^ (e + 1074)) (2 ^ 1074) =
              if 0 <=? e then Zpos m * 2 ^ e else Zpos m / 2 ^ (- e)).
  { rewrite Z.quot_div_nonneg by (try apply Z.mul_nonneg_nonneg; try apply Z.pow_nonneg; lia).
    destruct (Z.leb_spec 0 e).
    - rewrite Z.pow_add_r, Z.mul_assoc by lia. apply Z.div_mul. lia.
    - replace (2 ^ 1074) with (2 ^ (- e) * 2 ^ (e + 1074)) by (rewrite <- Z.pow_add_r by lia; f_equal; lia).
      apply Z.div_mul_cancel_r.
      + apply Z.pow_nonzero; lia.
      + apply Z.pow_nonzero; lia. }
  destruct s; cbn; [rewrite Z.quot_opp_l by lia|]; rewrite E; done.
Qed.

Lemma f64_to_int64_in_range oor f z :
  f64_trunc f = Some z -> in_int64 z -> f64_to_int64 oor f = z.
Proof. unfold f64_to_int64. intros -> ?. by rewrite decide_True. Qed.

(** ** Where NaN can come from *)

Lemma shr_1_nonneg mrs : 0 <= shr_m mrs -> 0 <= shr_m (shr_1 mrs).
Proof. destruct mrs as [[|[p|p|]|p] r s]; cbn; lia. Qed.

Lemma iter_shr_nonneg p mrs : 0 <= shr_m mrs -> 0 <= shr_m (iter_pos shr_1 p mrs).
Proof.
  revert mrs. induction p as [p IH|p IH|]; intros mrs H; cbn; auto using shr_1_nonneg.
Qed.

Lemma shr_fexp_nonneg m e l : 0 <= m -> 0 <= shr_m (fst (shr_fexp 53 1024 m e l)).
Proof.
  intros H. unfold shr_fexp, shr.
  assert (0 <= shr_m (shr_record_of_loc m l)) by (destruct l as [|[]]; done).
  case_match; cbn; auto using iter_shr_nonneg.
Qed.

Lemma binary_round_aux_not_nan s m e l : 0 <= m -> binary_round_aux 53 1024 s m e l <> S754_nan.
Proof.
  intros H. unfold binary_round_aux.
  pose proof (shr_fexp_nonneg m e l H) as H1. destruct (shr_fexp 53 1024 m e l) as [mrs' e']. cbn in H1.
  set (m' := round_nearest_even _ _).
  assert (H2 : 0 <= m') by (unfold m', round_nearest_even; repeat case_match; lia).
  pose proof (shr_fexp_nonneg m' e' loc_Exact H2) as H3.
  destruct (shr_fexp 53 1024 m' e' loc_Exact) as [mrs'' e'']. cbn in H3.
  destruct (shr_m mrs''); [done|by case_match|lia].
Qed.

Lemma f64_of_Z_not_nan z : IsNaN (f64_of_Z z) = false.
Proof.
  unfold f64_of_Z, binary_normalize, binary_round. destruct z; [done| |].
  all: case_match.
  all: match goal with |- IsNaN (binary_round_aux ?a ?b ?s ?m ?e ?l) = _ =>
         pose proof (binary_round_aux_not_nan s m e l ltac:(lia)) as N;
         destruct (binary_round_aux a b s m e l); done end.
Qed.

(** Multiplying by a finite non-zero factor makes no NaN. *)
Lemma f64_mul_nan f g :
  IsNaN g = false -> IsInf g = false -> f64_eq g (S754_zero false) = false ->
  IsNaN (f64_mul f g) = IsNaN f.
Proof.
  intros N I Z. destruct g as [s|s| |s m e]; try done.
  destruct f as [s'|s'| |s' m' e']; try done.
  unfold f64_mul, SFmul.
  pose proof (binary_round_aux_not_nan (xorb s' s) (Zpos (m' * m)) (e' + e) loc_Exact ltac:(lia)) as P.
  by destruct (binary_round_aux _ _ _ _ _ _).
Qed.

(** ** Significands of results, and exact small integers *)

Lemma shr_1_half mrs : 0 <= shr_m mrs -> shr_m (shr_1 mrs) = shr_m mrs / 2.
Proof.
  destruct mrs as [[|[p|p|]|p] r s]; cbn [shr_m shr_1]; intros H; try done.
  - change (Zpos p~1) with (2 * Zpos p + 1). rewrite Z.add_comm, Z.mul_comm, Z.div_add by lia. done.
  - change (Zpos p~0) with (2 * Zpos p). rewrite Z.mul_comm, Z.div_mul by lia. done.
Qed.

Lemma iter_shr_div p mrs :
  0 <= shr_m mrs -> shr_m (iter_pos shr_1 p mrs) = shr_m mrs / 2 ^ Zpos p.
Proof.
  revert mrs. induction p as [p IH|p IH|]; intros mrs H; cbn [iter_pos].
  - rewrite !IH, shr_1_half; [|auto using iter_shr_nonneg, shr_1_nonneg..].
    rewrite !Z.div_div by (try apply Z.pow_nonzero; try apply Z.pow_pos_nonneg; lia). f_equal.
    rewrite <- (Z.pow_1_r 2) at 1. rewrite <- !Z.pow_add_r by lia. f_equal. lia.
  - rewrite !IH; [|auto using iter_shr_nonneg..].
    rewrite Z.div_div by (try apply Z.pow_nonzero; try apply Z.pow_pos_nonneg; lia). f_equal.
    rewrite <- Z.pow_add_r by lia. f_equal. lia.
  - by rewrite shr_1_half.
Qed.

Lemma shr_fexp_small m e : 0 <= m -> shr_m (shr_fexp 53 1024 m e loc_Exact).1 < 2 ^ 53.
Proof.
  intros H. unfold shr_fexp, shr, fexp, SpecFloat.emin.
  destruct m as [|p|p]; [| |lia].
  { destruct (_ - e) as [|k|k]; cbn [fst shr_record_of_loc shr_m]; try lia.
    rewrite iter_shr_div by done. cbn [shr_m]. rewrite Z.div_0_l; [lia|]. apply Z.pow_nonzero; lia. }
  cbn [Zdigits2]. set (d := Zpos (digits2_pos p)).
  pose proof (digits2_pos_bounds p) as [_ U]. fold d in U.
  destruct (Z.max (d + e - 53) (3 - 1024 - 53) - e) as [|k|k] eqn:E; cbn [fst shr_record_of_loc shr_m].
  - assert (2 ^ d <= 2 ^ 53) by (apply Z.pow_le_mono_r; lia). lia.
  - rewrite iter_shr_div by (cbn; lia). cbn [shr_m].
    apply Z.div_lt_upper_bound; [apply Z.pow_pos_nonneg; lia|].
    rewrite <- Z.pow_add_r by lia.
    assert (2 ^ d <= 2 ^ (Zpos k + 53)) by (apply Z.pow_le_mono_r; lia). lia.
  - assert (2 ^ d <= 2 ^ 53) by (apply Z.pow_le_mono_r; lia). lia.
Qed.

Lemma binary_round_aux_small s m e l p :
  0 <= m -> forall s' e', binary_round_aux 53 1024 s m e l = S754_finite s' p e' -> Zpos p < 2 ^ 53.
Proof.
  intros H s' e'. unfold binary_round_aux.
  pose proof (shr_fexp_nonneg m e l H) as H1. destruct (shr_fexp 53 1024 m e l) as [mrs' e1]. cbn in H1.
  set (m' := round_nearest_even _ _).
  assert (H2 : 0 <= m') by (unfold m', round_nearest_even; repeat case_match; lia).
  pose proof (shr_fexp_small m' e1 H2) as H3.
  destruct (shr_fexp 53 1024 m' e1 loc_Exact) as [mrs'' e'']. cbn [fst] in H3.
  destruct (shr_m mrs''); [done| |done]. case_match; [|done]. by intros [= _ -> _].
Qed.

Lemma f64_mul_small a b s p e : f64_mul a b = S754_finite s p e -> Zpos p < 2 ^ 53.
Proof.
  destruct a, b; try done. apply binary_round_aux_small. lia.
Qed.

Lemma digits2_shift k m : digits2_pos (Pos.iter xO m k) = (digits2_pos m + k)%positive.
Proof.
  revert m. induction k as [|k IH] using Pos.peano_ind; intros m; [cbn; lia|].
  rewrite Pos.iter_succ. cbn [digits2_pos]. rewrite IH. lia.
Qed.

Lemma iter_xO_mul k m : Zpos (Pos.iter xO m k) = Zpos m * 2 ^ Zpos k.
Proof.
  induction k as [|k IH] using Pos.peano_ind; [cbn; lia|].
  rewrite Pos.iter_succ, Pos2Z.inj_succ, Z.pow_succ_r by lia.
  change (Zpos (Pos.iter xO m k)~0) with (2 * Zpos (Pos.iter xO m k)). lia.
Qed.

(** A significand that needs no rounding: 53 digits, or more of them ending
    in zeros. *)
Lemma iter_shr_exact k q :
  0 <= q ->
  iter_pos shr_1 k {| shr_m := q * 2 ^ Zpos k; shr_r := false; shr_s := false |} =
  {| shr_m := q; shr_r := false; shr_s := false |}.
Proof.
  assert (One : forall q, 0 <= q -> shr_1 {| shr_m := 2 * q; shr_r := false; shr_s := false |} =
    {| shr_m := q; shr_r := false; shr_s := false |}) by (intros [|p|p]; done).
  assert (It : forall n x, iter_pos shr_1 n x = Pos.iter shr_1 x n).
  { intros n. induction n as [n IH|n IH|]; intros x; cbn [iter_pos]; [| |done].
    - rewrite !IH. cbn [Pos.iter]. by rewrite <- !Pos.iter_swap.
    - rewrite !IH. cbn [Pos.iter]. done. }
  intros Q. rewrite It. revert q Q. induction k as [|k IH] using Pos.peano_ind; intros q Q.
  - cbn [Pos.iter]. rewrite Z.mul_comm. by apply One.
  - rewrite Pos.iter_succ, Pos2Z.inj_succ, Z.pow_succ_r by lia.
    replace (q * (2 * 2 ^ Zpos k)) with ((2 * q) * 2 ^ Zpos k) by lia. rewrite IH by lia. by apply One.
Qed.

Lemma round_exact s m e q n :
  Zpos m = Zpos q * 2 ^ n -> 0 <= n -> Zpos (digits2_pos q) = 53 -> -1074 <= e + n <= 971 ->
  binary_round_aux 53 1024 s (Zpos m) e loc_Exact = S754_finite s q (e + n).
Proof.
  intros E N D X.
  assert (Dm : Zpos (digits2_pos m) = 53 + n).
  { destruct n as [|k|k]; [|rewrite <- D|lia].
    - by replace m with q by lia.
    - replace m with (Pos.iter xO q k) by (pose proof (iter_xO_mul k q); lia). rewrite digits2_shift. lia. }
  assert (S1 : shr_fexp 53 1024 (Zpos m) e loc_Exact =
    ({| shr_m := Zpos q; shr_r := false; shr_s := false |}, e + n)).
  { unfold shr_fexp, fexp, SpecFloat.emin. cbn [Zdigits2]. rewrite Dm.
    replace (Z.max (53 + n + e - 53) (3 - 1024 - 53) - e) with n by lia.
    destruct n as [|k|k]; [|cbn [shr shr_record_of_loc]; by rewrite E, iter_shr_exact by lia|lia].
    cbn [shr shr_record_of_loc]. rewrite Z.add_0_r. by replace (Zpos m) with (Zpos q) by lia. }
  assert (S2 : shr_fexp 53 1024 (Zpos q) (e + n) loc_Exact =
    ({| shr_m := Zpos q; shr_r := false; shr_s := false |}, e + n)).
  { unfold shr_fexp, fexp, SpecFloat.emin. cbn [Zdigits2]. rewrite D.
    by replace (Z.max (53 + (e + n) - 53) (3 - 1024 - 53) - (e + n)) with 0 by lia. }
  unfold binary_round_aux. rewrite S1. cbn [shr_m loc_of_shr_record round_nearest_even]. rewrite S2. cbn [shr_m].
  by rewrite (proj2 (Z.leb_le _ _)) by lia.
Qed.

(** Integers below 2^53 are exact. *)
Lemma f64_small_shape m s :
  Zpos m < 2 ^ 53 ->
  exists q k, binary_round 53 1024 s m 0 = S754_finite s q (- k) /\ Zpos q = Zpos m * 2 ^ k /\
    Zpos (digits2_pos q) = 53 /\ k = 53 - Zpos (digits2_pos m) /\ 0 <= k <= 52.
Proof.
  intros U. pose proof (digits2_pos_bounds m) as [L _].
  set (d := digits2_pos m) in *.
  assert (D : Zpos d <= 53).
  { destruct (Z.le_gt_cases (Zpos d) 53); [done|].
    assert (2 ^ 53 <= 2 ^ (Zpos d - 1)) by (apply Z.pow_le_mono_r; lia). lia. }
  unfold binary_round, shl_align, fexp, SpecFloat.emin. fold d.
  replace (Z.max (Zpos d + 0 - 53) (3 - 1024 - 53) - 0) with (Zpos d - 53) by lia.
  replace (Z.max (Zpos d + 0 - 53) (3 - 1024 - 53)) with (Zpos d - 53) by lia.
  destruct (Zpos d - 53) as [|k|k] eqn:E; [|lia|].
  - exists m, 0. rewrite (round_exact s m 0 m 0) by (fold d; lia). split_and!; try done; fold d; lia.
  - assert (Zpos (digits2_pos (Pos.iter xO m k)) = 53) by (rewrite digits2_shift; fold d; lia).
    exists (Pos.iter xO m k), (Zpos k).
    rewrite (round_exact s _ (Zneg k) (Pos.iter xO m k) 0) by (try done; lia).
    rewrite Z.add_0_r. split_and!; try done; [apply iter_xO_mul|lia..].
Qed.

Lemma f64_small_exact m s :
  Zpos m < 2 ^ 53 -> f64_trunc (binary_round 53 1024 s m 0) = Some (signed s (Zpos m)).
Proof.
  intros U. destruct (f64_small_shape m s U) as (q & k & -> & M & _ & _ & K). cbn [f64_trunc]. do 2 f_equal.
  destruct (Z.leb_spec 0 (- k)) as [Q|Q].
  - replace k with 0 in * by lia. rewrite M. cbn. lia.
  - rewrite Z.opp_involutive, M. apply Z.div_mul. apply Z.pow_nonzero; lia.
Qed.

(** Conversions of small non-negative integers, and their comparison. *)
Lemma f64_of_Z_scaled z : 0 <= z < 2 ^ 53 -> f64_valid (f64_of_Z z) = true /\ f64_scaled (f64_of_Z z) = Some (z * 2 ^ 1074).
Proof.
  intros Z. unfold f64_of_Z, binary_normalize. destruct z as [|m|m]; [by split|clear -Z|lia].
  destruct (f64_small_shape m false) as (q & k & -> & M & D & _ & K); [lia|]. split.
  - unfold f64_valid, valid_binary, bounded, canonical_mantissa, fexp, SpecFloat.emin. rewrite D.
    apply andb_true_intro. split; [|by apply Z.leb_le; lia]. apply Z.eqb_eq. lia.
  - cbn [f64_scaled signed]. f_equal. rewrite M, <- Z.mul_assoc, <- Z.pow_add_r by lia. do 2 f_equal. lia.
Qed.

Lemma f64_lt_of_Z a b : 0 <= a < 2 ^ 53 -> 0 <= b < 2 ^ 53 -> f64_lt (f64_of_Z a) (f64_of_Z b) = (a <? b).
Proof.
  intros A B. destruct (f64_of_Z_scaled a A) as [Va Sa], (f64_of_Z_scaled b B) as [Vb Sb].
  rewrite (f64_lt_scaled _ _ _ _ Va Vb Sa Sb). assert (0 < 2 ^ 1074) by (apply Z.pow_pos_nonneg; lia).
  generalize dependent (2 ^ 1074). intros c _ _ C. destruct (Z.ltb_spec (a * c) (b * c)), (Z.ltb_spec a b); nia.
Qed.

Lemma f64_trunc_of_Z a : 0 <= a < 2 ^ 53 -> f64_trunc (f64_of_Z a) = Some a.
Proof. intros A. destruct a as [|m|m]; [done| |lia]. apply (f64_small_exact m false). lia. Qed.

(** The product of a small integer and a fraction [r / 2 ^ j], truncated. *)
Lemma f64_mul_ratio c r j p t :
  Zpos (digits2_pos p) = 53 -> Zpos p = r * 2 ^ (t - j) -> 0 <= j <= t -> t <= 100 ->
  0 < c < 2 ^ 53 -> 0 < c * r < 2 ^ 53 ->
  f64_trunc (f64_mul (f64_of_Z c) (S754_finite false p (- t))) = Some (c * r / 2 ^ j).
Proof.
  intros Dp P J T C CR. destruct c as [|c|c]; [lia| |lia].
  destruct (f64_small_shape c false) as (q & k & Eq & M & Dq & _ & K); [lia|].
  unfold f64_of_Z, binary_normalize. rewrite Eq. clear Eq. cbn [f64_mul SFmul]. unfold f64_mul. cbn [SFmul xorb].
  destruct (Zpos c * r) as [|cr|cr] eqn:Ecr; [lia| |lia].
  pose proof (digits2_pos_bounds cr) as [Ld Ud]. set (D := Zpos (digits2_pos cr)) in *.
  assert (D <= 53).
  { destruct (Z.le_gt_cases D 53); [done|].
    assert (2 ^ 53 <= 2 ^ (D - 1)) by (apply Z.pow_le_mono_r; lia). lia. }
  assert (Epq : Zpos (q * p) = Zpos cr * 2 ^ (k + (t - j))).
  { rewrite Pos2Z.inj_mul, M, P, <- Ecr, Z.pow_add_r by lia. lia. }
  assert (Hn : 105 <= D + (k + (t - j))).
  { pose proof (digits2_pos_bounds q) as [Lq _]. pose proof (digits2_pos_bounds p) as [Lp _].
    rewrite Dq in Lq. rewrite Dp in Lp. change (53 - 1) with 52 in *.
    assert (2 ^ 104 <= Zpos (q * p)) by (rewrite Pos2Z.inj_mul; change (2 ^ 104) with (2 ^ 52 * 2 ^ 52); nia).
    assert (Zpos (q * p) < 2 ^ (D + (k + (t - j)))).
    { rewrite Epq, (Z.pow_add_r 2 D) by (unfold D; lia).
      apply Z.mul_lt_mono_pos_r; [apply Z.pow_pos_nonneg; lia|exact Ud]. }
    assert (104 < D + (k + (t - j))); [|lia]. apply (Z.pow_lt_mono_r_iff 2); [lia|unfold D; lia|lia]. }
  assert (exists Q, Zpos Q = Zpos cr * 2 ^ (53 - D) /\ Zpos (digits2_pos Q) = 53) as (Q & EQ & DQ).
  { destruct (53 - D) as [|m|m] eqn:Em; [exists cr; unfold D in *; lia| |lia].
    exists (Pos.iter xO cr m). rewrite digits2_shift, iter_xO_mul. unfold D in *. lia. }
  rewrite (round_exact false (q * p) (- k + - t) Q (k + (t - j) - (53 - D))); [| |lia|exact DQ|lia].
  - replace (- k + - t + (k + (t - j) - (53 - D))) with (- (53 - D + j)) by lia. cbn [f64_trunc signed]. f_equal.
    destruct (Z.leb_spec 0 (- (53 - D + j))) as [L|L].
    + replace (53 - D) with 0 in * by lia. replace j with 0 by lia. rewrite EQ. cbn. rewrite Z.div_1_r. lia.
    + rewrite Z.opp_involutive, EQ, Z.pow_add_r, Z.mul_comm by lia.
      apply Z.div_mul_cancel_l; apply Z.pow_nonzero; lia.
  - rewrite Epq, EQ, <- Z.mul_assoc, <- Z.pow_add_r by lia. do 2 f_equal. lia.
Qed.

(** Rounding a positive float below 2^63 gives an integer that int64 holds. *)
Lemma Round_in_int64 m e :
  Zpos m < 2 ^ 53 -> f64_ge (S754_finite false m e) (f64_of_Z max_int64) = false ->
  exists z, f64_trunc (Round (S754_finite false m e)) = Some z /\ 0 <= z <= max_int64.
Proof.
  intros U G.
  assert (E : e < 11 \/ e = 11 /\ Zpos m < 2 ^ 52).
  { change (f64_of_Z max_int64) with (S754_finite false 4503599627370496 11) in G.
    assert (C : Zpos 4503599627370496 = 2 ^ 52) by reflexivity. revert G C.
    generalize 4503599627370496%positive as c. intros c G C. rewrite <- C.
    unfold f64_ge, SFleb in G. cbn [SFcompare] in G.
    destruct (Z.compare_spec 11 e) as [Q|Q|Q]; [|done|by left].
    right. split; [done|]. change (Pos.compare_cont Eq c m) with (Pos.compare c m) in G.
    destruct (Pos.compare_spec c m); try done; lia. }
  unfold Round. destruct (Z.leb_spec 0 e) as [Q|Q].
  - exists (Zpos m * 2 ^ e). cbn [f64_trunc signed]. rewrite (proj2 (Z.leb_le _ _)) by lia.
    split; [done|]. unfold max_int64. destruct E as [E|[-> E]]; [|lia].
    assert (2 ^ e <= 2 ^ 10) by (apply Z.pow_le_mono_r; lia).
    assert (0 < 2 ^ e) by (apply Z.pow_pos_nonneg; lia). nia.
  - set (dd := 2 ^ (- e)).
    assert (P : 2 <= dd) by (apply (Z.pow_le_mono_r 2 1); lia).
    assert (B : 0 <= Zpos m / dd <= 2 ^ 52).
    { split; [apply Z.div_pos; lia|]. apply Z.div_le_upper_bound; lia. }
    set (q' := if dd <=? 2 * (Zpos m mod dd) then Zpos m / dd + 1 else Zpos m / dd).
    assert (Q' : 0 <= q' < 2 ^ 53) by (unfold q'; case_match; lia).
    exists q'. split; [|unfold max_int64; lia]. unfold signed, binary_normalize.
    destruct q' as [|p|p] eqn:Ep; [done| |lia]. apply (f64_small_exact p false). lia.
Qed.
