(* ===== verification/GoTime.v ===== *)
(** * Go's package time, as the pipeline uses it

    A [time.Duration] is an int64 count of nanoseconds.  A [gotime] is a
    wall-clock [time.Time]: seconds since year 1 as an int64 ([ext]) and
    nanoseconds in the second ([nsec]).  Timestamps of the pipeline never carry
    a monotonic reading, so [Add] is the wall-clock branch of [addSec], which
    saturates. *)
From S2P Require Import Prelude GoInt GoFloat.

Definition Nanosecond : Z := 1.
Definition Microsecond : Z := 1000 * Nanosecond.
Definition Millisecond : Z := 1000 * Microsecond.
Definition Second : Z := 1000 * Millisecond.
Definition Minute : Z := 60 * Second.
Definition Hour : Z := 60 * Minute.

Record gotime : Type := Time { ext : Z; nsec : Z }.

#[export] Instance gotime_eq_dec : EqDecision gotime.
Proof. solve_decision. Defined.

(** Seconds from year 1 to the Unix epoch. *)
Definition unixToInternal : Z := 62135596800.

Definition time_valid (t : gotime) : Prop := in_int64 (ext t) /\ 0 <= nsec t < Second.

(** The zero [time.Time]. *)
Definition zero_time : gotime := Time 0 0.
Definition IsZero (t : gotime) : bool := (ext t =? 0) && (nsec t =? 0).

(** [t.Unix()] and [t.Nanosecond()]. *)
Definition Unix_of (t : gotime) : Z := wrap64 (ext t - unixToInternal).
Definition Nanosecond_of (t : gotime) : Z := nsec t.

(** [time.Unix(sec, nsec)]: normalise nanoseconds, then shift the epoch. *)
Definition time_Unix (sec ns : Z) : gotime :=
  if (ns <? 0) || (Second <=? ns) then
    let n := go_div ns Second in
    let sec' := wrap64 (sec + n) in
    let ns' := ns - n * Second in
    if ns' <? 0
    then Time (wrap64 (wrap64 (sec' - 1) + unixToInternal)) (ns' + Second)
    else Time (wrap64 (sec' + unixToInternal)) ns'
  else Time (wrap64 (sec + unixToInternal)) ns.

Definition UnixMilli (ms : Z) : gotime := time_Unix (go_div ms 1000) (go_rem ms 1000 * 1000000).
Definition UnixMicro (us : Z) : gotime := time_Unix (go_div us 1000000) (go_rem us 1000000 * 1000).

(** The wall-clock branch of [t.addSec(d)]. *)
Definition addSec (x d : Z) : Z :=
  let sum := wrap64 (x + d) in
  if Bool.eqb (x <? sum) (0 <? d) then sum
  else if 0 <? d then max_int64 else - max_int64.

(** [t.Add(d)]. *)
Definition Add (t : gotime) (d : Z) : gotime :=
  let dsec := go_div d Second in
  let ns := nsec t + go_rem d Second in
  if Second <=? ns then Time (addSec (ext t) (dsec + 1)) (ns - Second)
  else if ns <? 0 then Time (addSec (ext t) (dsec - 1)) (ns + Second)
  else Time (addSec (ext t) dsec) ns.

(** [t.Sub(u)] of two clock readings in nanoseconds, saturating. *)
Definition duration_sub (t u : Z) : Z := Z.max min_int64 (Z.min max_int64 (t - u)).

(** [d.Seconds()]. *)
Definition Seconds (d : Z) : float64 :=
  f64_add (f64_of_Z (go_div d Second)) (f64_div (f64_of_Z (go_rem d Second)) (f64_of_Z 1000000000)).

(** Nanoseconds since year 1: the mathematical instant a value denotes. *)
Definition instant (t : gotime) : Z := ext t * Second + nsec t.

Definition epoch_ns : Z := unixToInternal * Second.

Ltac unfold_time :=
  unfold instant, epoch_ns, time_valid, unixToInternal, Hour, Minute, Second, Millisecond,
    Microsecond, Nanosecond in *.

Lemma instant_inj a b : time_valid a -> time_valid b -> instant a = instant b -> a = b.
Proof.
  destruct a as [ea na], b as [eb nb]. unfold_time. cbn. intros [_ ?] [_ ?] ?.
  assert (ea = eb) by lia. assert (na = nb) by lia. by subst.
Qed.

Lemma quot_rem_ns d : d = go_div d Second * Second + go_rem d Second.
Proof. unfold go_div, go_rem. pose proof (Z.quot_rem' d Second). lia. Qed.

Lemma rem_ns_bound d : - Second < go_rem d Second < Second.
Proof.
  unfold go_rem. assert (0 < Second) by (unfold_time; lia).
  pose proof (Z.rem_bound_abs d Second ltac:(lia)). lia.
Qed.

Lemma addSec_exact x d : in_int64 x -> in_int64 d -> in_int64 (x + d) -> addSec x d = x + d.
Proof.
  intros Hx Hd Hs. unfold addSec. rewrite (wrap64_id (x + d)) by done.
  destruct (Z.ltb_spec x (x + d)), (Z.ltb_spec 0 d); cbn; lia.
Qed.

(** [Add] is exact whenever the resulting second fits an int64. *)
Lemma Add_instant t d :
  time_valid t -> in_int64 d ->
  in_int64 (ext t + d / Second - 1) -> in_int64 (ext t + d / Second + 2) ->
  instant (Add t d) = instant t + d /\ time_valid (Add t d).
Proof.
  intros [He Hn] Hd Hlo Hhi. unfold Add.
  pose proof (quot_rem_ns d) as Hq. pose proof (rem_ns_bound d) as Hr.
  set (q := go_div d Second) in *. set (r := go_rem d Second) in *.
  assert (Hs : Second = 1000000000) by (unfold_time; lia).
  pose proof (Z.div_mod d Second ltac:(lia)) as Hdm.
  pose proof (Z.mod_pos_bound d Second ltac:(lia)) as Hm.
  assert (d / Second <= q <= d / Second + 1) by nia.
  unfold_range.
  destruct (Z.leb_spec Second (nsec t + r)); [|destruct (Z.ltb_spec (nsec t + r) 0)];
    rewrite addSec_exact by (unfold_range; lia);
    unfold instant, time_valid; cbn [ext nsec]; unfold_range; lia.
Qed.

Lemma time_Unix_instant sec ns :
  in_int64 sec -> in_int64 ns ->
  in_int64 (sec + ns / Second + unixToInternal - 1) -> in_int64 (sec + ns / Second + unixToInternal + 2) ->
  in_int64 (sec + ns / Second - 1) -> in_int64 (sec + ns / Second + 2) ->
  in_int64 (sec + unixToInternal) ->
  instant (time_Unix sec ns) = epoch_ns + sec * Second + ns /\ time_valid (time_Unix sec ns).
Proof.
  intros Hsec Hns H1 H2 H3 H4 H5. unfold time_Unix.
  pose proof (quot_rem_ns ns) as Hq. pose proof (rem_ns_bound ns) as Hr.
  unfold go_div in *. set (q := Z.quot ns Second) in *. set (r := go_rem ns Second) in *.
  assert (Hs : Second = 1000000000) by (unfold_time; lia).
  pose proof (Z.div_mod ns Second ltac:(lia)) as Hdm.
  pose proof (Z.mod_pos_bound ns Second ltac:(lia)) as Hm.
  assert (ns / Second <= q <= ns / Second + 1) by nia.
  assert (Hu : unixToInternal = 62135596800) by reflexivity.
  unfold_range.
  destruct (Z.ltb_spec ns 0); cbn [orb]; [|destruct (Z.leb_spec Second ns)]; cbn [orb].
  1, 2: destruct (Z.ltb_spec (ns - q * Second) 0);
    rewrite ?(wrap64_id (sec + q)) by (unfold_range; lia);
    rewrite ?(wrap64_id (sec + q - 1)) by (unfold_range; lia);
    rewrite wrap64_id by (unfold_range; lia);
    unfold instant, time_valid, epoch_ns; cbn [ext nsec]; unfold_range; lia.
  rewrite wrap64_id by (unfold_range; lia).
  unfold instant, time_valid, epoch_ns; cbn [ext nsec]; unfold_range; lia.
Qed.

(** Milliseconds and microseconds are converted exactly over all of int64. *)
Lemma UnixMilli_instant ms :
  in_int64 ms -> instant (UnixMilli ms) = epoch_ns + ms * 1000000 /\ time_valid (UnixMilli ms).
Proof.
  intros H. unfold UnixMilli.
  assert (Hq : ms = go_div ms 1000 * 1000 + go_rem ms 1000)
    by (unfold go_div, go_rem; pose proof (Z.quot_rem' ms 1000); lia).
  assert (Hr : -1000 < go_rem ms 1000 < 1000)
    by (unfold go_rem; pose proof (Z.rem_bound_abs ms 1000 ltac:(lia)); lia).
  set (q := go_div ms 1000) in *. set (r := go_rem ms 1000) in *.
  assert (Hs : Second = 1000000000) by (unfold_time; lia).
  assert (Hb : -1 <= (r * 1000000) / Second <= 0).
  { rewrite Hs. split; [apply Z.div_le_lower_bound; lia|].
    assert (r * 1000000 / 1000000000 < 1) by (apply Z.div_lt_upper_bound; lia). lia. }
  destruct (time_Unix_instant q (r * 1000000)) as [E V];
    try (unfold_range; unfold unixToInternal; lia).
  split; [|done]. rewrite E, Hs. lia.
Qed.

Lemma UnixMicro_instant us :
  in_int64 us -> instant (UnixMicro us) = epoch_ns + us * 1000 /\ time_valid (UnixMicro us).
Proof.
  intros H. unfold UnixMicro.
  assert (Hq : us = go_div us 1000000 * 1000000 + go_rem us 1000000)
    by (unfold go_div, go_rem; pose proof (Z.quot_rem' us 1000000); lia).
  assert (Hr : -1000000 < go_rem us 1000000 < 1000000)
    by (unfold go_rem; pose proof (Z.rem_bound_abs us 1000000 ltac:(lia)); lia).
  set (q := go_div us 1000000) in *. set (r := go_rem us 1000000) in *.
  assert (Hs : Second = 1000000000) by (unfold_time; lia).
  assert (Hb : -1 <= (r * 1000) / Second <= 0).
  { rewrite Hs. split; [apply Z.div_le_lower_bound; lia|].
    assert (r * 1000 / 1000000000 < 1) by (apply Z.div_lt_upper_bound; lia). lia. }
  destruct (time_Unix_instant q (r * 1000)) as [E V];
    try (unfold_range; unfold unixToInternal; lia).
  split; [|done]. rewrite E, Hs. lia.
Qed.

Lemma time_Unix_ns_instant v :
  in_int64 v -> instant (time_Unix 0 v) = epoch_ns + v /\ time_valid (time_Unix 0 v).
Proof.
  intros H. assert (Hs : Second = 1000000000) by (unfold_time; lia).
  assert (Hb : -9223372037 <= v / Second <= 9223372037).
  { unfold_range. rewrite Hs. split; [apply Z.div_le_lower_bound; lia|].
    assert (v / 1000000000 < 9223372038) by (apply Z.div_lt_upper_bound; lia). lia. }
  destruct (time_Unix_instant 0 v) as [E V];
    try (unfold_range; unfold unixToInternal; lia). split; [|done]. lia.
Qed.

Lemma time_Unix_s_instant v :
  in_int64 (v + unixToInternal) -> in_int64 v ->
  instant (time_Unix v 0) = epoch_ns + v * Second /\ time_valid (time_Unix v 0).
Proof.
  intros H H'. unfold time_Unix. assert (Hs : Second = 1000000000) by (unfold_time; lia).
  rewrite Hs. cbn [orb Z.ltb Z.leb Z.compare].
  rewrite wrap64_id by done.
  unfold instant, time_valid, epoch_ns; cbn [ext nsec]. rewrite Hs. unfold_range. lia.
Qed.
