(* ===== verification/GoCalendar.v ===== *)
(** * GoCalendar: dates, and the text of an instant (package time)

    The proleptic Gregorian date of a day as package time computes it, the
    calendar it has to agree with, and Format with the layout
    2006-01-02T15:04:05 in UTC. *)
From S2P Require Import Prelude GoInt GoStr GoFloat GoTime.

(** Days since 1970-01-01 to a proleptic Gregorian date. *)
Definition civil_of_days (days : Z) : Z * Z * Z :=
  let z := days + 719468 in
  let era := z / 146097 in
  let doe := z mod 146097 in
  let yoe := (doe - doe / 1460 + doe / 36524 - doe / 146096) / 365 in
  let doy := doe - (365 * yoe + yoe / 4 - yoe / 100) in
  let mp := (5 * doy + 2) / 153 in
  let d := doy - (153 * mp + 2) / 5 + 1 in
  let m := if mp <? 10 then mp + 3 else mp - 9 in
  (yoe + era * 400 + (if m <=? 2 then 1 else 0), m, d).

(** Zero-padded decimal of at least [w] digits (appendInt of package time and %0wd). *)
Definition zero_pad (w : nat) (x : Z) : string :=
  let s := FormatInt (Z.abs x) in
  (if x <? 0 then "-" else EmptyString) +:+
  Join (replicate (w - String.length s) "0") EmptyString +:+ s.

(** Layout 2006-01-02T15:04:05 in UTC. *)
Definition Format_seconds (t : gotime) : string :=
  let secs := ext t - unixToInternal in
  let '(y, mo, d) := civil_of_days (secs / 86400) in
  let sod := secs mod 86400 in
  zero_pad 4 y +:+ "-" +:+ zero_pad 2 mo +:+ "-" +:+ zero_pad 2 d +:+ "T" +:+
  zero_pad 2 (sod / 3600) +:+ ":" +:+ zero_pad 2 (sod mod 3600 / 60) +:+ ":" +:+ zero_pad 2 (sod mod 60).

(** ** The calendar *)

Definition leap (y : Z) : bool := (y mod 4 =? 0) && negb (y mod 100 =? 0) || (y mod 400 =? 0).

Definition days_in_month (y m : Z) : Z :=
  if m =? 2 then (if leap y then 29 else 28) else if (m =? 4) || (m =? 6) || (m =? 9) || (m =? 11) then 30 else 31.

(** Days from 0001-01-01 to the first of January of [y], and from there to the
    first of the month [m]. *)
Definition days_before_year (y : Z) : Z := 365 * (y - 1) + (y - 1) / 4 - (y - 1) / 100 + (y - 1) / 400.
Definition days_before_month (y m : Z) : Z := foldr Z.add 0 (days_in_month y <$> seqZ 1 (m - 1)).

(** The day of a date, counted from 1970-01-01. *)
Definition day_number (y m d : Z) : Z := days_before_year y + days_before_month y m + (d - 1) - 719162.

Definition valid_date (y m d : Z) : Prop := 1 <= m <= 12 /\ 1 <= d <= days_in_month y m.

Lemma leap_length y : days_before_year (y + 1) - days_before_year y = if leap y then 366 else 365.
Proof.
  unfold days_before_year, leap. replace (y + 1 - 1) with y by lia.
  destruct (Z.eqb_spec (y mod 4) 0), (Z.eqb_spec (y mod 100) 0), (Z.eqb_spec (y mod 400) 0); cbn [andb orb negb];
    Z.to_euclidean_division_equations; lia.
Qed.

(** The year of an era, and the day of its year, which begins in March. *)
Lemma year_of_era doe :
  0 <= doe < 146097 ->
  let yoe := (doe - doe / 1460 + doe / 36524 - doe / 146096) / 365 in
  let doy := doe - (365 * yoe + yoe / 4 - yoe / 100) in
  0 <= yoe <= 399 /\ 0 <= doy <= 365 /\
  (doy = 365 -> (yoe + 1) / 4 - yoe / 4 - ((yoe + 1) / 100 - yoe / 100) + ((yoe + 1) / 400 - yoe / 400) = 1).
Proof.
  intros D. cbv zeta.
  assert (exists c r, doe = 36524 * c + r /\ 0 <= r /\ 0 <= c <= 3 /\ (r < 36524 \/ c = 3 /\ r = 36524)) as (c & r & -> & R & C & Q).
  { exists (Z.min 3 (doe / 36524)), (doe - 36524 * Z.min 3 (doe / 36524)). Z.to_euclidean_division_equations. lia. }
  assert (exists f s, r = 1461 * f + s /\ 0 <= s < 1461 /\ 0 <= f <= 24) as (f & s & -> & S & F).
  { exists (r / 1461), (r mod 1461). Z.to_euclidean_division_equations. lia. }
  assert (exists y t, s = 365 * y + t /\ 0 <= t <= 365 /\ 0 <= y <= 3 /\ (t = 365 -> y = 3)) as (y & t & -> & T & Y & U).
  { exists (Z.min 3 (s / 365)), (s - 365 * Z.min 3 (s / 365)). Z.to_euclidean_division_equations. lia. }
  set (doe := 36524 * c + (1461 * f + (365 * y + t))) in *.
  assert (Yo : (doe - doe / 1460 + doe / 36524 - doe / 146096) / 365 = 100 * c + 4 * f + y).
  { subst doe. Z.to_euclidean_division_equations; lia. }
  rewrite Yo. subst doe. Z.to_euclidean_division_equations; lia.
Qed.

(** Evaluation of a closed term of the goal. *)
Ltac closed_value e := let v := eval vm_compute in e in change e with v.

(** The days of the months before [m], counted from January and, after
    February, from March. *)
Definition march_days : list Z := [0; 31; 61; 92; 122; 153; 184; 214; 245; 275].

Lemma days_before_march y : days_before_month y 1 = 0 /\ days_before_month y 2 = 31.
Proof. done. Qed.

Lemma days_after_march y k days :
  march_days !! k = Some days ->
  days_before_month y (Z.of_nat k + 3) = (if leap y then 60 else 59) + days.
Proof.
  unfold march_days, days_before_month. intros E.
  do 10 (destruct k as [|k]; [injection E as <-; match goal with |- context [seqZ 1 ?n] => closed_value (seqZ 1 n) end;
    cbn [fmap list_fmap foldr]; unfold days_in_month; cbn; destruct (leap y); lia|cbn in E]).
  done.
Qed.

(** A day of the k-th month after March is a day of that month. *)
Lemma march_length y k days doy :
  march_days !! k = Some days -> doy < (153 * (Z.of_nat k + 1) + 2) / 5 -> doy - days + 1 <= days_in_month y (Z.of_nat k + 3).
Proof.
  unfold march_days. intros E.
  do 10 (destruct k as [|k]; [injection E as <-; match goal with |- doy < ?e -> _ <= days_in_month _ ?m => closed_value e; closed_value m end;
    unfold days_in_month; cbn [Z.eqb Pos.eqb orb]; lia|cbn in E]).
  done.
Qed.

(** The months of a year that begins in March. *)
Lemma march_month doy :
  0 <= doy <= 365 ->
  let mp := (5 * doy + 2) / 153 in
  0 <= mp <= 11 /\ 0 <= doy - (153 * mp + 2) / 5 /\ doy < (153 * (mp + 1) + 2) / 5.
Proof. intros D. cbv zeta. Z.to_euclidean_division_equations; lia. Qed.

Lemma march_start k days : march_days !! k = Some days -> (153 * Z.of_nat k + 2) / 5 = days.
Proof. unfold march_days. intros E. do 10 (destruct k as [|k]; [by injection E as <-|cbn in E]). done. Qed.

(** The date of every day is a date of the calendar, and the day of that date. *)
Theorem civil_of_days_exact z :
  let '(y, m, d) := civil_of_days z in valid_date y m d /\ day_number y m d = z.
Proof.
  unfold civil_of_days. set (doe := (z + 719468) mod 146097). set (era := (z + 719468) / 146097).
  assert (D : 0 <= doe < 146097) by (apply Z.mod_pos_bound; lia).
  assert (Ez : z = era * 146097 + doe - 719468) by (pose proof (Z.div_mod (z + 719468) 146097); lia).
  clearbody doe era. subst z. destruct (year_of_era doe D) as (Y & O & L). cbv zeta.
  set (yoe := (doe - doe / 1460 + doe / 36524 - doe / 146096) / 365) in *.
  set (doy := doe - (365 * yoe + yoe / 4 - yoe / 100)) in *.
  assert (Ed : doe = 365 * yoe + yoe / 4 - yoe / 100 + doy) by lia. clearbody doy yoe. subst doe.
  assert (B : days_before_year (yoe + era * 400 + 1) = 365 * yoe + yoe / 4 - yoe / 100 + era * 146097).
  { unfold days_before_year. Z.to_euclidean_division_equations; lia. }
  assert (L' : doy = 365 -> leap (yoe + era * 400 + 1) = true).
  { intros E. specialize (L E). pose proof (leap_length (yoe + era * 400 + 1)) as K.
    destruct (leap _); [done|]. unfold days_before_year in K. Z.to_euclidean_division_equations; lia. }
  pose proof (leap_length (yoe + era * 400)) as K. rewrite B in K. destruct (march_month doy O) as (M & M1 & M2).
  set (mp := (5 * doy + 2) / 153) in *. clearbody mp. unfold valid_date, day_number.
  destruct (Z.ltb_spec mp 10) as [Lt|Ge].
  - rewrite (proj2 (Z.leb_gt _ _)), Z.add_0_r by lia.
    assert (exists k, mp = Z.of_nat k /\ (k < 10)%nat) as (k & -> & Kk) by (exists (Z.to_nat mp); lia).
    destruct (lookup_lt_is_Some_2 march_days k Kk) as [days Ed].
    rewrite (days_after_march _ k days Ed), (march_start k days Ed) in * by done.
    split; [split; [lia|]|clear - K; revert K; destruct (leap _); intros K; lia]. split; [lia|]. by apply march_length.
  - rewrite (proj2 (Z.leb_le _ _)) by lia. assert (mp = 10 \/ mp = 11) as [-> | ->] by lia.
    + closed_value (10 - 9). closed_value ((153 * 10 + 2) / 5). change ((153 * 10 + 2) / 5) with 306 in M1.
      change ((153 * (10 + 1) + 2) / 5) with 337 in M2. destruct (days_before_march (yoe + era * 400 + 1)) as [-> _].
      rewrite B. change (days_in_month (yoe + era * 400 + 1) 1) with 31. lia.
    + closed_value (11 - 9). closed_value ((153 * 11 + 2) / 5). change ((153 * 11 + 2) / 5) with 337 in M1.
      destruct (days_before_march (yoe + era * 400 + 1)) as [_ ->]. rewrite B.
      change (days_in_month (yoe + era * 400 + 1) 2) with (if leap (yoe + era * 400 + 1) then 29 else 28).
      destruct (leap _) eqn:Ly; [lia|]. assert (doy <> 365) by (intros E; specialize (L' E); congruence). lia.
Qed.

(** ** The text of an instant *)

(** [text] is the instant [ns] nanoseconds from 1970-01-01T00:00:00Z: a date of
    the calendar, a time of day and nine digits of a second. *)
Definition denotes_instant (text : string) (ns : Z) : Prop :=
  exists y mo d h mi s f,
    valid_date y mo d /\ 0 <= h < 24 /\ 0 <= mi < 60 /\ 0 <= s < 60 /\ 0 <= f < 10 ^ 9 /\
    ns = (((day_number y mo d * 24 + h) * 60 + mi) * 60 + s) * 10 ^ 9 + f /\
    text = zero_pad 4 y +:+ "-" +:+ zero_pad 2 mo +:+ "-" +:+ zero_pad 2 d +:+ "T" +:+
      zero_pad 2 h +:+ ":" +:+ zero_pad 2 mi +:+ ":" +:+ zero_pad 2 s +:+ "." +:+ zero_pad 9 f +:+ "Z".

Lemma Format_denotes t :
  time_valid t -> denotes_instant (Format_seconds t +:+ "." +:+ zero_pad 9 (Nanosecond_of t) +:+ "Z") (instant t - epoch_ns).
Proof.
  intros [_ N]. unfold Format_seconds, Nanosecond_of. set (secs := ext t - unixToInternal).
  pose proof (civil_of_days_exact (secs / 86400)) as C. destruct (civil_of_days _) as [[y mo] d]. destruct C as [V D].
  exists y, mo, d, (secs mod 86400 / 3600), (secs mod 86400 mod 3600 / 60), (secs mod 86400 mod 60), (nsec t).
  assert (E : instant t - epoch_ns = secs * 10 ^ 9 + nsec t) by (unfold secs; unfold_time; lia).
  unfold Second, Millisecond, Microsecond, Nanosecond in N. split_and!; try done.
  1-8: Z.to_euclidean_division_equations; lia.
  - rewrite E, D. clear. f_equal. f_equal. Z.to_euclidean_division_equations. lia.
  - by rewrite !app_string_assoc.
Qed.
