(* ===== verification/Values.v ===== *)
(** * Dynamic values and errors

    The pipeline moves [interface{}] values between steps.  [value] lists the
    dynamic types the source produces or tests for, and [error] the error
    values, with [ConnectorError] of internal/errors.  Messages are kept as
    their format string with its arguments. *)
From S2P Require Import Prelude GoInt GoStr GoFloat GoTime.
From Stdlib.Strings Require Import Byte.

(** ** interface{} *)

Inductive value : Type :=
  | VNil
  | VBool (b : bool)
  | VInt (n : Z)                        (* int: YAML literals *)
  | VInt64 (n : Z)
  | VUint64 (n : Z)
  | VFloat64 (f : float64)
  | VFloat32 (f : float64)
  | VString (s : string)
  | VBytes (b : list byte)
  | VTime (t : gotime)
  | VMap (m : gmap string value)        (* map[string]interface{} *)
  | VMapAny (m : list (value * value))  (* map[interface{}]interface{} *)
  | VSlice (l : list value)             (* []interface{} *)
  | VFloats (l : list float64)          (* []float64 *)
  | VInts (l : list Z).                 (* []int64 *)

(** ParseState.Fields, TransformSpec.Config: map[string]interface{}. *)
Abbreviation fields := (gmap string value).

(** Type assertions [v.(T)], two-value form. *)
Definition as_string (v : option value) : option string :=
  match v with Some (VString s) => Some s | _ => None end.
Definition as_map (v : option value) : option (gmap string value) :=
  match v with Some (VMap m) => Some m | _ => None end.
Definition as_time (v : option value) : option gotime :=
  match v with Some (VTime t) => Some t | _ => None end.
Definition as_float64 (v : option value) : option float64 :=
  match v with Some (VFloat64 f) => Some f | _ => None end.
Definition as_int64 (v : option value) : option Z :=
  match v with Some (VInt64 n) => Some n | _ => None end.
Definition as_bytes (v : option value) : option (list byte) :=
  match v with Some (VBytes b) => Some b | _ => None end.
Definition as_slice (v : option value) : option (list value) :=
  match v with Some (VSlice l) => Some l | _ => None end.

(** ** Errors *)

(** Error codes of the QuasarDB client (vendored qdb-api-go, error.go). *)
Inductive qdb_code : Set :=
  | ErrTimeout | ErrConnectionRefused | ErrConnectionReset | ErrNotConnected | ErrHostNotFound
  | ErrNetworkError | ErrUnstableCluster | ErrTryAgain | ErrResourceLocked | ErrConflict
  | ErrTransactionPartialFailure | ErrPartialFailure | ErrAsyncPipeFull | ErrNoMemoryRemote
  | ErrInterrupted | ErrInvalidReply | ErrOutOfBounds | ErrInvalidArgument | ErrIncompatibleType
  | ErrAliasNotFound | ErrAccessDenied | ErrColumnNotFound | ErrLoginFailed | ErrOtherCode (n : Z).

#[export] Instance qdb_code_eq_dec : EqDecision qdb_code.
Proof. solve_decision. Defined.

(** Sentinel errors of nats.go. *)
Inductive nats_error : Set :=
  | NatsTimeout | NatsConsumerDeleted | NatsNoResponders | NatsConsumerNotFound
  | NatsBadSubscription | NatsSubscriptionClosed | NatsConnectionClosed
  | NatsConnectionDraining | NatsInvalidConnection | NatsMsgAlreadyAckd.

#[export] Instance nats_error_eq_dec : EqDecision nats_error.
Proof. solve_decision. Defined.

Inductive error : Type :=
  | Errorf (fmt : string) (args : list arg)               (* fmt.Errorf, no %w *)
  | Wrapf (fmt : string) (args : list arg) (w : error)    (* fmt.Errorf, %w *)
  | ConnectorError (Code : Z) (Component : string) (Message : string) (args : list arg)
      (Wrapped : option error) (Metadata : list (string * value))
  | QdbError (Code : qdb_code) (Operation : string) (Context : list arg)
  | NatsError (e : nats_error)
  | JoinedError (text : string)                           (* a chain errors.Is cannot walk *)
  | Canceled                                              (* context.Canceled *)
  | DeadlineExceeded                                      (* context.DeadlineExceeded *)
  | LibError (what : string)                              (* an error of a library call *)
with arg : Type :=
  | AS (s : string)
  | AZ (n : Z)
  | AV (v : value)        (* %v, %q, %d of a dynamic value *)
  | AT (v : option value) (* %T *)
  | AF (f : float64)
  | AE (e : error).

(** ** internal/errors: ErrorCode and constructors *)

Definition ErrCodeNoTopicProvided : Z := 0 + 1000.
Definition ErrCodeInvalidConfig : Z := 1 + 1000.
Definition ErrCodeConnectionFailed : Z := 2 + 1000.
Definition ErrCodeSubscriptionFailed : Z := 3 + 1000.
Definition ErrCodeParsingFailed : Z := 4 + 1000.
Definition ErrCodeWriteFailed : Z := 5 + 1000.
Definition ErrCodeQueueFull : Z := 6 + 1000.
Definition ErrCodeMaxRetriesExceeded : Z := 7 + 1000.
Definition ErrCodeUnexpectedError : Z := 8 + 1000.

Definition NewNoTopicProvidedError (component : string) : error :=
  ConnectorError ErrCodeNoTopicProvided component "no topic provided" [] None [].

(** The [message] argument is already formatted by the callers with Sprintf;
    it is the pair of a format and its arguments here. *)
Definition NewInvalidConfigError (component : string) (fmt : string) (args : list arg) : error :=
  ConnectorError ErrCodeInvalidConfig component ("invalid configuration: " +:+ fmt) args None [].

Definition NewConnectionFailedError (component endpoint : string) (err : option error) : error :=
  ConnectorError ErrCodeConnectionFailed component "failed to connect to %s" [AS endpoint] err
    [("endpoint", VString endpoint)].

Definition NewSubscriptionFailedError (component topic : string) (err : option error) : error :=
  ConnectorError ErrCodeSubscriptionFailed component "failed to subscribe to topic %s" [AS topic] err
    [("topic", VString topic)].

Definition NewParsingFailedError (component : string) (err : error) : error :=
  ConnectorError ErrCodeParsingFailed component "failed to parse message" [] (Some err) [].

Definition NewWriteFailedError (component : string) (err : error) : error :=
  ConnectorError ErrCodeWriteFailed component "failed to write data" [] (Some err) [].

Definition NewQueueFullError (component : string) (queueDepth : Z) : error :=
  ConnectorError ErrCodeQueueFull component "sink queue is full" [] None [("queue_depth", VInt queueDepth)].

Definition NewMaxRetriesExceededError (component : string) (maxAttempts : Z) : error :=
  ConnectorError ErrCodeMaxRetriesExceeded component "maximum retry attempts exceeded (%d)"
    [AZ maxAttempts] None [("max_attempts", VInt maxAttempts)].

Definition NewUnexpectedError (component message : string) (err : option error) : error :=
  ConnectorError ErrCodeUnexpectedError component "unexpected error: %s" [AS message] err [].

(** [ConnectorError.Unwrap], and the unwrapping of [%w] errors. *)
Definition Unwrap (e : error) : option error :=
  match e with
  | ConnectorError _ _ _ _ w _ => w
  | Wrapf _ _ w => Some w
  | _ => None
  end.

(** [errors.As] with a ConnectorError target: the first ConnectorError of the chain. *)
Fixpoint as_connector_code (e : error) : option Z :=
  match e with
  | ConnectorError c _ _ _ _ _ => Some c
  | Wrapf _ _ w => as_connector_code w
  | _ => None
  end.

(** [errors.As] with a qdb.ErrorType target: the first qdb code of the chain. *)
Fixpoint as_qdb_code (e : error) : option qdb_code :=
  match e with
  | QdbError c _ _ => Some c
  | ConnectorError _ _ _ _ (Some w) _ => as_qdb_code w
  | Wrapf _ _ w => as_qdb_code w
  | _ => None
  end.

(** [errors.Is(err, sentinel)] for the nats.go sentinels. *)
Fixpoint is_nats_error (e : error) (target : nats_error) : bool :=
  match e with
  | NatsError n => bool_decide (n = target)
  | ConnectorError _ _ _ _ (Some w) _ => is_nats_error w target
  | Wrapf _ _ w => is_nats_error w target
  | _ => false
  end.

Definition error_code (e : error) : option Z :=
  match e with ConnectorError c _ _ _ _ _ => Some c | _ => None end.

(** The results of the connector's functions. *)
Abbreviation result := (res error).

(** The yaml parser's two error constructors, as they appear at every return. *)
Definition parse_error (fmt : string) (args : list arg) : error :=
  NewParsingFailedError "yaml_parser" (Errorf fmt args).
Definition config_error (fmt : string) (args : list arg) : error :=
  NewInvalidConfigError "yaml_parser" fmt args.

(** ** Library functions the pipeline calls and this development does not
    define: codecs of the Go standard library (gzip, SHA), shortest float
    formatting and parsing, layout-driven time parsing, and constants of the
    QuasarDB C header.  They are parameters of every definition that uses them. *)
Class GoLib : Type := {
  gzip_NewReader : list byte -> result unit;        (* header check *)
  gzip_ReadAll : list byte -> result (list byte);   (* io.ReadAll of the reader *)
  ParseFloat : string -> result float64;
  FormatFloat_g : float64 -> string;
  Sprintf_v : value -> string;
  ParseDuration : string -> option Z;
  time_Parse : string -> string -> result gotime;   (* layout, value *)
  sha1_Sum : list byte -> list byte;
  sha256_Sum256 : list byte -> list byte;
  trim_unicode : string -> string -> string;        (* Trim, non-ASCII cutset *)
  float_out_of_range : float64 -> Z;                (* int64(f) when f does not fit *)
  native_is_little : bool;                          (* binary.NativeEndian *)
  MinTimespec : gotime;                             (* qdb.MinTimespec() *)
}.

(** What the theorems rely on of those functions: they report failures as
    errors and do not panic, and the digests have their sizes. *)
Class GoLibLaws `{GoLib} : Prop := {
  gzip_NewReader_safe b : no_panic (gzip_NewReader b);
  gzip_ReadAll_safe b : no_panic (gzip_ReadAll b);
  ParseFloat_safe s : no_panic (ParseFloat s);
  time_Parse_safe l s : no_panic (time_Parse l s);
  sha1_Sum_size b : length (sha1_Sum b) = 20%nat;
  sha256_Sum256_size b : length (sha256_Sum256 b) = 32%nat;
}.

#[export] Hint Resolve gzip_NewReader_safe gzip_ReadAll_safe
  ParseFloat_safe time_Parse_safe : qnc.

(** Go iterates a map in an unspecified order: [iter] is that order. *)
Class MapIter : Type := {
  iter : forall {A : Type}, list A -> list A;
  iter_perm : forall {A : Type} (l : list A), iter l ≡ₚ l;
}.

(** [strings.Trim]. *)
Definition Trim `{GoLib} (s cutset : string) : string :=
  if is_ascii cutset then trim_ascii s cutset else trim_unicode s cutset.
