(* ===== verification/GoJson.v ===== *)
(** * GoJson: JSON (encoding/json)

    The scanner of the package as a state machine over bytes, with the values
    it delimits; Valid and Unmarshal into a map[string]interface{}; Marshal of
    a dynamic value; and the round trip between the two.  The texts of floats
    and of times are parameters. *)
From S2P Require Import Prelude GoInt GoStr GoUtf8 GoFloat GoTime Values.
From Stdlib.Strings Require Import Byte.
From Stdlib Require DecimalString DecimalFacts DecimalPos.

Module Json.
Import Utf8.

(** ** Documents *)

Inductive jvalue : Type :=
  | JNull
  | JBool (b : bool)
  | JNumber (text : list byte)
  | JString (s : list byte)
  | JArray (l : list jvalue)
  | JObject (l : list (list byte * jvalue)).

Section jvalue_ind.
Context (P : jvalue -> Prop) (p_null : P JNull) (p_bool : forall b, P (JBool b)) (p_number : forall t, P (JNumber t))
  (p_string : forall s, P (JString s)) (p_array : forall l, Forall P l -> P (JArray l))
  (p_object : forall l, Forall (fun m => P m.2) l -> P (JObject l)).

Fixpoint jvalue_nested_ind (j : jvalue) : P j :=
  match j with
  | JNull => p_null
  | JBool b => p_bool b
  | JNumber t => p_number t
  | JString s => p_string s
  | JArray l => p_array l ((fix go l : Forall P l :=
      match l with [] => Forall_nil_2 _ | j :: l => Forall_cons_2 _ _ _ (jvalue_nested_ind j) (go l) end) l)
  | JObject l => p_object l ((fix go l : Forall (fun m => P m.2) l :=
      match l with [] => Forall_nil_2 _ | m :: l => Forall_cons_2 _ _ _ (jvalue_nested_ind m.2) (go l) end) l)
  end.
End jvalue_ind.

(** ** Printing: appendString and the array and object encoders *)

Definition quote : byte := x22.
Definition backslash : byte := x5c.

(** htmlSafeSet. *)
Definition html_safe (b : byte) : bool :=
  (32 <=? to_N b)%N && negb (existsb (Byte.eqb b) [quote; backslash; x26; x3c; x3e]).

Definition hex_of (n : N) : byte := byte_of (if n <? 10 then 48 + n else 87 + n)%N.

Definition escape (b : byte) : list byte :=
  if Byte.eqb b quote || Byte.eqb b backslash then [backslash; b]
  else if Byte.eqb b x08 then [backslash; x62]
  else if Byte.eqb b x0c then [backslash; x66]
  else if Byte.eqb b x0a then [backslash; x6e]
  else if Byte.eqb b x0d then [backslash; x72]
  else if Byte.eqb b x09 then [backslash; x74]
  else [backslash; x75; x30; x30; hex_of (to_N b / 16); hex_of (to_N b mod 16)].

(** U+2028 and U+2029 are escaped as well. *)
Definition quote_rune (r : rune) : list byte :=
  match r with
  | Ascii b => if html_safe b then [b] else escape b
  | Multi bs =>
      if bool_decide (bs = [xe2; x80; xa8]) then [backslash; x75; x32; x30; x32; x38]
      else if bool_decide (bs = [xe2; x80; xa9]) then [backslash; x75; x32; x30; x32; x39] else bs
  | Bad => [backslash; x75; x66; x66; x66; x64]
  end.

Definition print_string (s : list byte) : list byte := quote :: concat (quote_rune <$> runes s) ++ [quote].

Definition comma : byte := x2c.
Definition joined (ls : list (list byte)) : list byte :=
  match ls with [] => [] | x :: xs => x ++ concat ((fun y => comma :: y) <$> xs) end.

Fixpoint print (j : jvalue) : list byte :=
  match j with
  | JNull => [x6e; x75; x6c; x6c]
  | JBool true => [x74; x72; x75; x65]
  | JBool false => [x66; x61; x6c; x73; x65]
  | JNumber t => t
  | JString s => print_string s
  | JArray l => x5b :: joined (map print l) ++ [x5d]
  | JObject l => x7b :: joined (map (fun m => print_string m.1 ++ x3a :: print m.2) l) ++ [x7d]
  end.

(** ** Scanning *)

(** *** Strings: unquote, after the scanner let only whole escapes pass *)

Definition hex_value (b : byte) : option N :=
  let n := to_N b in
  (if within 48 57 b then Some (n - 48) else if within 97 102 b then Some (n - 87) else if within 65 70 b then Some (n - 55) else None)%N.

Definition hex4 (a b c d : byte) : N :=
  let h x := default 0%N (hex_value x) in (((h a * 16 + h b) * 16 + h c) * 16 + h d)%N.

(** A pair of surrogates. *)
Definition pair_of (hi lo : N) : option N :=
  if ((55296 <=? hi) && (hi <? 56320) && (56320 <=? lo) && (lo <? 57344))%N
  then Some (65536 + (hi - 55296) * 1024 + (lo - 56320))%N else None.

Definition simple_escape (c : byte) : byte :=
  if Byte.eqb c x62 then x08 else if Byte.eqb c x66 then x0c else if Byte.eqb c x6e then x0a
  else if Byte.eqb c x72 then x0d else if Byte.eqb c x74 then x09 else c.

Fixpoint unquote (rs : list rune) : list byte :=
  match rs with
  | [] => []
  | Ascii b :: rs1 =>
      if Byte.eqb b backslash then
        match rs1 with
        | Ascii c :: rs2 =>
            if Byte.eqb c x75 then
              match rs2 with
              | Ascii h1 :: Ascii h2 :: Ascii h3 :: Ascii h4 :: rs3 =>
                  let r := hex4 h1 h2 h3 h4 in
                  match rs3 with
                  | Ascii x :: Ascii y :: Ascii g1 :: Ascii g2 :: Ascii g3 :: Ascii g4 :: rs4 =>
                      match (if Byte.eqb x backslash && Byte.eqb y x75 then pair_of r (hex4 g1 g2 g3 g4) else None) with
                      | Some r => AppendRune r ++ unquote rs4
                      | None => AppendRune r ++ unquote rs3
                      end
                  | _ => AppendRune r ++ unquote rs3
                  end
              | _ => []
              end
            else simple_escape c :: unquote rs2
        | _ => []
        end
      else b :: unquote rs1
  | r :: rs1 => rune_bytes r ++ unquote rs1
  end.

(** *** Numbers *)

Inductive num_phase : Type := NNeg | NZero | NInt | NDot | NFrac | NExp | NSign | NPower.

Definition is_digit : byte -> bool := within 48 57.
Definition is_exp (b : byte) : bool := Byte.eqb b x65 || Byte.eqb b x45.

Definition num_start (b : byte) : option num_phase :=
  if Byte.eqb b x2d then Some NNeg else if Byte.eqb b x30 then Some NZero else if is_digit b then Some NInt else None.

Definition num_next (p : num_phase) (b : byte) : option num_phase :=
  let fraction := if Byte.eqb b x2e then Some NDot else if is_exp b then Some NExp else None in
  match p with
  | NNeg => if Byte.eqb b x30 then Some NZero else if is_digit b then Some NInt else None
  | NInt => if is_digit b then Some NInt else fraction
  | NZero => fraction
  | NDot => if is_digit b then Some NFrac else None
  | NFrac => if is_digit b then Some NFrac else if is_exp b then Some NExp else None
  | NExp => if Byte.eqb b x2b || Byte.eqb b x2d then Some NSign else if is_digit b then Some NPower else None
  | NSign | NPower => if is_digit b then Some NPower else None
  end.

Definition num_ends (p : num_phase) : bool := match p with NZero | NInt | NFrac | NPower => true | _ => false end.

Fixpoint num_run (p : num_phase) (t : list byte) : option num_phase :=
  match t with [] => Some p | b :: t => p ← num_next p b; num_run p t end.

(** The phase a text ends in, and the texts that are numbers. *)
Definition num_phase_of (t : list byte) : option num_phase :=
  match t with [] => None | b :: t => p ← num_start b; num_run p t end.
Definition number_text (t : list byte) : bool :=
  match num_phase_of t with Some p => num_ends p | None => false end.

(** *** The state machine *)

(** parseState: the containers that are open, innermost first, with what they
    hold so far in reverse. *)
Inductive frame : Type :=
  | FArray (l : list jvalue)
  | FObject (l : list (list byte * jvalue)) (key : option (list byte)).

Inductive str_phase : Type := SPlain | SEsc | SHex (n : nat).

Inductive scan_state : Type :=
  | BeginValue
  | BeginValueOrEmpty
  | BeginString
  | BeginStringOrEmpty
  | InString (p : str_phase) (raw : list byte)
  | InNumber (p : num_phase) (raw : list byte)
  | InLiteral (rest : list byte) (v : jvalue)
  | AfterKey
  | AfterMember
  | AfterElement
  | EndTop (v : jvalue).

Record scanner : Type := { state : scan_state; stack : list frame }.
Definition at_ (s : scan_state) (st : list frame) : scanner := {| state := s; stack := st |}.

Definition is_space (b : byte) : bool := existsb (Byte.eqb b) [x20; x09; x0d; x0a].
Definition maxNestingDepth : Z := 10000.

(** pushParseState. *)
Definition push (f : frame) (s : scan_state) (st : list frame) : option scanner :=
  if Z.of_nat (length (f :: st)) <=? maxNestingDepth then Some (at_ s (f :: st)) else None.

(** A value, or a key, is over. *)
Definition complete (v : jvalue) (st : list frame) : scanner :=
  match st with
  | [] => at_ (EndTop v) []
  | FArray l :: st => at_ AfterElement (FArray (v :: l) :: st)
  | FObject l None :: st => at_ AfterKey (FObject l (match v with JString k => Some k | _ => None end) :: st)
  | FObject l (Some k) :: st => at_ AfterMember (FObject ((k, v) :: l) None :: st)
  end.

(** stateBeginValue. *)
Definition begin_value (st : list frame) (c : byte) : option scanner :=
  if is_space c then Some (at_ BeginValue st)
  else if Byte.eqb c x7b then push (FObject [] None) BeginStringOrEmpty st
  else if Byte.eqb c x5b then push (FArray []) BeginValueOrEmpty st
  else if Byte.eqb c quote then Some (at_ (InString SPlain []) st)
  else if Byte.eqb c x74 then Some (at_ (InLiteral [x72; x75; x65] (JBool true)) st)
  else if Byte.eqb c x66 then Some (at_ (InLiteral [x61; x6c; x73; x65] (JBool false)) st)
  else if Byte.eqb c x6e then Some (at_ (InLiteral [x75; x6c; x6c] JNull) st)
  else p ← num_start c; Some (at_ (InNumber p [c]) st).

Definition begin_string (st : list frame) (c : byte) : option scanner :=
  if is_space c then Some (at_ BeginString st)
  else if Byte.eqb c quote then Some (at_ (InString SPlain []) st) else None.

(** stateEndValue, and stateEndTop. *)
Definition end_value (s : scanner) (c : byte) : option scanner :=
  match state s, stack s with
  | EndTop v, _ => if is_space c then Some s else None
  | AfterKey, st => if is_space c then Some s else if Byte.eqb c x3a then Some (at_ BeginValue st) else None
  | AfterMember, FObject l None :: st =>
      if is_space c then Some s
      else if Byte.eqb c comma then Some (at_ BeginString (stack s))
      else if Byte.eqb c x7d then Some (complete (JObject (rev l)) st) else None
  | AfterElement, FArray l :: st =>
      if is_space c then Some s
      else if Byte.eqb c comma then Some (at_ BeginValue (stack s))
      else if Byte.eqb c x5d then Some (complete (JArray (rev l)) st) else None
  | _, _ => None
  end.

Definition in_string (p : str_phase) (raw : list byte) (st : list frame) (c : byte) : option scanner :=
  let go p := Some (at_ (InString p (c :: raw)) st) in
  match p with
  | SPlain =>
      if Byte.eqb c quote then Some (complete (JString (unquote (runes (rev raw)))) st)
      else if Byte.eqb c backslash then go SEsc
      else if (to_N c <? 32)%N then None else go SPlain
  | SEsc =>
      if existsb (Byte.eqb c) [x62; x66; x6e; x72; x74; backslash; x2f; quote] then go SPlain
      else if Byte.eqb c x75 then go (SHex 4) else None
  | SHex n => match hex_value c, n with Some _, S (S n) => go (SHex (S n)) | Some _, _ => go SPlain | None, _ => None end
  end.

Definition step (s : scanner) (c : byte) : option scanner :=
  let st := stack s in
  match state s with
  | BeginValue => begin_value st c
  | BeginValueOrEmpty =>
      if is_space c then Some s
      else if Byte.eqb c x5d then (match st with FArray l :: st => Some (complete (JArray (rev l)) st) | _ => None end)
      else begin_value st c
  | BeginString => begin_string st c
  | BeginStringOrEmpty =>
      if is_space c then Some s
      else if Byte.eqb c x7d then (match st with FObject l _ :: st => Some (complete (JObject (rev l)) st) | _ => None end)
      else begin_string st c
  | InString p raw => in_string p raw st c
  | InNumber p raw =>
      match num_next p c with
      | Some p => Some (at_ (InNumber p (c :: raw)) st)
      | None => if num_ends p then end_value (complete (JNumber (rev raw)) st) c else None
      end
  | InLiteral (x :: rest) v =>
      if Byte.eqb c x then Some (match rest with [] => complete v st | _ => at_ (InLiteral rest v) st end) else None
  | InLiteral [] _ => None
  | AfterKey | AfterMember | AfterElement | EndTop _ => end_value s c
  end.

Fixpoint run (s : scanner) (b : list byte) : option scanner :=
  match b with [] => Some s | c :: b => s ← step s c; run s b end.

(** checkValid: at the end of the text the scanner is fed one space. *)
Definition parse (b : list byte) : option jvalue :=
  match run (at_ BeginValue []) (b ++ [x20]) with
  | Some s => match state s with EndTop v => Some v | _ => None end
  | None => None
  end.

Definition Valid (b : list byte) : bool := match parse b with Some _ => true | None => false end.

(** ** Laws of the scanner *)

(** What comes back of a document: the strings read as UTF-8. *)
Fixpoint norm (j : jvalue) : jvalue :=
  match j with
  | JString s => JString (ToValidUTF8 s)
  | JArray l => JArray (map norm l)
  | JObject l => JObject (map (fun m => (ToValidUTF8 m.1, norm m.2)) l)
  | _ => j
  end.

(** Every number of it is one. *)
Fixpoint numbers_ok (j : jvalue) : bool :=
  match j with
  | JNumber t => number_text t
  | JArray l => forallb numbers_ok l
  | JObject l => forallb (fun m => numbers_ok m.2) l
  | _ => true
  end.

(** How deep its containers go. *)
Fixpoint jdepth (j : jvalue) : Z :=
  match j with
  | JArray l => 1 + foldr (fun j d => Z.max (jdepth j) d) 0 l
  | JObject l => 1 + foldr (fun m d => Z.max (jdepth m.2) d) 0 l
  | _ => 0
  end.

Lemma run_app s a b : run s (a ++ b) = s' ← run s a; run s' b.
Proof. revert s. induction a as [|c a IH]; intros s; [done|]. cbn. destruct (step s c); [|done]. cbn. apply IH. Qed.

(** *** Strings *)

Lemma run_escaped r st raw :
  rune_ok r -> run (at_ (InString SPlain raw) st) (quote_rune r) = Some (at_ (InString SPlain (rev (quote_rune r) ++ raw)) st).
Proof.
  assert (forall bs raw, Forall (fun b => is_self b = false) bs ->
    run (at_ (InString SPlain raw) st) bs = Some (at_ (InString SPlain (rev bs ++ raw)) st)) as High.
  { intros bs. induction bs as [|b bs IH]; intros acc F; [done|]. apply Forall_cons in F as [B F]. cbn [run].
    assert (step (at_ (InString SPlain acc) st) b = Some (at_ (InString SPlain (b :: acc)) st)) as ->.
    { unfold is_self in B. apply N.ltb_ge in B. cbn. unfold in_string.
      destruct (Byte.eqb b quote) eqn:Q; [apply Byte.byte_dec_bl in Q; by subst|].
      destruct (Byte.eqb b backslash) eqn:K; [apply Byte.byte_dec_bl in K; by subst|].
      destruct (to_N b <? 32)%N eqn:L; [apply N.ltb_lt in L; lia|done]. }
    cbn [mbind option_bind]. rewrite IH by done. cbn [rev]. by rewrite <- app_assoc. }
  destruct r as [b|bs|]; cbn [rune_ok]; [intros B|intros (_ & _ & F)|done].
  - destruct b; try done; reflexivity.
  - cbn [quote_rune]. case_bool_decide; [done|]. case_bool_decide; [done|]. by apply High.
Qed.

(** An escape outside the surrogates reads as its code point. *)
Lemma unquote_hex a b c d rs :
  ((hex4 a b c d <? 55296) || (57344 <=? hex4 a b c d))%N = true ->
  unquote (Ascii backslash :: Ascii x75 :: Ascii a :: Ascii b :: Ascii c :: Ascii d :: rs) = AppendRune (hex4 a b c d) ++ unquote rs.
Proof.
  intros L. assert (forall lo, pair_of (hex4 a b c d) lo = None) as No.
  { intros lo. unfold pair_of. destruct (_ && _) eqn:E; [|done]. rewrite !andb_true_iff, orb_true_iff, !N.leb_le, !N.ltb_lt in *. lia. }
  cbn -[hex4 AppendRune]. destruct rs as [|[x| |] [|[y| |] [|[g1| |] [|[g2| |] [|[g3| |] [|[g4| |] rs]]]]]]; try done.
  rewrite No. by destruct (_ && _).
Qed.

Lemma unquote_plain b rs : Byte.eqb b backslash = false -> unquote (Ascii b :: rs) = b :: unquote rs.
Proof. intros E. cbn. by rewrite E. Qed.

Lemma unquote_escape b rs : is_self b = true -> unquote ((Ascii <$> (if html_safe b then [b] else escape b)) ++ rs) = b :: unquote rs.
Proof.
  intros B. destruct b; try done; try (by apply unquote_plain); try reflexivity;
    match goal with |- unquote (?l ++ _) = _ => let l' := eval vm_compute in l in change l with l' end;
    cbn [app]; by rewrite (unquote_hex _ _ _ _ rs).
Qed.

(** An escape, read in its place. *)
Lemma unquote_hex_runes d1 d2 d3 d4 rest :
  forallb is_self [d1; d2; d3; d4] = true -> ((hex4 d1 d2 d3 d4 <? 55296) || (57344 <=? hex4 d1 d2 d3 d4))%N = true ->
  unquote (runes ([backslash; x75; d1; d2; d3; d4] ++ rest)) = AppendRune (hex4 d1 d2 d3 d4) ++ unquote (runes rest).
Proof.
  intros A L. rewrite runes_ascii; [by apply unquote_hex|]. repeat (apply Forall_cons_2; [done|]). by apply forallb_Forall_true in A.
Qed.

Lemma unquote_escaped r rest :
  rune_ok r -> unquote (runes (quote_rune r ++ rest)) = rune_bytes r ++ unquote (runes rest).
Proof.
  destruct r as [b|bs|]; cbn [rune_ok quote_rune rune_bytes].
  - intros B. rewrite runes_ascii; [by apply unquote_escape|]. by destruct b; repeat constructor.
  - intros (M & _). case_bool_decide; [|case_bool_decide; [|by rewrite M]]; subst bs; by rewrite unquote_hex_runes.
  - intros _. by rewrite unquote_hex_runes.
Qed.

Lemma unquote_quoted rs : Forall rune_ok rs -> unquote (runes (concat (quote_rune <$> rs))) = concat (rune_bytes <$> rs).
Proof. induction 1 as [|r rs O _ IH]; [done|]. cbn [fmap list_fmap concat]. by rewrite unquote_escaped, IH. Qed.

Lemma run_quoted rs st raw :
  Forall rune_ok rs ->
  run (at_ (InString SPlain raw) st) (concat (quote_rune <$> rs)) = Some (at_ (InString SPlain (rev (concat (quote_rune <$> rs)) ++ raw)) st).
Proof.
  intros F. revert raw. induction F as [|r rs O _ IH]; intros raw; [done|]. cbn [fmap list_fmap concat].
  rewrite run_app, run_escaped by done. cbn [mbind option_bind]. by rewrite IH, rev_app_distr, <- app_assoc.
Qed.

(** A printed string, from its first quote on. *)
Lemma run_string s st :
  run (at_ (InString SPlain []) st) (concat (quote_rune <$> runes s) ++ [quote]) = Some (complete (JString (ToValidUTF8 s)) st).
Proof.
  rewrite run_app, run_quoted by apply runes_ok. cbn [mbind option_bind run]. rewrite app_nil_r.
  cbn [step state at_ in_string stack]. unfold in_string. cbn [Byte.eqb]. rewrite rev_involutive, unquote_quoted by apply runes_ok. done.
Qed.

(** *** Numbers *)

(** Where the scanner is after a printed document: a number is over when
    something else comes. *)
Definition pending (j : jvalue) (st : list frame) : scanner :=
  match j with
  | JNumber t => at_ (InNumber (default NNeg (num_phase_of t)) (rev t)) st
  | _ => complete (norm j) st
  end.

Lemma run_digits t p p' raw st :
  num_run p t = Some p' -> run (at_ (InNumber p raw) st) t = Some (at_ (InNumber p' (rev t ++ raw)) st).
Proof.
  revert p raw. induction t as [|b t IH]; intros p raw; [by intros [= ->]|]. cbn [num_run run]. intros E.
  destruct (num_next p b) as [p1|] eqn:N; [|done]. cbn [step state at_]. rewrite N. cbn [mbind option_bind] in *.
  cbn [rev]. rewrite <- app_assoc. by apply IH.
Qed.

Lemma begin_number b p st : num_start b = Some p -> begin_value st b = Some (at_ (InNumber p [b]) st).
Proof. destruct b; intros [= <-]; reflexivity. Qed.

Lemma run_number t st : number_text t = true -> run (at_ BeginValue st) t = Some (pending (JNumber t) st).
Proof.
  unfold number_text, pending, num_phase_of. destruct t as [|b t]; [done|]. destruct (num_start b) as [p|] eqn:B; [|done].
  cbn [mbind option_bind]. destruct (num_run p t) as [p'|] eqn:R; [|done]. intros _. cbn [run step state at_ stack].
  rewrite (begin_number _ _ st B). cbn [mbind option_bind default]. by rewrite (run_digits _ _ _ _ _ R).
Qed.

(** *** Values *)

(** What may follow a value. *)
Definition ends_value (c : byte) : bool := existsb (Byte.eqb c) [comma; x5d; x7d; x20].

Lemma step_complete v st c : step (complete v st) c = end_value (complete v st) c.
Proof. by destruct st as [|[l|l [k|]] st]. Qed.

Lemma step_pending j st c :
  numbers_ok j = true -> ends_value c = true -> step (pending j st) c = end_value (complete (norm j) st) c.
Proof.
  destruct j as [|b|t|s|l|l]; cbn [numbers_ok pending]; try (intros _ _; apply step_complete). unfold number_text.
  destruct (num_phase_of t) as [p|]; [|done]. intros E C. change (default NNeg (Some p)) with p. cbn [step state at_ stack].
  rewrite rev_involutive, E.
  assert (num_next p c = None) as ->; [|done]. by destruct p; try done; destruct c.
Qed.

Lemma next_element v l st : end_value (complete v (FArray l :: st)) comma = Some (at_ BeginValue (FArray (v :: l) :: st)).
Proof. done. Qed.
Lemma next_member v l k st :
  end_value (complete v (FObject l (Some k) :: st)) comma = Some (at_ BeginString (FObject ((k, v) :: l) None :: st)).
Proof. done. Qed.

Definition print_runs (j : jvalue) : Prop := forall st,
  numbers_ok j = true -> jdepth j + Z.of_nat (length st) <= maxNestingDepth -> run (at_ BeginValue st) (print j) = Some (pending j st).

Lemma array_tail l j done st :
  Forall print_runs l -> forallb numbers_ok l = true -> Forall (fun j => jdepth j + Z.of_nat (length st) + 1 <= maxNestingDepth) l ->
  numbers_ok j = true ->
  run (pending j (FArray done :: st)) (concat ((fun y => comma :: y) <$> map print l) ++ [x5d]) =
    Some (complete (JArray (rev done ++ norm j :: map norm l)) st).
Proof.
  intros R. revert j done. induction R as [|j' l R' R IH]; intros j done N D O; cbn [map fmap list_fmap concat app run forallb].
  - by rewrite step_pending.
  - cbn in N. apply andb_true_iff in N as [N' N]. apply Forall_cons in D as [D' D].
    rewrite step_pending, next_element by done. cbn [mbind option_bind].
    rewrite <- app_assoc, run_app, R' by (done || (cbn [length]; lia)). cbn [mbind option_bind].
    rewrite (IH j' (norm j :: done)) by done. cbn [rev map]. by rewrite <- app_assoc.
Qed.

(** A member, from its first quote on. *)
Lemma run_member m l st :
  print_runs m.2 -> numbers_ok m.2 = true -> jdepth m.2 + Z.of_nat (length st) + 1 <= maxNestingDepth ->
  run (at_ BeginString (FObject l None :: st)) (print_string m.1 ++ x3a :: print m.2) =
    Some (pending m.2 (FObject l (Some (ToValidUTF8 m.1)) :: st)).
Proof.
  intros R N D. change (run (at_ (InString SPlain []) (FObject l None :: st)) ((concat (quote_rune <$> runes m.1) ++ [quote]) ++ x3a :: print m.2) =
    Some (pending m.2 (FObject l (Some (ToValidUTF8 m.1)) :: st))).
  rewrite run_app, run_string. cbn [mbind option_bind complete run]. apply R; [done|]. cbn [length]. lia.
Qed.

Lemma object_tail l m done st :
  Forall (fun m => print_runs m.2) l -> forallb (fun m => numbers_ok m.2) l = true ->
  Forall (fun m => jdepth m.2 + Z.of_nat (length st) + 1 <= maxNestingDepth) l -> numbers_ok m.2 = true ->
  run (pending m.2 (FObject done (Some (ToValidUTF8 m.1)) :: st))
    (concat ((fun y => comma :: y) <$> map (fun m => print_string m.1 ++ x3a :: print m.2) l) ++ [x7d]) =
    Some (complete (JObject (rev done ++ map (fun m => (ToValidUTF8 m.1, norm m.2)) (m :: l))) st).
Proof.
  intros R. revert m done. induction R as [|m' l R' R IH]; intros m done N D O; cbn [map fmap list_fmap concat app run forallb].
  - by rewrite step_pending.
  - cbn in N. apply andb_true_iff in N as [N' N]. apply Forall_cons in D as [D' D].
    rewrite step_pending, next_member by done. cbn [mbind option_bind].
    rewrite <- app_assoc, run_app, run_member by done. cbn [mbind option_bind].
    rewrite (IH m' ((ToValidUTF8 m.1, norm m.2) :: done)) by done. cbn [rev map]. by rewrite <- app_assoc.
Qed.

Lemma depth_fits {A} (f : A -> Z) l n :
  1 + foldr (fun x d => Z.max (f x) d) 0 l + n <= maxNestingDepth -> Forall (fun x => f x + n + 1 <= maxNestingDepth) l.
Proof. induction l as [|x l IH]; cbn; intros L; constructor; [lia|apply IH; lia]. Qed.

Lemma push_fits f s st : Z.of_nat (length st) + 1 <= maxNestingDepth -> push f s st = Some (at_ s (f :: st)).
Proof. intros L. unfold push. cbn [length]. by rewrite (proj2 (Z.leb_le _ _)) by lia. Qed.

Lemma print_head j : numbers_ok j = true -> exists c t, print j = c :: t /\ is_space c = false /\ Byte.eqb c x5d = false.
Proof.
  destruct j as [|[]|t|s|l|l]; cbn [numbers_ok print]; try (by eexists _, _). unfold number_text, num_phase_of.
  destruct t as [|b t]; [done|]. intros N. exists b, t. split; [done|]. by destruct b.
Qed.

Lemma first_element j st r :
  numbers_ok j = true -> run (at_ BeginValueOrEmpty st) (print j ++ r) = run (at_ BeginValue st) (print j ++ r).
Proof. intros (c & t & -> & S & E)%print_head. cbn [app run step state at_ stack]. by rewrite S, E. Qed.

Lemma depth_nonneg {A} (f : A -> Z) l : 0 <= foldr (fun x d => Z.max (f x) d) 0 l.
Proof. induction l; cbn; lia. Qed.

(** Whatever is printed, the scanner reads it back. *)
Lemma run_print j : print_runs j.
Proof.
  induction j as [|b|t|s|l IH|l IH] using jvalue_nested_ind; intros st N D.
  - done.
  - by destruct b.
  - by apply run_number.
  - cbn [print]. unfold print_string. by apply run_string.
  - cbn [jdepth numbers_ok] in D, N. assert (Forall (fun j => jdepth j + Z.of_nat (length st) + 1 <= maxNestingDepth) l) as Ds by by apply depth_fits.
    change (push (FArray []) BeginValueOrEmpty st ≫= (fun s => run s (joined (map print l) ++ [x5d])) = Some (pending (JArray l) st)).
    rewrite push_fits by (pose proof (depth_nonneg jdepth l); lia). cbn [mbind option_bind]. destruct l as [|j l]; [done|].
    cbn [map joined forallb] in *. apply andb_true_iff in N as [Nj N]. apply Forall_cons in IH as [Ij IH]. apply Forall_cons in Ds as [Dj Ds].
    rewrite <- app_assoc, first_element, run_app, Ij by (done || (cbn [length]; lia)). cbn [mbind option_bind].
    by rewrite array_tail.
  - cbn [jdepth numbers_ok] in D, N. assert (Forall (fun m => jdepth m.2 + Z.of_nat (length st) + 1 <= maxNestingDepth) l) as Ds
      by by apply (depth_fits (fun m => jdepth m.2)).
    change (push (FObject [] None) BeginStringOrEmpty st ≫=
      (fun s => run s (joined (map (fun m => print_string m.1 ++ x3a :: print m.2) l) ++ [x7d])) = Some (pending (JObject l) st)).
    rewrite push_fits by (pose proof (depth_nonneg (fun m => jdepth m.2) l); lia). cbn [mbind option_bind]. destruct l as [|m l]; [done|].
    cbn [map joined forallb] in *. apply andb_true_iff in N as [Nm N]. apply Forall_cons in IH as [Im IH]. apply Forall_cons in Ds as [Dm Ds].
    rewrite <- app_assoc.
    change (run (at_ BeginStringOrEmpty ?st') ((print_string m.1 ++ ?r) ++ ?r')) with (run (at_ BeginString st') ((print_string m.1 ++ r) ++ r')).
    rewrite run_app, run_member by done. cbn [mbind option_bind]. by rewrite (object_tail l m []).
Qed.

(** A printed document parses to itself, its strings read as UTF-8. *)
Lemma parse_print j : numbers_ok j = true -> jdepth j <= maxNestingDepth -> parse (print j) = Some (norm j).
Proof.
  intros N D. unfold parse. rewrite run_app, run_print by (done || (cbn; lia)). cbn [mbind option_bind run].
  by rewrite step_pending.
Qed.

(** A number alone is a document as well. *)
Lemma number_Valid t : number_text t = true -> Valid t = true.
Proof. intros N. unfold Valid. change t with (print (JNumber t)). by rewrite parse_print. Qed.

(** A printed document is one line: it has no control characters. *)
Definition visible (b : byte) : Prop := (32 <= to_N b)%N.

Lemma visible_string s : Forall visible (print_string s).
Proof.
  constructor; [done|]. apply Forall_app. split; [|by constructor]. apply Forall_concat, Forall_fmap.
  eapply Forall_impl; [apply runes_ok|]. intros r O. cbn. destruct r as [b|bs|]; cbn [quote_rune rune_ok] in *.
  - destruct b; try done; repeat constructor; done.
  - destruct O as (_ & _ & F). repeat (case_bool_decide; [by repeat constructor|]). eapply Forall_impl; [exact F|].
    intros b B. unfold is_self, visible in *. apply N.ltb_ge in B. lia.
  - by repeat constructor.
Qed.

Lemma visible_number t : number_text t = true -> Forall visible t.
Proof.
  assert (forall t p, num_run p t <> None -> Forall visible t) as R.
  { clear. intros t. induction t as [|b t IH]; intros p; [by constructor|]. cbn [num_run]. destruct (num_next p b) eqn:E; [|done].
    cbn [mbind option_bind]. intros N. constructor; [by destruct p, b|by eapply IH]. }
  unfold number_text, num_phase_of. destruct t as [|b t]; [done|]. destruct (num_start b) as [p|] eqn:B; [|done]. cbn [mbind option_bind].
  destruct (num_run p t) eqn:E; [|done]. intros _. constructor; [by destruct b|]. eapply R. by rewrite E.
Qed.

Lemma visible_joined ls : Forall (Forall visible) ls -> Forall visible (joined ls).
Proof.
  destruct 1 as [|l ls L F]; [done|]. cbn [joined]. apply Forall_app. split; [done|]. apply Forall_concat, Forall_fmap.
  eapply Forall_impl; [exact F|]. intros x X. by constructor.
Qed.

Lemma visible_print j : numbers_ok j = true -> Forall visible (print j).
Proof.
  induction j as [|b|t|s|l IH|l IH] using jvalue_nested_ind; cbn [print numbers_ok]; intros N.
  - by repeat constructor.
  - destruct b; by repeat constructor.
  - by apply visible_number.
  - apply visible_string.
  - constructor; [done|]. apply Forall_app. split; [|by constructor]. apply visible_joined. apply forallb_Forall_true in N.
    apply Forall_forall. intros x (j & -> & I)%list_elem_of_fmap. rewrite Forall_forall in IH, N. by apply IH, N.
  - constructor; [done|]. apply Forall_app. split; [|by constructor]. apply visible_joined. apply forallb_Forall_true in N.
    apply Forall_forall. intros x (m & -> & I)%list_elem_of_fmap. rewrite Forall_forall in IH, N. apply Forall_app. split; [apply visible_string|].
    constructor; [done|]. by apply IH, N.
Qed.

(** ** Decoding into a map[string]interface{} *)

Section decode.
Context `{GoLib}.

(** valueInterface: a number out of range is an error, a repeated key holds
    its last value. *)
Definition convertNumber (t : list byte) : result float64 :=
  match ParseFloat (string_of_bytes t) with
  | Ok f => Ok f
  | Err _ => Err (LibError "json: cannot unmarshal number into Go value of type float64")
  | Panic => Panic
  end.

Definition add_member (m : fields) (k : list byte) (v : value) : fields := <[string_of_bytes k := v]> m.

Fixpoint valueInterface (j : jvalue) : result value :=
  match j with
  | JNull => Ok VNil
  | JBool b => Ok (VBool b)
  | JNumber t => f ← convertNumber t; Ok (VFloat64 f)
  | JString s => Ok (VString (string_of_bytes s))
  | JArray l =>
      vs ← (fix go l := match l with [] => Ok [] | j :: l => v ← valueInterface j; vs ← go l; Ok (v :: vs) end) l;
      Ok (VSlice vs)
  | JObject l =>
      m ← (fix go l m := match l with [] => Ok m | (k, j) :: l => v ← valueInterface j; go l (add_member m k v) end) l ∅;
      Ok (VMap m)
  end.

(** json.Unmarshal into a nil map[string]interface{}; null leaves it nil. *)
Definition Unmarshal (b : list byte) : result fields :=
  match parse b with
  | None => Err (LibError "invalid character or unexpected end of JSON input")
  | Some JNull => Ok ∅
  | Some (JObject l) =>
      match valueInterface (JObject l) with Ok (VMap m) => Ok m | Ok _ => Ok ∅ | Err e => Err e | Panic => Panic end
  | Some _ => Err (LibError "json: cannot unmarshal into Go value of type map[string]interface {}")
  end.

(** *** The loops of an array and of an object *)

Definition elements : list jvalue -> result (list value) :=
  fix go l := match l with [] => Ok [] | j :: l => v ← valueInterface j; vs ← go l; Ok (v :: vs) end.
Definition members : list (list byte * jvalue) -> fields -> result fields :=
  fix go l m := match l with [] => Ok m | (k, j) :: l => v ← valueInterface j; go l (add_member m k v) end.

Lemma valueInterface_array l : valueInterface (JArray l) = vs ← elements l; Ok (VSlice vs).
Proof. done. Qed.
Lemma valueInterface_object l : valueInterface (JObject l) = m ← members l ∅; Ok (VMap m).
Proof. done. Qed.

Lemma Unmarshal_object b l : parse b = Some (JObject l) -> Unmarshal b = members l ∅.
Proof. unfold Unmarshal. intros ->. rewrite valueInterface_object. by destruct (members l ∅). Qed.

Context `{!GoLibLaws}.

Lemma valueInterface_safe j : no_panic (valueInterface j).
Proof.
  induction j as [|b|t|s|l IH|l IH] using jvalue_nested_ind; try done.
  - cbn. unfold convertNumber. pose proof (ParseFloat_safe (string_of_bytes t)). by destruct (ParseFloat _).
  - rewrite valueInterface_array. assert (no_panic (elements l)) as E; [|by destruct (elements l)].
    induction IH as [|j l J _ IH]; [done|]. cbn. destruct (valueInterface j); [|done..]. cbn. by destruct (elements l).
  - rewrite valueInterface_object. assert (forall m, no_panic (members l m)) as E; [|specialize (E ∅); by destruct (members l ∅)].
    induction IH as [|[k j] l J _ IH]; [done|]. intros m. cbn in *. destruct (valueInterface j); [|done..]. apply IH.
Qed.

Lemma Unmarshal_safe b : no_panic (Unmarshal b).
Proof.
  unfold Unmarshal. destruct (parse b) as [[| | | | |l]|]; try done. pose proof (valueInterface_safe (JObject l)).
  destruct (valueInterface (JObject l)) as [[]| |]; done.
Qed.
End decode.

(** ** Encoding *)

(** The text of numbers and times: the shortest decimal that reads back as the
    float, and RFC 3339. *)
Class JsonText : Type := {
  float_text : float64 -> string;
  float32_text : float64 -> string;
  time_text : gotime -> error + string
}.

Definition is_finite (f : float64) : bool := match f with SpecFloat.S754_zero _ | SpecFloat.S754_finite _ _ _ => true | _ => false end.

Section encode.
Context `{JsonText}.

Definition number (s : string) : jvalue := JNumber (bytes_of_string s).

Definition encode_float (text : float64 -> string) (f : float64) : error + jvalue :=
  if is_finite f then inr (number (text f)) else inl (LibError "json: unsupported value").

(** Keys in the order of strings.Compare. *)
Fixpoint insert_entry {A} (k : string) (x : A) (l : list (string * A)) : list (string * A) :=
  match l with
  | [] => [(k, x)]
  | e :: l => if String.leb k e.1 then (k, x) :: e :: l else e :: insert_entry k x l
  end.

Fixpoint all_elements (l : list (error + jvalue)) : error + list jvalue :=
  match l with
  | [] => inr []
  | inl e :: _ => inl e
  | inr j :: l => match all_elements l with inr js => inr (j :: js) | inl e => inl e end
  end.

Fixpoint all_members (l : list (string * (error + jvalue))) : error + list (list byte * jvalue) :=
  match l with
  | [] => inr []
  | (_, inl e) :: _ => inl e
  | (k, inr j) :: l => match all_members l with inr ms => inr ((bytes_of_string k, j) :: ms) | inl e => inl e end
  end.

Definition array_of (l : error + list jvalue) : error + jvalue := match l with inr l => inr (JArray l) | inl e => inl e end.
Definition object_of (l : error + list (list byte * jvalue)) : error + jvalue := match l with inr l => inr (JObject l) | inl e => inl e end.

(** The encoders of the dynamic values. *)
Fixpoint encode (v : value) : error + jvalue :=
  match v with
  | VNil => inr JNull
  | VBool b => inr (JBool b)
  | VInt n | VInt64 n | VUint64 n => inr (number (FormatInt n))
  | VFloat64 f => encode_float float_text f
  | VFloat32 f => encode_float float32_text f
  | VString s => inr (JString (bytes_of_string s))
  | VBytes b => inr (JString (Base64.EncodeToString b))
  | VTime t => match time_text t with inr s => inr (JString (bytes_of_string s)) | inl e => inl e end
  | VMap m => object_of (all_members (map_fold (fun k v l => insert_entry k (encode v) l) [] m))
  | VMapAny _ => inl (LibError "json: unsupported type: map[interface {}]interface {}")
  | VSlice l => array_of (all_elements (map encode l))
  | VFloats l => array_of (all_elements (map (encode_float float_text) l))
  | VInts l => inr (JArray (map (fun n => number (FormatInt n)) l))
  end.

(** json.Marshal. *)
Definition Marshal (v : value) : error + list byte := match encode v with inr j => inr (print j) | inl e => inl e end.

(** How deep its containers go. *)
Definition depth (v : value) : Z := match encode v with inr j => jdepth j | inl _ => 0 end.
End encode.

(** *** The round trip *)

(** What a value is once it was read back: integers are floats, and strings
    are UTF-8. *)
Definition as_text (s : string) : string := string_of_bytes (ToValidUTF8 (bytes_of_string s)).
Definition as_float (n : Z) : value := VFloat64 (f64_of_Z n).

Fixpoint as_json (v : value) : value :=
  match v with
  | VInt n | VInt64 n | VUint64 n => as_float n
  | VString s => VString (as_text s)
  | VBytes b => VString (string_of_bytes (Base64.EncodeToString b))
  | VMap m => VMap (as_json <$> m)
  | VSlice l => VSlice (as_json <$> l)
  | VFloats l => VSlice (VFloat64 <$> l)
  | VInts l => VSlice (as_float <$> l)
  | _ => v
  end.

(** The values that JSON has a text for: finite floats, 64-bit integers,
    string keys in UTF-8. *)
Definition float_ok (f : float64) : bool := is_finite f && f64_valid f.
Definition int_ok (n : Z) : bool := (min_int64 <=? n) && (n <? 2 ^ 64).

Fixpoint plain (v : value) : bool :=
  match v with
  | VNil | VBool _ | VString _ | VBytes _ => true
  | VInt n | VInt64 n | VUint64 n => int_ok n
  | VFloat64 f => float_ok f
  | VFloats l => forallb float_ok l
  | VInts l => forallb int_ok l
  | VMap m => map_fold (fun k v ok => ValidUTF8 (bytes_of_string k) && plain v && ok) true m
  | VSlice l => forallb plain l
  | VFloat32 _ | VTime _ | VMapAny _ => false
  end.

(** What the texts promise. *)
Class JsonTextLaws `{GoLib, JsonText} : Prop := {
  float_text_number f : float_ok f = true -> number_text (bytes_of_string (float_text f)) = true;
  float_text_reads f : float_ok f = true -> ParseFloat (float_text f) = Ok f;
  int_text_reads n : int_ok n = true -> ParseFloat (FormatInt n) = Ok (f64_of_Z n)
}.

(** Induction on a value through its maps and slices. *)
Fixpoint value_size (v : value) : nat :=
  match v with
  | VMap m => map_fold (fun _ v n => value_size v + n)%nat 1%nat m
  | VSlice l => foldr (fun v n => value_size v + n)%nat 1%nat l
  | _ => 1%nat
  end.

Lemma value_nested_ind (P : value -> Prop) :
  (forall v, (forall m, v <> VMap m) -> (forall l, v <> VSlice l) -> P v) ->
  (forall m, map_Forall (fun _ => P) m -> P (VMap m)) -> (forall l, Forall P l -> P (VSlice l)) -> forall v, P v.
Proof.
  intros Leaf Map Slice v. induction v as [v IH] using (induction_ltof1 _ value_size). unfold ltof in IH.
  destruct v; try (by apply Leaf).
  - apply Map. assert (forall k v, m !! k = Some v -> (value_size v < value_size (VMap m))%nat) as Sz; [|intros k v L; by eapply IH, Sz].
    cbn [value_size]. clear IH. apply (map_fold_weak_ind (fun n m => (1 <= n)%nat /\ forall k v, m !! k = Some v -> (value_size v < n)%nat)).
    + split; [done|]. intros k v L. by rewrite lookup_empty in L.
    + intros k v m' n _ [O L]. split; [lia|]. intros k' v' [[<- <-]|[_ E]]%lookup_insert_Some; [lia|]. specialize (L _ _ E). lia.
  - apply Slice. assert (forall v, v ∈ l -> (value_size v < value_size (VSlice l))%nat) as Sz.
    { cbn [value_size]. clear IH. intros v. induction l as [|x l IH]; [by intros ?%not_elem_of_nil|].
      assert (1 <= foldr (fun v n => value_size v + n)%nat 1%nat l)%nat by (clear; induction l; cbn; lia).
      intros [->|E]%elem_of_cons; cbn [foldr]; [lia|]. specialize (IH E). lia. }
    apply Forall_forall. intros v E. by apply IH, Sz.
Qed.

(** The text of an integer is a number. *)
Lemma digits_run u : num_run NInt (bytes_of_string (DecimalString.NilEmpty.string_of_uint u)) = Some NInt.
Proof. by induction u. Qed.

Lemma to_uint_head p u : Pos.to_uint p <> Decimal.D0 u.
Proof.
  intros E. pose proof (DecimalPos.Unsigned.to_of (Pos.to_uint p)) as T. rewrite DecimalPos.Unsigned.of_to in T. cbn [N.to_uint] in T. rewrite E in T. unfold Decimal.unorm in T.
  destruct (Decimal.nzhead (Decimal.D0 u)) eqn:Z; try done.
  - by apply (DecimalPos.Unsigned.to_uint_nonzero p); rewrite E, T.
  - by apply DecimalFacts.nzhead_nonzero in Z.
Qed.

Lemma FormatInt_number n : number_text (bytes_of_string (FormatInt n)) = true.
Proof.
  assert (forall p, Pos.to_uint p <> Decimal.Nil /\ forall u, Pos.to_uint p <> Decimal.D0 u) as H
    by (intros p; split; [apply pos_to_uint_nonnil|apply to_uint_head]).
  destruct n as [|p|p]; [done|rewrite FormatInt_nonneg|rewrite FormatInt_neg]; destruct (H p) as [N0 N1];
    destruct (Pos.to_uint p) as [|u|u|u|u|u|u|u|u|u|u]; try done; try (by destruct (N1 u));
    pose proof (digits_run u) as D; unfold number_text, num_phase_of, bytes_of_string, String.list_byte_of_string in *; cbn in *; by rewrite D.
Qed.

Section roundtrip.
Context `{GoLib, JsonText, !JsonTextLaws}.

(** A value is encoded by [j], which reads back as [w]. *)
Definition reads (e : error + jvalue) (w : value) : Prop :=
  exists j, e = inr j /\ numbers_ok j = true /\ valueInterface (norm j) = Ok w.

Lemma reads_float f : float_ok f = true -> reads (encode_float float_text f) (VFloat64 f).
Proof.
  intros F. pose proof F as [Fi _]%andb_true_iff. unfold reads, encode_float. rewrite Fi. eexists. split; [done|]. split; [by apply float_text_number|].
  cbn. unfold convertNumber. by rewrite string_of_bytes_of_string, float_text_reads.
Qed.

Lemma reads_int n : int_ok n = true -> reads (inr (number (FormatInt n))) (as_float n).
Proof.
  intros F. eexists. split; [done|]. split; [apply FormatInt_number|]. cbn. unfold convertNumber.
  by rewrite string_of_bytes_of_string, int_text_reads.
Qed.

Lemma reads_elements {A} (enc : A -> error + jvalue) (back : A -> value) l :
  Forall (fun x => reads (enc x) (back x)) l -> reads (array_of (all_elements (map enc l))) (VSlice (back <$> l)).
Proof.
  intros F. assert (exists js, all_elements (map enc l) = inr js /\ forallb numbers_ok js = true /\ elements (map norm js) = Ok (back <$> l)) as (js & -> & N & E).
  { induction F as [|x l (j & Ej & Nj & Vj) _ (js & Es & N & E)]; [by exists []|]. exists (j :: js). cbn. rewrite Ej, Es, Nj, Vj. cbn.
    split_and!; [done..|]. by rewrite E. }
  exists (JArray js). split; [done|]. split; [done|]. cbn [norm]. by rewrite valueInterface_array, E.
Qed.

(** *** Objects *)

Lemma insert_entry_perm {A} k (x : A) l : insert_entry k x l ≡ₚ (k, x) :: l.
Proof. induction l as [|e l IH]; [done|]. cbn. case_match; [done|]. rewrite IH. by constructor. Qed.

Lemma entries_perm {A} (f : value -> A) m : map_fold (fun k v l => insert_entry k (f v) l) [] m ≡ₚ map_to_list (f <$> m).
Proof.
  apply (map_fold_weak_ind (fun l m => l ≡ₚ map_to_list (f <$> m))); [done|].
  intros k v m' l N IH. rewrite insert_entry_perm, fmap_insert, map_to_list_insert; [by rewrite IH|]. by rewrite lookup_fmap, N.
Qed.

Lemma plain_map m k v : plain (VMap m) = true -> m !! k = Some v -> ValidUTF8 (bytes_of_string k) = true /\ plain v = true.
Proof.
  cbn [plain]. revert k v. apply (map_fold_weak_ind (fun ok m => forall k v, ok = true -> m !! k = Some v -> ValidUTF8 (bytes_of_string k) = true /\ plain v = true)).
  - intros k v _ L. by rewrite lookup_empty in L.
  - intros k v m' ok _ IH k' v'. rewrite !andb_true_iff. intros [[V P] O] [[<- <-]|[_ E]]%lookup_insert_Some; [done|by eapply IH].
Qed.

Lemma plain_map_intro (m : fields) :
  map_Forall (fun k v => ValidUTF8 (bytes_of_string k) = true /\ plain v = true) m -> plain (VMap m) = true.
Proof.
  cbn [plain]. apply (map_fold_weak_ind (fun ok m =>
    map_Forall (fun k v => ValidUTF8 (bytes_of_string k) = true /\ plain v = true) m -> ok = true)); [done|].
  intros k v m' ok N IH F. apply map_Forall_insert in F as [[V P] F]; [|done]. by rewrite V, P, IH.
Qed.

(** A map of scalars is one level deep. *)
Definition scalar (v : value) : bool := match v with VNil | VBool _ | VInt _ | VInt64 _ | VUint64 _ | VFloat64 _ | VString _ => true | _ => false end.

Lemma scalar_depth v j : scalar v = true -> encode v = inr j -> jdepth j = 0.
Proof. destruct v; cbn [encode scalar]; try done; try (by intros _ [= <-]). unfold encode_float. intros _. by case_match; [intros [= <-]|]. Qed.

Lemma flat_depth (m : fields) : map_Forall (fun _ v => scalar v = true) m -> depth (VMap m) <= 1.
Proof.
  intros F. unfold depth. cbn [encode]. set (es := map_fold _ _ _). assert (es ≡ₚ map_to_list (encode <$> m)) as Pm by apply entries_perm.
  assert (Forall (fun e => forall j, e.2 = inr j -> jdepth j = 0) es) as Fs.
  { rewrite Pm. apply Forall_forall. intros [k e] I j E. apply elem_of_map_to_list in I. rewrite lookup_fmap in I. cbn [snd] in E. subst.
    destruct (m !! k) as [v|] eqn:L; [|done]. injection I as I. eapply scalar_depth; [by eapply F|done]. }
  assert (forall ms, all_members es = inr ms -> foldr (fun m d => Z.max (jdepth m.2) d) 0 ms = 0) as D.
  { clear -Fs. induction Fs as [|[k [e|j]] es J _ IH]; intros ms; cbn [all_members]; [by intros [= <-]|done|].
    destruct (all_members es) as [e|ms']; [done|]. intros [= <-]. cbn. rewrite IH, (J j) by done. done. }
  unfold object_of. destruct (all_members es) as [e|ms]; [lia|]. cbn [jdepth]. rewrite (D ms) by done. lia.
Qed.

(** Members in any order, each the entry of [m] under its key. *)
Lemma members_read (m : fields) es :
  Forall (fun e => ValidUTF8 (bytes_of_string e.1) = true /\ exists v, m !! e.1 = Some v /\ reads e.2 (as_json v)) es ->
  exists ms, all_members es = inr ms /\ forallb (fun m => numbers_ok m.2) ms = true /\
    forall acc, exists r, members (map (fun m => (ToValidUTF8 m.1, norm m.2)) ms) acc = Ok r /\
      forall k, r !! k = if decide (k ∈ es.*1) then as_json <$> m !! k else acc !! k.
Proof.
  induction 1 as [|[k e] es (V & v & L & j & Ej & Nj & Rj) _ (ms & Es & N & M)].
  - exists []. split_and!; [done..|]. intros acc. exists acc. done.
  - exists ((bytes_of_string k, j) :: ms). cbn [all_members forallb]. cbn [fst snd] in *. rewrite Ej, Es, Nj. split_and!; [done..|]. intros acc.
    cbn [map members fst snd]. rewrite Rj, (ToValidUTF8_id _ V). cbn [mbind res_bind]. unfold add_member. rewrite string_of_bytes_of_string.
    destruct (M (<[k := as_json v]> acc)) as (r & Er & Lr). exists r. split; [exact Er|]. intros k'. rewrite Lr. cbn [fmap list_fmap].
    destruct (decide (k' ∈ es.*1)) as [I|I]; [by rewrite decide_True by by right|]. destruct (decide (k' = k)) as [->|Ne].
    + rewrite decide_True by by left. by rewrite lookup_insert_eq, L.
    + rewrite decide_False; [by rewrite lookup_insert_ne|]. by intros [?|?]%elem_of_cons.
Qed.

Lemma reads_text b : reads (inr (JString b)) (VString (string_of_bytes (ToValidUTF8 b))).
Proof. by eexists. Qed.

Lemma integers_are_elements l : array_of (all_elements (map (fun n => inr (number (FormatInt n))) l)) = inr (JArray (map (fun n => number (FormatInt n)) l)).
Proof.
  assert (all_elements (map (fun n => inr (number (FormatInt n))) l) = inr (map (fun n => number (FormatInt n)) l)) as ->; [|done].
  induction l as [|n l IH]; [done|]. cbn. by rewrite IH.
Qed.

Lemma encode_reads v : plain v = true -> reads (encode v) (as_json v).
Proof.
  induction v as [v NoMap NoSlice|m IH|l IH] using value_nested_ind; intros P.
  - destruct v; cbn [plain encode as_json] in *; try done; try (by eexists); try (by apply reads_int); try (by apply reads_float).
    + pose proof (reads_text (Base64.EncodeToString b)) as R. rewrite ToValidUTF8_ascii in R; [done|].
      eapply Forall_impl; [apply Base64.EncodeToString_chars|]. by intros ? (_ & ? & _).
    + by destruct (NoMap m).
    + by destruct (NoSlice l).
    + apply (reads_elements (encode_float float_text) VFloat64). apply forallb_Forall_true in P. eapply Forall_impl; [exact P|]. apply reads_float.
    + rewrite <- integers_are_elements. apply (reads_elements (fun n => inr (number (FormatInt n))) as_float).
      apply forallb_Forall_true in P. eapply Forall_impl; [exact P|]. apply reads_int.
  - cbn [encode as_json]. set (es := map_fold _ _ _). assert (es ≡ₚ map_to_list (encode <$> m)) as Pm by apply entries_perm.
    destruct (members_read m es) as (ms & E & N & M).
    { rewrite Pm. apply Forall_forall. intros [k e] I. apply elem_of_map_to_list in I. cbn [fst snd]. rewrite lookup_fmap in I.
      destruct (m !! k) as [v|] eqn:L; [|done]. injection I as <-. destruct (plain_map m k v P L) as [V Pv]. split; [done|].
      exists v. split; [done|]. by eapply IH. }
    unfold reads. rewrite E. exists (JObject ms). split; [done|]. split; [done|]. cbn [norm]. rewrite valueInterface_object.
    destruct (M ∅) as (r & -> & Lr). cbn [mbind res_bind]. do 2 f_equal. apply map_eq. intros k. rewrite Lr, lookup_fmap, lookup_empty.
    destruct (decide (k ∈ es.*1)) as [|I]; [done|]. destruct (m !! k) as [v|] eqn:L; [|done]. destruct I.
    apply list_elem_of_fmap. exists (k, encode v). split; [done|]. rewrite Pm. apply elem_of_map_to_list. by rewrite lookup_fmap, L.
  - cbn [plain encode as_json] in *. apply reads_elements. apply forallb_Forall_true in P. rewrite Forall_forall in *.
    intros v I. by apply IH, P.
Qed.

(** What is marshalled reads back. *)
Lemma Unmarshal_Marshal m :
  plain (VMap m) = true -> depth (VMap m) <= maxNestingDepth ->
  exists text, Marshal (VMap m) = inr text /\ text <> [] /\ Forall visible text /\ Valid text = true /\ Unmarshal text = Ok (as_json <$> m).
Proof.
  intros P D. destruct (encode_reads _ P) as (j & E & N & R). unfold Marshal, depth in *. rewrite E in *. exists (print j). split; [done|].
  pose proof (parse_print j N D) as Pp. split; [by intros X; rewrite X in Pp|]. split; [by apply visible_print|].
  unfold Valid. rewrite Pp. split; [done|].
  assert (exists l, j = JObject l) as [l ->].
  { cbn [encode] in E. unfold object_of in E. destruct (all_members _); [done|]. injection E as <-. by eexists. }
  rewrite (Unmarshal_object _ _ Pp). cbn [norm] in R. rewrite valueInterface_object in R.
  destruct (members _ ∅) as [r| |]; cbn in R; [|done..]. by injection R as ->.
Qed.
End roundtrip.

End Json.
#[export] Hint Resolve Json.Unmarshal_safe : qnc.
