(* ===== verification/Qdb.v ===== *)
(** * QuasarDB client: writer tables and error classification

    The part of the vendored client (vendor/github.com/bureau14/qdb-api-go/v3)
    whose contract the connector relies on: single-table column storage
    (writer_table.go), the merge of tables of one name (MergeWriterTables), the
    type tags (entry_timeseries_common.go) and the two questions asked of an
    error, IsRetryable and IsClusterUnavailable (error.go). *)
From S2P Require Import Prelude GoInt GoStr GoFloat GoTime Values.
From Stdlib.Strings Require Import Byte.

Inductive TsColumnType : Set :=
  | TsColumnUninitialized | TsColumnBlob | TsColumnDouble | TsColumnInt64
  | TsColumnString | TsColumnTimestamp | TsColumnSymbol.

#[export] Instance TsColumnType_eq_dec : EqDecision TsColumnType.
Proof. solve_decision. Defined.

Inductive TsValueType : Set :=
  | TsValueNull | TsValueDouble | TsValueInt64 | TsValueTimestamp | TsValueBlob | TsValueString.

#[export] Instance TsValueType_eq_dec : EqDecision TsValueType.
Proof. solve_decision. Defined.

Definition AsValueType (t : TsColumnType) : TsValueType :=
  match t with
  | TsColumnBlob => TsValueBlob
  | TsColumnSymbol | TsColumnString => TsValueString
  | TsColumnDouble => TsValueDouble
  | TsColumnInt64 => TsValueInt64
  | TsColumnTimestamp => TsValueTimestamp
  | TsColumnUninitialized => TsValueNull
  end.

(** qdb.Int64Undefined(): 0x8000000000000000. *)
Definition Int64Undefined : Z := min_int64.

Record WriterColumn : Type := { ColumnName : string; ColumnType : TsColumnType }.

#[export] Instance WriterColumn_eq_dec : EqDecision WriterColumn.
Proof. solve_decision. Defined.

Inductive ColumnData : Type :=
  | CDInt64 (xs : list Z)
  | CDDouble (xs : list float64)
  | CDString (xs : list string)
  | CDBlob (xs : list (list byte))
  | CDTimestamp (xs : list gotime).

Definition ValueType (cd : ColumnData) : TsValueType :=
  match cd with
  | CDInt64 _ => TsValueInt64 | CDDouble _ => TsValueDouble | CDString _ => TsValueString
  | CDBlob _ => TsValueBlob | CDTimestamp _ => TsValueTimestamp
  end.

Definition cd_Length (cd : ColumnData) : nat :=
  match cd with
  | CDInt64 xs => length xs | CDDouble xs => length xs | CDString xs => length xs
  | CDBlob xs => length xs | CDTimestamp xs => length xs
  end.

(** GetColumnDataInt64, GetColumnDataString. *)
Definition GetColumnDataInt64 (cd : ColumnData) : option (list Z) :=
  match cd with CDInt64 xs => Some xs | _ => None end.
Definition GetColumnDataString (cd : ColumnData) : option (list string) :=
  match cd with CDString xs => Some xs | _ => None end.

Record WriterTable : Type := {
  TableName : string;
  rowCount : nat;
  columnInfoByOffset : list WriterColumn;
  columnOffsetByName : gmap string nat;
  idx : list (Z * Z);   (* qdb_timespec_t: seconds, nanoseconds *)
  data : list ColumnData;
}.

Definition empty_data (t : TsColumnType) : option ColumnData :=
  match t with
  | TsColumnInt64 => Some (CDInt64 [])
  | TsColumnDouble => Some (CDDouble [])
  | TsColumnString | TsColumnSymbol => Some (CDString [])
  | TsColumnBlob => Some (CDBlob [])
  | TsColumnTimestamp => Some (CDTimestamp [])
  | TsColumnUninitialized => None
  end.

Definition NewWriterTable (t : string) (cols : list WriterColumn) : result WriterTable :=
  data ← mapM (M := result) (fun col =>
    of_option (empty_data (ColumnType col))
      (Errorf "cannot create table with uninitialized column type: %s" [AS (ColumnName col)])) cols;
  Ok {| TableName := t;
        rowCount := 0;
        columnInfoByOffset := cols;
        columnOffsetByName := foldl (fun m '(i, col) => <[ColumnName col := i]> m) ∅ (imap pair cols);
        idx := [];
        data := data |}.

(** TimeSliceToQdbTimespec. *)
Definition timespec (t : gotime) : Z * Z := (Unix_of t, Nanosecond_of t).

Definition SetIndex (t : WriterTable) (ts : list gotime) : WriterTable :=
  {| TableName := TableName t; rowCount := length (timespec <$> ts);
     columnInfoByOffset := columnInfoByOffset t; columnOffsetByName := columnOffsetByName t;
     idx := timespec <$> ts; data := data t |}.

Definition set_data (t : WriterTable) (d : list ColumnData) : WriterTable :=
  {| TableName := TableName t; rowCount := rowCount t;
     columnInfoByOffset := columnInfoByOffset t; columnOffsetByName := columnOffsetByName t;
     idx := idx t; data := d |}.

Definition SetData (t : WriterTable) (offset : nat) (xs : ColumnData) : result WriterTable :=
  match columnInfoByOffset t !! offset with
  | None => Err (QdbError ErrOutOfBounds "writer_table_set_data"
                   [AS "offset"; AZ (Z.of_nat offset); AS "max"; AZ (Z.of_nat (length (columnInfoByOffset t)) - 1)])
  | Some col =>
      if decide (AsValueType (ColumnType col) = ValueType xs)
      then Ok (set_data t (<[offset := xs]> (data t)))
      else Err (QdbError ErrIncompatibleType "writer_table_set_data" [])
  end.

Definition GetData (t : WriterTable) (offset : nat) : result ColumnData :=
  match data t !! offset with
  | Some cd => Ok cd
  | None => Err (QdbError ErrOutOfBounds "writer_table_get_data"
                   [AS "offset"; AZ (Z.of_nat offset); AS "max"; AZ (Z.of_nat (length (data t)) - 1)])
  end.

(** ColumnData.appendData: type-checked concatenation. *)
Definition appendData (cd other : ColumnData) : result ColumnData :=
  match cd, other with
  | CDInt64 a, CDInt64 b => Ok (CDInt64 (a ++ b))
  | CDDouble a, CDDouble b => Ok (CDDouble (a ++ b))
  | CDString a, CDString b => Ok (CDString (a ++ b))
  | CDBlob a, CDBlob b => Ok (CDBlob (a ++ b))
  | CDTimestamp a, CDTimestamp b => Ok (CDTimestamp (a ++ b))
  | _, _ => Err (Errorf "appendData: type mismatch" [])
  end.

Definition writerTableSchemasEqual (a b : WriterTable) : bool :=
  bool_decide (columnInfoByOffset a = columnInfoByOffset b).

Definition empty_like (cd : ColumnData) : ColumnData :=
  match cd with
  | CDInt64 _ => CDInt64 [] | CDDouble _ => CDDouble [] | CDString _ => CDString []
  | CDBlob _ => CDBlob [] | CDTimestamp _ => CDTimestamp []
  end.

(** The inner loop [for i, column := range table.data { mergedData[i].appendData(column) }]. *)
Fixpoint append_columns (merged cols : list ColumnData) : result (list ColumnData) :=
  match merged, cols with
  | m :: ms, c :: cs =>
      m' ← map_err (fun e => QdbError ErrInvalidArgument "merge_single_table_writers" [AE e]) (appendData m c);
      ms' ← append_columns ms cs;
      Ok (m' :: ms')
  | ms, [] => Ok ms
  | [], _ :: _ => Panic
  end.

Definition merge_check (base table : WriterTable) : result unit :=
  guard_err (negb (String.eqb (TableName table) (TableName base)))
    (QdbError ErrInvalidArgument "merge_single_table_writers" [AS (TableName base); AS (TableName table)]);;
  guard_err (negb (writerTableSchemasEqual base table))
    (QdbError ErrInvalidArgument "merge_single_table_writers" [AS (TableName base); AS "schema mismatch"]);;
  guard_err (negb (Nat.eqb (length (data table)) (length (data base))))
    (QdbError ErrInvalidArgument "merge_single_table_writers" [AS (TableName base)]).

Definition MergeSingleTableWriters (tables : list WriterTable) : result WriterTable :=
  match tables with
  | [] => Err (QdbError ErrInvalidArgument "merge_single_table_writers" [AS "empty table slice"])
  | [t] => Ok t
  | base :: rest =>
      mapM (M := result) (merge_check base) rest;;
      merged ← foldl (fun acc t => acc ≫= fun ms => append_columns ms (data t))
                 (Ok (empty_like <$> data base)) tables;
      Ok {| TableName := TableName base;
            rowCount := sum_list (rowCount <$> tables);
            columnInfoByOffset := columnInfoByOffset base;
            columnOffsetByName := columnOffsetByName base;
            idx := concat (idx <$> tables);
            data := merged |}
  end.

(** Grouping by name; the Go map is an association list, one entry per name. *)
Fixpoint add_group (t : WriterTable) (groups : list (string * list WriterTable)) :=
  match groups with
  | [] => [(TableName t, [t])]
  | (n, g) :: r => if String.eqb n (TableName t) then (n, g ++ [t]) :: r else (n, g) :: add_group t r
  end.

Definition group_tables (tables : list WriterTable) : list (string * list WriterTable) :=
  foldl (fun gs t => add_group t gs) [] tables.

(** MergeWriterTables. *)
Definition MergeWriterTables `{MapIter} (tables : list WriterTable) : result (list WriterTable) :=
  if (length tables <=? 1)%nat then Ok tables
  else if bool_decide (NoDup (TableName <$> tables)) then Ok tables
  else mapM (M := result) (fun '(name, group) =>
         match group with
         | [t] => Ok t
         | _ => map_err (fun e => QdbError ErrInvalidArgument "merge_writer_tables" [AS name; AE e])
                  (MergeSingleTableWriters group)
         end) (iter (group_tables tables)).

(** IsRetryable, IsClusterUnavailable. *)
Definition IsRetryable (err : option error) : bool :=
  match err ≫= as_qdb_code with
  | Some (ErrTimeout | ErrConnectionRefused | ErrConnectionReset | ErrNotConnected | ErrHostNotFound
         | ErrNetworkError | ErrUnstableCluster | ErrTryAgain | ErrResourceLocked | ErrConflict
         | ErrTransactionPartialFailure | ErrPartialFailure | ErrAsyncPipeFull | ErrNoMemoryRemote
         | ErrInterrupted | ErrInvalidReply) => true
  | _ => false
  end.

Definition IsClusterUnavailable (err : option error) : bool :=
  match err ≫= as_qdb_code with
  | Some (ErrTimeout | ErrConnectionRefused | ErrConnectionReset | ErrNotConnected | ErrHostNotFound
         | ErrNetworkError | ErrUnstableCluster | ErrTryAgain | ErrAsyncPipeFull | ErrNoMemoryRemote) => true
  | _ => false
  end.

(** ** Laws *)

(** A table is rectangular over [cols]: the schema is [cols] and the index and
    every column hold exactly [rowCount] values of the column's type. *)
Definition rectangular (cols : list WriterColumn) (t : WriterTable) : Prop :=
  columnInfoByOffset t = cols /\
  length (idx t) = rowCount t /\
  Forall2 (fun col cd => ValueType cd = AsValueType (ColumnType col) /\ cd_Length cd = rowCount t)
    cols (data t).

Lemma NewWriterTable_ok name cols :
  Forall (fun c => ColumnType c <> TsColumnUninitialized) cols ->
  exists t, NewWriterTable name cols = Ok t /\ TableName t = name /\
    columnInfoByOffset t = cols /\ length (data t) = length cols.
Proof.
  intros Hc. unfold NewWriterTable.
  assert (exists d, mapM (M := result) (fun col =>
    of_option (empty_data (ColumnType col))
      (Errorf "cannot create table with uninitialized column type: %s" [AS (ColumnName col)])) cols = Ok d
      /\ length d = length cols) as (d & -> & Hl).
  { induction Hc as [|c cols Hc _ (d & E & Hl)]; cbn; [by exists []|].
    destruct (ColumnType c); try done; cbn; rewrite E; cbn; eexists; split; try reflexivity; cbn; congruence. }
  cbn. eexists. split; [reflexivity|]. done.
Qed.

Lemma SetData_ok t i col xs :
  columnInfoByOffset t !! i = Some col -> AsValueType (ColumnType col) = ValueType xs ->
  SetData t i xs = Ok (set_data t (<[i := xs]> (data t))).
Proof. intros E V. unfold SetData. rewrite E. by rewrite decide_True. Qed.

(** Setting the columns one after the other, each to data of its type and of
    the length of the index, makes a rectangular table. *)
Lemma fill_columns (step : WriterTable -> nat -> result WriterTable) (cd : nat -> ColumnData) cols t :
  columnInfoByOffset t = cols -> length (data t) = length cols ->
  (forall t i, (i < length cols)%nat -> columnInfoByOffset t = cols ->
     step t i = Ok (set_data t (<[i := cd i]> (data t)))) ->
  fold_res step (seq 0 (length cols)) t = Ok (set_data t (cd <$> seq 0 (length cols))).
Proof.
  intros C L S.
  assert (G : forall m k t, columnInfoByOffset t = cols -> length (data t) = length cols ->
    (k + m = length cols)%nat ->
    fold_res step (seq k m) t = Ok (set_data t (take k (data t) ++ (cd <$> seq k m)))).
  { induction m as [|m IH]; intros k t' C' L' E; cbn [seq fold_res fmap list_fmap].
    - rewrite app_nil_r, take_ge by lia. by destruct t'.
    - rewrite S by (done || lia). cbn [mbind res_bind]. rewrite IH; [|done| |lia].
      + unfold set_data. cbn. do 2 f_equal. rewrite (take_S_r _ _ (cd k)).
        * rewrite take_insert_ge by lia. by rewrite <- app_assoc.
        * apply list_lookup_insert_eq. lia.
      + cbn. by rewrite length_insert. }
  rewrite (G _ 0%nat) by (done || lia). done.
Qed.

Lemma fill_rectangular cols (cd : nat -> ColumnData) t :
  columnInfoByOffset t = cols -> length (idx t) = rowCount t ->
  (forall i col, cols !! i = Some col ->
     ValueType (cd i) = AsValueType (ColumnType col) /\ cd_Length (cd i) = rowCount t) ->
  rectangular cols (set_data t (cd <$> seq 0 (length cols))).
Proof.
  intros C I H. split_and!; [done..|]. cbn. apply Forall2_same_length_lookup. split.
  - by rewrite length_fmap, length_seq.
  - intros i col x Hc Hx. apply list_lookup_fmap_Some in Hx as (j & -> & Hj).
    apply lookup_seq in Hj as [-> _]. by apply H.
Qed.

Lemma SetData_no_panic t i xs : no_panic (SetData t i xs).
Proof. unfold SetData, no_panic. destruct (columnInfoByOffset t !! i); [|done]. by case_decide. Qed.

Lemma IsClusterUnavailable_retryable err :
  IsClusterUnavailable err = true -> IsRetryable err = true.
Proof.
  unfold IsClusterUnavailable, IsRetryable.
  destruct (err ≫= as_qdb_code) as [[]|]; done.
Qed.

Lemma append_columns_rect cols n1 n2 ms cs :
  Forall2 (fun col cd => ValueType cd = AsValueType (ColumnType col) /\ cd_Length cd = n1) cols ms ->
  Forall2 (fun col cd => ValueType cd = AsValueType (ColumnType col) /\ cd_Length cd = n2) cols cs ->
  exists ms', append_columns ms cs = Ok ms' /\
    Forall2 (fun col cd => ValueType cd = AsValueType (ColumnType col) /\ cd_Length cd = (n1 + n2)%nat) cols ms'.
Proof.
  intros H1. revert cs. induction H1 as [|col m cols ms [Hv Hl] _ IH]; intros cs H2.
  - inversion H2; subst. by exists [].
  - inversion H2 as [|? c ? cs' [Hv2 Hl2] H2']; subst.
    destruct (IH _ H2') as (ms' & E & HF).
    destruct m, c; cbn in *; try congruence; rewrite E; cbn; eexists; (split; [done|]);
      constructor; try done; cbn; rewrite ?length_app; auto.
Qed.

(** Merging rectangular tables of one name and schema cannot fail and yields a
    rectangular table holding every row, in order. *)
Lemma fold_append_rect cols tables ms n :
  Forall (rectangular cols) tables ->
  Forall2 (fun col cd => ValueType cd = AsValueType (ColumnType col) /\ cd_Length cd = n) cols ms ->
  exists ms', foldl (fun acc t => acc ≫= fun ms => append_columns ms (data t)) (Ok ms) tables = Ok ms' /\
    Forall2 (fun col cd => ValueType cd = AsValueType (ColumnType col) /\
                           cd_Length cd = (n + sum_list (rowCount <$> tables))%nat) cols ms'.
Proof.
  intros H. revert ms n. induction H as [|t tables (_ & _ & Ht) _ IH]; intros ms n Hm.
  - exists ms. cbn. rewrite Nat.add_0_r. done.
  - destruct (append_columns_rect _ _ _ _ _ Hm Ht) as (ms1 & E & Hm1).
    destruct (IH _ _ Hm1) as (ms' & E' & Hm'). exists ms'. cbn in *. rewrite E.
    rewrite Nat.add_assoc. done.
Qed.

Lemma merge_check_ok cols base t :
  rectangular cols base -> rectangular cols t -> TableName t = TableName base ->
  merge_check base t = Ok tt.
Proof.
  intros (Hb & _ & Hbd) (Ht & _ & Htd) Hn. unfold merge_check.
  rewrite Hn, String.eqb_refl. cbn.
  unfold writerTableSchemasEqual. rewrite bool_decide_eq_true_2 by congruence. cbn.
  by rewrite <- (Forall2_length _ _ _ Htd), <- (Forall2_length _ _ _ Hbd), Nat.eqb_refl.
Qed.

Lemma mapM_merge_check cols base rest :
  rectangular cols base ->
  Forall (fun t => rectangular cols t /\ TableName t = TableName base) rest ->
  exists us, mapM (M := result) (merge_check base) rest = Ok us.
Proof.
  intros Hb. induction 1 as [|t rest [Ht Hn] _ (us & E)]; [by exists []|].
  exists (tt :: us). cbn [mapM]. rewrite (merge_check_ok cols) by done.
  cbn [mbind res_bind]. by rewrite E.
Qed.

Lemma empty_like_rect cols t :
  rectangular cols t ->
  Forall2 (fun col cd => ValueType cd = AsValueType (ColumnType col) /\ cd_Length cd = 0%nat)
    cols (empty_like <$> data t).
Proof.
  intros (_ & _ & H). apply Forall2_fmap_r. eapply Forall2_impl; [exact H|].
  intros col cd [Hv _]. by destruct cd.
Qed.

Lemma MergeSingleTableWriters_rect cols base rest :
  Forall (fun t => rectangular cols t /\ TableName t = TableName base) (base :: rest) ->
  exists t, MergeSingleTableWriters (base :: rest) = Ok t /\ rectangular cols t /\
    TableName t = TableName base /\
    rowCount t = sum_list (rowCount <$> (base :: rest)) /\
    idx t = concat (idx <$> (base :: rest)).
Proof.
  intros H. pose proof (Forall_cons_1 _ _ _ H) as [[Hb _] Hr].
  unfold MergeSingleTableWriters. destruct rest as [|t2 rest].
  - exists base. cbn. rewrite app_nil_r, Nat.add_0_r. done.
  - destruct (mapM_merge_check cols base (t2 :: rest) Hb Hr) as (us & ->). cbn [mbind res_bind].
    assert (Hrect : Forall (rectangular cols) (base :: t2 :: rest)) by (eapply Forall_impl; [done|naive_solver]).
    destruct (fold_append_rect cols (base :: t2 :: rest) (empty_like <$> data base) 0 Hrect) as (ms & -> & Hm).
    { by apply empty_like_rect. }
    cbn [mbind res_bind]. eexists. split; [reflexivity|].
    split; [|done]. destruct Hb as (Hb & _).
    split; [done|]. split; [|done]. cbn [idx rowCount].
    rewrite length_concat, <- list_fmap_compose. f_equal.
    apply list_fmap_ext. intros i t Hi. rewrite Forall_lookup in Hrect.
    by destruct (Hrect _ _ Hi) as (_ & ? & _).
Qed.

(** The grouping invariant: one non-empty group per name, each holding exactly
    the tables of its name in their original order. *)
Definition groups_inv (tables : list WriterTable) (gs : list (string * list WriterTable)) : Prop :=
  NoDup gs.*1 /\ concat gs.*2 ≡ₚ tables /\
  Forall (fun '(n, g) => g <> [] /\ g = filter (fun t => TableName t = n) tables) gs /\
  Forall (fun t => TableName t ∈ gs.*1) tables.

Lemma add_group_names t gs :
  (add_group t gs).*1 = if decide (TableName t ∈ gs.*1) then gs.*1 else gs.*1 ++ [TableName t].
Proof.
  induction gs as [|[n g] gs IH]; cbn [add_group fmap list_fmap fst].
  - rewrite decide_False by set_solver. done.
  - destruct (String.eqb_spec n (TableName t)) as [->|N]; cbn.
    + rewrite decide_True by set_solver. done.
    + cbn in IH. rewrite IH. case_decide; case_decide; set_solver.
Qed.

Lemma add_group_concat t gs : concat (add_group t gs).*2 ≡ₚ t :: concat gs.*2.
Proof.
  induction gs as [|[n g] gs IH]; cbn; [done|].
  destruct (String.eqb n (TableName t)); cbn.
  - rewrite <- (assoc (++)). cbn. symmetry. apply Permutation_middle.
  - cbn in IH. rewrite IH. symmetry. apply Permutation_middle.
Qed.

Lemma add_group_Forall (P : string -> list WriterTable -> Prop) t gs :
  NoDup gs.*1 ->
  Forall (fun '(n, g) => if decide (n = TableName t) then P n (g ++ [t]) else P n g) gs ->
  (TableName t ∉ gs.*1 -> P (TableName t) [t]) ->
  Forall (fun '(n, g) => P n g) (add_group t gs).
Proof.
  intros Hnd H Hnew. induction H as [|[n g] gs Hg H IH]; cbn.
  - constructor; [apply Hnew; set_solver|done].
  - apply NoDup_cons in Hnd as [Hni Hnd].
    destruct (String.eqb_spec n (TableName t)) as [->|N].
    + rewrite decide_True in Hg by done. constructor; [done|].
      rewrite Forall_forall in H |- *. intros [n' g'] Hin. specialize (H _ Hin). cbn in H.
      rewrite decide_False in H; [done|]. intros ->.
      apply Hni. apply list_elem_of_fmap. by exists (TableName t, g').
    + rewrite decide_False in Hg by done. constructor; [done|].
      apply IH; [done|]. intros Hnot. apply Hnew. cbn. set_solver.
Qed.

Lemma add_group_inv tables gs t :
  groups_inv tables gs -> groups_inv (tables ++ [t]) (add_group t gs).
Proof.
  intros (Hnd & Hperm & HF & Hcov). split_and!.
  - rewrite add_group_names. case_decide; [done|].
    apply NoDup_app. split_and!; [done|set_solver|apply NoDup_singleton].
  - rewrite add_group_concat, Hperm. by rewrite Permutation_cons_append.
  - apply (add_group_Forall (fun n g => g <> [] /\ g = filter (fun t => TableName t = n) (tables ++ [t])));
      [done| |].
    + eapply Forall_impl; [exact HF|]. intros [n g] [Hne ->].
      rewrite filter_app, filter_cons, filter_nil.
      case_decide as E1; case_decide as E2; subst; try done.
      * split; [|done]. intros E%app_nil. by destruct E.
      * split; [done|]. by rewrite app_nil_r.
    + intros Hni. split; [done|]. rewrite filter_app, filter_cons, filter_nil, decide_True by done.
      replace (filter (fun x => TableName x = TableName t) tables) with (@nil WriterTable); [done|].
      symmetry. rewrite Forall_forall in Hcov.
      destruct (filter _ tables) as [|x l] eqn:E; [done|].
      assert (Hx : x ∈ filter (fun x => TableName x = TableName t) tables) by (rewrite E; left).
      apply list_elem_of_filter in Hx as [Hx1 Hx2]. exfalso. apply Hni. rewrite <- Hx1. by apply Hcov.
  - apply Forall_app. rewrite add_group_names. split.
    + eapply Forall_impl; [exact Hcov|]. intros x Hx. case_decide; set_solver.
    + constructor; [|done]. case_decide; set_solver.
Qed.

Lemma group_tables_inv tables : groups_inv tables (group_tables tables).
Proof.
  unfold group_tables.
  assert (G : forall ts done gs, groups_inv done gs ->
    groups_inv (done ++ ts) (foldl (fun gs t => add_group t gs) gs ts)).
  { induction ts as [|t ts IH]; intros done gs H; cbn; [by rewrite app_nil_r|].
    replace (done ++ t :: ts) with ((done ++ [t]) ++ ts) by (by rewrite <- (assoc (++))).
    apply IH, add_group_inv, H. }
  apply (G tables [] []). split_and!; cbn; try constructor.
Qed.

Definition merge_group (g : string * list WriterTable) : result WriterTable :=
  match g.2 with
  | [t] => Ok t
  | _ => map_err (fun e => QdbError ErrInvalidArgument "merge_writer_tables" [AS g.1; AE e])
           (MergeSingleTableWriters g.2)
  end.

Lemma merge_group_rect cols tables n g :
  Forall (rectangular cols) tables ->
  g <> [] -> g = filter (fun t => TableName t = n) tables ->
  exists t, merge_group (n, g) = Ok t /\ rectangular cols t /\ TableName t = n /\
    rowCount t = sum_list (rowCount <$> g) /\ idx t = concat (idx <$> g).
Proof.
  intros Hr Hne Hg.
  assert (Hall : Forall (fun t => rectangular cols t /\ TableName t = n) g).
  { subst g. rewrite Forall_forall in Hr |- *. intros t [? ?]%list_elem_of_filter. auto. }
  destruct g as [|base rest]; [done|].
  pose proof (Forall_inv Hall) as [_ Hn].
  destruct (MergeSingleTableWriters_rect cols base rest) as (t & E & Hrt & Hnt & Hrc & Hi).
  { eapply Forall_impl; [exact Hall|]. intros x [? ?]. split; [done|congruence]. }
  exists t. unfold merge_group. cbn [fst snd]. rewrite E. cbn [map_err].
  split; [|split_and!; congruence].
  destruct rest; [|done]. cbn in E. congruence.
Qed.

Lemma mapM_merge_groups cols tables gs :
  Forall (rectangular cols) tables ->
  Forall (fun '(n, g) => g <> [] /\ g = filter (fun t => TableName t = n) tables) gs ->
  exists out, mapM (M := result) merge_group gs = Ok out /\
    Forall (rectangular cols) out /\ TableName <$> out = gs.*1 /\
    rowCount <$> out = (fun g => sum_list (rowCount <$> g)) <$> gs.*2 /\
    idx <$> out = (fun g => concat (idx <$> g)) <$> gs.*2.
Proof.
  intros Hr. induction 1 as [|[n g] gs [Hne Hg] _ (out & E & Ho & Hn & Hc & Hi)]; [by exists []|].
  destruct (merge_group_rect cols tables n g Hr Hne Hg) as (t & Et & Hrt & Hnt & Hrc & Hit).
  exists (t :: out). cbn [mapM]. rewrite Et. cbn [mbind res_bind]. rewrite E.
  split; [done|]. split; [by constructor|]. cbn in *.
  rewrite Hnt, Hrc, Hit, Hn, Hc, Hi. done.
Qed.

Lemma sum_list_concat {A} (f : A -> nat) (ls : list (list A)) :
  sum_list ((fun g => sum_list (f <$> g)) <$> ls) = sum_list (f <$> concat ls).
Proof.
  induction ls as [|l ls IH]; cbn; [done|]. rewrite fmap_app.
  assert (E : forall a b : list nat, sum_list (a ++ b) = (sum_list a + sum_list b)%nat)
    by (induction a as [|x a IHa]; intros b; cbn; [done|]; rewrite IHa; lia).
  rewrite E. cbn in IH. lia.
Qed.

Lemma sum_list_perm (a b : list nat) : a ≡ₚ b -> sum_list a = sum_list b.
Proof. induction 1; cbn; lia. Qed.

Section merge.
Context `{MapIter}.

Lemma MergeWriterTables_unfold tables :
  MergeWriterTables tables =
    if (length tables <=? 1)%nat then Ok tables
    else if bool_decide (NoDup (TableName <$> tables)) then Ok tables
    else mapM (M := result) merge_group (iter (group_tables tables)).
Proof.
  unfold MergeWriterTables. destruct (length tables <=? 1)%nat; [done|].
  case_bool_decide; [done|].
  generalize (iter (group_tables tables)) as gs. induction gs as [|[n g] gs IH]; [done|].
  cbn [mapM]. rewrite IH. done.
Qed.

(** Merging the tables of one batch: it cannot fail on rectangular tables, and
    it yields rectangular tables with pairwise different names, the same set
    of names and the same number of rows. *)
Lemma MergeWriterTables_rect cols tables :
  Forall (rectangular cols) tables ->
  exists out, MergeWriterTables tables = Ok out /\
    Forall (rectangular cols) out /\
    NoDup (TableName <$> out) /\
    (forall n, n ∈ TableName <$> out <-> n ∈ TableName <$> tables) /\
    sum_list (rowCount <$> out) = sum_list (rowCount <$> tables).
Proof.
  intros Hr. rewrite MergeWriterTables_unfold.
  destruct (Nat.leb_spec (length tables) 1).
  { exists tables. split_and!; try done.
    destruct tables as [|t [|? ?]]; cbn in *; [constructor|apply NoDup_singleton|lia]. }
  case_bool_decide as Hnd; [by exists tables|].
  destruct (group_tables_inv tables) as (Hgn & Hperm & HF & Hcov).
  set (gs := group_tables tables) in *.
  assert (HF' : Forall (fun '(n, g) => g <> [] /\ g = filter (fun t => TableName t = n) tables) (iter gs))
    by (by rewrite iter_perm).
  destruct (mapM_merge_groups cols tables (iter gs) Hr HF') as (out & -> & Ho & Hn & Hc & _).
  exists out. split; [done|]. split; [done|]. rewrite Hn. split_and!.
  - by rewrite iter_perm.
  - intros n. rewrite iter_perm. split.
    + intros ([n' g] & -> & Hin)%list_elem_of_fmap. rewrite Forall_forall in HF.
      destruct (HF _ Hin) as [Hne Hg]. destruct g as [|t g]; [done|].
      assert (Ht : t ∈ filter (fun t => TableName t = n') tables) by (rewrite <- Hg; left).
      apply list_elem_of_filter in Ht as [<- Ht]. apply list_elem_of_fmap. eauto.
    + intros (t & -> & Hin)%list_elem_of_fmap. rewrite Forall_forall in Hcov. by apply Hcov.
  - rewrite Hc, sum_list_concat. apply sum_list_perm. apply fmap_Permutation.
    rewrite <- Hperm. by rewrite iter_perm.
Qed.
End merge.
