(* ===== verification/FieldPath.v ===== *)
(** * Dot-separated field paths (yaml.go: validateFieldPath, compileFieldPath)

    A path is validated and split once at configuration time; the compiled
    lookup walks nested maps. *)
From S2P Require Import Prelude GoInt GoStr GoFloat GoTime Values.
From Stdlib Require Import Ascii.

Definition dot : string := ".".

(** validateFieldPath. *)
Definition validateFieldPath (path : string) : result unit :=
  if String.eqb path EmptyString then Err (Errorf "empty field path" [])
  else if HasPrefix path dot || HasSuffix path dot
  then Err (Errorf "invalid field path format: leading/trailing dots not allowed" [])
  else if Contains path ".."
  then Err (Errorf "invalid field path format: consecutive dots not allowed" [])
  else Ok tt.

(** The closure built by compileFieldPath: all segments but the last must
    resolve to maps, the last one is looked up in the map reached. *)
Fixpoint walk (segments : list string) (current : fields) : option value :=
  match segments with
  | [] => None
  | [segment] => current !! segment
  | segment :: rest =>
      match as_map (current !! segment) with
      | Some next => walk rest next
      | None => None
      end
  end.

Definition lookup_fn : Type := fields -> option value.

Definition compileFieldPath (path : string) : result lookup_fn :=
  validateFieldPath path;;
  Ok (walk (Split path dot)).

(** ** Paths without dots, and what validation guarantees *)

Fixpoint no_dot (s : string) : bool :=
  match s with
  | EmptyString => true
  | String c s' => negb (Ascii.eqb c "."%char) && no_dot s'
  end.

#[local] Arguments String.append !_ _ / : simpl nomatch.

Lemma prefix_dot c s : String.prefix dot (String c s) = Ascii.eqb c "."%char.
Proof.
  unfold dot. cbn [String.prefix]. destruct (Ascii.ascii_dec "." c) as [<-|N]; cbn.
  - by destruct s.
  - symmetry. by apply Ascii.eqb_neq.
Qed.

Lemma split_go_dot cur c s :
  split_go dot 0 cur (String c s) =
    if Ascii.eqb c "."%char then cur :: split_go dot 0 EmptyString s
    else split_go dot 0 (cur +:+ String c EmptyString) s.
Proof. cbn [split_go]. rewrite prefix_dot. done. Qed.

Lemma no_dot_app a b : no_dot (a +:+ b) = no_dot a && no_dot b.
Proof. induction a as [|c a IH]; cbn; [done|]. by rewrite IH, andb_assoc. Qed.

Lemma split_go_no_dot cur s : no_dot s = true -> split_go dot 0 cur s = [cur +:+ s].
Proof.
  revert cur. induction s as [|c s IH]; intros cur H.
  - cbn. by rewrite app_string_nil_r.
  - cbn in H. apply andb_true_iff in H as [Hc Hs]. rewrite split_go_dot.
    apply negb_true_iff in Hc. rewrite Hc, IH by done.
    by rewrite app_string_assoc.
Qed.

Lemma split_go_segment cur k s :
  no_dot k = true ->
  split_go dot 0 cur (k +:+ String "." s) = (cur +:+ k) :: split_go dot 0 EmptyString s.
Proof.
  revert cur. induction k as [|c k IH]; intros cur H; cbn [String.append].
  - rewrite split_go_dot. cbn. by rewrite app_string_nil_r.
  - cbn in H. apply andb_true_iff in H as [Hc Hk]. apply negb_true_iff in Hc.
    rewrite split_go_dot, Hc, IH by done. by rewrite app_string_assoc.
Qed.

(** Splitting a path written from dot-free segments gives the segments. *)
Lemma Split_Join_dot ks :
  ks <> [] -> Forall (fun k => no_dot k = true) ks -> Split (Join ks dot) dot = ks.
Proof.
  intros Hne H. unfold Split. induction H as [|k ks Hk H IH]; [done|].
  destruct ks as [|k' ks].
  - cbn [Join]. by rewrite split_go_no_dot.
  - rewrite Join_cons by done. unfold dot at 2. cbn [String.append].
    rewrite split_go_segment by done. rewrite IH by done. done.
Qed.

(** The segments of any split contain no dot. *)
Lemma split_go_dots cur s :
  no_dot cur = true -> Forall (fun k => no_dot k = true) (split_go dot 0 cur s).
Proof.
  revert cur. induction s as [|c s IH]; intros cur H; [by repeat constructor|].
  rewrite split_go_dot. destruct (Ascii.eqb_spec c "."%char) as [->|N].
  - constructor; [done|]. by apply IH.
  - apply IH. rewrite no_dot_app, H. cbn. apply Ascii.eqb_neq in N. by rewrite N.
Qed.

Definition nonempty (s : string) : bool := negb (String.eqb s EmptyString).

(** Whether a suffix of a path, read after the segment [cur], is well formed. *)
Definition tail_ok (cur s : string) : bool :=
  negb (HasSuffix (cur +:+ s) dot) && negb (Contains (cur +:+ s) "..") && nonempty (cur +:+ s).

Lemma prefix_dotdot s : String.prefix ".." s = true <-> exists t, s = String "." (String "." t).
Proof.
  rewrite prefix_spec. split; intros (t & E); exists t; cbn in *; done.
Qed.

Lemma Contains_cons c s sub :
  Contains (String c s) sub = String.prefix sub (String c s) || Contains s sub.
Proof. done. Qed.

Lemma HasSuffix_dot_cons c s :
  HasSuffix (String c s) dot = (Ascii.eqb c "."%char && String.eqb s EmptyString) || HasSuffix s dot.
Proof. reflexivity. Qed.

Lemma Contains_dotdot_no_dot_cons c s :
  Ascii.eqb c "."%char = false -> Contains (String c s) ".." = Contains s "..".
Proof.
  intros N. rewrite Contains_cons.
  destruct (String.prefix ".." (String c s)) eqn:E; [|done].
  apply prefix_dotdot in E as (t & E). injection E as -> _. done.
Qed.

(** Empty segments after a non-empty current segment: exactly a trailing dot
    or two consecutive dots. *)
Lemma split_go_nonempty_iff s cur :
  cur <> EmptyString ->
  Forall (fun k => k <> EmptyString) (split_go dot 0 cur s) <->
  HasSuffix s dot = false /\ Contains s ".." = false.
Proof.
  remember (String.length s) as n eqn:Hn. revert s cur Hn.
  induction n as [n IH] using lt_wf_ind. intros s cur -> Hcur.
  destruct s as [|c s]; [cbn; split; [done|]; by repeat constructor|].
  rewrite split_go_dot, HasSuffix_dot_cons.
  destruct (Ascii.eqb c "."%char) eqn:Hc.
  - apply Ascii.eqb_eq in Hc as ->. cbn [andb]. destruct s as [|d s].
    + cbn. split; [|naive_solver]. intros H. apply Forall_cons in H as [_ H].
      apply Forall_cons in H as [H _]. done.
    + cbn [String.eqb orb]. rewrite split_go_dot.
      destruct (Ascii.eqb d "."%char) eqn:Hd.
      * apply Ascii.eqb_eq in Hd as ->. split.
        -- intros H. apply Forall_cons in H as [_ H]. by apply Forall_cons in H as [H _].
        -- intros [_ H]. rewrite Contains_cons in H. by destruct s.
      * rewrite Forall_cons, (IH (String.length s)); [|cbn; lia|done|done].
        rewrite HasSuffix_dot_cons, Hd. cbn [andb orb].
        rewrite Contains_cons.
        replace (String.prefix ".." (String "." (String d s))) with false.
        2:{ symmetry. apply not_true_is_false. intros (t & E)%prefix_dotdot.
            injection E as -> _. done. }
        rewrite Contains_dotdot_no_dot_cons by done. naive_solver.
  - cbn [andb orb]. rewrite (IH (String.length s)); [|cbn; lia|done|by destruct cur].
    by rewrite Contains_dotdot_no_dot_cons.
Qed.

(** A path is accepted exactly when no segment of it is empty. *)
Lemma validateFieldPath_iff path :
  validateFieldPath path = Ok tt <-> Forall (fun k => k <> EmptyString) (Split path dot).
Proof.
  unfold validateFieldPath, Split. destruct path as [|c s].
  - cbn. split; [done|]. intros H. by apply Forall_cons in H as [H _].
  - cbn [String.eqb]. rewrite split_go_dot.
    unfold HasPrefix. rewrite prefix_dot.
    destruct (Ascii.eqb c "."%char) eqn:Hc; cbn [orb].
    + split; [done|]. intros H. by apply Forall_cons in H as [H _].
    + rewrite split_go_nonempty_iff by done.
      rewrite HasSuffix_dot_cons, Hc, Contains_dotdot_no_dot_cons by done. cbn [andb orb].
      destruct (HasSuffix s dot), (Contains s ".."); naive_solver.
Qed.

(** ** Lookup through nested maps *)

(** [nest ks v] is the map with the single entry [v] at path [ks] below. *)
Fixpoint nest (ks : list string) (v : value) (base : fields) : fields :=
  match ks with
  | [] => base
  | [k] => <[k := v]> base
  | k :: rest =>
      <[k := VMap (nest rest v (match as_map (base !! k) with Some m => m | None => ∅ end))]> base
  end.

Lemma walk_cons k ks current :
  ks <> [] ->
  walk (k :: ks) current = as_map (current !! k) ≫= walk ks.
Proof. destruct ks; [done|]. intros _. cbn. by destruct (as_map _). Qed.

Lemma walk_nest ks v base : ks <> [] -> walk ks (nest ks v base) = Some v.
Proof.
  revert base. induction ks as [|k ks IH]; intros base Hne; [done|].
  destruct ks as [|k' ks]; [cbn; by rewrite lookup_insert_eq|].
  rewrite walk_cons by done. cbn [nest]. rewrite lookup_insert_eq. cbn [as_map mbind option_bind].
  by apply IH.
Qed.

(** A compiled path depends on the first segment's entry only, so a step that
    writes another top-level field cannot change what the path resolves to. *)
Lemma walk_insert_ne ks k v current :
  head ks <> Some k -> walk ks (<[k := v]> current) = walk ks current.
Proof.
  destruct ks as [|k' ks]; [done|]. cbn [head]. intros N.
  destruct ks as [|k2 ks]; cbn; rewrite lookup_insert_ne by congruence; done.
Qed.

Lemma compileFieldPath_ok path lookup :
  compileFieldPath path = Ok lookup -> lookup = walk (Split path dot) /\ validateFieldPath path = Ok tt.
Proof.
  unfold compileFieldPath. intros H. inv_res. subst. by destruct x.
Qed.

Lemma validateFieldPath_no_panic path : no_panic (validateFieldPath path).
Proof. unfold validateFieldPath, no_panic. repeat case_match; done. Qed.

Lemma compileFieldPath_no_panic path : no_panic (compileFieldPath path).
Proof.
  apply res_bind_no_panic; [apply validateFieldPath_no_panic|]. intros; apply ok_no_panic.
Qed.

#[export] Hint Resolve validateFieldPath_no_panic compileFieldPath_no_panic : qnc.
