(* ===== verification/Convert.v ===== *)
(** * Typed conversions of field values (yaml.go: convertFieldValue,
    isEpochFormat, epochIntToTime, epochFloatToTime, parseTimestampString,
    convertToTimestamp)

    The theorems say which values convert, to what, and where the int64 range
    check of a float64 lets an unrepresentable value through. *)
From S2P Require Import Prelude GoInt GoStr GoFloat GoTime Values.
From Stdlib Require Import SpecFloat.

Definition num_err (e : num_error) : error :=
  match e with
  | ErrSyntax => LibError "invalid syntax"
  | ErrRange => LibError "value out of range"
  end.

Definition parse_int (s : string) : result Z :=
  match ParseInt s with Ok z => Ok z | Err e => Err (num_err e) | Panic => Panic end.

(** strconv.ParseBool. *)
Definition ParseBool (s : string) : result bool :=
  if existsb (String.eqb s) ["1"; "t"; "T"; "TRUE"; "true"; "True"] then Ok true
  else if existsb (String.eqb s) ["0"; "f"; "F"; "FALSE"; "false"; "False"] then Ok false
  else Err (LibError "invalid syntax").

Definition FormatBool (b : bool) : string := if b then "true" else "false".

Section convert.
  Context `{GoLib}.

Definition convertFieldValue (v : value) (targetType : string) : result value :=
  if String.eqb targetType "auto" then Ok v
  else if String.eqb targetType "string" then Ok (VString (Sprintf_v v))
  else if String.eqb targetType "int64" then
    match v with
    | VInt64 n => Ok (VInt64 n)
    | VInt n => Ok (VInt64 n)
    | VFloat64 f =>
        if f64_gt f (f64_of_Z max_int64) || f64_lt f (f64_of_Z min_int64)
        then Err (Errorf "float64 value %f out of int64 range" [AF f])
        else Ok (VInt64 (f64_to_int64 float_out_of_range f))
    | VString s => VInt64 <$> parse_int s
    | _ => Err (Errorf "cannot convert %T to int64" [AT (Some v)])
    end
  else if String.eqb targetType "float64" then
    match v with
    | VFloat64 f => Ok (VFloat64 f)
    | VInt64 n => Ok (VFloat64 (f64_of_Z n))
    | VInt n => Ok (VFloat64 (f64_of_Z n))
    | VString s => VFloat64 <$> ParseFloat s
    | _ => Err (Errorf "cannot convert %T to float64" [AT (Some v)])
    end
  else if String.eqb targetType "bool" then
    match v with
    | VBool b => Ok (VBool b)
    | VString s => VBool <$> ParseBool s
    | _ => Err (Errorf "cannot convert %T to bool" [AT (Some v)])
    end
  else if String.eqb targetType "bytes" then
    match v with
    | VBytes b => Ok (VBytes b)
    | VString s => Ok (VBytes (bytes_of_string s))
    | _ => Err (Errorf "cannot convert %T to bytes" [AT (Some v)])
    end
  else Err (Errorf "unsupported target type: %s" [AS targetType]).

Definition isEpochFormat (format : string) : bool :=
  existsb (String.eqb format) ["unix"; "unix_ms"; "unix_us"; "unix_ns"].

Definition epochIntToTime (v : Z) (format : string) : gotime :=
  if String.eqb format "unix_ms" then UnixMilli v
  else if String.eqb format "unix_us" then UnixMicro v
  else if String.eqb format "unix_ns" then time_Unix 0 v
  else time_Unix v 0.

Definition unitNanos (format : string) : Z :=
  if String.eqb format "unix_ms" then 1000000
  else if String.eqb format "unix_us" then 1000
  else if String.eqb format "unix_ns" then 1
  else 1000000000.

Definition epochFloatToTime (v : float64) (format : string) : gotime :=
  let u := unitNanos format in
  let '(whole, frac) := Modf v in
  let to_int := f64_to_int64 float_out_of_range in
  time_Unix 0 (wrap64 (wrap64 (to_int whole * u) + to_int (Round (f64_mul frac (f64_of_Z u))))).

Definition RFC3339 : string := "2006-01-02T15:04:05Z07:00".
Definition RFC3339Nano : string := "2006-01-02T15:04:05.999999999Z07:00".

Definition parseTimestampString (v format : string) : result gotime :=
  if isEpochFormat format then
    match ParseInt v with
    | Ok i => Ok (epochIntToTime i format)
    | _ => f ← ParseFloat v; Ok (epochFloatToTime f format)
    end
  else if String.eqb format "rfc3339" then time_Parse RFC3339 v
  else if String.eqb format "rfc3339nano" then time_Parse RFC3339Nano v
  else time_Parse format v.

Definition numeric_format_error (format : string) : error :=
  Errorf "numeric timestamp requires an epoch format (unix, unix_ms, unix_us, unix_ns), got '%s'" [AS format].

Definition convertToTimestamp (v : value) (format : string) : result gotime :=
  match v with
  | VTime t => Ok t
  | VString s => parseTimestampString s format
  | VInt64 n =>
      if negb (isEpochFormat format) then Err (numeric_format_error format)
      else Ok (epochIntToTime n format)
  | VFloat64 f =>
      if negb (isEpochFormat format) then Err (numeric_format_error format)
      else Ok (epochFloatToTime f format)
  | _ => Err (Errorf "cannot convert %T to timestamp" [AT (Some v)])
  end.

End convert.

(** ** Lemmas *)

Lemma f64_valid_of_max : f64_valid (f64_of_Z max_int64) = true.
Proof. reflexivity. Qed.

Lemma f64_valid_of_min : f64_valid (f64_of_Z min_int64) = true.
Proof. reflexivity. Qed.

Lemma scaled_of_max : f64_scaled (f64_of_Z max_int64) = Some (2 ^ 63 * 2 ^ 1074).
Proof. vm_compute. reflexivity. Qed.

Lemma scaled_of_min : f64_scaled (f64_of_Z min_int64) = Some (- 2 ^ 63 * 2 ^ 1074).
Proof. vm_compute. reflexivity. Qed.

(** The range test of the float64 branch, on the integer the float denotes at
    scale 2^-1074: it admits everything in [-2^63, 2^63], 2^63 included. *)
Lemma float_range_test f x :
  f64_valid f = true -> f64_scaled f = Some x ->
  f64_gt f (f64_of_Z max_int64) || f64_lt f (f64_of_Z min_int64) =
    (2 ^ 63 * 2 ^ 1074 <? x) || (x <? - 2 ^ 63 * 2 ^ 1074).
Proof.
  intros V S. unfold f64_gt. change (SFltb (f64_of_Z max_int64) f) with (f64_lt (f64_of_Z max_int64) f).
  rewrite (f64_lt_scaled _ _ _ _ f64_valid_of_max V scaled_of_max S).
  rewrite (f64_lt_scaled _ _ _ _ V f64_valid_of_min S scaled_of_min). done.
Qed.

Section convert_lemmas.
Context `{GoLib}.

Definition is_target (t : string) : Prop :=
  t ∈ ["auto"; "string"; "int64"; "float64"; "bool"; "bytes"].

Lemma convert_float_int64_unfold f :
  convertFieldValue (VFloat64 f) "int64" =
    if f64_gt f (f64_of_Z max_int64) || f64_lt f (f64_of_Z min_int64)
    then Err (Errorf "float64 value %f out of int64 range" [AF f])
    else Ok (VInt64 (f64_to_int64 float_out_of_range f)).
Proof. reflexivity. Qed.

Lemma quot_in_int64 x :
  - 2 ^ 63 * 2 ^ 1074 <= x < 2 ^ 63 * 2 ^ 1074 -> in_int64 (Z.quot x (2 ^ 1074)).
Proof.
  intros [Hl Hu]. set (p := 2 ^ 1074) in *.
  assert (P : 0 < p) by (apply Z.pow_pos_nonneg; lia).
  unfold_range. destruct (Z.le_gt_cases 0 x) as [Hx|Hx].
  - rewrite Z.quot_div_nonneg by lia. split; [pose proof (Z.div_pos x p); lia|].
    assert (x / p < 2 ^ 63) by (apply Z.div_lt_upper_bound; lia). lia.
  - rewrite <- (Z.opp_involutive x), Z.quot_opp_l, Z.quot_div_nonneg by lia.
    pose proof (Z.div_pos (- x) p ltac:(lia) ltac:(lia)).
    assert (- x / p <= 2 ^ 63) by (apply Z.div_le_upper_bound; lia). lia.
Qed.

Lemma convertToTimestamp_no_panic v format :
  (forall l s, no_panic (time_Parse l s)) -> (forall s, no_panic (ParseFloat s)) ->
  no_panic (convertToTimestamp v format).
Proof.
  intros Hp Hf. unfold convertToTimestamp, parseTimestampString.
  destruct v; try apply err_no_panic; try apply ok_no_panic.
  - case_match; [apply err_no_panic|apply ok_no_panic].
  - case_match; [apply err_no_panic|apply ok_no_panic].
  - repeat (case_match; try apply Hp; try apply ok_no_panic).
    all: apply res_bind_no_panic; [apply Hf|intros; apply ok_no_panic].
Qed.

Lemma ParseBool_no_panic s : no_panic (ParseBool s).
Proof. unfold ParseBool, no_panic. repeat case_match; done. Qed.

Lemma parse_int_no_panic s : no_panic (parse_int s).
Proof.
  unfold parse_int, no_panic. destruct (ParseInt s) eqn:E; try done.
  exfalso. revert E. unfold ParseInt. destruct (match s with EmptyString => _ | _ => _ end).
  repeat case_match; done.
Qed.

Lemma fmap_no_panic {A B} (f : A -> B) (m : result A) : no_panic m -> no_panic (f <$> m).
Proof. unfold no_panic. by destruct m. Qed.

Lemma convertFieldValue_no_panic v t :
  (forall s, no_panic (ParseFloat s)) -> no_panic (convertFieldValue v t).
Proof.
  intros Hf. unfold convertFieldValue.
  repeat (case_match; try apply ok_no_panic; try apply err_no_panic);
    apply fmap_no_panic; auto using parse_int_no_panic, ParseBool_no_panic.
Qed.
End convert_lemmas.

(** ** Properties *)

Section properties.
Context `{GoLib}.

(** The float64 to int64 conversion, exactly: a finite float converts to its
    truncation when it lies in [-2^63, 2^63), is rejected outside
    [-2^63, 2^63], and at 2^63 itself is accepted with the
    implementation-dependent value of the Go conversion. *)
Theorem convert_float64_int64 f x :
  f64_valid f = true -> f64_scaled f = Some x ->
  convertFieldValue (VFloat64 f) "int64" =
    if decide (- 2 ^ 63 * 2 ^ 1074 <= x < 2 ^ 63 * 2 ^ 1074)
    then Ok (VInt64 (Z.quot x (2 ^ 1074)))
    else if decide (x = 2 ^ 63 * 2 ^ 1074)
    then Ok (VInt64 (float_out_of_range f))
    else Err (Errorf "float64 value %f out of int64 range" [AF f]).
Proof.
  intros V S. rewrite convert_float_int64_unfold, (float_range_test f x V S).
  pose proof (f64_trunc_scaled f x V S) as T.
  case_decide as Hr; [|case_decide as He].
  - rewrite (proj2 (Z.ltb_ge _ _)) by lia. rewrite (proj2 (Z.ltb_ge _ _)) by lia. cbn [orb].
    rewrite (f64_to_int64_in_range _ _ _ T); [done|]. by apply quot_in_int64.
  - subst x. rewrite Z.ltb_irrefl.
    rewrite (proj2 (Z.ltb_ge _ _)) by (apply Z.mul_le_mono_nonneg_r; [apply Z.pow_nonneg|]; lia).
    cbn [orb]. unfold f64_to_int64. rewrite T.
    rewrite Z.quot_mul by (apply Z.pow_nonzero; lia).
    rewrite decide_False; [done|]. unfold_range. lia.
  - assert (x < - 2 ^ 63 * 2 ^ 1074 \/ 2 ^ 63 * 2 ^ 1074 < x) as [?|?] by lia.
    + rewrite (proj2 (Z.ltb_lt x _)) by lia. by rewrite orb_true_r.
    + by rewrite (proj2 (Z.ltb_lt _ x)) by lia.
Qed.
End properties.
