(* ===== verification/Steps.v ===== *)
(** * Pipeline state and the extraction steps of yaml.go

    [ParseState] is the mutable state a message carries through the pipeline.
    A [TransformationStep] is Go's [func(ParseState pointer) error]: it returns
    the updated state, or an error, and no step writes to the state before it
    has passed its last error return, so [Err] leaves the state as it was.  A
    [make...Step] factory validates a step configuration and returns the
    closure. *)
From S2P Require Import Prelude GoInt GoStr GoFloat GoTime Values GoUtf8 GoJson FieldPath Convert.
From Stdlib.Strings Require Import Byte.

(** The part of nats.Msg the parser reads. *)
Record Msg : Type := { Subject : string; MsgData : list byte }.

Record ParseState : Type := {
  Message : option Msg;
  Data : option (list byte);          (* None: a nil slice *)
  Fields : fields;
  Errors : list error;
  indexBuf : list gotime;
  doubleVals : list float64;
  blobVals : list (list byte);
  int64Vals : list Z;
  stringVals : list string;
  timestampVals : list gotime;
}.

Definition set_Fields (st : ParseState) (f : fields) : ParseState :=
  {| Message := Message st; Data := Data st; Fields := f; Errors := Errors st;
     indexBuf := indexBuf st; doubleVals := doubleVals st; blobVals := blobVals st;
     int64Vals := int64Vals st; stringVals := stringVals st; timestampVals := timestampVals st |}.

(** [state.Fields[k] = v]. *)
Definition put (st : ParseState) (k : string) (v : value) : ParseState :=
  set_Fields st (<[k := v]> (Fields st)).

(** [for k, v := range m { state.Fields[k] = v }]: the keys of [m] are
    distinct, so the order of the range does not matter. *)
Definition put_all (st : ParseState) (m : fields) : ParseState :=
  set_Fields st (m ∪ Fields st).

Definition set_Data (st : ParseState) (d : list byte) : ParseState :=
  {| Message := Message st; Data := Some d; Fields := Fields st; Errors := Errors st;
     indexBuf := indexBuf st; doubleVals := doubleVals st; blobVals := blobVals st;
     int64Vals := int64Vals st; stringVals := stringVals st; timestampVals := timestampVals st |}.

(** [state.Errors = append(state.Errors, err)]. *)
Definition add_Error (st : ParseState) (e : error) : ParseState :=
  {| Message := Message st; Data := Data st; Fields := Fields st; Errors := Errors st ++ [e];
     indexBuf := indexBuf st; doubleVals := doubleVals st; blobVals := blobVals st;
     int64Vals := int64Vals st; stringVals := stringVals st; timestampVals := timestampVals st |}.

Definition TransformationStep : Type := ParseState -> result ParseState.

(** [NewParsingFailedError("yaml_parser", fmt.Errorf(fmt + ": %w", args, err))]. *)
Definition parse_error_wrap (fmt : string) (args : list arg) (err : error) : error :=
  NewParsingFailedError "yaml_parser" (Wrapf fmt args err).

Section steps.
  Context `{GoLib}.

(** ** decompress, parse_json *)

Definition makeGzipDecompressStep : TransformationStep := fun state =>
  match Data state with
  | None => Err (parse_error "nil data in gzip decompress step" [])
  | Some [] => Ok state
  | Some d =>
      map_err (parse_error_wrap "failed to create gzip reader in decompress step: %w" [])
        (gzip_NewReader d);;
      decompressed ← map_err (parse_error_wrap "failed to decompress gzip data in decompress step: %w" [])
        (gzip_ReadAll d);
      Ok (set_Data state decompressed)
  end.

Definition makeDecompressStep (config : fields) : result TransformationStep :=
  algorithm ← of_option (as_string (config !! "algorithm"))
    (config_error "decompress step requires 'algorithm' string" []);
  if String.eqb algorithm "gzip" then Ok makeGzipDecompressStep
  else Err (config_error "unsupported compression algorithm: %s (supported: gzip)" [AS algorithm]).

Definition makeParseJSONStep (config : fields) : result TransformationStep :=
  Ok (fun state =>
    match Data state with
    | None => Err (parse_error "nil data in parse_json step" [])
    | Some [] => Err (parse_error "empty data in parse_json step" [])
    | Some d =>
        jsonData ← map_err (parse_error_wrap "failed to parse JSON in parse_json step: %w" [])
          (Json.Unmarshal d);
        Ok (put_all state jsonData)
    end).

(** ** extract_index, extract_timestamp *)

Definition makeTimestampExtraction (stepName source target format : string) : TransformationStep :=
  fun state =>
    value ← of_option (Fields state !! source)
      (parse_error "source field '%s' not found in %s step" [AS source; AS stepName]);
    ts ← map_err (parse_error_wrap "failed to parse timestamp in %s step: %w" [AS stepName])
      (convertToTimestamp value format);
    Ok (put state target (VTime ts)).

Definition makeExtractIndexStep (config : fields) : result TransformationStep :=
  source ← of_option (as_string (config !! "source"))
    (config_error "extract_index step requires 'source' string" []);
  let format := default "rfc3339" (as_string (config !! "format")) in
  Ok (makeTimestampExtraction "extract_index" source "$timestamp" format).

Definition makeExtractTimestampStep (config : fields) : result TransformationStep :=
  source ← of_option (as_string (config !! "source"))
    (config_error "extract_timestamp step requires 'source' string" []);
  target ← of_option (as_string (config !! "target"))
    (config_error "extract_timestamp step requires 'target' string" []);
  guard_err (HasPrefix target "$")
    (config_error "extract_timestamp 'target' must not start with '$'; use extract_index for the index" []);;
  let format := default "rfc3339" (as_string (config !! "format")) in
  Ok (makeTimestampExtraction "extract_timestamp" source target format).

(** ** extract_table *)

Definition is_alnum (c : Ascii.ascii) : bool :=
  let n := Ascii.N_of_ascii c in
  ((97 <=? n)%N && (n <=? 122)%N) || ((65 <=? n)%N && (n <=? 90)%N)
  || ((48 <=? n)%N && (n <=? 57)%N).

Definition validateTableName (tableName : string) : result unit :=
  match tableName with
  | EmptyString => Err (parse_error "table name cannot be empty" [])
  | String c _ =>
      guard_err (negb (is_alnum c))
        (parse_error "table name must start with an alphanumeric character: %s" [AS tableName])
  end.

Definition makeExtractTableStep (config : fields) : result TransformationStep :=
  let value := as_string (config !! "value") in
  let hasValue := bool_decide (is_Some value) in
  let source0 := as_string (config !! "source") in
  let hasSource0 := bool_decide (is_Some source0) in
  let '(source, hasSource) :=
    if negb hasSource0 && negb hasValue then ("$table", true)
    else (default EmptyString source0, hasSource0) in
  guard_err (hasValue && hasSource)
    (config_error "extract_table cannot have both 'value' and 'source'" []);;
  Ok (fun state =>
    tableName ← (if hasValue then Ok (default EmptyString value +:+ nul)
      else
        field ← of_option (Fields state !! source)
          (parse_error "source field '%s' not found in extract_table" [AS source]);
        fieldStr ← of_option (as_string (Some field))
          (parse_error "table name field '%s' must be a string, got %T" [AS source; AT (Some field)]);
        Ok (fieldStr +:+ nul));
    if HasSuffix tableName nul then
      validateTableName (slice_string tableName 0 (len tableName - 1));;
      Ok (put state "$table" (VString tableName))
    else Err (parse_error "internal error: table name missing null terminator" [])).

(** ** extract_field, safe_parse_number *)

Definition makeExtractFieldStep (config : fields) : result TransformationStep :=
  source ← of_option (as_string (config !! "source"))
    (config_error "extract_field step requires 'source' string" []);
  lookupSource ← map_err (fun err =>
      config_error "extract_field 'source' is not a valid field path: %v" [AE err])
    (compileFieldPath source);
  target ← of_option (as_string (config !! "target"))
    (config_error "extract_field step requires 'target' string" []);
  let fieldType := default EmptyString (as_string (config !! "type")) in
  guard_err (String.eqb fieldType EmptyString)
    (config_error "extract_field step requires an explicit 'type' (use auto for intentional pass-through)" []);;
  let onError := default "fail" (as_string (config !! "on_error")) in
  Ok (fun state =>
    match lookupSource (Fields state) with
    | None =>
        if String.eqb onError "skip" then Ok state
        else Err (parse_error "source field '%s' not found in extract_field step" [AS source])
    | Some value =>
        match convertFieldValue value fieldType with
        | Ok convertedValue => Ok (put state target convertedValue)
        | Err err =>
            if String.eqb onError "skip" then Ok state
            else Err (parse_error_wrap "failed to convert field '%s' to type '%s' in extract_field step: %w"
                        [AS source; AS fieldType] err)
        | Panic => Panic
        end
    end).

(** The type switch of safe_parse_number. *)
Definition number_of (value : value) : result float64 :=
  match value with
  | VString s => ParseFloat s
  | VInt64 v => Ok (f64_of_Z v)
  | VInt v => Ok (f64_of_Z v)
  | VFloat64 v => Ok v
  | VFloat32 v => Ok v
  | _ => Err (Errorf "cannot parse number from type %T in safe_parse_number step" [AT (Some value)])
  end.

Definition makeSafeParseNumberStep (config : fields) : result TransformationStep :=
  source ← of_option (as_string (config !! "source"))
    (config_error "safe_parse_number step requires 'source' string" []);
  lookupSource ← map_err (fun err =>
      config_error "safe_parse_number 'source' is not a valid field path: %v" [AE err])
    (compileFieldPath source);
  target ← of_option (as_string (config !! "target"))
    (config_error "safe_parse_number step requires 'target' string" []);
  let onError := default "null" (as_string (config !! "on_error")) in
  Ok (fun state =>
    match lookupSource (Fields state) with
    | None =>
        if String.eqb onError "skip" then Ok state
        else Err (parse_error "source field '%s' not found in safe_parse_number step" [AS source])
    | Some value =>
        match number_of value with
        | Ok number => Ok (put state target (VFloat64 number))
        | Err err =>
            if String.eqb onError "null" then Ok (put state target VNil)
            else if String.eqb onError "skip" then Ok state
            else Err (parse_error_wrap "failed to parse number in safe_parse_number step: %w" [] err)
        | Panic => Panic
        end
    end).

End steps.

(** ** What a step may do to the state

    Every step either leaves the state alone or replaces fields or the payload;
    none touches the message, the errors or the column buffers. *)
Inductive updates (st : ParseState) : ParseState -> Prop :=
  | upd_refl : updates st st
  | upd_put st' k v : updates st st' -> updates st (put st' k v)
  | upd_put_all st' m : updates st st' -> updates st (put_all st' m)
  | upd_data st' d : updates st st' -> updates st (set_Data st' d).

#[export] Hint Constructors updates : qnc.

Lemma updates_frame st st' :
  updates st st' ->
  Message st' = Message st /\ Errors st' = Errors st /\ indexBuf st' = indexBuf st /\
  doubleVals st' = doubleVals st /\ blobVals st' = blobVals st /\ int64Vals st' = int64Vals st /\
  stringVals st' = stringVals st /\ timestampVals st' = timestampVals st.
Proof. induction 1; naive_solver. Qed.

(** A step that never panics and keeps to that frame. *)
Definition good_step (f : TransformationStep) : Prop :=
  forall st, no_panic (f st) /\ forall st', f st = Ok st' -> updates st st'.

(** Its two halves: the frame of its successes, and the absence of panics. *)
Definition framed_step (f : TransformationStep) : Prop := forall st st', f st = Ok st' -> updates st st'.
Definition total_step (f : TransformationStep) : Prop := forall st, no_panic (f st).

Lemma good_step_framed f : good_step f -> framed_step f.
Proof. intros G st. apply G. Qed.
Lemma good_step_total f : good_step f -> total_step f.
Proof. intros G st. apply G. Qed.

Lemma good_step_ok (f : TransformationStep) :
  (forall st, no_panic (f st)) -> (forall st st', f st = Ok st' -> updates st st') -> good_step f.
Proof. intros A B st. split; [apply A|apply B]. Qed.

(** Split binds, tests and matches of a no-panic goal. *)
Ltac no_panic_tac :=
  repeat first
    [ progress intros
    | progress cbv beta
    | solve [eauto with qnc]
    | apply map_err_no_panic
    | apply res_bind_no_panic
    | progress case_match ].

(** The same for the result of a step known to have succeeded. *)
Ltac step_ok_tac :=
  repeat first
    [ progress intros
    | progress inv_res
    | progress simplify_eq
    | solve [eauto with qnc]
    | progress case_match ].

Section step_lemmas.
Context `{GoLibLaws}.

#[local] Hint Resolve convertFieldValue_no_panic convertToTimestamp_no_panic : qnc.

Lemma validateTableName_no_panic s : no_panic (validateTableName s).
Proof. destruct s; cbn; auto with qnc. Qed.

Lemma number_of_no_panic v : no_panic (number_of v).
Proof. destruct v; cbn; auto with qnc. Qed.

#[local] Hint Resolve validateTableName_no_panic number_of_no_panic : qnc.

Lemma makeGzipDecompressStep_good : good_step makeGzipDecompressStep.
Proof.
  apply good_step_ok; unfold makeGzipDecompressStep; [intros st; no_panic_tac|step_ok_tac].
Qed.

Lemma makeDecompressStep_good config f : makeDecompressStep config = Ok f -> good_step f.
Proof.
  unfold makeDecompressStep. intros E. inv_res. case_match; inv_res. subst.
  apply makeGzipDecompressStep_good.
Qed.

Lemma makeParseJSONStep_good config f : makeParseJSONStep config = Ok f -> good_step f.
Proof.
  unfold makeParseJSONStep. intros E. inv_res. subst.
  apply good_step_ok; [intros st; no_panic_tac|step_ok_tac].
Qed.

Lemma makeTimestampExtraction_good n s t fm : good_step (makeTimestampExtraction n s t fm).
Proof.
  apply good_step_ok; unfold makeTimestampExtraction; [intros st; no_panic_tac|step_ok_tac].
Qed.

Lemma makeExtractIndexStep_good config f : makeExtractIndexStep config = Ok f -> good_step f.
Proof.
  unfold makeExtractIndexStep. intros E. inv_res. subst. apply makeTimestampExtraction_good.
Qed.

Lemma makeExtractTimestampStep_good config f : makeExtractTimestampStep config = Ok f -> good_step f.
Proof.
  unfold makeExtractTimestampStep. intros E. inv_res. subst. apply makeTimestampExtraction_good.
Qed.

Lemma makeExtractTableStep_good config f : makeExtractTableStep config = Ok f -> good_step f.
Proof.
  unfold makeExtractTableStep. case_match. intros E. inv_res. subst.
  apply good_step_ok; [intros st; no_panic_tac|step_ok_tac].
Qed.

Lemma makeExtractFieldStep_good config f : makeExtractFieldStep config = Ok f -> good_step f.
Proof.
  unfold makeExtractFieldStep. intros E. inv_res. subst.
  apply good_step_ok; [intros st|step_ok_tac].
  no_panic_tac. exfalso. eapply convertFieldValue_no_panic; [|eassumption]. auto with qnc.
Qed.

Lemma makeSafeParseNumberStep_good config f : makeSafeParseNumberStep config = Ok f -> good_step f.
Proof.
  unfold makeSafeParseNumberStep. intros E. inv_res. subst.
  apply good_step_ok; [intros st|step_ok_tac].
  no_panic_tac. exfalso. eapply number_of_no_panic; eassumption.
Qed.
End step_lemmas.
