(* ===== verification/Compute.v ===== *)
(** * compute_field: concat, split, hash, slice and str (yaml.go)

    Each operation has a configuration record, a parser of the configuration
    and a step.  The theorems relate slice to Python's slicing, split to the
    rejoined source, and fix what each operation writes. *)
From S2P Require Import Prelude GoInt GoStr GoFloat GoTime Values FieldPath Convert Steps.
From Stdlib.Strings Require Import Byte.
From Stdlib Require Import Ascii.

(** compileSourceOption, requireStringSource. *)
Definition compileSourceOption (config : fields) (operation : string) : result (string * lookup_fn) :=
  let source := default EmptyString (as_string (config !! "source")) in
  guard_err (String.eqb source EmptyString)
    (config_error "compute_field '%s' requires a 'source' string option" [AS operation]);;
  lookupSource ← map_err (fun err =>
      config_error "compute_field '%s' source is not a valid field path: %v" [AS operation; AE err])
    (compileFieldPath source);
  Ok (source, lookupSource).

Definition requireStringSource (lookup : lookup_fn) (source operation : string) (fs : fields) : result string :=
  value ← of_option (lookup fs)
    (parse_error "field '%s' not found in compute_field %s step" [AS source; AS operation]);
  of_option (as_string (Some value))
    (parse_error "compute_field %s source '%s' has type %T, want string"
       [AS operation; AS source; AT (Some value)]).

(** ** concat *)

Inductive concatPart : Type :=
  | Literal (literal : string)
  | Source (source : string) (lookup : lookup_fn).

Record concatFieldConfig : Type := { cc_target : string; parts : list concatPart }.

Definition parseConcatPart (field : value) : result concatPart :=
  f ← of_option (as_string (Some field))
    (config_error "compute_field 'concat' fields entries must be strings, got %T" [AT (Some field)]);
  if (2 <=? len f) && HasPrefix f dq && HasSuffix f dq
  then Ok (Literal (slice_string f 1 (len f - 1)))
  else
    lookup ← map_err (fun err =>
        config_error "compute_field 'concat' fields entry is not a valid field path: %v" [AE err])
      (compileFieldPath f);
    Ok (Source f lookup).

Definition parseConcatConfig (config : fields) (target : string) : result concatFieldConfig :=
  let fs := default [] (as_slice (config !! "fields")) in
  guard_err (bool_decide (fs = []))
    (config_error "compute_field 'concat' requires a non-empty 'fields' array" []);;
  parts ← mapM (M := result) parseConcatPart fs;
  Ok {| cc_target := target; parts := parts |}.

Fixpoint concat_parts (fs : fields) (ps : list concatPart) (acc : string) : result string :=
  match ps with
  | [] => Ok acc
  | Literal l :: rest => concat_parts fs rest (acc +:+ l)
  | Source source lookup :: rest =>
      s ← requireStringSource lookup source "concat" fs;
      concat_parts fs rest (acc +:+ s)
  end.

Definition makeStringConcatStep (cfg : concatFieldConfig) : TransformationStep := fun state =>
  result ← concat_parts (Fields state) (parts cfg) EmptyString;
  Ok (put state (cc_target cfg) (VString result)).

(** ** split *)

Definition parseIntOption (config : fields) (key : string) : result (Z * bool) :=
  match config !! key with
  | None => Ok (0, false)
  | Some (VInt v) => Ok (v, true)
  | Some (VInt64 v) => Ok (v, true)
  | Some raw => Err (Errorf "'%s' must be an integer, got %T" [AS key; AT (Some raw)])
  end.

(** [v, present, err := parseIntOption(...); if err != nil || !present]. *)
Definition requiredInt (config : fields) (key : string) (e : error) : result Z :=
  match parseIntOption config key with
  | Ok (v, true) => Ok v
  | Panic => Panic
  | _ => Err e
  end.

Record splitFieldConfig : Type := {
  sp_source : string; sp_lookupSource : lookup_fn; separator : string;
  sp_target : string; index : Z }.

Definition parseSplitConfig (config : fields) (target : string) : result splitFieldConfig :=
  '(source, lookupSource) ← compileSourceOption config "split";
  let separator := default EmptyString (as_string (config !! "separator")) in
  guard_err (String.eqb separator EmptyString)
    (config_error "compute_field 'split' requires a non-empty 'separator' string option" []);;
  index ← requiredInt config "index"
    (config_error "compute_field 'split' requires an integer 'index' option" []);
  Ok {| sp_source := source; sp_lookupSource := lookupSource; separator := separator;
        sp_target := target; index := index |}.

(** Select [parts[idx]], a negative index counting from the end; shared by
    split and extract_subject.  [idx += len] is an int addition. *)
Definition select_part (parts : list string) (index : Z) : option string :=
  let n := Z.of_nat (length parts) in
  let idx := if index <? 0 then wrap64 (index + n) else index in
  if (idx <? 0) || (n <=? idx) then None else parts !! Z.to_nat idx.

Definition makeSplitFieldStep (cfg : splitFieldConfig) : TransformationStep := fun state =>
  s ← requireStringSource (sp_lookupSource cfg) (sp_source cfg) "split" (Fields state);
  let parts := Split s (separator cfg) in
  part ← of_option (select_part parts (index cfg))
    (parse_error "split index %d out of range (%d parts) in compute_field step"
       [AZ (index cfg); AZ (Z.of_nat (length parts))]);
  Ok (put state (sp_target cfg) (VString part)).

(** ** hash *)

Section compute.
  Context `{GoLib}.

Record hashFieldConfig : Type := {
  h_source : string; h_lookupSource : lookup_fn; h_target : string;
  digestHex : list byte -> string }.

Definition parseHashConfig (config : fields) (target : string) : result hashFieldConfig :=
  '(source, lookupSource) ← compileSourceOption config "hash";
  algorithm ← of_option (as_string (config !! "algorithm"))
    (config_error "compute_field 'hash' requires an 'algorithm' string option" []);
  digestHex ← (if String.eqb algorithm "sha1" then Ok (fun data => EncodeToString (sha1_Sum data))
    else if String.eqb algorithm "sha256" then Ok (fun data => EncodeToString (sha256_Sum256 data))
    else Err (config_error "unsupported algorithm in compute_field hash step: %s" [AS algorithm]));
  Ok {| h_source := source; h_lookupSource := lookupSource; h_target := target; digestHex := digestHex |}.

Definition makeHashFieldStep (cfg : hashFieldConfig) : TransformationStep := fun state =>
  s ← requireStringSource (h_lookupSource cfg) (h_source cfg) "hash" (Fields state);
  Ok (put state (h_target cfg) (VString (digestHex cfg (bytes_of_string s)))).

(** ** slice *)

Record sliceFieldConfig : Type := {
  sl_source : string; sl_lookupSource : lookup_fn; sl_target : string;
  start : Z; end_ : Z; hasEnd : bool }.

Definition parseSliceConfig (config : fields) (target : string) : result sliceFieldConfig :=
  '(source, lookupSource) ← compileSourceOption config "slice";
  start ← requiredInt config "start"
    (config_error "compute_field 'slice' requires an integer 'start' option" []);
  '(end_, hasEnd) ← map_err (fun _ =>
      config_error "compute_field 'slice' 'end' option must be an integer" [])
    (parseIntOption config "end");
  Ok {| sl_source := source; sl_lookupSource := lookupSource; sl_target := target;
        start := start; end_ := end_; hasEnd := hasEnd |}.

Definition clampSliceIndex (idx n : Z) : Z :=
  let idx := if idx <? 0 then wrap64 (idx + n) else idx in
  Z.min (Z.max idx 0) n.

(** The value a slice step writes. *)
Definition slice_value (cfg : sliceFieldConfig) (s : string) : string :=
  let lo := clampSliceIndex (start cfg) (len s) in
  let hi := if hasEnd cfg then clampSliceIndex (end_ cfg) (len s) else len s in
  if hi <=? lo then EmptyString else slice_string s lo hi.

Definition makeSliceFieldStep (cfg : sliceFieldConfig) : TransformationStep := fun state =>
  s ← requireStringSource (sl_lookupSource cfg) (sl_source cfg) "slice" (Fields state);
  Ok (put state (sl_target cfg) (VString (slice_value cfg s))).

(** ** str *)

Record strFieldConfig : Type := {
  st_source : string; st_lookupSource : lookup_fn; st_target : string }.

Definition parseStrConfig (config : fields) (target : string) : result strFieldConfig :=
  '(source, lookupSource) ← compileSourceOption config "str";
  Ok {| st_source := source; st_lookupSource := lookupSource; st_target := target |}.

Definition makeStrFieldStep (cfg : strFieldConfig) : TransformationStep := fun state =>
  value ← of_option (st_lookupSource cfg (Fields state))
    (parse_error "field '%s' not found in compute_field str step" [AS (st_source cfg)]);
  match value with
  | VString v => Ok (put state (st_target cfg) (VString v))
  | VInt64 v => Ok (put state (st_target cfg) (VString (FormatInt v)))
  | VFloat64 v => Ok (put state (st_target cfg) (VString (FormatFloat_g v)))
  | VBool v => Ok (put state (st_target cfg) (VString (FormatBool v)))
  | _ => Err (parse_error "compute_field str source '%s' has unsupported type %T"
                [AS (st_source cfg); AT (Some value)])
  end.

(** ** The factory *)

Definition makeComputeFieldStep (config : fields) : result TransformationStep :=
  operation ← of_option (as_string (config !! "operation"))
    (config_error "compute_field step requires 'operation' string" []);
  target ← of_option (as_string (config !! "target"))
    (config_error "compute_field step requires 'target' string" []);
  guard_err (HasPrefix target "$")
    (config_error "compute_field 'target' must not start with '$'; write a plain field and point extract_table 'source' at it" []);;
  if String.eqb operation "concat" then cfg ← parseConcatConfig config target; Ok (makeStringConcatStep cfg)
  else if String.eqb operation "split" then cfg ← parseSplitConfig config target; Ok (makeSplitFieldStep cfg)
  else if String.eqb operation "hash" then cfg ← parseHashConfig config target; Ok (makeHashFieldStep cfg)
  else if String.eqb operation "slice" then cfg ← parseSliceConfig config target; Ok (makeSliceFieldStep cfg)
  else if String.eqb operation "str" then cfg ← parseStrConfig config target; Ok (makeStrFieldStep cfg)
  else Err (config_error "unsupported operation in compute_field step: %s" [AS operation]).

End compute.

(** ** Index resolution *)

(** Python's index rule on a sequence of [n] elements. *)
Definition py_index (i n : Z) : Z := if i <? 0 then Z.max 0 (n + i) else Z.min i n.

(** Python's [l[i:j]], [None] for an omitted [j]. *)
Definition py_slice {A} (l : list A) (i : Z) (j : option Z) : list A :=
  let n := Z.of_nat (length l) in
  let lo := py_index i n in
  let hi := match j with Some j => py_index j n | None => n end in
  take (Z.to_nat (hi - lo)) (drop (Z.to_nat lo) l).

(** Python's [l[i]]. *)
Definition py_get {A} (l : list A) (i : Z) : option A :=
  if i <? 0 then reverse l !! Z.to_nat (- i - 1) else l !! Z.to_nat i.

Lemma clampSliceIndex_py idx n :
  in_int64 idx -> 0 <= n <= max_int64 -> clampSliceIndex idx n = py_index idx n.
Proof.
  intros I N. unfold clampSliceIndex, py_index. destruct (idx <? 0) eqn:E; bools; [|lia].
  rewrite wrap64_id by (unfold_range; lia). lia.
Qed.

Lemma py_index_range i n : 0 <= n -> 0 <= py_index i n <= n.
Proof. unfold py_index. case_match; bools; lia. Qed.

Lemma select_part_py (parts : list string) i :
  in_int64 i -> Z.of_nat (length parts) <= max_int64 -> select_part parts i = py_get parts i.
Proof.
  intros I N. unfold select_part, py_get. set (n := Z.of_nat (length parts)) in *.
  destruct (i <? 0) eqn:E; bools.
  - rewrite wrap64_id by (unfold_range; lia).
    destruct (i + n <? 0) eqn:E1; bools; cbn [orb].
    + symmetry. apply lookup_ge_None_2. rewrite length_reverse. lia.
    + rewrite (proj2 (Z.leb_gt _ _)) by lia.
      destruct (parts !! Z.to_nat (i + n)) eqn:E2.
      * symmetry. apply reverse_lookup_Some. split; [|lia]. rewrite <- E2. f_equal. lia.
      * apply lookup_ge_None in E2. lia.
  - rewrite (proj2 (Z.ltb_ge _ _)) by lia. cbn [orb].
    destruct (n <=? i) eqn:E1; bools; [|done]. symmetry. apply lookup_ge_None_2. lia.
Qed.

Section compute_lemmas.
Context `{GoLibLaws}.

Lemma requireStringSource_ok lookup source op fs s :
  lookup fs = Some (VString s) -> requireStringSource lookup source op fs = Ok s.
Proof. unfold requireStringSource. intros ->. done. Qed.

Lemma requireStringSource_no_panic lookup source op fs :
  no_panic (requireStringSource lookup source op fs).
Proof. unfold requireStringSource. no_panic_tac. Qed.

#[local] Hint Resolve requireStringSource_no_panic : qnc.

Lemma concat_parts_no_panic fs ps acc : no_panic (concat_parts fs ps acc).
Proof. revert acc. induction ps as [|[] ps IH]; intros acc; cbn; no_panic_tac. Qed.

#[local] Hint Resolve concat_parts_no_panic : qnc.

(** Every operation writes one string, to its target. *)
Definition writes_string (target : string) (f : TransformationStep) : Prop :=
  forall st, no_panic (f st) /\ forall st', f st = Ok st' -> exists v, st' = put st target (VString v).

Ltac writes_tac :=
  intros st; split; [no_panic_tac|intros st' E; inv_res; try case_match; inv_res; eauto].

Lemma makeStringConcatStep_writes cfg : writes_string (cc_target cfg) (makeStringConcatStep cfg).
Proof. unfold makeStringConcatStep. writes_tac. Qed.
Lemma makeSplitFieldStep_writes cfg : writes_string (sp_target cfg) (makeSplitFieldStep cfg).
Proof. unfold makeSplitFieldStep. writes_tac. Qed.
Lemma makeHashFieldStep_writes cfg : writes_string (h_target cfg) (makeHashFieldStep cfg).
Proof. unfold makeHashFieldStep. writes_tac. Qed.
Lemma makeSliceFieldStep_writes cfg : writes_string (sl_target cfg) (makeSliceFieldStep cfg).
Proof. unfold makeSliceFieldStep. writes_tac. Qed.
Lemma makeStrFieldStep_writes cfg : writes_string (st_target cfg) (makeStrFieldStep cfg).
Proof. unfold makeStrFieldStep. writes_tac. Qed.

(** The five configuration parsers keep the target they are given. *)
Ltac target_tac := intros E; repeat first [progress inv_res | case_match]; subst; done.

Lemma parseConcatConfig_target config t cfg : parseConcatConfig config t = Ok cfg -> cc_target cfg = t.
Proof. unfold parseConcatConfig. target_tac. Qed.
Lemma parseSplitConfig_target config t cfg : parseSplitConfig config t = Ok cfg -> sp_target cfg = t.
Proof. unfold parseSplitConfig. target_tac. Qed.
Lemma parseHashConfig_target config t cfg : parseHashConfig config t = Ok cfg -> h_target cfg = t.
Proof. unfold parseHashConfig. target_tac. Qed.
Lemma parseSliceConfig_target config t cfg : parseSliceConfig config t = Ok cfg -> sl_target cfg = t.
Proof. unfold parseSliceConfig. target_tac. Qed.
Lemma parseStrConfig_target config t cfg : parseStrConfig config t = Ok cfg -> st_target cfg = t.
Proof. unfold parseStrConfig. target_tac. Qed.

Lemma makeComputeFieldStep_inv config f :
  makeComputeFieldStep config = Ok f ->
  exists target, as_string (config !! "target") = Some target /\ HasPrefix target "$" = false /\
    writes_string target f.
Proof.
  unfold makeComputeFieldStep. intros E. inv_res.
  eexists. split; [eassumption|]. split; [eassumption|].
  repeat case_match; inv_res; subst.
  - match goal with E : parseConcatConfig _ _ = Ok _ |- _ => rewrite <- (parseConcatConfig_target _ _ _ E) end. apply makeStringConcatStep_writes.
  - match goal with E : parseSplitConfig _ _ = Ok _ |- _ => rewrite <- (parseSplitConfig_target _ _ _ E) end. apply makeSplitFieldStep_writes.
  - match goal with E : parseHashConfig _ _ = Ok _ |- _ => rewrite <- (parseHashConfig_target _ _ _ E) end. apply makeHashFieldStep_writes.
  - match goal with E : parseSliceConfig _ _ = Ok _ |- _ => rewrite <- (parseSliceConfig_target _ _ _ E) end. apply makeSliceFieldStep_writes.
  - match goal with E : parseStrConfig _ _ = Ok _ |- _ => rewrite <- (parseStrConfig_target _ _ _ E) end. apply makeStrFieldStep_writes.
Qed.

Lemma makeComputeFieldStep_good config f : makeComputeFieldStep config = Ok f -> good_step f.
Proof.
  intros (t & _ & _ & W)%makeComputeFieldStep_inv st. split; [apply W|].
  intros st' [v ->]%W. auto with qnc.
Qed.
End compute_lemmas.

(** ** Properties *)

Section compute_properties.
Context `{GoLibLaws}.

(** A slice step has Python slice semantics on the bytes of its source:
    negative indices count from the end, indices out of range clamp and an
    inverted range gives the empty string; it never fails on a string. *)
Theorem slice_step_python cfg st s :
  sl_lookupSource cfg (Fields st) = Some (VString s) ->
  in_int64 (start cfg) -> in_int64 (end_ cfg) -> len s <= max_int64 ->
  exists r,
    makeSliceFieldStep cfg st = Ok (put st (sl_target cfg) (VString r)) /\
    String.list_ascii_of_string r =
      py_slice (String.list_ascii_of_string s) (start cfg)
        (if hasEnd cfg then Some (end_ cfg) else None).
Proof.
  intros L I1 I2 N. exists (slice_value cfg s). split.
  - unfold makeSliceFieldStep. by rewrite (requireStringSource_ok _ _ _ _ _ L).
  - pose proof (len_nonneg s). unfold slice_value, py_slice.
    rewrite length_list_ascii. change (Z.of_nat (String.length s)) with (len s).
    rewrite !clampSliceIndex_py by (done || lia).
    replace (match (if hasEnd cfg then Some (end_ cfg) else None) with
             | Some j => py_index j (len s) | None => len s end)
      with (if hasEnd cfg then py_index (end_ cfg) (len s) else len s) by (by destruct (hasEnd cfg)).
    set (hi := if hasEnd cfg then _ else _). destruct (hi <=? _) eqn:E; bools.
    + replace (Z.to_nat (hi - _)) with 0%nat by lia. done.
    + unfold slice_string. by rewrite list_ascii_substring.
Qed.

(** A split step writes the part Python's [parts[index]] names, where the
    parts rejoin to the source and contain no separator; an index outside
    the parts is reported and nothing is written. *)
Theorem split_step_selects cfg st s :
  sp_lookupSource cfg (Fields st) = Some (VString s) ->
  separator cfg <> EmptyString -> in_int64 (index cfg) -> len s < max_int64 ->
  exists parts,
    Join parts (separator cfg) = s /\
    Forall (fun p => Contains p (separator cfg) = false) parts /\
    makeSplitFieldStep cfg st =
      match py_get parts (index cfg) with
      | Some p => Ok (put st (sp_target cfg) (VString p))
      | None => Err (parse_error "split index %d out of range (%d parts) in compute_field step"
                       [AZ (index cfg); AZ (Z.of_nat (length parts))])
      end.
Proof.
  intros L S I N. exists (Split s (separator cfg)).
  split; [by apply Join_Split|]. split; [by apply Split_free|].
  unfold makeSplitFieldStep. rewrite (requireStringSource_ok _ _ _ _ _ L). cbn.
  pose proof (length_Split s (separator cfg)).
  rewrite select_part_py by (done || lia). by destruct (py_get _ _).
Qed.

(** A compiled compute_field never panics, and when it succeeds it has
    written exactly one field, a string, at its target, which is not one of
    the reserved $-fields. *)
Theorem compute_field_writes config f st :
  makeComputeFieldStep config = Ok f ->
  exists target, as_string (config !! "target") = Some target /\ HasPrefix target "$" = false /\
    no_panic (f st) /\
    forall st', f st = Ok st' -> exists v, st' = put st target (VString v).
Proof.
  intros (t & A & B & W)%makeComputeFieldStep_inv. exists t. split_and!; [done|done|apply W..].
Qed.
End compute_properties.
