(* ===== verification/Subject.v ===== *)
(** * extract_subject (subject.go) *)
From S2P Require Import Prelude GoInt GoStr GoFloat GoTime Values FieldPath Convert Steps Compute.

Record subjectStepConfig : Type := {
  target : string; segment : Z; hasSegment : bool; trim : string }.

Section subject.
  Context `{GoLib}.

Definition parseSubjectConfig (config : fields) : result subjectStepConfig :=
  let target := default EmptyString (as_string (config !! "target")) in
  guard_err (String.eqb target EmptyString)
    (config_error "extract_subject step requires a 'target' string option" []);;
  '(segment, present) ← map_err (fun err => config_error "extract_subject %v" [AE err])
    (parseIntOption config "segment");
  trim ← match config !! "trim" with
    | None => Ok EmptyString
    | Some raw => of_option (as_string (Some raw))
        (config_error "extract_subject 'trim' must be a string" [])
    end;
  Ok {| target := target; segment := segment; hasSegment := present; trim := trim |}.

Definition subjectSegment (subject : string) (index : Z) : result string :=
  let parts := Split subject dot in
  of_option (select_part parts index)
    (Errorf "segment %d out of range for subject with %d segments in extract_subject step"
       [AZ index; AZ (Z.of_nat (length parts))]).

Definition makeExtractSubjectStep (config : fields) : result TransformationStep :=
  cfg ← parseSubjectConfig config;
  Ok (fun state =>
    msg ← of_option (Message state) (parse_error "nil message in extract_subject step" []);
    value ← (if hasSegment cfg then
               map_err (fun e => NewParsingFailedError "yaml_parser" e)
                 (subjectSegment (Subject msg) (segment cfg))
             else Ok (Subject msg));
    let value := if String.eqb (trim cfg) EmptyString then value else Trim value (trim cfg) in
    Ok (put state (target cfg) (VString value))).

End subject.

Section subject_lemmas.
Context `{GoLibLaws}.

Lemma makeExtractSubjectStep_good config f : makeExtractSubjectStep config = Ok f -> good_step f.
Proof.
  unfold makeExtractSubjectStep, subjectSegment. intros E. inv_res. subst.
  apply good_step_ok; [intros st; no_panic_tac|step_ok_tac].
Qed.

(** A subject built from dot-free tokens is taken apart into those tokens,
    whichever end the index counts from. *)
Theorem subjectSegment_tokens tokens i :
  tokens <> [] -> Forall (fun t => no_dot t = true) tokens ->
  in_int64 i -> Z.of_nat (length tokens) <= max_int64 ->
  subjectSegment (Join tokens dot) i =
    match py_get tokens i with
    | Some t => Ok t
    | None => Err (Errorf "segment %d out of range for subject with %d segments in extract_subject step"
                     [AZ i; AZ (Z.of_nat (length tokens))])
    end.
Proof.
  intros Hn Hd Hi Hl. unfold subjectSegment. rewrite Split_Join_dot by done.
  rewrite select_part_py by done. by destruct (py_get tokens i).
Qed.
End subject_lemmas.
