(* ===== verification/MapEntry.v ===== *)
(** * extract_map_entry (mapentry.go)

    The step lifts the single entry of a decoded map to two named fields.  The
    theorems say which entry is chosen, that the choice does not depend on the
    order the runtime ranges over the map, and when the step succeeds. *)
From S2P Require Import Prelude GoInt GoStr GoFloat GoTime Values FieldPath Convert Steps.

Record mapEntryStepConfig : Type := {
  source : string; lookupSource : lookup_fn; keyTarget : string; valueTarget : string;
  onMultiple : string; allowedKeys : option (gset string) }.

(** strconv.FormatUint is FormatInt on a value without sign. *)
Definition allowed_key (element : value) : result string :=
  match element with
  | VString v => Ok v
  | VInt v => Ok (FormatInt v)
  | VInt64 v => Ok (FormatInt v)
  | VUint64 v => Ok (FormatInt v)
  | _ => Err (Errorf "'allowed_keys' element has unsupported type %T" [AT (Some element)])
  end.

Definition parseAllowedKeys (raw : value) : result (gset string) :=
  list ← of_option (as_slice (Some raw)) (Errorf "'allowed_keys' must be a list" []);
  guard_err (bool_decide (list = []))
    (Errorf "'allowed_keys' must not be empty: an empty list would drop every message" []);;
  keys ← mapM (M := result) allowed_key list;
  Ok (list_to_set keys).

(** parseMapEntryOptions: the pair of on_multiple and allowed_keys. *)
Definition parseMapEntryOptions (config : fields) : result (string * option (gset string)) :=
  mode ← match config !! "on_multiple" with
    | None => Ok "fail"
    | Some raw =>
        let mode := default EmptyString (as_string (Some raw)) in
        guard_err (negb (String.eqb mode "first") && negb (String.eqb mode "fail"))
          (config_error "extract_map_entry 'on_multiple' must be first or fail" []);;
        Ok mode
    end;
  keys ← match config !! "allowed_keys" with
    | None => Ok None
    | Some raw => Some <$> map_err (fun err => config_error "extract_map_entry %v" [AE err])
        (parseAllowedKeys raw)
    end;
  Ok (mode, keys).

(** A required non-empty string option. *)
Definition required_string (fmt : string) (config : fields) (key : string) : result string :=
  let value := default EmptyString (as_string (config !! key)) in
  guard_err (String.eqb value EmptyString) (config_error fmt [AS key]);;
  Ok value.

(** The range over the three required keys runs in map order. *)
Definition required_strings `{MapIter} (fmt : string) (config : fields) (keys : list string) : result unit :=
  mapM (M := result) (required_string fmt config) (iter keys);; Ok tt.

Definition parseMapEntryConfig `{MapIter} (config : fields) : result mapEntryStepConfig :=
  let option_at key := default EmptyString (as_string (config !! key)) in
  required_strings "extract_map_entry step requires a '%s' string option" config
    ["source"; "key_target"; "value_target"];;
  lookup ← map_err (fun err =>
      config_error "extract_map_entry 'source' is not a valid field path: %v" [AE err])
    (compileFieldPath (option_at "source"));
  '(mode, keys) ← parseMapEntryOptions config;
  Ok {| source := option_at "source"; lookupSource := lookup;
        keyTarget := option_at "key_target"; valueTarget := option_at "value_target";
        onMultiple := mode; allowedKeys := keys |}.

(** The keys are gathered by ranging over the map, in [iter] order, and then
    sorted bytewise (sort.Strings). *)
Definition selectMapEntry `{MapIter} (m : gmap string value) (onMultiple source : string) : result string :=
  let keys := merge_sort string_le (iter (map_to_list m).*1) in
  match keys with
  | [] => Err (Errorf "map '%s' is empty in extract_map_entry step" [AS source])
  | k :: rest =>
      guard_err (negb (bool_decide (rest = [])) && String.eqb onMultiple "fail")
        (Errorf "map '%s' has %d entries in extract_map_entry step, want exactly 1"
           [AS source; AZ (Z.of_nat (length keys))]);;
      Ok k
  end.

Definition coerceMapKey (key : string) : value :=
  match ParseInt key with Ok n => VInt64 n | _ => VString key end.

Definition makeExtractMapEntryStep `{MapIter} (config : fields) : result TransformationStep :=
  cfg ← parseMapEntryConfig config;
  Ok (fun state =>
    value ← of_option (lookupSource cfg (Fields state))
      (parse_error "source field '%s' not found in extract_map_entry step" [AS (source cfg)]);
    m ← of_option (as_map (Some value))
      (parse_error "extract_map_entry source '%s' has type %T, want a map"
         [AS (source cfg); AT (Some value)]);
    key ← map_err (fun e => NewParsingFailedError "yaml_parser" e)
      (selectMapEntry m (onMultiple cfg) (source cfg));
    guard_err (match allowedKeys cfg with
               | Some keys => negb (bool_decide (key ∈ keys)) | None => false end)
      (parse_error "map key '%s' not in allowed_keys in extract_map_entry step" [AS key]);;
    Ok (put (put state (keyTarget cfg) (coerceMapKey key))
          (valueTarget cfg) (default VNil (m !! key)))).

(** ** Lemmas *)

(** The least key of a map, as sorting finds it. *)
Lemma selectMapEntry_spec `{MapIter} m mode src k :
  selectMapEntry m mode src = Ok k ->
  is_Some (m !! k) /\ (forall k', is_Some (m !! k') -> string_le k k') /\
  (mode = "fail" -> size m = 1%nat).
Proof.
  unfold selectMapEntry. set (keys := merge_sort string_le _).
  assert (P : keys ≡ₚ (map_to_list m).*1).
  { unfold keys. rewrite merge_sort_Permutation. apply iter_perm. }
  assert (S : StronglySorted string_le keys) by (apply StronglySorted_merge_sort; apply _).
  assert (M : forall k', k' ∈ keys <-> is_Some (m !! k')).
  { intros k'. rewrite P, list_elem_of_fmap. split.
    - intros ([a b] & -> & E%elem_of_map_to_list). by eexists.
    - intros [v E%elem_of_map_to_list]. by exists (k', v). }
  destruct keys as [|k0 rest] eqn:E; [done|]. intros G. inv_res. subst k0.
  apply StronglySorted_inv in S as [_ F]. split_and!.
  - apply M. left.
  - intros k' [->|I]%M%elem_of_cons.
    + destruct (total string_le k k); done.
    + by apply (proj1 (Forall_forall _ _) F).
  - intros ->. match goal with G : _ && _ = false |- _ => cbn in G; rewrite andb_true_r in G end.
    bools. case_bool_decide; [subst|done].
    rewrite <- length_map_to_list, <- (length_fmap fst), <- P. done.
Qed.

Lemma selectMapEntry_no_panic `{MapIter} m mode src : no_panic (selectMapEntry m mode src).
Proof. unfold selectMapEntry. no_panic_tac. Qed.

#[export] Hint Resolve selectMapEntry_no_panic : qnc.

Lemma makeExtractMapEntryStep_good `{MapIter} config f :
  makeExtractMapEntryStep config = Ok f -> good_step f.
Proof.
  unfold makeExtractMapEntryStep. intros E. inv_res. subst.
  apply good_step_ok; [intros st; no_panic_tac|step_ok_tac].
Qed.

(** The least key is found, whatever the range order was. *)
Lemma selectMapEntry_complete `{MapIter} m mode src k :
  is_Some (m !! k) -> (forall k', is_Some (m !! k') -> string_le k k') ->
  (mode = "fail" -> size m = 1%nat) -> selectMapEntry m mode src = Ok k.
Proof.
  intros [v Hk] Hl Hm. unfold selectMapEntry. set (keys := merge_sort string_le _).
  assert (P : keys ≡ₚ (map_to_list m).*1).
  { unfold keys. rewrite merge_sort_Permutation. apply iter_perm. }
  assert (S : StronglySorted string_le keys) by (apply StronglySorted_merge_sort; apply _).
  assert (K : k ∈ keys).
  { rewrite P. apply list_elem_of_fmap. exists (k, v). split; [done|]. by apply elem_of_map_to_list. }
  assert (L : length keys = size m).
  { rewrite P, length_fmap. apply length_map_to_list. }
  destruct keys as [|k0 rest] eqn:E; [by apply not_elem_of_nil in K|].
  assert (k0 = k) as ->.
  { apply StronglySorted_inv in S as [_ F]. apply elem_of_cons in K as [->|K]; [done|].
    apply (anti_symm string_le); [by apply (proj1 (Forall_forall _ _) F)|].
    apply Hl. assert (k0 ∈ (map_to_list m).*1) as I by (rewrite <- P; left).
    apply list_elem_of_fmap in I as ([a b] & -> & I%elem_of_map_to_list). by eexists. }
  destruct (String.eqb_spec mode "fail") as [->|N]; [|by rewrite andb_false_r].
  destruct rest; [done|]. cbn in L. specialize (Hm eq_refl). lia.
Qed.

Lemma coerceMapKey_FormatInt z : in_int64 z -> coerceMapKey (FormatInt z) = VInt64 z.
Proof. intros H. unfold coerceMapKey. by rewrite ParseInt_FormatInt. Qed.

(** ** Properties *)

(** The step succeeds exactly when its source is a map whose bytewise least
    key is allowed (and is the only key, under on_multiple fail); it then
    writes that key, turned back to an integer when it denotes one, and its
    value.  The characterisation does not mention the order in which the
    runtime ranges over the map: the result is deterministic. *)
Theorem map_entry_exact `{MapIter} config cfg f st st' :
  parseMapEntryConfig config = Ok cfg -> makeExtractMapEntryStep config = Ok f ->
  f st = Ok st' <->
  exists m k v,
    lookupSource cfg (Fields st) = Some (VMap m) /\ m !! k = Some v /\
    (forall k', is_Some (m !! k') -> string_le k k') /\
    (onMultiple cfg = "fail" -> size m = 1%nat) /\
    (forall keys, allowedKeys cfg = Some keys -> k ∈ keys) /\
    st' = put (put st (keyTarget cfg)
                 match ParseInt k with Ok n => VInt64 n | _ => VString k end) (valueTarget cfg) v.
Proof.
  intros C E. unfold makeExtractMapEntryStep in E. rewrite C in E. cbn in E. injection E as <-. split.
  - intros (value & L & (m & A & (k & S & (u & G & E)%res_bind_ok)%res_bind_ok)%res_bind_ok)%res_bind_ok.
    inv_res. destruct value; try done. injection A as ->.
    apply selectMapEntry_spec in S as ([v Hk] & Hl & Hs). exists m, k, v.
    subst st'. rewrite Hk. split_and!; try done.
    intros keys Hkeys. rewrite Hkeys in G. bools. by case_bool_decide.
  - intros (m & k & v & -> & Hk & Hl & Hs & Ha & ->). cbn.
    rewrite (selectMapEntry_complete m _ _ k) by eauto. cbn.
    replace (match allowedKeys cfg with Some keys => _ | None => false end) with false.
    + cbn. by rewrite Hk.
    + destruct (allowedKeys cfg) as [keys|]; [|done]. by rewrite bool_decide_eq_true_2 by auto.
Qed.
