(* ===== verification/Unpack.v ===== *)
(** * unpack: fixed-width binary arrays (unpack.go)

    The step reinterprets a byte field as an array of integers or floats.  The
    readers slice and index bytes, so [Panic] is a possible outcome of their
    definitions; the theorems exclude it and give the round trip with the
    matching encoder, the arithmetic of the scale and the all-or-nothing
    behaviour of the step. *)
From S2P Require Import Prelude GoInt GoStr GoFloat GoTime Values FieldPath Convert Steps MapEntry.
From Stdlib.Strings Require Import Byte.
From Stdlib Require Import SpecFloat.

Inductive ByteOrder : Set := LittleEndian | BigEndian | NativeEndian.

Fixpoint le_value (b : list byte) : Z :=
  match b with [] => 0 | x :: xs => Z.of_N (Byte.to_N x) + 256 * le_value xs end.

Definition is_little `{GoLib} (o : ByteOrder) : bool :=
  match o with LittleEndian => true | BigEndian => false | NativeEndian => native_is_little end.

(** binary.ByteOrder.Uint16, Uint32, Uint64: the first [w] bytes of [b]; a
    shorter slice is an index-out-of-range panic. *)
Definition Uint `{GoLib} (w : nat) (o : ByteOrder) (b : list byte) : result Z :=
  if (length b <? w)%nat then Panic
  else Ok (le_value (if is_little o then take w b else reverse (take w b))).

Definition readInt_fn : Type := ByteOrder -> list byte -> result Z.
Definition widen_fn : Type := ByteOrder -> list byte -> result float64.

Section unpack.
  Context `{GoLib}.

(** int64(intW(x)). *)
Definition signed_read (w : nat) (o : ByteOrder) (b : list byte) : result Z :=
  x ← Uint w o b; Ok (sign_extend (8 * Z.of_nat w) x).

Definition readInt8 : readInt_fn := fun _ b => signed_read 1 LittleEndian b.
Definition readUint8 : readInt_fn := fun _ b => Uint 1 LittleEndian b.
Definition readInt16 : readInt_fn := signed_read 2.
Definition readUint16 : readInt_fn := Uint 2.
Definition readInt32 : readInt_fn := signed_read 4.
Definition readUint32 : readInt_fn := Uint 4.
Definition readInt64 : readInt_fn := signed_read 8.
Definition widenUint64 : widen_fn := fun o b => f64_of_Z <$> Uint 8 o b.
Definition widenFloat32 : widen_fn := fun o b => Float32frombits <$> Uint 4 o b.
Definition widenFloat64 : widen_fn := fun o b => Float64frombits <$> Uint 8 o b.

Record unpackElemType : Type := {
  width : nat; isFloat : bool; readInt : option readInt_fn; widen : option widen_fn }.

Definition unpackElemTypes : gmap string unpackElemType := list_to_map
  [("int8", {| width := 1; isFloat := false; readInt := Some readInt8; widen := None |});
   ("uint8", {| width := 1; isFloat := false; readInt := Some readUint8; widen := None |});
   ("int16", {| width := 2; isFloat := false; readInt := Some readInt16; widen := None |});
   ("uint16", {| width := 2; isFloat := false; readInt := Some readUint16; widen := None |});
   ("int32", {| width := 4; isFloat := false; readInt := Some readInt32; widen := None |});
   ("uint32", {| width := 4; isFloat := false; readInt := Some readUint32; widen := None |});
   ("int64", {| width := 8; isFloat := false; readInt := Some readInt64; widen := None |});
   ("uint64", {| width := 8; isFloat := false; readInt := Some readInt64; widen := Some widenUint64 |});
   ("float32", {| width := 4; isFloat := true; readInt := None; widen := Some widenFloat32 |});
   ("float64", {| width := 8; isFloat := true; readInt := None; widen := Some widenFloat64 |})].

(** A nil function value panics when it is called. *)
Definition call_reader {A} (f : option (ByteOrder -> list byte -> result A))
    (o : ByteOrder) (b : list byte) : result A :=
  match f with Some f => f o b | None => Panic end.

Definition widenOf (elem : unpackElemType) : widen_fn :=
  match widen elem with
  | Some w => w
  | None => fun o b => f64_of_Z <$> call_reader (readInt elem) o b
  end.

Record unpackSpec : Type := {
  u_source : string; u_lookupSource : lookup_fn; typeName : string; elem : unpackElemType;
  u_widen : widen_fn; order : ByteOrder; u_target : string; hasScale : bool;
  scaleSource : string; scaleLookup : option lookup_fn; scaleValue : float64 }.

Definition validateScale (s : float64) : result unit :=
  guard_err (IsNaN s || IsInf s || f64_eq s (S754_zero false))
    (Errorf "scale must be finite and non-zero, got %v" [AF s]).

Definition unpackScaleLiteral (raw : value) : result float64 :=
  s ← match raw with
    | VFloat64 v => Ok v
    | VInt v => Ok (f64_of_Z v)
    | _ => Err (Errorf "unpack scale 'value' must be a number, got %T" [AT (Some raw)])
    end;
  map_err (fun err => Errorf "unpack scale 'value': %v" [AE err]) (validateScale s);;
  Ok s.

(** The scale fields a spec receives: hasScale, scaleSource, scaleLookup, scaleValue. *)
Definition parseUnpackScale (config : fields) : result (bool * string * option lookup_fn * float64) :=
  match config !! "scale" with
  | None => Ok (false, EmptyString, None, S754_zero false)
  | Some raw =>
      let m := default ∅ (as_map (Some raw)) in
      let ok := bool_decide (is_Some (as_map (Some raw))) in
      let hasValue := bool_decide (is_Some (m !! "value")) in
      let hasSource := bool_decide (is_Some (m !! "source")) in
      guard_err (negb ok || Bool.eqb hasValue hasSource)
        (config_error "unpack 'scale' must be a map with exactly one of 'value' or 'source'" []);;
      match m !! "value" with
      | Some rawValue =>
          s ← map_err (fun err => config_error "%s" [AE err]) (unpackScaleLiteral rawValue);
          Ok (true, EmptyString, None, s)
      | None =>
          let source := default EmptyString (as_string (m !! "source")) in
          guard_err (String.eqb source EmptyString)
            (config_error "unpack scale 'source' must be a non-empty string" []);;
          lookup ← map_err (fun err =>
              config_error "unpack scale 'source' is not a valid field path: %v" [AE err])
            (compileFieldPath source);
          Ok (true, source, Some lookup, S754_zero false)
      end
  end.

Definition parseUnpackEndianness (config : fields) : result ByteOrder :=
  match config !! "endianness" with
  | None => Ok NativeEndian
  | Some raw =>
      let s := default EmptyString (as_string (Some raw)) in
      if String.eqb s "little" then Ok LittleEndian
      else if String.eqb s "big" then Ok BigEndian
      else Err (config_error "unpack 'endianness' must be little or big, got %v" [AV raw])
  end.

Definition parseUnpackConfig `{MapIter} (config : fields) : result unpackSpec :=
  let option_at key := default EmptyString (as_string (config !! key)) in
  required_strings "unpack step requires a '%s' string option" config ["source"; "type"; "target"];;
  guard_err (HasPrefix (option_at "target") "$")
    (config_error "unpack 'target' must not start with '$' (reserved for extract_* steps)" []);;
  elem ← of_option (unpackElemTypes !! option_at "type")
    (config_error "unpack 'type' must be one of int8, int16, int32, int64, uint8, uint16, uint32, uint64, float32, float64; got %q"
       [AS (option_at "type")]);
  lookup ← map_err (fun err =>
      config_error "unpack 'source' is not a valid field path: %v" [AE err])
    (compileFieldPath (option_at "source"));
  order ← parseUnpackEndianness config;
  '(hasScale, scaleSource, scaleLookup, scaleValue) ← parseUnpackScale config;
  Ok {| u_source := option_at "source"; u_lookupSource := lookup; typeName := option_at "type";
        elem := elem; u_widen := widenOf elem; order := order; u_target := option_at "target";
        hasScale := hasScale; scaleSource := scaleSource; scaleLookup := scaleLookup;
        scaleValue := scaleValue |}.

(** [out[i] = read(order, raw[i*width:])] for [i] below [len(raw)/width]. *)
Definition unpack_each {A} (raw : list byte) (order : ByteOrder)
    (read : ByteOrder -> list byte -> result A) (width : nat) : result (list A) :=
  mapM (M := result) (fun i => read order (drop (i * width)%nat raw)) (seq 0 (length raw / width)%nat).

Definition unpackInts raw order (read : readInt_fn) width : result (list Z) :=
  unpack_each raw order read width.
Definition unpackFloats raw order (widen : widen_fn) width : result (list float64) :=
  unpack_each raw order widen width.
Definition unpackScaled raw order (widen : widen_fn) width (scale : float64) : result (list float64) :=
  unpack_each raw order (fun o b => x ← widen o b; Ok (f64_mul x scale)) width.

Definition resolveScale (u : unpackSpec) (fs : fields) : result float64 :=
  match scaleLookup u with
  | None => Ok (scaleValue u)
  | Some lookup =>
      value ← of_option (lookup fs)
        (parse_error "scale field '%s' not found in unpack step" [AS (scaleSource u)]);
      s ← of_option (as_float64 (Some value))
        (parse_error "unpack scale '%s' has type %T, want float64" [AS (scaleSource u); AT (Some value)]);
      map_err (fun err => parse_error "unpack scale '%s': %v" [AS (scaleSource u); AE err])
        (validateScale s);;
      Ok s
  end.

(** unpackSpec.run. *)
Definition run (u : unpackSpec) : TransformationStep := fun state =>
  value ← of_option (u_lookupSource u (Fields state))
    (parse_error "source field '%s' not found in unpack step" [AS (u_source u)]);
  raw ← of_option (as_bytes (Some value))
    (parse_error "unpack source '%s' has type %T, want []byte" [AS (u_source u); AT (Some value)]);
  let w := width (elem u) in
  guard_err (negb (length raw mod w =? 0)%nat)
    (parse_error "unpack source '%s' byte length %d is not a multiple of %s width %d"
       [AS (u_source u); AZ (Z.of_nat (length raw)); AS (typeName u); AZ (Z.of_nat w)]);;
  if hasScale u then
    scale ← resolveScale u (Fields state);
    out ← unpackScaled raw (order u) (u_widen u) w scale;
    Ok (put state (u_target u) (VFloats out))
  else if isFloat (elem u) then
    out ← unpackFloats raw (order u) (u_widen u) w;
    Ok (put state (u_target u) (VFloats out))
  else
    out ← unpackInts raw (order u) (call_reader (readInt (elem u))) w;
    Ok (put state (u_target u) (VInts out)).

Definition makeUnpackStep `{MapIter} (config : fields) : result TransformationStep :=
  spec ← parseUnpackConfig config; Ok (run spec).

End unpack.

(** ** The matching encoder, and the readers on its output *)

Fixpoint le_bytes (w : nat) (x : Z) : list byte :=
  match w with
  | O => []
  | S w' => default x00 (Byte.of_N (Z.to_N (x mod 256))) :: le_bytes w' (x / 256)
  end.

(** binary.ByteOrder.PutUint16, PutUint32, PutUint64 into fresh bytes. *)
Definition PutUint `{GoLib} (w : nat) (o : ByteOrder) (x : Z) : list byte :=
  if is_little o then le_bytes w x else reverse (le_bytes w x).

Lemma to_of_byte n : (n < 256)%N -> Byte.to_N (default x00 (Byte.of_N n)) = n.
Proof.
  intros L. destruct (Byte.of_N n) as [b|] eqn:E; cbn; [by apply Byte.to_of_N|].
  apply Byte.of_N_None_iff in E. lia.
Qed.

Lemma le_value_bytes w x : le_value (le_bytes w x) = x mod 256 ^ Z.of_nat w.
Proof.
  revert x. induction w as [|w IH]; intros x; cbn [le_bytes le_value].
  - by rewrite Z.mod_1_r.
  - rewrite IH, to_of_byte by (pose proof (Z.mod_pos_bound x 256); lia).
    rewrite Z2N.id by (pose proof (Z.mod_pos_bound x 256); lia).
    rewrite Nat2Z.inj_succ, Z.pow_succ_r by lia. symmetry. apply Z.rem_mul_r; [lia|].
    pose proof (Z.pow_pos_nonneg 256 (Z.of_nat w)). lia.
Qed.

Lemma length_le_bytes w x : length (le_bytes w x) = w.
Proof. revert x. induction w; intros; cbn; auto. Qed.

Section readers.
Context `{GoLibLaws}.

Lemma length_PutUint w o x : length (PutUint w o x) = w.
Proof. unfold PutUint. case_match; rewrite ?length_reverse; apply length_le_bytes. Qed.

Lemma Uint_PutUint w o x rest :
  Uint w o (PutUint w o x ++ rest) = Ok (x mod 256 ^ Z.of_nat w).
Proof.
  unfold Uint. rewrite length_app, length_PutUint.
  rewrite (proj2 (Nat.ltb_ge _ _)) by lia.
  rewrite take_app_length' by (symmetry; apply length_PutUint).
  unfold PutUint. rewrite <- le_value_bytes. by destruct (is_little o); rewrite ?reverse_involutive.
Qed.

Lemma Uint_ok w o b : (w <= length b)%nat -> exists x, Uint w o b = Ok x.
Proof. intros L. unfold Uint. rewrite (proj2 (Nat.ltb_ge _ _)) by lia. eauto. Qed.

(** The integer types: what one element of type [t] holding [n] reads as. *)
Definition int_types : list (string * (nat * bool)) :=
  [("int8", (1%nat, true)); ("uint8", (1%nat, false)); ("int16", (2%nat, true)); ("uint16", (2%nat, false));
   ("int32", (4%nat, true)); ("uint32", (4%nat, false)); ("int64", (8%nat, true)); ("uint64", (8%nat, false))].

(** The values a [w]-byte integer type holds. *)
Definition elem_range (w : nat) (sgn : bool) (n : Z) : Prop :=
  if sgn then - 2 ^ (8 * Z.of_nat w - 1) <= n < 2 ^ (8 * Z.of_nat w - 1)
  else 0 <= n < 2 ^ (8 * Z.of_nat w).

Lemma pow256 w : 256 ^ Z.of_nat w = 2 ^ (8 * Z.of_nat w).
Proof. rewrite Z.pow_mul_r by lia. done. Qed.

Lemma signed_read_PutUint w o n rest :
  (0 < w)%nat -> elem_range w true n -> signed_read w o (PutUint w o n ++ rest) = Ok n.
Proof.
  intros W R. unfold signed_read. rewrite Uint_PutUint. cbn. f_equal.
  rewrite pow256. apply sign_extend_mod; [lia|done].
Qed.

Lemma unsigned_read_PutUint w o n rest :
  elem_range w false n -> Uint w o (PutUint w o n ++ rest) = Ok n.
Proof. intros R. rewrite Uint_PutUint, pow256, Z.mod_small by done. done. Qed.
End readers.

(** ** Element types *)

Section element_types.
Context `{GoLibLaws}.

(** One goal for each row of the table. *)
Ltac table_cases L :=
  unfold unpackElemTypes in L; apply elem_of_list_to_map_2 in L;
  repeat (apply elem_of_cons in L as [L|L]; [simplify_eq|]); try by apply elem_of_nil in L.

(** Every element type reads any slice of at least its width. *)
Lemma elem_type_safe t el :
  unpackElemTypes !! t = Some el ->
  (0 < width el)%nat /\
  forall o b, (width el <= length b)%nat ->
    no_panic (widenOf el o b) /\ (isFloat el = false -> no_panic (call_reader (readInt el) o b)).
Proof.
  intros L. table_cases L.
  all: split; [cbn; lia|]; cbn -[Uint signed_read]; intros o b W; split; [|try done; intros _].
  all: unfold widenOf, call_reader, widenUint64, widenFloat32, widenFloat64, readInt8, readUint8,
         readInt16, readUint16, readInt32, readUint32, readInt64, signed_read; cbn [widen readInt].
  all: match goal with W : (?w <= length ?b)%nat |- context [Uint ?w ?o ?b] =>
         destruct (Uint_ok w o b W) as [x ->] end; done.
Qed.

(** An integer element written by the encoder is read back, as the signed
    64-bit integer it wraps to, and widened to the float of its value. *)
Lemma elem_type_reads t w sgn el o n rest :
  (t, (w, sgn)) ∈ int_types -> unpackElemTypes !! t = Some el -> elem_range w sgn n ->
  width el = w /\ isFloat el = false /\
  call_reader (readInt el) o (PutUint w o n ++ rest) = Ok (wrap64 n) /\
  widenOf el o (PutUint w o n ++ rest) = Ok (f64_of_Z n).
Proof.
  intros I L R.
  assert (O : Uint 1 LittleEndian (PutUint 1 o n ++ rest) = Uint 1 o (PutUint 1 o n ++ rest)).
  { unfold Uint. case_match; [done|]. cbn [is_little]. rewrite take_app_length' by (symmetry; apply length_PutUint).
    unfold PutUint. by destruct (is_little o). }
  assert (W : in_int64 n -> wrap64 n = n) by apply wrap64_id.
  unfold int_types in I.
  repeat (apply elem_of_cons in I as [I|I]; [simplify_eq|]); try by apply elem_of_nil in I.
  all: table_cases L; split; [done|]; split; [done|].
  all: unfold widenOf, call_reader, readInt8, readUint8, readInt16, readUint16, readInt32,
         readUint32, readInt64; cbn [widen readInt].
  1: assert (S : signed_read 1 LittleEndian (PutUint 1 o n ++ rest) = signed_read 1 o (PutUint 1 o n ++ rest))
       by (unfold signed_read; by rewrite O).
  1: rewrite S.
  2: rewrite O.
  all: unfold widenUint64; first
    [ rewrite signed_read_PutUint by (done || lia)
    | unfold signed_read; rewrite unsigned_read_PutUint by done; split; cbn; [|done]; by rewrite sign_extend_64
    | rewrite unsigned_read_PutUint by done ].
  all: split; [|done]; rewrite W; [done|]; unfold elem_range in R; cbn in R; unfold_range; lia.
Qed.
End element_types.

(** ** Arrays *)

Lemma unpack_each_cons {A} b raw o (read : ByteOrder -> list byte -> result A) w :
  (0 < w)%nat -> length b = w ->
  unpack_each (b ++ raw) o read w =
    x ← read o (b ++ raw); xs ← unpack_each raw o read w; Ok (x :: xs).
Proof.
  intros W L. unfold unpack_each. rewrite length_app, L.
  replace ((w + length raw) / w)%nat with (S (length raw / w)).
  2:{ replace (w + length raw)%nat with (length raw + 1 * w)%nat by lia.
      rewrite Nat.div_add by lia. lia. }
  cbn [seq]. cbn [mapM]. rewrite Nat.mul_0_l, drop_0. rewrite <- fmap_S_seq.
  destruct (read o (b ++ raw)) as [x| |]; cbn; try done.
  assert (E : forall l, mapM (M := result) (fun i => read o (drop (i * w)%nat (b ++ raw))) (S <$> l) =
              mapM (M := result) (fun i => read o (drop (i * w)%nat raw)) l).
  { induction l as [|i l IH]; [done|]. cbn [fmap list_fmap mapM].
    replace (S i * w)%nat with (w + i * w)%nat by lia. rewrite drop_app_add' by done.
    change (list_fmap nat nat S l) with (S <$> l). rewrite IH. done. }
  by rewrite E.
Qed.

Lemma unpack_each_concat {A B} (enc : B -> list byte) (g : B -> A) ns o read w :
  (0 < w)%nat -> (forall n, length (enc n) = w) ->
  Forall (fun n => forall rest, read o (enc n ++ rest) = Ok (g n)) ns ->
  unpack_each (concat (enc <$> ns)) o read w = Ok (g <$> ns).
Proof.
  intros W L F. induction F as [|n ns Hn F IH]; cbn.
  - unfold unpack_each. cbn. by rewrite Nat.Div0.div_0_l.
  - rewrite unpack_each_cons by auto. rewrite Hn. cbn.
    change (list_fmap B (list byte) enc ns) with (enc <$> ns). by rewrite IH.
Qed.

Lemma unpack_each_no_panic {A} raw o (read : ByteOrder -> list byte -> result A) w :
  (0 < w)%nat -> (forall b, (w <= length b)%nat -> no_panic (read o b)) ->
  no_panic (unpack_each raw o read w).
Proof.
  intros W H. apply mapM_res_no_panic. intros i I%list_elem_of_seq_bound. apply H.
  rewrite length_drop. pose proof (Nat.Div0.mul_div_le (length raw) w). nia.
Qed.

Lemma unpack_each_length {A} raw o (read : ByteOrder -> list byte -> result A) w out :
  unpack_each raw o read w = Ok out -> length out = (length raw / w)%nat.
Proof. intros H%mapM_res_length. by rewrite length_seq in H. Qed.

Lemma length_concat_PutUint `{GoLib} w o ns :
  length (concat (PutUint w o <$> ns)) = (length ns * w)%nat.
Proof.
  induction ns as [|n ns IH]; cbn; [done|].
  change (list_fmap Z (list byte) (PutUint w o) ns) with (PutUint w o <$> ns).
  rewrite length_app, IH, length_PutUint. done.
Qed.

Section unpack_lemmas.
Context `{GoLibLaws, MapIter}.

(** What a compiled unpack configuration guarantees. *)
Lemma parseUnpackConfig_inv config u :
  parseUnpackConfig config = Ok u ->
  unpackElemTypes !! typeName u = Some (elem u) /\ u_widen u = widenOf (elem u) /\
  HasPrefix (u_target u) "$" = false /\
  (hasScale u = true -> scaleLookup u = None -> validateScale (scaleValue u) = Ok tt).
Proof.
  unfold parseUnpackConfig. intros E.
  repeat first [progress inv_res | case_match]. subst. cbn. split_and!; try done.
  intros -> ->.
  match goal with S : parseUnpackScale _ = _ |- _ => unfold parseUnpackScale in S;
    repeat first [progress inv_res | case_match] end; simplify_eq.
  unfold unpackScaleLiteral in *. inv_res. simplify_eq.
  repeat match goal with u : unit |- _ => destruct u end. done.
Qed.

Lemma resolveScale_valid config u fs s :
  parseUnpackConfig config = Ok u -> hasScale u = true -> resolveScale u fs = Ok s ->
  validateScale s = Ok tt.
Proof.
  intros P S R. apply parseUnpackConfig_inv in P as (_ & _ & _ & V). unfold resolveScale in R.
  destruct (scaleLookup u) eqn:E; inv_res; subst; [by destruct x1|auto].
Qed.

Lemma validateScale_ok s :
  validateScale s = Ok tt -> IsNaN s = false /\ IsInf s = false /\ f64_eq s (S754_zero false) = false.
Proof. unfold validateScale. intros E. inv_res. by bools. Qed.

Lemma resolveScale_no_panic u fs : no_panic (resolveScale u fs).
Proof. unfold resolveScale, validateScale. no_panic_tac. Qed.

Lemma run_no_panic config u st : parseUnpackConfig config = Ok u -> no_panic (run u st).
Proof.
  intros (L & W & _)%parseUnpackConfig_inv.
  destruct (elem_type_safe _ _ L) as [P S]. rewrite <- W in S. unfold run.
  no_panic_tac; try apply resolveScale_no_panic.
  - apply unpack_each_no_panic; [done|]. intros b Hb. destruct (S (order u) b Hb) as [S1 _].
    apply res_bind_no_panic; [done|]. intros; apply ok_no_panic.
  - apply unpack_each_no_panic; [done|]. intros b Hb. by apply S.
  - apply unpack_each_no_panic; [done|]. intros b Hb. by apply S.
Qed.

Lemma makeUnpackStep_good config f : makeUnpackStep config = Ok f -> good_step f.
Proof.
  unfold makeUnpackStep. intros E. inv_res. subst. apply good_step_ok.
  - intros st. by eapply run_no_panic.
  - unfold run. step_ok_tac.
Qed.
End unpack_lemmas.

(** ** Properties *)

Section unpack_properties.
Context `{GoLibLaws, MapIter}.

(** C21. What encoding/binary writes, unpack reads back: for every integer
    element type and byte order, the packed elements come back in order, as
    int64 values (a uint64 above MaxInt64 as the value it wraps to). *)
Theorem unpack_roundtrip config u st w sgn ns :
  parseUnpackConfig config = Ok u -> hasScale u = false ->
  (typeName u, (w, sgn)) ∈ int_types -> Forall (elem_range w sgn) ns ->
  u_lookupSource u (Fields st) = Some (VBytes (concat (PutUint w (order u) <$> ns))) ->
  run u st = Ok (put st (u_target u) (VInts (wrap64 <$> ns))).
Proof.
  intros P S I R L. apply parseUnpackConfig_inv in P as (T & _ & _ & _).
  destruct (elem_type_reads (typeName u) w sgn (elem u) (order u) 0 [] I T) as (Ew & Ef & _);
    [unfold elem_range; case_match; pose proof (Z.pow_nonneg 2 (8 * Z.of_nat w - 1));
     pose proof (Z.pow_pos_nonneg 2 (8 * Z.of_nat w)); split; try lia|].
  all: cycle 1.
  - unfold run. rewrite L. cbn. rewrite Ew, length_concat_PutUint, Nat.Div0.mod_mul. cbn.
    rewrite S, Ef. unfold unpackInts.
    rewrite (unpack_each_concat _ wrap64); [done| |apply length_PutUint|].
    + destruct (elem_type_safe _ _ T) as [? _]. lia.
    + eapply Forall_impl; [exact R|]. intros n Hn rest. by eapply elem_type_reads.
  - apply Z.pow_pos_nonneg; [lia|]. unfold int_types in I.
    repeat (apply elem_of_cons in I as [I|I]; [simplify_eq; lia|]). by apply elem_of_nil in I.
Qed.

(** Calibration widens first and multiplies second, and makes no NaN: the
    packed integers come back as [float64(n) * scale], and none of those is
    the NaN that QuasarDB reads as null. *)
Theorem unpack_scaled_exact config u st w sgn ns scale :
  parseUnpackConfig config = Ok u -> hasScale u = true -> resolveScale u (Fields st) = Ok scale ->
  (typeName u, (w, sgn)) ∈ int_types -> Forall (elem_range w sgn) ns ->
  u_lookupSource u (Fields st) = Some (VBytes (concat (PutUint w (order u) <$> ns))) ->
  run u st = Ok (put st (u_target u) (VFloats ((fun n => f64_mul (f64_of_Z n) scale) <$> ns))) /\
  Forall (fun n => IsNaN (f64_mul (f64_of_Z n) scale) = false) ns.
Proof.
  intros P S V I R L. pose proof (resolveScale_valid _ _ _ _ P S V) as (N1 & N2 & N3)%validateScale_ok.
  split; [|apply Forall_forall; intros n _; by rewrite f64_mul_nan, f64_of_Z_not_nan].
  apply parseUnpackConfig_inv in P as (T & W & _ & _).
  destruct (elem_type_safe _ _ T) as [Hw _].
  unfold run. rewrite L. cbn. rewrite S, V. unfold unpackScaled. destruct ns as [|n0 ns].
  - cbn. rewrite Nat.Div0.mod_0_l. cbn. unfold unpack_each. by rewrite Nat.Div0.div_0_l.
  - destruct (elem_type_reads (typeName u) w sgn (elem u) (order u) n0 [] I T) as (Ew & _);
      [by inversion R|].
    rewrite Ew, length_concat_PutUint, Nat.Div0.mod_mul. cbn [Nat.eqb negb guard_err mbind res_bind].
    rewrite (unpack_each_concat _ (fun n => f64_mul (f64_of_Z n) scale)); [done|lia|apply length_PutUint|].
    eapply Forall_impl; [exact R|]. intros n Hn rest.
    destruct (elem_type_reads _ _ _ _ (order u) n rest I T Hn) as (_ & _ & _ & E). by rewrite W, E.
Qed.

(** Decoding is all or nothing: a compiled unpack never panics, and when it
    succeeds it has consumed a byte field whose length is a multiple of the
    element width and produced exactly one number per element. *)
Theorem unpack_all_or_nothing config f st :
  makeUnpackStep config = Ok f ->
  no_panic (f st) /\
  forall st', f st = Ok st' ->
    exists u raw v n, parseUnpackConfig config = Ok u /\
      u_lookupSource u (Fields st) = Some (VBytes raw) /\
      length raw = (n * width (elem u))%nat /\ st' = put st (u_target u) v /\
      match v with
      | VInts l => length l = n /\ hasScale u = false /\ isFloat (elem u) = false
      | VFloats l => length l = n /\ (hasScale u = true \/ isFloat (elem u) = true)
      | _ => False
      end.
Proof.
  unfold makeUnpackStep. intros E. apply res_bind_ok in E as (u & P & [= <-]).
  split; [by eapply run_no_panic|]. intros st' R. unfold run in R.
  apply res_bind_ok in R as (v & L & (raw & B & (? & G & R)%res_bind_ok)%res_bind_ok).
  apply of_option_ok in L, B. apply guard_err_ok in G. bools. apply Nat.eqb_eq in G.
  destruct v; simplify_eq/=.
  apply parseUnpackConfig_inv in P as P'. destruct P' as (T & _). apply elem_type_safe in T as [Hw _].
  assert (D : length raw = (length raw / width (elem u) * width (elem u))%nat).
  { pose proof (Nat.div_mod_eq (length raw) (width (elem u))). lia. }
  destruct (hasScale u) eqn:S; [|destruct (isFloat (elem u)) eqn:F]; inv_res; subst st';
    match goal with O : _ = Ok ?out |- _ => apply unpack_each_length in O;
      eexists u, raw, _, _; split_and!; try done; cbn; auto end.
Qed.
End unpack_properties.
