(* ===== verification/Proto.v ===== *)
(** * parse_protobuf (proto.go)

    Messages decoded by dynamicpb are values of the protoreflect interfaces;
    [pvalue] is what those interfaces expose.  Descriptor loading, compilation
    and wire decoding are third-party code, the parameters of [ProtoLib]; the
    conversion to pipeline values, the source and target handling and the
    ordering of compiled descriptors are the connector's. *)
From S2P Require Import Prelude GoInt GoStr GoFloat GoTime GoCalendar Values FieldPath Convert Steps.
From Stdlib.Strings Require Import Byte.

(** ** protoreflect *)

Inductive Kind : Set :=
  | BoolKind | EnumKind | Int32Kind | Sint32Kind | Uint32Kind | Int64Kind | Sint64Kind | Uint64Kind
  | Sfixed32Kind | Fixed32Kind | FloatKind | Sfixed64Kind | Fixed64Kind | DoubleKind
  | StringKind | BytesKind | MessageKind | GroupKind.

#[export] Instance Kind_eq_dec : EqDecision Kind.
Proof. solve_decision. Defined.

Inductive Cardinality : Set := Singular | IsList | IsMap (valueKind : Kind).

(** [fd_Default]: the integer of Default(), for a field of an integer kind. *)
Record FieldDescriptor : Type := {
  fd_Name : string; fd_Number : Z; fd_Kind : Kind; fd_Card : Cardinality; fd_Default : Z }.

(** A message descriptor: its full name and its declared fields. *)
Record MessageType : Type := { FullName : string; Descriptor_Fields : list FieldDescriptor }.

#[export] Instance Cardinality_eq_dec : EqDecision Cardinality.
Proof. solve_decision. Defined.
#[export] Instance FieldDescriptor_eq_dec : EqDecision FieldDescriptor.
Proof. solve_decision. Defined.
#[export] Instance MessageType_eq_dec : EqDecision MessageType.
Proof. solve_decision. Defined.

Definition int_kind (k : Kind) : bool :=
  match k with
  | Int32Kind | Sint32Kind | Sfixed32Kind | Int64Kind | Sint64Kind | Sfixed64Kind => true
  | _ => false
  end.
Definition uint_kind (k : Kind) : bool :=
  match k with Uint32Kind | Fixed32Kind | Uint64Kind | Fixed64Kind => true | _ => false end.

(** protoreflect.Value: a message carries its descriptor and its populated
    fields, in the order Range visits them; a map its entries under the
    string form of their keys. *)
Inductive pvalue : Type :=
  | PBool (b : bool)
  | PInt (n : Z)
  | PUint (n : Z)
  | PFloat (f : float64)
  | PString (s : string)
  | PBytes (b : list byte)
  | PEnum (n : Z)
  | PMessage (Descriptor : MessageType) (populated : list (FieldDescriptor * pvalue))
  | PList (l : list pvalue)
  | PMap (m : list (string * pvalue)).

Definition protoTimestampName : string := "google.protobuf.Timestamp".

(** A field whose value is always an integer. *)
Definition int_field (fd : FieldDescriptor) : bool := bool_decide (fd_Card fd = Singular) && int_kind (fd_Kind fd).

(** [m.Get(fields.ByNumber(n)).Int()]: ByNumber gives nil, and Get of nil panics,
    when the message declares no such field; an unpopulated field has its
    default; Int panics on a value that is not an integer. *)
Definition get_Int (mt : MessageType) (populated : list (FieldDescriptor * pvalue)) (n : Z) : result Z :=
  match list_find (fun fd => fd_Number fd = n) (Descriptor_Fields mt) with
  | None => Panic
  | Some (_, fd) =>
      match list_find (fun p => fd_Number p.1 = n) populated with
      | Some (_, (_, PInt z)) => Ok z
      | Some _ => Panic
      | None => if int_field fd then Ok (fd_Default fd) else Panic
      end
  end.

Definition formatProtoTimestamp (mt : MessageType) (populated : list (FieldDescriptor * pvalue)) : result string :=
  seconds ← get_Int mt populated 1;
  nanos ← get_Int mt populated 2;
  let t := time_Unix seconds nanos in
  Ok (Format_seconds t +:+ "." +:+ zero_pad 9 (Nanosecond_of t) +:+ "Z").

(** ** Conversion to pipeline values *)

(** protoSingularValue with protoEmbeddedValue, protoMessageToMap and
    protoFieldValue inlined where the recursion passes through them; a
    protoreflect accessor on a value of another type panics. *)
Fixpoint protoSingularValue (kind : Kind) (v : pvalue) {struct v} : result value :=
  let protoFieldValue (fd : FieldDescriptor) (v : pvalue) : result value :=
    match fd_Card fd with
    | IsMap valueKind =>
        match v with
        | PMap m =>
            values ← mapM (M := result) (fun '(k, e) => x ← protoSingularValue valueKind e; Ok (k, x)) m;
            Ok (VMap (list_to_map (reverse values)))
        | _ => Panic
        end
    | IsList =>
        match v with
        | PList l => VSlice <$> mapM (M := result) (protoSingularValue (fd_Kind fd)) l
        | _ => Panic
        end
    | Singular => protoSingularValue (fd_Kind fd) v
    end in
  match kind, v with
  | BoolKind, PBool b => Ok (VBool b)
  | StringKind, PString s => Ok (VString s)
  | BytesKind, PBytes b => Ok (VBytes b)
  | EnumKind, PEnum n => Ok (VInt64 n)
  | (Int32Kind | Sint32Kind | Sfixed32Kind | Int64Kind | Sint64Kind | Sfixed64Kind), PInt n => Ok (VInt64 n)
  | (Uint32Kind | Fixed32Kind | Uint64Kind | Fixed64Kind), PUint n => Ok (VInt64 (wrap64 n))
  | (FloatKind | DoubleKind), PFloat f => Ok (VFloat64 f)
  | (MessageKind | GroupKind), PMessage mt populated =>
      if String.eqb (FullName mt) protoTimestampName then VString <$> formatProtoTimestamp mt populated
      else
        fields ← mapM (M := result) (fun '(fd, v) => x ← protoFieldValue fd v; Ok (fd_Name fd, x)) populated;
        Ok (VMap (list_to_map (reverse fields)))
  | _, _ => Panic
  end.

(** protoFieldValue, protoListValue, protoMapValue, protoMessageToMap. *)
Definition protoListValue (kind : Kind) (l : list pvalue) : result value :=
  VSlice <$> mapM (M := result) (protoSingularValue kind) l.

Definition protoMapValue (valueKind : Kind) (m : list (string * pvalue)) : result value :=
  values ← mapM (M := result) (fun '(k, e) => x ← protoSingularValue valueKind e; Ok (k, x)) m;
  Ok (VMap (list_to_map (reverse values))).

Definition protoFieldValue (fd : FieldDescriptor) (v : pvalue) : result value :=
  match fd_Card fd with
  | IsMap valueKind => match v with PMap m => protoMapValue valueKind m | _ => Panic end
  | IsList => match v with PList l => protoListValue (fd_Kind fd) l | _ => Panic end
  | Singular => protoSingularValue (fd_Kind fd) v
  end.

Definition protoMessageToMap (populated : list (FieldDescriptor * pvalue)) : result fields :=
  entries ← mapM (M := result) (fun '(fd, v) => x ← protoFieldValue fd v; Ok (fd_Name fd, x)) populated;
  Ok (list_to_map (reverse entries)).

(** protoEmbeddedValue. *)
Definition protoEmbeddedValue (mt : MessageType) (populated : list (FieldDescriptor * pvalue)) : result value :=
  if String.eqb (FullName mt) protoTimestampName then VString <$> formatProtoTimestamp mt populated
  else VMap <$> protoMessageToMap populated.

(** ** Descriptors *)

Inductive FileDescriptor : Type := FileDesc (Path : string) (Imports : list FileDescriptor).

Definition Path (fd : FileDescriptor) : string := let 'FileDesc p _ := fd in p.
Definition Imports (fd : FileDescriptor) : list FileDescriptor := let 'FileDesc _ i := fd in i.

(** The accumulator is the descriptor set built so far and the paths seen. *)
Fixpoint appendFileDescriptors (fd : FileDescriptor) (acc : list FileDescriptor * gset string)
    {struct fd} : list FileDescriptor * gset string :=
  let 'FileDesc path imports := fd in
  if bool_decide (path ∈ acc.2) then acc
  else
    let acc := foldl (fun acc i => appendFileDescriptors i acc) (acc.1, {[path]} ∪ acc.2) imports in
    (acc.1 ++ [fd], acc.2).

Inductive FileDescriptorSet (Proto : Type) : Type :=
  | FromDisk (set : Proto)                  (* parsed from a descriptor file *)
  | FromSource (File : list FileDescriptor). (* protodesc.ToFileDescriptorProto of each *)
Arguments FromDisk {Proto} set.
Arguments FromSource {Proto} File.

(** Files of the operating system, google.golang.org/protobuf and protocompile. *)
Class ProtoLib : Type := {
  set_proto : Type;
  MessageDescriptor : Type;
  Files : Type;
  os_ReadFile : string -> result (list byte);
  filepath_Dir : string -> string;
  filepath_Base : string -> string;
  Unmarshal_set : list byte -> result set_proto;
  Compile : string -> string -> result FileDescriptor;    (* import dir, file: files[0] *)
  NewFiles : FileDescriptorSet set_proto -> result Files;
  FindDescriptorByName : Files -> string -> result (option MessageDescriptor); (* None: not a message *)
  Unmarshal : MessageDescriptor -> list byte -> result (list (FieldDescriptor * pvalue));
  message_types : MessageDescriptor -> list MessageType;  (* that its fields, and theirs, can hold *)
}.

(** ** Configuration and step *)

Record protoStepConfig : Type := {
  descriptorFile : string; protoFile : string; messageType : string;
  p_source : string; p_lookupSource : option lookup_fn; p_target : string }.

Definition protoPathOption (config : fields) (key : string) : result (string * bool) :=
  match config !! key with
  | None => Ok (EmptyString, false)
  | Some raw =>
      let path := default EmptyString (as_string (Some raw)) in
      guard_err (String.eqb path EmptyString)
        (config_error "parse_protobuf '%s' must be a non-empty string" [AS key]);;
      Ok (path, true)
  end.

Definition parseProtoStepConfig (config : fields) : result protoStepConfig :=
  '(descriptorFile, hasDescriptor) ← protoPathOption config "descriptor_file";
  '(protoFile, hasProto) ← protoPathOption config "proto_file";
  guard_err (Bool.eqb hasDescriptor hasProto)
    (config_error "parse_protobuf step requires exactly one of 'descriptor_file' or 'proto_file'" []);;
  let messageType := default EmptyString (as_string (config !! "message_type")) in
  guard_err (String.eqb messageType EmptyString)
    (config_error "parse_protobuf step requires a 'message_type' string option" []);;
  '(source, lookupSource) ← match config !! "source" with
    | None => Ok (EmptyString, None)
    | Some raw =>
        let source := default EmptyString (as_string (Some raw)) in
        guard_err (String.eqb source EmptyString)
          (config_error "parse_protobuf 'source' must be a non-empty string" []);;
        lookup ← map_err (fun err =>
            config_error "parse_protobuf 'source' is not a valid field path: %v" [AE err])
          (compileFieldPath source);
        Ok (source, Some lookup)
    end;
  target ← match config !! "target" with
    | None => Ok EmptyString
    | Some raw =>
        let target := default EmptyString (as_string (Some raw)) in
        guard_err (String.eqb target EmptyString || Contains target ".")
          (config_error "parse_protobuf 'target' must be a non-empty top-level key without '.'" []);;
        Ok target
    end;
  Ok {| descriptorFile := descriptorFile; protoFile := protoFile; messageType := messageType;
        p_source := source; p_lookupSource := lookupSource; p_target := target |}.

Definition resolveProtoSource (state : ParseState) (cfg : protoStepConfig) : result (list byte) :=
  match p_lookupSource cfg with
  | None => Ok (default [] (Data state))
  | Some lookup =>
      value ← of_option (lookup (Fields state))
        (Errorf "source field '%s' not found in parse_protobuf step" [AS (p_source cfg)]);
      match value with
      | VBytes b => Ok b
      | VString s => Ok (bytes_of_string s)
      | v => Err (Errorf "parse_protobuf source '%s' has type %T, want bytes or string"
                    [AS (p_source cfg); AT (Some v)])
      end
  end.

Section proto.
  Context `{GoLib, ProtoLib}.

Definition loadDescriptorSet (path : string) : result (FileDescriptorSet set_proto) :=
  data ← map_err (fun err => config_error "failed to read descriptor file: %v" [AE err]) (os_ReadFile path);
  fds ← map_err (fun err => config_error "failed to parse descriptor file: %v" [AE err]) (Unmarshal_set data);
  Ok (FromDisk fds).

Definition compileProtoFile (path : string) : result (FileDescriptorSet set_proto) :=
  file ← map_err (fun err => config_error "failed to compile proto file '%s': %v" [AS path; AE err])
    (Compile (filepath_Dir path) (filepath_Base path));
  Ok (FromSource (appendFileDescriptors file ([], ∅)).1).

Definition loadStepDescriptorSet (cfg : protoStepConfig) : result (FileDescriptorSet set_proto) :=
  if String.eqb (protoFile cfg) EmptyString then loadDescriptorSet (descriptorFile cfg)
  else compileProtoFile (protoFile cfg).

Definition newProtoDecoder (cfg : protoStepConfig) : result MessageDescriptor :=
  fds ← loadStepDescriptorSet cfg;
  files ← map_err (fun err => config_error "failed to build descriptor registry: %v" [AE err]) (NewFiles fds);
  desc ← map_err (fun err =>
      config_error "message type '%s' not found in descriptor file: %v" [AS (messageType cfg); AE err])
    (FindDescriptorByName files (messageType cfg));
  of_option desc (config_error "descriptor '%s' is not a message type" [AS (messageType cfg)]).

(** protoDecoder.decode. *)
Definition decode (d : MessageDescriptor) (data : list byte) : result fields :=
  msg ← Unmarshal d data; protoMessageToMap msg.

Definition makeParseProtobufStep (config : fields) : result TransformationStep :=
  cfg ← parseProtoStepConfig config;
  decoder ← newProtoDecoder cfg;
  Ok (fun state =>
    data ← map_err (fun e => NewParsingFailedError "yaml_parser" e) (resolveProtoSource state cfg);
    guard_err (bool_decide (data = [])) (parse_error "empty data in parse_protobuf step" []);;
    decoded ← map_err (parse_error_wrap "failed to decode protobuf in parse_protobuf step: %w" [])
      (decode decoder data);
    if String.eqb (p_target cfg) EmptyString then Ok (put_all state decoded)
    else Ok (put state (p_target cfg) (VMap decoded))).

End proto.

(** ** Well-typed messages

    dynamicpb stores in each field a value of the field's kind, and in each
    message fields it declares, at most one of a name; [has_kind] is that
    guarantee, [types] being the message types of the schema. *)

Fixpoint has_kind (types : list MessageType) (kind : Kind) (v : pvalue) {struct v} : bool :=
  match v with
  | PBool _ => bool_decide (kind = BoolKind)
  | PString _ => bool_decide (kind = StringKind)
  | PBytes _ => bool_decide (kind = BytesKind)
  | PEnum n => bool_decide (kind = EnumKind) && (- 2 ^ 31 <=? n) && (n <? 2 ^ 31)
  | PInt n => int_kind kind && (min_int64 <=? n) && (n <=? max_int64)
  | PUint n => uint_kind kind && (0 <=? n) && (n <? 2 ^ 64)
  | PFloat _ => bool_decide (kind = FloatKind) || bool_decide (kind = DoubleKind)
  | PMessage mt populated =>
      (bool_decide (kind = MessageKind) || bool_decide (kind = GroupKind)) && bool_decide (mt ∈ types) &&
      bool_decide (NoDup ((fun p => fd_Name p.1) <$> populated)) &&
      forallb (fun p => bool_decide (p.1 ∈ Descriptor_Fields mt)) populated &&
      forallb (fun '(fd, v) =>
        match fd_Card fd with
        | IsMap valueKind =>
            match v with
            | PMap m => bool_decide (NoDup m.*1) && forallb (fun '(_, e) => has_kind types valueKind e) m
            | _ => false
            end
        | IsList => match v with PList l => forallb (has_kind types (fd_Kind fd)) l | _ => false end
        | Singular => has_kind types (fd_Kind fd) v
        end) populated
  | PList _ | PMap _ => false
  end.

Definition field_typed (types : list MessageType) (p : FieldDescriptor * pvalue) : bool :=
  let '(fd, v) := p in
  match fd_Card fd with
  | IsMap valueKind =>
      match v with
      | PMap m => bool_decide (NoDup m.*1) && forallb (fun '(_, e) => has_kind types valueKind e) m
      | _ => false
      end
  | IsList => match v with PList l => forallb (has_kind types (fd_Kind fd)) l | _ => false end
  | Singular => has_kind types (fd_Kind fd) v
  end.

(** The populated fields of a decoded message. *)
Definition message_typed (types : list MessageType) (populated : list (FieldDescriptor * pvalue)) : bool :=
  bool_decide (NoDup ((fun p => fd_Name p.1) <$> populated)) && forallb (field_typed types) populated.

(** The schema's google.protobuf.Timestamp, if it has one, declares integer
    fields under the numbers 1 and 2, as the well-known type does.  Nothing in
    the connector checks it. *)
Definition declares_int (mt : MessageType) (n : Z) : bool :=
  existsb (fun fd => fd_Number fd =? n) (Descriptor_Fields mt) &&
  forallb (fun fd => negb (fd_Number fd =? n) || int_field fd) (Descriptor_Fields mt).
Definition timestamps_standard (types : list MessageType) : bool :=
  forallb (fun mt => negb (String.eqb (FullName mt) protoTimestampName) || declares_int mt 1 && declares_int mt 2) types.

(** ** What a decoded value means in the pipeline *)

(** The integer a message holds under the number [n]: the populated one, or the
    declared default. *)
Definition holds_int (mt : MessageType) (populated : list (FieldDescriptor * pvalue)) (n z : Z) : Prop :=
  (exists fd, (fd, PInt z) ∈ populated /\ fd_Number fd = n) \/
  (Forall (fun p => fd_Number p.1 <> n) populated /\
   exists fd, fd ∈ Descriptor_Fields mt /\ fd_Number fd = n /\ fd_Default fd = z).

(** The range of the well-known type: years 1 to 9999, nanoseconds of a second. *)
Definition timestamp_range (seconds nanos : Z) : Prop :=
  -62135596800 <= seconds <= 253402300799 /\ 0 <= nanos <= 999999999.

Inductive represents : pvalue -> value -> Prop :=
  | rep_bool b : represents (PBool b) (VBool b)
  | rep_string s : represents (PString s) (VString s)
  | rep_bytes b : represents (PBytes b) (VBytes b)
  | rep_enum n : represents (PEnum n) (VInt64 n)
  | rep_int n : represents (PInt n) (VInt64 n)
  | rep_uint n m : in_int64 m -> m mod 2 ^ 64 = n mod 2 ^ 64 -> represents (PUint n) (VInt64 m)
  | rep_float f : represents (PFloat f) (VFloat64 f)
  | rep_list l xs : Forall2 represents l xs -> represents (PList l) (VSlice xs)
  | rep_map m es :
      Forall2 (fun p q => q.1 = p.1 /\ represents p.2 q.2) m es -> represents (PMap m) (VMap (list_to_map es))
  | rep_message mt populated es :
      FullName mt <> protoTimestampName ->
      Forall2 (fun p q => q.1 = fd_Name p.1 /\ represents p.2 q.2) populated es ->
      represents (PMessage mt populated) (VMap (list_to_map es))
  | rep_timestamp mt populated seconds nanos text :
      FullName mt = protoTimestampName -> holds_int mt populated 1 seconds -> holds_int mt populated 2 nanos ->
      (timestamp_range seconds nanos -> denotes_instant text (seconds * 10 ^ 9 + nanos)) ->
      represents (PMessage mt populated) (VString text).

(** The types the pipeline understands: no time, no untyped map. *)
Inductive normal : value -> Prop :=
  | normal_bool b : normal (VBool b)
  | normal_string s : normal (VString s)
  | normal_bytes b : normal (VBytes b)
  | normal_int n : in_int64 n -> normal (VInt64 n)
  | normal_float f : normal (VFloat64 f)
  | normal_slice l : Forall normal l -> normal (VSlice l)
  | normal_map (m : gmap string value) : map_Forall (fun _ v => normal v) m -> normal (VMap m).

(** Induction through the lists of messages, lists and maps. *)
Fixpoint pvalue_rect_forall (P : pvalue -> Prop)
    (Hb : forall b, P (PBool b)) (Hi : forall n, P (PInt n)) (Hu : forall n, P (PUint n))
    (Hf : forall f, P (PFloat f)) (Hs : forall s, P (PString s)) (Hy : forall b, P (PBytes b))
    (He : forall n, P (PEnum n))
    (Hm : forall name fs, Forall (fun p => P p.2) fs -> P (PMessage name fs))
    (Hl : forall l, Forall P l -> P (PList l))
    (Ha : forall m, Forall (fun p => P p.2) m -> P (PMap m)) (v : pvalue) : P v :=
  let rec v := pvalue_rect_forall P Hb Hi Hu Hf Hs Hy He Hm Hl Ha v in
  match v with
  | PBool b => Hb b | PInt n => Hi n | PUint n => Hu n | PFloat f => Hf f
  | PString s => Hs s | PBytes b => Hy b | PEnum n => He n
  | PMessage name fs => Hm name fs
      ((fix go fs := match fs return Forall (fun p => P p.2) fs with
        | [] => List.Forall_nil _ | p :: fs => List.Forall_cons _ p fs (rec p.2) (go fs) end) fs)
  | PList l => Hl l
      ((fix go l := match l return Forall P l with
        | [] => List.Forall_nil _ | x :: l => List.Forall_cons _ x l (rec x) (go l) end) l)
  | PMap m => Ha m
      ((fix go m := match m return Forall (fun p => P p.2) m with
        | [] => List.Forall_nil _ | p :: m => List.Forall_cons _ p m (rec p.2) (go m) end) m)
  end.

(** The entries of a map built by successive assignments to distinct keys. *)
Lemma list_to_map_reverse (l : list (string * value)) :
  NoDup l.*1 -> (list_to_map (reverse l) : gmap string value) = list_to_map l.
Proof.
  intros N. apply list_to_map_proper; [by rewrite fmap_reverse, reverse_Permutation|apply reverse_Permutation].
Qed.

Lemma list_to_map_Forall (Q : value -> Prop) (l : list (string * value)) :
  Forall (fun p => Q p.2) l -> map_Forall (fun _ v => Q v) (list_to_map l : gmap string value).
Proof. intros F k v L. apply elem_of_list_to_map_2 in L. rewrite Forall_forall in F. by apply (F (k, v)). Qed.

Lemma protoSingularValue_message kind mt populated :
  kind = MessageKind \/ kind = GroupKind ->
  protoSingularValue kind (PMessage mt populated) = protoEmbeddedValue mt populated.
Proof.
  intros K. unfold protoEmbeddedValue, protoMessageToMap.
  destruct K as [-> | ->]; cbn [protoSingularValue];
    (destruct (String.eqb (FullName mt) protoTimestampName); [done|]);
    match goal with |- ?m ≫= _ = _ => change m with
      (mapM (M := result) (fun '(fd, v) => x ← protoFieldValue fd v; Ok (fd_Name fd, x)) populated) end;
    by destruct (mapM _ populated).
Qed.

(** Conversions of lists, and of entries under distinct names. *)
Lemma mapM_converts (f : pvalue -> result value) l :
  Forall (fun a => exists x, f a = Ok x /\ represents a x /\ normal x) l ->
  exists xs, mapM (M := result) f l = Ok xs /\ Forall2 represents l xs /\ Forall normal xs.
Proof.
  induction 1 as [|a l (x & E & R & N) F (xs & Exs & Rxs & Nxs)]; cbn; [by exists []|].
  exists (x :: xs). rewrite E. cbn. rewrite Exs. split_and!; [done|by constructor..].
Qed.

Lemma mapM_named_converts {A} (name : A -> string) (f : A * pvalue -> result value) (l : list (A * pvalue)) :
  Forall (fun a => exists x, f a = Ok x /\ represents a.2 x /\ normal x) l -> NoDup ((fun p => name p.1) <$> l) ->
  exists xs, mapM (M := result) (fun '(k, v) => x ← f (k, v); Ok (name k, x)) l = Ok xs /\
    Forall2 (fun p q => q.1 = name p.1 /\ represents p.2 q.2) l xs /\ NoDup xs.*1 /\
    (forall k, is_Some ((list_to_map xs : gmap string value) !! k) <-> k ∈ (fun p => name p.1) <$> l) /\
    Forall (fun p => normal p.2) xs.
Proof.
  intros F N.
  assert (exists xs, mapM (M := result) (fun '(k, v) => x ← f (k, v); Ok (name k, x)) l = Ok xs /\
    Forall2 (fun p q => q.1 = name p.1 /\ represents p.2 q.2) l xs /\ xs.*1 = (fun p => name p.1) <$> l /\
    Forall (fun p => normal p.2) xs) as (xs & E & R & Nm & Nx).
  { clear N. induction F as [|[k v] l (x & E & R & Nx) F (xs & Exs & Rxs & Nm & Nxs)]; cbn; [by exists []|].
    exists ((name k, x) :: xs). rewrite E. cbn. rewrite Exs. cbn. rewrite Nm. split_and!; [done|by constructor|done|by constructor]. }
  exists xs. split_and!; [done..|by rewrite Nm| |done].
  intros k. by rewrite <- elem_of_dom, dom_list_to_map_L, elem_of_list_to_set, Nm.
Qed.

Section converts.
Context (types : list MessageType).
Context (Std : timestamps_standard types = true).

(** A value converts to the pipeline value it means. *)
Definition converts (v : pvalue) : Prop :=
  forall k, has_kind types k v = true -> exists x, protoSingularValue k v = Ok x /\ represents v x /\ normal x.

Lemma protoMapValue_converts k m :
  Forall (fun p => converts p.2) m -> NoDup m.*1 -> forallb (fun '(_, e) => has_kind types k e) m = true ->
  exists x, protoMapValue k m = Ok x /\ represents (PMap m) x /\ normal x.
Proof.
  intros F Nd K. rewrite forallb_Forall_true in K. unfold protoMapValue.
  destruct (mapM_named_converts id (fun p => protoSingularValue k p.2) m) as (xs & E & R & Nx & _ & N); [|done|].
  { apply Forall_forall. intros [n e] I. rewrite Forall_forall in F, K. apply (F _ I). exact (K _ I). }
  cbn [id snd] in E. unfold id in E. rewrite E. eexists. split; [done|]. rewrite list_to_map_reverse by done.
  split; constructor; [done|by apply list_to_map_Forall].
Qed.

Lemma protoListValue_converts k l :
  Forall converts l -> forallb (has_kind types k) l = true ->
  exists x, protoListValue k l = Ok x /\ represents (PList l) x /\ normal x.
Proof.
  intros F K. rewrite forallb_Forall_true in K. unfold protoListValue.
  destruct (mapM_converts (protoSingularValue k) l) as (xs & -> & R & N).
  - apply Forall_forall. intros e I. rewrite Forall_forall in F, K. by apply F, K.
  - eexists. split; [done|]. by split; constructor.
Qed.

(** The induction hypothesis reaches through the lists and maps of fields. *)
Definition converts_in (v : pvalue) : Prop :=
  converts v /\ (forall l, v = PList l -> Forall converts l) /\
  (forall m, v = PMap m -> Forall (fun p => converts p.2) m).

Lemma protoFieldValue_converts fd v :
  converts_in v -> field_typed types (fd, v) = true ->
  exists x, protoFieldValue fd v = Ok x /\ represents v x /\ normal x.
Proof.
  intros (C & L & M) K. unfold protoFieldValue, field_typed in *.
  destruct (fd_Card fd) as [| |vk].
  - by apply C.
  - destruct v; try done. apply protoListValue_converts; [by apply L|done].
  - destruct v; try done. apply andb_true_iff in K as [Nd%bool_decide_eq_true K].
    apply protoMapValue_converts; [by apply M|done|done].
Qed.

Lemma protoMessageToMap_converts populated :
  Forall (fun p => converts_in p.2) populated -> message_typed types populated = true ->
  exists es, protoMessageToMap populated = Ok (list_to_map es) /\
    Forall2 (fun p q => q.1 = fd_Name p.1 /\ represents p.2 q.2) populated es /\ NoDup es.*1 /\
    (forall k, is_Some ((list_to_map es : fields) !! k) <-> k ∈ (fun p => fd_Name p.1) <$> populated) /\
    Forall (fun p => normal p.2) es.
Proof.
  intros F K. apply andb_true_iff in K as [Nd%bool_decide_eq_true K]. rewrite forallb_Forall_true in K. unfold protoMessageToMap.
  destruct (mapM_named_converts fd_Name (fun p => protoFieldValue p.1 p.2) populated) as (es & E & R & Nx & D & N); [|done|].
  { apply Forall_forall. intros [fd v] I. rewrite Forall_forall in F, K.
    apply protoFieldValue_converts; [apply (F _ I)|apply (K _ I)]. }
  exists es. cbn [fst snd] in E. rewrite E. cbn. by rewrite list_to_map_reverse.
Qed.

(** Timestamps. *)
Lemma get_Int_standard mt populated n :
  declares_int mt n = true -> Forall (fun p => p.1 ∈ Descriptor_Fields mt) populated ->
  forallb (field_typed types) populated = true ->
  exists z, get_Int mt populated n = Ok z /\ holds_int mt populated n z.
Proof.
  intros D F K. apply andb_true_iff in D as [Ex All]. rewrite forallb_Forall_true in K. rewrite forallb_Forall_true in All.
  apply existsb_exists in Ex as (fd0 & I0 & N0). apply Z.eqb_eq in N0. apply list_elem_of_In in I0.
  assert (Int : forall fd, fd ∈ Descriptor_Fields mt -> fd_Number fd = n -> int_field fd = true).
  { intros fd I N. rewrite Forall_forall in All. specialize (All fd I). rewrite N, Z.eqb_refl in All. exact All. }
  unfold get_Int. destruct (list_find (fun fd => fd_Number fd = n) (Descriptor_Fields mt)) as [[i fd]|] eqn:E.
  2: { apply list_find_None in E. rewrite Forall_forall in E. by destruct (E fd0 I0). }
  apply list_find_Some in E as (Lf & Nf & _). pose proof (list_elem_of_lookup_2 _ _ _ Lf) as If. rewrite (Int fd If Nf).
  destruct (list_find (fun p => fd_Number p.1 = n) populated) as [[j [fd' v]]|] eqn:Ep.
  - apply list_find_Some in Ep as (Lp & Np & _). apply list_elem_of_lookup_2 in Lp. cbn in Np.
    rewrite Forall_forall in F, K. specialize (K _ Lp). pose proof (Int fd' (F _ Lp) Np) as In'.
    unfold int_field in In'. apply andb_true_iff in In' as [C%bool_decide_eq_true Ik]. cbn in K. rewrite C in K.
    destruct v; cbn in K; bools; try (by rewrite K in Ik || by destruct K as [K|K]; rewrite K in Ik || (case_bool_decide; [|done]; by simplify_eq)).
    all: try (by destruct (fd_Kind fd')). exists n0. split; [done|]. left. by exists fd'.
  - apply list_find_None in Ep. exists (fd_Default fd). split; [done|]. right. split; [exact Ep|]. by exists fd.
Qed.

Lemma formatProtoTimestamp_converts mt populated :
  FullName mt = protoTimestampName -> mt ∈ types -> Forall (fun p => p.1 ∈ Descriptor_Fields mt) populated ->
  forallb (field_typed types) populated = true ->
  exists text, formatProtoTimestamp mt populated = Ok text /\ represents (PMessage mt populated) (VString text).
Proof.
  intros Nm I F K. unfold timestamps_standard in Std. rewrite forallb_Forall_true, Forall_forall in Std.
  specialize (Std mt I). rewrite Nm in Std. apply andb_true_iff in Std as [D1 D2].
  destruct (get_Int_standard mt populated 1 D1 F K) as (s & E1 & H1), (get_Int_standard mt populated 2 D2 F K) as (n & E2 & H2).
  unfold formatProtoTimestamp. rewrite E1, E2. eexists. split; [done|]. eapply rep_timestamp; [done..|].
  intros [Rs Rn]. assert (T : instant (time_Unix s n) - epoch_ns = s * 10 ^ 9 + n /\ time_valid (time_Unix s n)).
  { assert (n / Second = 0) as Z by (unfold_time; apply Z.div_small; lia).
    destruct (time_Unix_instant s n) as [E V]; rewrite ?Z; try (unfold_range; unfold unixToInternal; lia).
    rewrite E. split; [unfold_time; lia|done]. }
  destruct T as [<- V]. by apply Format_denotes.
Qed.

Lemma all_converts v : converts_in v.
Proof.
  induction v as [| | | | | | |mt fs IH|l IH|m IH] using pvalue_rect_forall;
    (split; [|split; intros ? [= <-]]); try done.
  1-7: intros k K; cbn in K; bools.
  1-7: try (case_bool_decide; [subst k|done]; eexists; split; [done|by split; constructor]).
  - destruct k; try done; (eexists; split; [done|split; constructor; unfold in_int64; lia]).
  - destruct k; try done; (eexists; split; [done|split; constructor; [apply wrap64_range|apply wrap64_mod|apply wrap64_range]]).
  - apply orb_true_iff in K as [K|K]; apply bool_decide_eq_true in K as ->;
      (eexists; split; [done|split; constructor]).
  - case_bool_decide; [subst k|done]. eexists. split; [done|]. split; constructor. unfold_range. lia.
  - intros k K. cbn [has_kind] in K. apply andb_true_iff in K as [K Kf]. apply andb_true_iff in K as [K Kd].
    apply andb_true_iff in K as [K Kn]. apply andb_true_iff in K as [K Kt%bool_decide_eq_true].
    apply orb_true_iff in K. rewrite !bool_decide_eq_true in K.
    rewrite protoSingularValue_message by done. unfold protoEmbeddedValue.
    destruct (String.eqb_spec (FullName mt) protoTimestampName) as [E|E].
    + destruct (formatProtoTimestamp_converts mt fs E Kt) as (text & -> & R); [|done|].
      { rewrite forallb_Forall_true in Kd. eapply Forall_impl; [exact Kd|]. intros p. apply bool_decide_eq_true. }
      eexists. split; [done|]. by split; [|constructor].
    + destruct (protoMessageToMap_converts fs IH) as (es & -> & R & _ & _ & N).
      { apply andb_true_iff. split; [exact Kn|exact Kf]. }
      eexists. split; [done|]. split; constructor; [done|done|by apply list_to_map_Forall].
  - by eapply Forall_impl; [exact IH|]; intros ? [].
  - by eapply Forall_impl; [exact IH|]; intros ? [].
Qed.
End converts.

(** What the theorems rely on of the protobuf libraries: they report failures
    as errors, and a decoded message is well typed in its schema. *)
Class ProtoLibLaws `{ProtoLib} : Prop := {
  Unmarshal_safe d b : no_panic (Unmarshal d b);
  Unmarshal_typed d b populated : Unmarshal d b = Ok populated -> message_typed (message_types d) populated = true;
}.

(** What they rely on of the schemas a deployment configures: those that have a
    google.protobuf.Timestamp have the well-known one. *)
Class StandardTimestamps `{ProtoLib} : Prop :=
  found_standard files name d :
    FindDescriptorByName files name = Ok (Some d) -> timestamps_standard (message_types d) = true.

(** The same of the one schema a parse_protobuf step is configured with. *)
Definition standard_schema `{GoLib, ProtoLib} (config : fields) : Prop :=
  forall cfg d, parseProtoStepConfig config = Ok cfg -> newProtoDecoder cfg = Ok d ->
    timestamps_standard (message_types d) = true.

Lemma StandardTimestamps_schema `{GoLib, ProtoLib, !StandardTimestamps} config : standard_schema config.
Proof.
  intros cfg d _ E. unfold newProtoDecoder in E.
  apply res_bind_ok in E as (fds & _ & (files & _ & (desc & F & E)%res_bind_ok)%res_bind_ok).
  apply of_option_ok in E as ->. apply map_err_ok in F. by eapply found_standard.
Qed.

Section proto_lemmas.
Context `{GoLib, ProtoLibLaws}.

Lemma protoMessageToMap_typed types populated :
  timestamps_standard types = true -> message_typed types populated = true ->
  exists es, protoMessageToMap populated = Ok (list_to_map es) /\
    Forall2 (fun p q => q.1 = fd_Name p.1 /\ represents p.2 q.2) populated es /\ NoDup es.*1 /\
    (forall k, is_Some ((list_to_map es : fields) !! k) <-> k ∈ (fun p => fd_Name p.1) <$> populated) /\
    Forall (fun p => normal p.2) es.
Proof.
  intros S. apply (protoMessageToMap_converts types). apply Forall_forall. intros p _. by apply all_converts.
Qed.

Lemma decode_no_panic d b : timestamps_standard (message_types d) = true -> no_panic (decode d b).
Proof.
  intros S. unfold decode. apply res_bind_no_panic; [apply Unmarshal_safe|]. intros populated T%Unmarshal_typed.
  destruct (protoMessageToMap_typed _ populated S T) as (es & -> & _). apply ok_no_panic.
Qed.

Lemma resolveProtoSource_no_panic st cfg : no_panic (resolveProtoSource st cfg).
Proof. unfold resolveProtoSource. no_panic_tac. Qed.

#[local] Hint Resolve decode_no_panic resolveProtoSource_no_panic : qnc.

Lemma makeParseProtobufStep_framed config f : makeParseProtobufStep config = Ok f -> framed_step f.
Proof. unfold makeParseProtobufStep, framed_step. intros E. inv_res. subst. step_ok_tac. Qed.

Lemma makeParseProtobufStep_total config f :
  standard_schema config -> makeParseProtobufStep config = Ok f -> total_step f.
Proof.
  unfold makeParseProtobufStep, total_step. intros S E.
  apply res_bind_ok in E as (cfg & C & (d & D & [= <-])%res_bind_ok). specialize (S cfg d C D). intros st. no_panic_tac.
Qed.

(** C34. Decoding any bytes ends in the library's decode error or in fields that
    are exactly the populated fields of the message, each holding the value it
    has in the message, in a type the later steps understand: bool, string,
    bytes, int64, float64, and lists and maps of those.  Unsigned integers are
    taken modulo 2^64, a nested message is the map of its populated fields, and
    a google.protobuf.Timestamp is the text of its instant, with nine digits of
    a second, over the whole range of the type.  The schema's Timestamp has to
    be the well-known one: otherwise the conversion can panic
    ([foreign_timestamp_panics]). *)
Theorem proto_decode_normal d data :
  timestamps_standard (message_types d) = true ->
  match Unmarshal d data with
  | Ok populated =>
      exists es, decode d data = Ok (list_to_map es) /\ NoDup es.*1 /\
        Forall2 (fun p q => q.1 = fd_Name p.1 /\ represents p.2 q.2) populated es /\
        Forall (fun p => normal p.2) es
  | Err e => decode d data = Err e
  | Panic => False
  end.
Proof.
  intros St. pose proof (Unmarshal_safe d data) as S. pose proof (Unmarshal_typed d data) as T. unfold decode.
  destruct (Unmarshal d data) as [populated|e|]; [|done|by apply S].
  destruct (protoMessageToMap_typed _ populated St (T _ eq_refl)) as (es & E & R & Nd & _ & N). by exists es.
Qed.
End proto_lemmas.

(** A schema that gives the name google.protobuf.Timestamp to a message without
    an integer field 1 makes the connector panic on every message that has one. *)
Theorem foreign_timestamp_panics mt populated :
  FullName mt = protoTimestampName -> Forall (fun fd => fd_Number fd <> 1) (Descriptor_Fields mt) ->
  protoSingularValue MessageKind (PMessage mt populated) = Panic.
Proof.
  intros N F. rewrite protoSingularValue_message by by left. unfold protoEmbeddedValue. rewrite N, String.eqb_refl.
  unfold formatProtoTimestamp, get_Int. destruct (list_find (fun fd => fd_Number fd = 1) _) as [[i fd]|] eqn:E; [|done].
  apply list_find_Some in E as (L & X & _). by destruct (Forall_lookup_1 _ _ _ _ F L).
Qed.

(** The conversion wraps unsigned 64-bit values. *)
Example wraps_uint64 :
  protoSingularValue Uint64Kind (PUint (2 ^ 64 - 1)) = Ok (VInt64 (-1)).
Proof. reflexivity. Qed.

(** The well-known type. *)
Definition seconds_field : FieldDescriptor :=
  {| fd_Name := "seconds"; fd_Number := 1; fd_Kind := Int64Kind; fd_Card := Singular; fd_Default := 0 |}.
Definition nanos_field : FieldDescriptor :=
  {| fd_Name := "nanos"; fd_Number := 2; fd_Kind := Int32Kind; fd_Card := Singular; fd_Default := 0 |}.
Definition timestamp_type : MessageType := {| FullName := protoTimestampName; Descriptor_Fields := [seconds_field; nanos_field] |}.

Example formats_timestamp :
  formatProtoTimestamp timestamp_type [(seconds_field, PInt 1782991353); (nanos_field, PInt 500000000)]
  = Ok "2026-07-02T11:22:33.500000000Z".
Proof. vm_compute. reflexivity. Qed.
