(* ===== verification/Schema.v ===== *)
(** * Configuration data and output schema (yaml.go)

    The transformation list, the output columns and their mapping to QuasarDB
    column definitions. *)
From S2P Require Import Prelude GoInt GoStr GoFloat GoTime Values Qdb FieldPath Convert Steps.

Record TransformSpec : Type := {
  Step : string; Block : string; Config : option fields (* None: a nil map *) }.

Record ColumnSchema : Type := { Name : string; Type_ : string }.

Definition GetStepName (t : TransformSpec) : string :=
  if String.eqb (Step t) EmptyString then Block t else Step t.

(** Reading a nil map behaves as reading an empty one. *)
Definition config_of (t : TransformSpec) : fields := default ∅ (Config t).

Definition hasStep (specs : list TransformSpec) (name : string) : bool :=
  existsb (fun spec => String.eqb (GetStepName spec) name) specs.

Definition isStructuralStep (name : string) : bool :=
  existsb (String.eqb name) ["decompress"; "parse_json"; "parse_protobuf"; "extract_map_entry"; "unpack"].

Definition isValidColumnType (colType : string) : bool :=
  existsb (String.eqb colType) ["timestamp"; "double"; "int64"; "blob"; "string"; "symbol"].

Definition stringToColumnType (colType : string) : TsColumnType :=
  if String.eqb colType "timestamp" then TsColumnTimestamp
  else if String.eqb colType "double" then TsColumnDouble
  else if String.eqb colType "int64" then TsColumnInt64
  else if String.eqb colType "blob" then TsColumnBlob
  else if String.eqb colType "string" then TsColumnString
  else if String.eqb colType "symbol" then TsColumnSymbol
  else TsColumnBlob.

Definition writerDataType (colType : TsColumnType) : TsColumnType :=
  match colType with TsColumnSymbol => TsColumnString | _ => colType end.

(** The loop of validateSchema, with the names seen so far. *)
Fixpoint validate_columns (seen : gset string) (columns : list ColumnSchema) : result unit :=
  match columns with
  | [] => Ok tt
  | col :: rest =>
      guard_err (String.eqb (Name col) EmptyString) (config_error "column name cannot be empty" []);;
      guard_err (bool_decide (Name col ∈ seen))
        (config_error "duplicate column name: %s" [AS (Name col)]);;
      guard_err (negb (isValidColumnType (Type_ col)))
        (config_error "invalid column type: %s" [AS (Type_ col)]);;
      validate_columns ({[Name col]} ∪ seen) rest
  end.

Definition validateSchema (columns : list ColumnSchema) : result unit :=
  guard_err (bool_decide (columns = [])) (config_error "at least one column is required" []);;
  validate_columns ∅ columns.

Definition writer_column (col : ColumnSchema) : WriterColumn :=
  {| ColumnName := Name col +:+ nul; ColumnType := writerDataType (stringToColumnType (Type_ col)) |}.

Definition createColumnMapping (columns : list ColumnSchema)
    : result (list WriterColumn * list TsColumnType) :=
  Ok (writer_column <$> columns, (fun col => stringToColumnType (Type_ col)) <$> columns).

(** The loop of validateColumnSynchronization; indexing past the end of the
    writer columns or the types would panic. *)
Fixpoint check_columns (i : nat) (configColumns : list ColumnSchema)
    (writerColumns : list WriterColumn) (columnTypes : list TsColumnType) : result unit :=
  match configColumns with
  | [] => Ok tt
  | configCol :: rest =>
      match writerColumns !! i, columnTypes !! i with
      | Some w, Some t =>
          guard_err (negb (String.eqb (Name configCol +:+ nul) (ColumnName w)))
            (config_error "column name mismatch at index %d: config has '%s' but internal mapping has '%s'"
               [AZ (Z.of_nat i); AS (Name configCol); AS (ColumnName w)]);;
          let expectedType := stringToColumnType (Type_ configCol) in
          guard_err (negb (bool_decide (expectedType = t)))
            (config_error "column type mismatch at index %d for column '%s': config has type '%s' but internal has type %d"
               [AZ (Z.of_nat i); AS (Name configCol); AS (Type_ configCol)]);;
          guard_err (negb (bool_decide (writerDataType expectedType = ColumnType w)))
            (config_error "writer column type mismatch at index %d for column '%s': expected type %d but writer has type %d"
               [AZ (Z.of_nat i); AS (Name configCol)]);;
          check_columns (S i) rest writerColumns columnTypes
      | _, _ => Panic
      end
  end.

Definition validateColumnSynchronization (configColumns : list ColumnSchema)
    (writerColumns : list WriterColumn) (columnTypes : list TsColumnType) : result unit :=
  guard_err (negb (length configColumns =? length writerColumns)%nat)
    (config_error "column count mismatch: schema has %d columns but internal mapping has %d columns"
       [AZ (Z.of_nat (length configColumns)); AZ (Z.of_nat (length writerColumns))]);;
  guard_err (negb (length configColumns =? length columnTypes)%nat)
    (config_error "column count mismatch: schema has %d columns but internal types has %d types"
       [AZ (Z.of_nat (length configColumns)); AZ (Z.of_nat (length columnTypes))]);;
  guard_err (negb (length writerColumns =? length columnTypes)%nat)
    (config_error "internal column count mismatch: writer has %d columns but types has %d entries"
       [AZ (Z.of_nat (length writerColumns)); AZ (Z.of_nat (length columnTypes))]);;
  check_columns 0 configColumns writerColumns columnTypes.

(** ** What the schema checks establish *)

Lemma validate_columns_ok seen columns u :
  validate_columns seen columns = Ok u ->
  NoDup (Name <$> columns) /\
  Forall (fun col => (Name col ∉ seen) /\ Name col <> EmptyString /\ isValidColumnType (Type_ col) = true) columns.
Proof.
  revert seen. induction columns as [|col rest IH]; intros seen H; cbn [validate_columns] in H.
  - split; constructor.
  - apply res_bind_ok in H as (? & E & (? & D & (? & T & H)%res_bind_ok)%res_bind_ok).
    inv_res. bools. case_bool_decide; [done|]. apply IH in H as [ND F]. split.
    + constructor; [|done]. intros (c & Ec & I)%list_elem_of_fmap.
      rewrite Forall_forall in F. destruct (F c I) as [N _]. set_solver.
    + constructor; [done|]. eapply Forall_impl; [exact F|]. set_solver.
Qed.

Lemma isValidColumnType_initialized s :
  isValidColumnType s = true -> stringToColumnType s <> TsColumnUninitialized.
Proof. intros _. unfold stringToColumnType. repeat case_match; done. Qed.

(** Every column of a mapping can be written. *)
Definition column_type_ok (t : TsColumnType) : Prop :=
  t <> TsColumnUninitialized /\ AsValueType (writerDataType t) = AsValueType t.

Lemma writerDataType_value t : AsValueType (writerDataType t) = AsValueType t.
Proof. by destruct t. Qed.

(** The mapping built from a schema passes the synchronisation check. *)
Lemma check_columns_mapping i pre post :
  i = length pre ->
  check_columns i post (writer_column <$> pre ++ post)
    ((fun col => stringToColumnType (Type_ col)) <$> pre ++ post) = Ok tt.
Proof.
  revert i pre. induction post as [|c post IH]; intros i pre ->; cbn [check_columns]; [done|].
  rewrite !list_lookup_fmap, list_lookup_middle by done. cbn.
  rewrite String.eqb_refl, !bool_decide_eq_true_2 by done. cbn.
  specialize (IH (S (length pre)) (pre ++ [c])). rewrite <- app_assoc in IH. apply IH.
  rewrite length_app. cbn. lia.
Qed.

Lemma validateColumnSynchronization_mapping columns :
  validateColumnSynchronization columns (writer_column <$> columns)
    ((fun col => stringToColumnType (Type_ col)) <$> columns) = Ok tt.
Proof.
  unfold validateColumnSynchronization. rewrite !length_fmap, Nat.eqb_refl. cbn.
  by apply (check_columns_mapping 0 []).
Qed.
