(* ===== verification/Explode.v ===== *)
(** * The terminal explode step (explode.go)

    explode turns one message into one table of N rows.  This file models its
    compilation, the per-message resolution of the array, the start and the
    interval, the time axis and the columns; Yaml.v dispatches to it. *)
From S2P Require Import Prelude GoInt GoStr GoFloat GoTime Values Qdb FieldPath Convert Steps Schema.
From Stdlib.Strings Require Import Byte.
From Stdlib Require Import SpecFloat.

Inductive intervalMode : Type :=
  | intervalModeValue (intervalValue : Z)
  | intervalModeSource (intervalPath : string) (intervalLookup : lookup_fn) (intervalUnit : Z)
  | intervalModeByLength (intervalByLength : gmap Z Z).

Record explodeSpec : Type := {
  sourcePath : string; e_lookupSource : lookup_fn;
  startPath : string; lookupStart : lookup_fn;
  mode : intervalMode;
  targetCol : nat; targetName : string; targetType : TsColumnType;
  ordinalCol : option nat;     (* -1 when not configured *)
  ordinalName : string }.

Definition explodedColumnNames (e : option explodeSpec) : list string :=
  match e with
  | None => []
  | Some e => targetName e :: (if String.eqb (ordinalName e) EmptyString then [] else [ordinalName e])
  end.

(** The scalar steps, and the Config of the explode step when there is one:
    the outer option is "no explode step", the inner one a nil map; the source
    does not tell the two apart. *)
Definition splitExplodeSpec (specs : list TransformSpec)
    : result (list TransformSpec * option fields) :=
  let is_explode spec := String.eqb (GetStepName spec) "explode" in
  let count := length (List.filter is_explode specs) in
  if (count =? 0)%nat then Ok (specs, None)
  else
    guard_err (1 <? count)%nat (config_error "at most one explode step is allowed per config" []);;
    match last specs with
    | None => Panic
    | Some l =>
        guard_err (negb (is_explode l)) (config_error "explode must be the last transformation step" []);;
        Ok (take (length specs - 1) specs, Config l)
    end.

(** columnIndex; [None] for -1. *)
Fixpoint column_index_from (i : nat) (schema : list ColumnSchema) (name : string) : option nat :=
  match schema with
  | [] => None
  | col :: rest => if String.eqb (Name col) name then Some i else column_index_from (S i) rest name
  end.
Definition columnIndex (schema : list ColumnSchema) (name : string) : option nat :=
  column_index_from 0 schema name.

(** ** Compilation *)

Definition explodeIntervalUnits (unit : string) : option Z :=
  if String.eqb unit "ns" then Some Nanosecond
  else if String.eqb unit "us" then Some Microsecond
  else if String.eqb unit "ms" then Some Millisecond
  else if String.eqb unit "s" then Some Second
  else None.

Section explode.
  Context `{GoLib}.

Definition explodeDurationValue (context : string) (raw : value) : result Z :=
  s ← of_option (as_string (Some raw))
    (Errorf "%s must be a positive Go duration string, got %T" [AS context; AT (Some raw)]);
  match ParseDuration s with
  | Some d =>
      if d <=? 0 then Err (Errorf "%s must be a positive Go duration, got %q" [AS context; AS s])
      else Ok d
  | None => Err (Errorf "%s must be a positive Go duration, got %q" [AS context; AS s])
  end.

Definition byLengthKey (k : value) : result Z :=
  let bad := Err (Errorf "explode index.interval by_length keys must be positive integers, got %v" [AV k]) in
  match k with
  | VInt v => if 0 <? v then Ok v else bad
  | VInt64 v => if 0 <? v then Ok v else bad
  | VString v =>
      match Atoi v with
      | Ok n => if 0 <? n then Ok n else bad
      | _ => bad
      end
  | _ => bad
  end.

(** The loop body; the entries are ranged over in map order, so of two keys
    that denote the same length the later one wins. *)
Fixpoint by_length_entries (entries : list (value * value)) (byLength : gmap Z Z) : result (gmap Z Z) :=
  match entries with
  | [] => Ok byLength
  | (k, v) :: rest =>
      n ← byLengthKey k;
      d ← explodeDurationValue ("explode index.interval by_length[" +:+ FormatInt n +:+ "]") v;
      by_length_entries rest (<[n := d]> byLength)
  end.

Definition parseByLength `{MapIter} (raw : value) : result (gmap Z Z) :=
  let entries := match raw with
    | VMapAny m => m
    | VMap m => (fun '(k, v) => (VString k, v)) <$> map_to_list m
    | _ => []
    end in
  guard_err (bool_decide (entries = []))
    (Errorf "explode index.interval by_length must be a non-empty map of array length to duration" []);;
  by_length_entries (iter entries) ∅.

Definition compileExplodeIntervalSource (rawSource : value) (rawUnit : option value) : result intervalMode :=
  let source := default EmptyString (as_string (Some rawSource)) in
  guard_err (String.eqb source EmptyString)
    (Errorf "explode index.interval 'source' must be a non-empty string" []);;
  lookup ← map_err (fun err =>
      Errorf "explode index.interval 'source' is not a valid field path: %v" [AE err])
    (compileFieldPath source);
  guard_err (negb (bool_decide (is_Some rawUnit)))
    (Errorf "explode index.interval 'source' requires 'unit' (ns|us|ms|s)" []);;
  let unitName := default EmptyString (as_string rawUnit) in
  unit ← of_option (explodeIntervalUnits unitName)
    (Errorf "explode index.interval unit must be one of ns, us, ms, s; got %v" [AT rawUnit]);
  Ok (intervalModeSource source lookup unit).

Definition compileExplodeInterval `{MapIter} (raw : value) : result intervalMode :=
  m ← of_option (as_map (Some raw)) (Errorf "explode index.interval must be a map" []);
  let rawUnit := m !! "unit" in
  match m !! "value", m !! "source", m !! "by_length" with
  | Some rawValue, None, None =>
      guard_err (bool_decide (is_Some rawUnit))
        (Errorf "explode index.interval 'unit' is only valid with 'source'" []);;
      d ← explodeDurationValue "explode index.interval 'value'" rawValue;
      Ok (intervalModeValue d)
  | None, Some rawSource, None => compileExplodeIntervalSource rawSource rawUnit
  | None, None, Some rawBy =>
      guard_err (bool_decide (is_Some rawUnit))
        (Errorf "explode index.interval 'unit' is only valid with 'source'" []);;
      byLength ← parseByLength rawBy;
      Ok (intervalModeByLength byLength)
  | _, _, _ =>
      Err (Errorf "explode index.interval requires exactly one of 'value', 'source', or 'by_length'" [])
  end.

(** compileExplodeIndex: the start path with its lookup, and the interval. *)
Definition compileExplodeIndex `{MapIter} (cfg : fields) : result (string * lookup_fn * intervalMode) :=
  rawIndex ← of_option (as_map (cfg !! "index")) (Errorf "explode step requires an 'index' map" []);
  rawStart ← of_option (as_map (rawIndex !! "start"))
    (Errorf "explode index.start requires 'source' (dot-path to a time.Time field)" []);
  let startPath := default EmptyString (as_string (rawStart !! "source")) in
  guard_err (String.eqb startPath EmptyString)
    (Errorf "explode index.start requires 'source' (dot-path to a time.Time field)" []);;
  lookupStart ← map_err (fun err =>
      Errorf "explode index.start 'source' is not a valid field path: %v" [AE err])
    (compileFieldPath startPath);
  rawInterval ← of_option (rawIndex !! "interval")
    (Errorf "explode index.interval requires exactly one of 'value', 'source', or 'by_length'" []);
  mode ← compileExplodeInterval rawInterval;
  Ok (startPath, lookupStart, mode).

(** compileExplodeColumns: target column and optional ordinal column.
    [columnTypes[idx]] and [schema[idx]] are in range as the two lists have one
    length. *)
Definition column_type_at (columnTypes : list TsColumnType) (i : nat) : result TsColumnType :=
  match columnTypes !! i with Some t => Ok t | None => Panic end.

Definition compileExplodeColumns (cfg : fields) (schema : list ColumnSchema)
    (columnTypes : list TsColumnType) : result (nat * string * TsColumnType * option nat * string) :=
  let target := default EmptyString (as_string (cfg !! "target")) in
  guard_err (String.eqb target EmptyString) (Errorf "explode step requires a 'target' string" []);;
  guard_err (HasPrefix target "$")
    (Errorf "explode 'target' must not start with '$' (reserved for extract_* steps)" []);;
  i ← of_option (columnIndex schema target)
    (Errorf "explode 'target' must reference an output column, got %q" [AS target]);
  t ← column_type_at columnTypes i;
  guard_err (negb (bool_decide (t = TsColumnDouble)) && negb (bool_decide (t = TsColumnInt64)))
    (Errorf "explode 'target' column %q must be a double or int64 column, got %s" [AS target]);;
  match cfg !! "ordinal" with
  | None => Ok (i, target, t, None, EmptyString)
  | Some rawOrdinal =>
      let ordinal := default EmptyString (as_string (Some rawOrdinal)) in
      guard_err (String.eqb ordinal EmptyString || HasPrefix ordinal "$")
        (Errorf "explode 'ordinal' must be a non-'$' output column name, got %v" [AV rawOrdinal]);;
      guard_err (String.eqb ordinal target)
        (Errorf "explode 'ordinal' and 'target' must be different columns" []);;
      j ← of_option (columnIndex schema ordinal)
        (Errorf "explode 'ordinal' must reference an output column, got %q" [AS ordinal]);
      tj ← column_type_at columnTypes j;
      guard_err (negb (bool_decide (tj = TsColumnInt64)))
        (Errorf "explode 'ordinal' column %q must be an int64 column, got %s" [AS ordinal]);;
      Ok (i, target, t, Some j, ordinal)
  end.

Definition unpackOutputColumnType (cfg : fields) : TsColumnType :=
  let typeName := default EmptyString (as_string (cfg !! "type")) in
  if bool_decide (is_Some (cfg !! "scale")) || String.eqb typeName "float32" || String.eqb typeName "float64"
  then TsColumnDouble else TsColumnInt64.

Definition columnTypeName (t : TsColumnType) : string :=
  match t with TsColumnDouble => "double" | _ => "int64" end.

Definition unpack_target (step : TransformSpec) : string :=
  default EmptyString (as_string (config_of step !! "target")).

Fixpoint validateExplodeUnpackTrace (steps : list TransformSpec) (spec : explodeSpec) : result unit :=
  match steps with
  | [] => Ok tt
  | step :: rest =>
      (if String.eqb (GetStepName step) "unpack" && String.eqb (unpack_target step) (sourcePath spec) then
         let produced := unpackOutputColumnType (config_of step) in
         guard_err (negb (bool_decide (produced = targetType spec)))
           (config_error "explode 'target' column %q is %s but unpack %q produces %s"
              [AS (targetName spec); AS (columnTypeName (targetType spec)); AS (unpack_target step);
               AS (columnTypeName produced)])
       else Ok tt);;
      validateExplodeUnpackTrace rest spec
  end.

Fixpoint validateArrayBindings (steps : list TransformSpec) (explode : option explodeSpec)
    (schema : list ColumnSchema) : result unit :=
  match steps with
  | [] => Ok tt
  | step :: rest =>
      (if String.eqb (GetStepName step) "unpack" && bool_decide (is_Some (columnIndex schema (unpack_target step)))
       then
         let bound := match explode with
           | Some e => String.eqb (sourcePath e) (unpack_target step) | None => false end in
         guard_err (negb bound)
           (config_error "unpack target %q is an output column but no explode binds it; array values cannot be written directly"
              [AS (unpack_target step)])
       else Ok tt);;
      validateArrayBindings rest explode schema
  end.

Definition compileExplodeSpec `{MapIter} (cfg : option fields) (steps : list TransformSpec)
    (schema : list ColumnSchema) (columnTypes : list TsColumnType) : result (option explodeSpec) :=
  match cfg with
  | None => Ok None
  | Some cfg =>
      guard_err (hasStep steps "extract_index")
        (config_error "explode and extract_index are mutually exclusive: explode owns the $timestamp index" []);;
      let source := default EmptyString (as_string (cfg !! "source")) in
      guard_err (String.eqb source EmptyString)
        (config_error "explode step requires a 'source' string" []);;
      lookup ← map_err (fun err => config_error "explode 'source' is not a valid field path: %v" [AE err])
        (compileFieldPath source);
      '(i, target, t, ordinal, ordinalName) ← map_err (fun err => config_error "%s" [AE err])
        (compileExplodeColumns cfg schema columnTypes);
      '(startPath, lookupStart, mode) ← map_err (fun err => config_error "%s" [AE err])
        (compileExplodeIndex cfg);
      let spec := {| sourcePath := source; e_lookupSource := lookup; startPath := startPath;
                     lookupStart := lookupStart; mode := mode; targetCol := i; targetName := target;
                     targetType := t; ordinalCol := ordinal; ordinalName := ordinalName |} in
      validateExplodeUnpackTrace steps spec;;
      Ok (Some spec)
  end.

End explode.

(** ** Per-message resolution *)

Record explodeInputs : Type := {
  floats : option (list float64); ints : option (list Z); n : nat;
  start : gotime; interval : Z }.

Definition inputs_of (fs : option (list float64)) (zs : option (list Z)) (n : nat) : explodeInputs :=
  {| floats := fs; ints := zs; n := n; start := zero_time; interval := 0 |}.

(** One element of an untyped array, as the column type asks. *)
Definition untyped_element {A} (as_type : option value -> option A) (want : string) (path : string)
    (p : nat * value) : result A :=
  of_option (as_type (Some p.2))
    (Errorf "explode source '%s' element %d has type %T, want %s"
       [AS path; AZ (Z.of_nat p.1); AT (Some p.2); AS want]).

Definition resolveUntypedArray (e : explodeSpec) (v : list value) : result explodeInputs :=
  match targetType e with
  | TsColumnDouble =>
      out ← mapM (M := result) (untyped_element as_float64 "float64" (sourcePath e)) (imap pair v);
      Ok (inputs_of (Some out) None (length v))
  | _ =>
      out ← mapM (M := result) (untyped_element as_int64 "int64" (sourcePath e)) (imap pair v);
      Ok (inputs_of None (Some out) (length v))
  end.

Definition resolveArray (e : explodeSpec) (value : value) : result explodeInputs :=
  match value with
  | VFloats v =>
      guard_err (negb (bool_decide (targetType e = TsColumnDouble)))
        (Errorf "explode source '%s' must be []int64 to match column %q, got %T"
           [AS (sourcePath e); AS (targetName e); AT (Some value)]);;
      Ok (inputs_of (Some v) None (length v))
  | VInts v =>
      guard_err (negb (bool_decide (targetType e = TsColumnInt64)))
        (Errorf "explode source '%s' must be []float64 to match column %q, got %T"
           [AS (sourcePath e); AS (targetName e); AT (Some value)]);;
      Ok (inputs_of None (Some v) (length v))
  | VSlice v => resolveUntypedArray e v
  | _ => Err (Errorf "explode source '%s' has type %T, want a numeric array"
                [AS (sourcePath e); AT (Some value)])
  end.

Definition resolveStart (e : explodeSpec) (fs : fields) : result gotime :=
  value ← of_option (lookupStart e fs)
    (Errorf "explode index.start field '%s' not found" [AS (startPath e)]);
  of_option (as_time (Some value))
    (Errorf "explode index.start '%s' must be a time.Time (use extract_timestamp), got %T"
       [AS (startPath e); AT (Some value)]).

Definition resolveSourcedInterval `{GoLib} (path : string) (lookup : lookup_fn) (unit : Z)
    (fs : fields) : result Z :=
  value ← of_option (lookup fs) (Errorf "explode index.interval field '%s' not found" [AS path]);
  match value with
  | VInt64 v =>
      if (v <=? 0) || (go_div max_int64 unit <? v)
      then Err (Errorf "explode index.interval from '%s' must be a positive duration, got %d" [AS path; AZ v])
      else Ok (wrap64 (v * unit))
  | VFloat64 v =>
      let ns := f64_mul v (f64_of_Z unit) in
      if IsNaN ns || f64_le ns (S754_zero false) || f64_ge ns (f64_of_Z max_int64)
      then Err (Errorf "explode index.interval from '%s' must be a positive duration, got %v" [AS path; AF v])
      else
        let d := f64_to_int64 float_out_of_range (Round ns) in
        if d <=? 0
        then Err (Errorf "explode index.interval from '%s' rounds to a non-positive duration: %v" [AS path; AF v])
        else Ok d
  | _ => Err (Errorf "explode index.interval source '%s' must be int64 or float64, got %T"
                [AS path; AT (Some value)])
  end.

Definition resolveInterval `{GoLib} (e : explodeSpec) (fs : fields) (n : nat) : result Z :=
  match mode e with
  | intervalModeValue d => Ok d
  | intervalModeByLength m =>
      of_option (m !! Z.of_nat n)
        (Errorf "explode index.interval by_length has no entry for array length %d" [AZ (Z.of_nat n)])
  | intervalModeSource path lookup unit => resolveSourcedInterval path lookup unit fs
  end.

Definition resolveInputs `{GoLib} (e : explodeSpec) (fs : fields) : result explodeInputs :=
  value ← of_option (e_lookupSource e fs)
    (Errorf "explode source field '%s' not found" [AS (sourcePath e)]);
  inp ← resolveArray e value;
  if (n inp =? 0)%nat then Ok inp
  else
    start ← resolveStart e fs;
    interval ← resolveInterval e fs (n inp);
    Ok {| floats := floats inp; ints := ints inp; n := n inp; start := start; interval := interval |}.

(** ** The N-row table *)

(** [time.Duration(i) * interval] wraps at 64 bits. *)
Definition buildExplodedIndex (start : gotime) (interval : Z) (n : nat) : list gotime :=
  (fun i => Add start (wrap64 (Z.of_nat i * interval))) <$> seq 0 n.

Definition broadcastDoubles (value : option value) (n : nat) : list float64 :=
  replicate n (default f64_nan (as_float64 value)).
Definition broadcastInt64s (value : option value) (n : nat) : list Z :=
  replicate n (default Int64Undefined (as_int64 value)).
Definition broadcastTimestamps `{GoLib} (value : option value) (n : nat) : list gotime :=
  replicate n (default MinTimespec (as_time value)).
Definition broadcastStrings (value : option value) (n : nat) : list string :=
  replicate n (default EmptyString (as_string value)).
Definition broadcastBlobs (value : option value) (n : nat) : list (list byte) :=
  replicate n (default [] (as_bytes value)).

Definition assertExplodedColumnLen (name : string) (got n : nat) : result unit :=
  guard_err (negb (got =? n)%nat)
    (parse_error "exploded column %q length %d != row count %d"
       [AS name; AZ (Z.of_nat got); AZ (Z.of_nat n)]).

Definition setExplodedTarget (table : WriterTable) (col : nat) (name : string) (inp : explodeInputs)
    : result WriterTable :=
  match floats inp with
  | Some fs =>
      assertExplodedColumnLen name (length fs) (n inp);;
      SetData table col (CDDouble fs)
  | None =>
      let zs := default [] (ints inp) in
      assertExplodedColumnLen name (length zs) (n inp);;
      SetData table col (CDInt64 zs)
  end.

(** setBroadcastColumn; [columns] and [columnTypes] are the parser's. *)
Definition setBroadcastColumn `{GoLib} (columns : list WriterColumn) (columnTypes : list TsColumnType)
    (table : WriterTable) (fs : fields) (i n : nat) : result WriterTable :=
  match columns !! i, columnTypes !! i with
  | Some col, Some t =>
      let value := fs !! TrimSuffix (ColumnName col) nul in
      match t with
      | TsColumnDouble => SetData table i (CDDouble (broadcastDoubles value n))
      | TsColumnInt64 => SetData table i (CDInt64 (broadcastInt64s value n))
      | TsColumnTimestamp => SetData table i (CDTimestamp (broadcastTimestamps value n))
      | TsColumnString | TsColumnSymbol => SetData table i (CDString (broadcastStrings value n))
      | TsColumnBlob => SetData table i (CDBlob (broadcastBlobs value n))
      | TsColumnUninitialized => Ok table
      end
  | _, _ => Panic
  end.

Definition setExplodedColumn `{GoLib} (e : explodeSpec) (columns : list WriterColumn)
    (columnTypes : list TsColumnType) (table : WriterTable) (fs : fields) (i : nat)
    (inp : explodeInputs) : result WriterTable :=
  if bool_decide (i = targetCol e) then setExplodedTarget table i (targetName e) inp
  else if bool_decide (Some i = ordinalCol e) then
    SetData table i (CDInt64 (Z.of_nat <$> seq 0 (n inp)))
  else setBroadcastColumn columns columnTypes table fs i (n inp).

Definition createExplodedWriterTable `{GoLib} (e : explodeSpec) (columns : list WriterColumn)
    (columnTypes : list TsColumnType) (fs : fields) (tableName : string) (inp : explodeInputs)
    : result WriterTable :=
  table ← map_err (fun err => NewParsingFailedError "yaml_parser" err) (NewWriterTable tableName columns);
  let table := SetIndex table (buildExplodedIndex (start inp) (interval inp) (n inp)) in
  fold_res (fun table i => map_err (fun err => NewParsingFailedError "yaml_parser" err)
    (setExplodedColumn e columns columnTypes table fs i inp)) (seq 0 (length columns)) table.

(** ** What compilation guarantees *)

(** The columns an explode specification is bound to. *)
Definition explode_bound (columnTypes : list TsColumnType) (e : explodeSpec) : Prop :=
  columnTypes !! targetCol e = Some (targetType e) /\
  (targetType e = TsColumnDouble \/ targetType e = TsColumnInt64) /\
  (forall j, ordinalCol e = Some j -> columnTypes !! j = Some TsColumnInt64).

Lemma column_type_at_ok types i t : column_type_at types i = Ok t -> types !! i = Some t.
Proof. unfold column_type_at. by destruct (types !! i); intros [= ->]. Qed.

Section explode_compile.
Context `{GoLibLaws, MapIter}.

Lemma compileExplodeColumns_bound cfg schema types i target t ordinal oname :
  compileExplodeColumns cfg schema types = Ok (i, target, t, ordinal, oname) ->
  types !! i = Some t /\ (t = TsColumnDouble \/ t = TsColumnInt64) /\
  (forall j, ordinal = Some j -> types !! j = Some TsColumnInt64) /\
  columnIndex schema target = Some i /\
  (forall j, ordinal = Some j -> columnIndex schema oname = Some j).
Proof.
  unfold compileExplodeColumns. intros E.
  apply res_bind_ok in E as (? & _ & (? & _ & (k & K & (tk & T & (? & G & E)%res_bind_ok)%res_bind_ok)%res_bind_ok)%res_bind_ok).
  apply of_option_ok in K. apply column_type_at_ok in T. apply guard_err_ok in G.
  assert (D : tk = TsColumnDouble \/ tk = TsColumnInt64).
  { apply andb_false_iff in G. rewrite !negb_false_iff, !bool_decide_eq_true in G. done. }
  destruct (cfg !! "ordinal") as [raw|].
  - inv_res. simplify_eq. bools.
    match goal with H : bool_decide _ = true |- _ => apply bool_decide_eq_true in H; subst end.
    match goal with H : column_type_at _ _ = _ |- _ => apply column_type_at_ok in H end.
    split_and!; try done; intros j [= <-]; done.
  - injection E as <- <- <- <- <-. split_and!; done.
Qed.

Lemma compileExplodeSpec_bound cfg steps schema types e :
  compileExplodeSpec cfg steps schema types = Ok (Some e) ->
  explode_bound types e /\ hasStep steps "extract_index" = false /\ is_Some cfg.
Proof.
  unfold compileExplodeSpec. destruct cfg as [cfg|]; [|done]. intros E.
  repeat first [progress inv_res | case_match]; simplify_eq.
  match goal with C : compileExplodeColumns _ _ _ = _ |- _ =>
    apply compileExplodeColumns_bound in C as (? & ? & ? & _) end.
  split_and!; done || by eexists.
Qed.
End explode_compile.

(** ** Arrays, intervals and rows *)

(** The array of a message, typed by the target column. *)
Definition array_of (inp : explodeInputs) : ColumnData :=
  match floats inp with Some fs => CDDouble fs | None => CDInt64 (default [] (ints inp)) end.

Definition array_typed (e : explodeSpec) (inp : explodeInputs) : Prop :=
  ValueType (array_of inp) = AsValueType (targetType e) /\ cd_Length (array_of inp) = n inp.

Section explode_resolve.
Context `{GoLibLaws}.

Lemma resolveArray_typed e v inp :
  targetType e = TsColumnDouble \/ targetType e = TsColumnInt64 ->
  resolveArray e v = Ok inp -> array_typed e inp.
Proof.
  intros T. unfold resolveArray, resolveUntypedArray, array_typed. intros E.
  assert (L : forall A (l : list A), length (imap pair l) = length l) by (intros; apply length_imap).
  destruct v; try done.
  - destruct T as [T|T]; rewrite T in *; inv_res; subst inp; cbn;
      match goal with H : mapM _ _ = Ok _ |- _ => apply mapM_res_length in H; by rewrite L in H end.
  - inv_res. subst inp. bools. by match goal with H : bool_decide _ = true |- _ =>
      apply bool_decide_eq_true in H; rewrite H end.
  - inv_res. subst inp. bools. by match goal with H : bool_decide _ = true |- _ =>
      apply bool_decide_eq_true in H; rewrite H end.
Qed.

Lemma resolveInputs_typed e fs inp :
  targetType e = TsColumnDouble \/ targetType e = TsColumnInt64 ->
  resolveInputs e fs = Ok inp -> array_typed e inp.
Proof.
  intros T E. unfold resolveInputs in E. apply res_bind_ok in E as (v & _ & (x & R & E)%res_bind_ok).
  apply resolveArray_typed in R; [|done]. destruct (n x =? 0)%nat; inv_res; by subst.
Qed.

Lemma resolveArray_no_panic e v : no_panic (resolveArray e v).
Proof.
  unfold resolveArray, resolveUntypedArray.
  destruct v; try apply err_no_panic; try (apply res_bind_no_panic; intros; auto with qnc).
  destruct (targetType e);
    (apply res_bind_no_panic; [apply mapM_res_no_panic; intros; apply of_option_no_panic|
     intros; apply ok_no_panic]).
Qed.

Lemma resolveSourcedInterval_no_panic p l u fs : no_panic (resolveSourcedInterval p l u fs).
Proof.
  unfold resolveSourcedInterval. apply res_bind_no_panic; [apply of_option_no_panic|]. intros v _.
  destruct v; repeat case_match; auto with qnc.
Qed.

#[local] Hint Resolve resolveArray_no_panic resolveSourcedInterval_no_panic : qnc.

Lemma resolveInputs_no_panic e fs : no_panic (resolveInputs e fs).
Proof. unfold resolveInputs, resolveStart, resolveInterval. no_panic_tac. Qed.

(** The data of column [i] of an exploded table. *)
Definition exploded_cell (e : explodeSpec) (columns : list WriterColumn)
    (columnTypes : list TsColumnType) (fs : fields) (inp : explodeInputs) (i : nat) : ColumnData :=
  if bool_decide (i = targetCol e) then array_of inp
  else if bool_decide (Some i = ordinalCol e) then CDInt64 (Z.of_nat <$> seq 0 (n inp))
  else
    let v := (columns !! i) ≫= fun col => fs !! TrimSuffix (ColumnName col) nul in
    match default TsColumnBlob (columnTypes !! i) with
    | TsColumnDouble => CDDouble (broadcastDoubles v (n inp))
    | TsColumnInt64 => CDInt64 (broadcastInt64s v (n inp))
    | TsColumnTimestamp => CDTimestamp (broadcastTimestamps v (n inp))
    | TsColumnString | TsColumnSymbol => CDString (broadcastStrings v (n inp))
    | _ => CDBlob (broadcastBlobs v (n inp))
    end.

Lemma length_timespec_index s d k : length (timespec <$> buildExplodedIndex s d k) = k.
Proof. unfold buildExplodedIndex. by rewrite !length_fmap, length_seq. Qed.
End explode_resolve.

Section explode_table.
Context `{GoLibLaws}.

(** The parser's columns and types, as createColumnMapping makes them. *)
Variables (columns : list WriterColumn) (columnTypes : list TsColumnType).
Hypothesis mapping : Forall2 (fun col t => ColumnType col = writerDataType t /\ t <> TsColumnUninitialized)
  columns columnTypes.

Lemma column_at i col :
  columns !! i = Some col ->
  exists t, columnTypes !! i = Some t /\ ColumnType col = writerDataType t /\ t <> TsColumnUninitialized.
Proof. intros C. destruct (Forall2_lookup_l _ _ _ _ _ mapping C) as (t & T & P). by exists t. Qed.

(** The exploded cell has the type of its column and [n] values. *)
Lemma exploded_cell_typed e fs inp i col :
  explode_bound columnTypes e -> array_typed e inp -> columns !! i = Some col ->
  ValueType (exploded_cell e columns columnTypes fs inp i) = AsValueType (ColumnType col) /\
  cd_Length (exploded_cell e columns columnTypes fs inp i) = n inp.
Proof.
  intros (Bt & Bd & Bo) [At Al] C. destruct (column_at i col C) as (t & T & E & I).
  rewrite E, writerDataType_value. unfold exploded_cell. rewrite C, T.
  case_bool_decide as B1; [subst i; simplify_eq; by rewrite At|].
  case_bool_decide as B2.
  - rewrite (Bo i) in T by done. simplify_eq. cbn. by rewrite length_fmap, length_seq.
  - unfold broadcastDoubles, broadcastInt64s, broadcastStrings, broadcastTimestamps, broadcastBlobs.
    destruct t; try done; cbn; by rewrite length_replicate.
Qed.

Lemma setExplodedColumn_ok e fs inp t i :
  explode_bound columnTypes e -> array_typed e inp ->
  (i < length columns)%nat -> columnInfoByOffset t = columns ->
  setExplodedColumn e columns columnTypes t fs i inp =
    Ok (set_data t (<[i := exploded_cell e columns columnTypes fs inp i]> (data t))).
Proof.
  intros B A L Ct. destruct (lookup_lt_is_Some_2 columns i L) as [col C].
  pose proof (exploded_cell_typed e fs inp i col B A C) as [V N].
  destruct (column_at i col C) as (ty & T & E & I).
  rewrite <- Ct in C. unfold setExplodedColumn, exploded_cell in *.
  case_bool_decide as B1.
  - destruct A as [_ Al]. unfold setExplodedTarget, array_of, assertExplodedColumnLen in *.
    destruct (floats inp); cbn [cd_Length] in Al; rewrite Al, Nat.eqb_refl; cbn [negb guard_err mbind res_bind];
      by apply (SetData_ok _ _ col).
  - case_bool_decide as B2; [by apply (SetData_ok _ _ col)|].
    unfold setBroadcastColumn. rewrite <- Ct, C, T in *. cbn in V |- *.
    destruct ty; try done; by apply (SetData_ok _ _ col).
Qed.

(** The whole table: its index, and every column. *)
Lemma createExplodedWriterTable_ok e fs name inp :
  explode_bound columnTypes e -> array_typed e inp ->
  exists t, createExplodedWriterTable e columns columnTypes fs name inp = Ok t /\
    rectangular columns t /\ TableName t = name /\ rowCount t = n inp /\
    idx t = timespec <$> buildExplodedIndex (start inp) (interval inp) (n inp) /\
    data t = exploded_cell e columns columnTypes fs inp <$> seq 0 (length columns).
Proof.
  intros B A. unfold createExplodedWriterTable.
  destruct (NewWriterTable_ok name columns) as (t0 & -> & N0 & C0 & L0).
  { apply Forall_lookup. intros i col C. destruct (column_at i col C) as (t & _ & -> & I). by destruct t. }
  cbn [map_err mbind res_bind]. set (t1 := SetIndex t0 _).
  assert (R : rowCount t1 = n inp) by apply length_timespec_index.
  eexists. split; [|split; [apply (fill_rectangular columns (exploded_cell e columns columnTypes fs inp) t1)|]].
  - apply (fill_columns _ (exploded_cell e columns columnTypes fs inp) columns); [done..|].
    intros t i Hi Ct. by rewrite setExplodedColumn_ok.
  - done.
  - done.
  - intros i col C. rewrite R. by apply exploded_cell_typed.
  - split_and!; done.
Qed.
End explode_table.

(** ** Properties *)

(** While the whole span fits a duration and the instants fit a time.Time,
    row i is stamped start + i * interval. *)
Lemma exploded_instants start interval n :
  time_valid start -> 0 < interval -> Z.of_nat n * interval <= max_int64 ->
  in_int64 (ext start - 1) -> in_int64 (ext start + Z.of_nat n * interval / Second + 2) ->
  forall i, (i < n)%nat -> exists t, buildExplodedIndex start interval n !! i = Some t /\
    time_valid t /\ instant t = instant start + Z.of_nat i * interval.
Proof.
  intros V I S Lo Hi i L. assert (Sec : 0 < Second) by (unfold_time; lia).
  exists (Add start (wrap64 (Z.of_nat i * interval))).
  split; [unfold buildExplodedIndex; by rewrite list_lookup_fmap, lookup_seq_lt|].
  assert (B : 0 <= Z.of_nat i * interval <= Z.of_nat n * interval) by nia.
  rewrite wrap64_id by (unfold_range; lia).
  assert (D : 0 <= Z.of_nat i * interval / Second <= Z.of_nat n * interval / Second).
  { split; [apply Z.div_pos; lia|]. apply Z.div_le_mono; lia. }
  destruct (Add_instant start (Z.of_nat i * interval)) as [E W]; try (unfold_range; lia); done.
Qed.

(** The time axis is exact: as long as the whole span fits a duration and the
    instants fit a time.Time, the i-th row is stamped start + i * interval to
    the nanosecond (no accumulated drift), the first row is the start itself,
    and the axis is strictly increasing. *)
Theorem exploded_index_exact start interval n :
  time_valid start -> 0 < interval -> Z.of_nat n * interval <= max_int64 ->
  in_int64 (ext start - 1) -> in_int64 (ext start + Z.of_nat n * interval / Second + 2) ->
  let idx := buildExplodedIndex start interval n in
  length idx = n /\
  ((0 < n)%nat -> idx !! 0%nat = Some start) /\
  (forall i t, idx !! i = Some t ->
     time_valid t /\ instant t = instant start + Z.of_nat i * interval) /\
  (forall i j t u, (i < j)%nat -> idx !! i = Some t -> idx !! j = Some u -> instant t < instant u).
Proof.
  intros V I S Lo Hi idx.
  assert (P : forall i t, idx !! i = Some t -> time_valid t /\ instant t = instant start + Z.of_nat i * interval).
  { intros i t T. destruct (exploded_instants start interval n V I S Lo Hi i) as (u & U & Q).
    - apply lookup_lt_Some in T. unfold idx, buildExplodedIndex in T. by rewrite length_fmap, length_seq in T.
    - fold idx in U. by simplify_eq. }
  split_and!.
  - unfold idx, buildExplodedIndex. by rewrite length_fmap, length_seq.
  - intros N. destruct (idx !! 0%nat) as [t|] eqn:E.
    + destruct (P _ _ E) as [W Q]. f_equal. apply instant_inj; [done|done|]. lia.
    + apply lookup_ge_None in E. unfold idx, buildExplodedIndex in E. rewrite length_fmap, length_seq in E. lia.
  - exact P.
  - intros i j t u L T U. destruct (P _ _ T) as [_ ->]. destruct (P _ _ U) as [_ ->]. nia.
Qed.

(** A sourced interval is always a positive int64 duration: an integer field
    gives exactly value * unit without overflow, and a float field never
    reaches the implementation-dependent case of the conversion to int64. *)
Theorem sourced_interval_positive `{GoLib} path lookup name unit fs d :
  explodeIntervalUnits name = Some unit ->
  resolveSourcedInterval path lookup unit fs = Ok d ->
  0 < d <= max_int64 /\
  match lookup fs with
  | Some (VInt64 v) => d = v * unit
  | Some (VFloat64 v) => f64_trunc (Round (f64_mul v (f64_of_Z unit))) = Some d
  | _ => False
  end.
Proof.
  intros U R. unfold resolveSourcedInterval in R. apply res_bind_ok in R as (v & L & R).
  apply of_option_ok in L. rewrite L.
  assert (Up : 0 < unit <= Second).
  { unfold explodeIntervalUnits in U. unfold_time. repeat case_match; simplify_eq; lia. }
  destruct v as [| | |v| |v| | | | | | | | |]; try done.
  - destruct (_ || _) eqn:E in R; [done|]. injection R as <-. bools.
    assert (Q : v * unit <= max_int64).
    { unfold go_div in *. rewrite Z.quot_div_nonneg in * by (unfold max_int64; lia).
      pose proof (Z.mul_div_le max_int64 unit). nia. }
    rewrite wrap64_id by (unfold_range; nia). split; [nia|done].
  - set (ns := f64_mul v (f64_of_Z unit)) in *. destruct (_ || _) eqn:E in R; [done|]. bools.
    destruct ns as [s|s| |s m e] eqn:Ns; try done; [destruct s; done|].
    destruct s; [done|]. subst ns. pose proof (f64_mul_small _ _ _ _ _ Ns) as Sm.
    destruct (Round_in_int64 m e Sm) as (z & T & Z); [done|].
    rewrite (f64_to_int64_in_range _ _ z T) in R by (unfold_range; lia).
    destruct (z <=? 0) eqn:Zz; [done|]. injection R as <-. bools. split; [lia|done].
Qed.

(** The span of the axis is not checked: with the interval 2^50 ns (about 13.03
    days) the offset of sample 8192 wraps below zero, and the row lands before
    the capture window starts. *)
Theorem exploded_index_wraps :
  let start := time_Unix 1704110400 0 in
  exists t, buildExplodedIndex start (2 ^ 50) (Z.to_nat 8193) !! Z.to_nat 8192 = Some t /\
    instant t < instant start.
Proof.
  intros start. exists (Add start (wrap64 (8192 * 2 ^ 50))). split.
  - unfold buildExplodedIndex. rewrite list_lookup_fmap, lookup_seq_lt by lia.
    cbn [fmap option_fmap option_map Nat.add]. by rewrite Z2Nat.id by lia.
  - vm_compute. done.
Qed.
