(* ===== verification/Exploded.v ===== *)
(** * What an explode step means (explode.go)

    The meaning of an accepted explode step, read off its configuration map and
    not off its compiled form: which field is the array, which one the start,
    which interval the configuration gives an array of a length, and which
    column is the target or the ordinal.  Compilation and resolution
    (Explode.v) are shown to implement it; the parser's theorem on exploded
    messages (Yaml.v) is stated with it. *)
From S2P Require Import Prelude GoInt GoStr GoFloat GoTime Values Qdb FieldPath Convert Steps Schema.
From S2P Require Import Explode.
From Stdlib Require Import SpecFloat.

(** ** The configuration *)

(** The string and the map under a key of a configuration map. *)
Definition configured_string (cfg : fields) (key : string) : string :=
  default EmptyString (as_string (cfg !! key)).
Definition configured_map (cfg : fields) (key : string) : fields := default ∅ (as_map (cfg !! key)).

(** The field of a message at a dot path. *)
Definition field_at (path : string) (fs : fields) : option value := walk (Split path dot) fs.

(** The units of a sourced interval, in nanoseconds. *)
Definition interval_units : list (string * Z) :=
  [("ns", 1); ("us", 1000); ("ms", 1000000); ("s", 1000000000)].

(** A key of by_length that stands for the length [n]. *)
Definition length_key (k : value) (n : Z) : Prop :=
  k = VInt n \/ k = VInt64 n \/ exists s, k = VString s /\ Atoi s = Ok n.

(** The entries of by_length, whichever of the two map types it has. *)
Definition length_entries (raw : value) : list (value * value) :=
  match raw with
  | VMapAny m => m
  | VMap m => (fun '(k, w) => (VString k, w)) <$> map_to_list m
  | _ => []
  end.

Definition duration_text `{GoLib} (v : value) (d : Z) : Prop :=
  exists s, v = VString s /\ ParseDuration s = Some d /\ 0 < d.

(** The interval, in nanoseconds, that the map [m] under index.interval gives
    an array of [n] elements in a message with the fields [fs]. *)
Inductive configured_interval `{GoLib} (m fs : fields) (n : nat) (d : Z) : Prop :=
  | interval_value raw :
      m !! "value" = Some raw -> duration_text raw d -> configured_interval m fs n d
  | interval_of_length raw k v :
      m !! "by_length" = Some raw -> (k, v) ∈ length_entries raw -> length_key k (Z.of_nat n) ->
      duration_text v d -> configured_interval m fs n d
  | interval_of_int path name unit v :
      m !! "source" = Some (VString path) -> m !! "unit" = Some (VString name) ->
      (name, unit) ∈ interval_units -> field_at path fs = Some (VInt64 v) ->
      0 < v -> d = v * unit -> d <= max_int64 -> configured_interval m fs n d
  | interval_of_float path name unit v :
      m !! "source" = Some (VString path) -> m !! "unit" = Some (VString name) ->
      (name, unit) ∈ interval_units -> field_at path fs = Some (VFloat64 v) ->
      f64_trunc (Round (f64_mul v (f64_of_Z unit))) = Some d -> 0 < d <= max_int64 ->
      configured_interval m fs n d.

(** The array a source field holds, as the data of its target column: a typed
    array as it is, an untyped one element by element. *)
Inductive array_value : value -> ColumnData -> Prop :=
  | array_floats xs : array_value (VFloats xs) (CDDouble xs)
  | array_ints xs : array_value (VInts xs) (CDInt64 xs)
  | array_any_floats vs xs : vs = VFloat64 <$> xs -> array_value (VSlice vs) (CDDouble xs)
  | array_any_ints vs xs : vs = VInt64 <$> xs -> array_value (VSlice vs) (CDInt64 xs).

(** The column an exploded table holds under [col], for [n] rows. *)
Definition exploded_column `{GoLib} (cfg : fields) (array : ColumnData) (fs : fields) (n : nat)
    (col : ColumnSchema) : ColumnData :=
  if String.eqb (Name col) (configured_string cfg "target") then array
  else if String.eqb (Name col) (configured_string cfg "ordinal") then CDInt64 (Z.of_nat <$> seq 0 n)
  else
    let v := fs !! Name col in
    match stringToColumnType (Type_ col) with
    | TsColumnDouble => CDDouble (replicate n (default f64_nan (as_float64 v)))
    | TsColumnInt64 => CDInt64 (replicate n (default Int64Undefined (as_int64 v)))
    | TsColumnTimestamp => CDTimestamp (replicate n (default MinTimespec (as_time v)))
    | TsColumnString | TsColumnSymbol => CDString (replicate n (default EmptyString (as_string v)))
    | _ => CDBlob (replicate n (default [] (as_bytes v)))
    end.

(** ** Compilation keeps the meaning *)

Lemma columnIndex_from_lookup i schema name k :
  column_index_from i schema name = Some k ->
  exists j col, k = (i + j)%nat /\ schema !! j = Some col /\ Name col = name.
Proof.
  revert i. induction schema as [|col schema IH]; intros i E; cbn in E; [done|].
  destruct (String.eqb (Name col) name) eqn:N.
  - injection E as <-. exists 0%nat, col. bools. by rewrite Nat.add_0_r.
  - destruct (IH _ E) as (j & col' & -> & L & Q). exists (S j), col'. split_and!; [lia|done|done].
Qed.

(** In a schema without duplicates the column at [i] has a name exactly when
    the name's index is [i]. *)
Lemma columnIndex_name schema name i col k :
  NoDup (Name <$> schema) -> columnIndex schema name = Some k -> schema !! i = Some col ->
  i = k <-> Name col = name.
Proof.
  intros ND (j & col' & -> & L & Q)%columnIndex_from_lookup C. cbn. split.
  - intros ->. by simplify_eq.
  - intros N. eapply (NoDup_lookup _ _ _ name ND); rewrite list_lookup_fmap; [by rewrite C, <- N|by rewrite L, <- Q].
Qed.

Section compile.
Context `{GoLib, MapIter}.

Lemma compileFieldPath_field_at path f : compileFieldPath path = Ok f -> f = field_at path.
Proof. unfold compileFieldPath. intros E. by apply res_bind_ok in E as (? & _ & [= <-]). Qed.

Lemma explodeDurationValue_text context raw d :
  explodeDurationValue context raw = Ok d -> duration_text raw d.
Proof.
  unfold explodeDurationValue. intros E. apply res_bind_ok in E as (s & S%of_option_ok & E).
  destruct (ParseDuration s) as [d'|] eqn:P; [|done]. destruct (d' <=? 0) eqn:L; [done|].
  injection E as <-. bools. exists s. destruct raw; by simplify_eq/=.
Qed.

Lemma byLengthKey_means k n : byLengthKey k = Ok n -> length_key k n.
Proof.
  unfold byLengthKey, length_key. intros E. destruct k; try done; repeat case_match; simplify_eq; eauto 10.
Qed.

Lemma by_length_entries_means entries m m' n d :
  by_length_entries entries m = Ok m' -> m' !! n = Some d ->
  m !! n = Some d \/ exists k v, (k, v) ∈ entries /\ length_key k n /\ duration_text v d.
Proof.
  revert m. induction entries as [|[k v] entries IH]; intros m E L; cbn in E.
  - injection E as ->. by left.
  - apply res_bind_ok in E as (n' & K%byLengthKey_means & (d' & T%explodeDurationValue_text & E)%res_bind_ok).
    destruct (IH _ E L) as [M|(k' & v' & I & P)]; [|right; exists k', v'; split; [by right|done]].
    apply lookup_insert_Some in M as [[-> ->]|[_ M]]; [|by left].
    right. exists k, v. split; [by left|done].
Qed.

Lemma parseByLength_means raw m n d :
  parseByLength raw = Ok m -> m !! n = Some d ->
  exists k v, (k, v) ∈ length_entries raw /\ length_key k n /\ duration_text v d.
Proof.
  unfold parseByLength. intros E L. apply res_bind_ok in E as (? & _ & E).
  destruct (by_length_entries_means _ _ _ _ _ E L) as [Z|(k & v & I & P)]; [by rewrite lookup_empty in Z|].
  exists k, v. split; [|done]. rewrite (iter_perm _) in I.
  unfold length_entries. destruct raw; try done.
Qed.

Lemma explodeIntervalUnits_listed name unit :
  explodeIntervalUnits name = Some unit -> (name, unit) ∈ interval_units.
Proof.
  unfold explodeIntervalUnits, interval_units. intros E.
  repeat match type of E with (if ?b then _ else _) = _ => destruct b eqn:? end; bools; subst;
    first [done|injection E as <-; unfold_time; set_solver].
Qed.

(** The interval resolved for a message is the one the configuration gives. *)
Lemma compileExplodeInterval_means raw e fs n d :
  compileExplodeInterval raw = Ok (mode e) -> resolveInterval e fs n = Ok d ->
  exists m, raw = VMap m /\ configured_interval m fs n d.
Proof.
  unfold compileExplodeInterval, resolveInterval. intros E R.
  apply res_bind_ok in E as (m & M%of_option_ok & E). exists m. split; [by destruct raw; simplify_eq/=|].
  destruct (m !! "value") as [v|] eqn:V, (m !! "source") as [s|] eqn:S, (m !! "by_length") as [b|] eqn:B; try done.
  - apply res_bind_ok in E as (? & _ & (dv & T & [= E])%res_bind_ok). rewrite <- E in R. injection R as ->.
    eapply interval_value; [done|]. by eapply explodeDurationValue_text.
  - unfold compileExplodeIntervalSource in E. apply res_bind_ok in E as (? & G%guard_err_ok & (f & F%map_err_ok & E)%res_bind_ok).
    apply res_bind_ok in E as (? & _ & (u & U%of_option_ok & [= E])%res_bind_ok). rewrite <- E in R.
    apply compileFieldPath_field_at in F as ->.
    assert (Sp : m !! "source" = Some (VString (default EmptyString (as_string (Some s))))).
    { rewrite S. destruct s; try done; bools. }
    assert (Un : exists name, m !! "unit" = Some (VString name) /\ (name, u) ∈ interval_units).
    { destruct (m !! "unit") as [[]|]; try done. eexists. split; [done|]. by apply explodeIntervalUnits_listed. }
    destruct Un as (name & Un & I).
    destruct (sourced_interval_positive _ _ _ _ _ _ U R) as [P D].
    destruct (field_at _ fs) as [[]|] eqn:L; try done.
    + eapply interval_of_int; try done; [|lia].
      assert (0 < u) by (unfold interval_units in I; set_solver). nia.
    + by eapply interval_of_float.
  - apply res_bind_ok in E as (? & _ & (byLength & Q & [= E])%res_bind_ok).
    rewrite <- E in R. apply of_option_ok in R.
    destruct (parseByLength_means _ _ _ _ Q R) as (k & w & I & K & T).
    by eapply interval_of_length.
Qed.

(** Where the compiled columns come from. *)
Lemma compileExplodeColumns_means cfg schema types i target t ordinal oname j col :
  NoDup (Name <$> schema) -> Forall (fun col => Name col <> EmptyString) schema ->
  compileExplodeColumns cfg schema types = Ok (i, target, t, ordinal, oname) -> schema !! j = Some col ->
  (j = i <-> Name col = configured_string cfg "target") /\
  (Some j = ordinal <-> Name col = configured_string cfg "ordinal").
Proof.
  intros ND NE E C. unfold compileExplodeColumns in E. fold (configured_string cfg "target") in E.
  apply res_bind_ok in E as (? & _ & (? & _ & (k & K%of_option_ok & (tk & _ & (? & _ & E)%res_bind_ok)%res_bind_ok)%res_bind_ok)%res_bind_ok).
  unfold configured_string at 2. destruct (cfg !! "ordinal") as [raw|].
  - apply res_bind_ok in E as (? & _ & (? & _ & (q & Q%of_option_ok & (? & _ & (? & _ & [= <- <- <- <- <-])%res_bind_ok)%res_bind_ok)%res_bind_ok)%res_bind_ok).
    split; [by apply (columnIndex_name schema)|].
    rewrite <- (columnIndex_name schema _ _ _ _ ND Q C). naive_solver.
  - injection E as <- <- <- <- <-. split; [by apply (columnIndex_name schema)|].
    split; [done|]. intros N. by destruct (proj1 (Forall_forall _ _) NE col (list_elem_of_lookup_2 _ _ _ C)).
Qed.

Lemma compileExplodeIndex_means cfg path f e :
  compileExplodeIndex cfg = Ok (path, f, mode e) ->
  f = field_at (configured_string (configured_map (configured_map cfg "index") "start") "source") /\
  forall fs n d, resolveInterval e fs n = Ok d ->
    configured_interval (configured_map (configured_map cfg "index") "interval") fs n d.
Proof.
  unfold compileExplodeIndex. intros E.
  apply res_bind_ok in E as (ix & I%of_option_ok & (st & S%of_option_ok & (? & _ & (g & G%map_err_ok & E)%res_bind_ok)%res_bind_ok)%res_bind_ok).
  apply res_bind_ok in E as (raw & R%of_option_ok & (m & M & E)%res_bind_ok).
  injection E as _ <- Em. rewrite Em in M. apply compileFieldPath_field_at in G.
  assert (configured_map cfg "index" = ix) as -> by (unfold configured_map; by rewrite I).
  assert (configured_map ix "start" = st) as -> by (unfold configured_map; by rewrite S).
  split; [exact G|]. intros fs n d D.
  destruct (compileExplodeInterval_means raw e fs n d M D) as (q & -> & Q).
  unfold configured_map. by rewrite R.
Qed.

(** What the compiled specification takes from the configuration. *)
Lemma compileExplodeSpec_means cfg steps schema types e :
  NoDup (Name <$> schema) -> Forall (fun col => Name col <> EmptyString) schema ->
  compileExplodeSpec (Some cfg) steps schema types = Ok (Some e) ->
  e_lookupSource e = field_at (configured_string cfg "source") /\
  lookupStart e = field_at (configured_string (configured_map (configured_map cfg "index") "start") "source") /\
  (forall fs n d, resolveInterval e fs n = Ok d ->
     configured_interval (configured_map (configured_map cfg "index") "interval") fs n d) /\
  (forall i col, schema !! i = Some col ->
     (i = targetCol e <-> Name col = configured_string cfg "target") /\
     (Some i = ordinalCol e <-> Name col = configured_string cfg "ordinal")).
Proof.
  intros ND NE E. unfold compileExplodeSpec in E. fold (configured_string cfg "source") in E.
  apply res_bind_ok in E as (? & _ & (? & _ & (f & F%map_err_ok%compileFieldPath_field_at & E)%res_bind_ok)%res_bind_ok).
  apply res_bind_ok in E as ([[[[i target] t] ordinal] oname] & C%map_err_ok & E).
  apply res_bind_ok in E as ([[path g] md] & X%map_err_ok & (? & _ & [= <-])%res_bind_ok). cbn [e_lookupSource lookupStart targetCol ordinalCol].
  match goal with |- context [resolveInterval ?e] => destruct (compileExplodeIndex_means cfg path g e X) as [G I] end.
  split_and!; [done..|]. intros k col K. by eapply compileExplodeColumns_means.
Qed.
End compile.

(** ** The cells keep the meaning *)

(** The cell Explode.v writes is the column the configuration means. *)
Lemma exploded_cell_column `{GoLib} cfg schema e fs inp i col :
  schema !! i = Some col ->
  (i = targetCol e <-> Name col = configured_string cfg "target") ->
  (Some i = ordinalCol e <-> Name col = configured_string cfg "ordinal") ->
  exploded_cell e (writer_column <$> schema) ((fun col => stringToColumnType (Type_ col)) <$> schema) fs inp i =
    exploded_column cfg (array_of inp) fs (n inp) col.
Proof.
  intros C T O. unfold exploded_cell, exploded_column. rewrite !list_lookup_fmap, C. cbn.
  rewrite TrimSuffix_app.
  case_bool_decide as B1; [apply T in B1; by rewrite B1, String.eqb_refl|].
  destruct (String.eqb_spec (Name col) (configured_string cfg "target")); [tauto|].
  case_bool_decide as B2; [apply O in B2; by rewrite B2, String.eqb_refl|].
  destruct (String.eqb_spec (Name col) (configured_string cfg "ordinal")); [tauto|]. done.
Qed.

(** ** Resolution keeps the meaning *)

Section resolve.
Context `{GoLib}.

Lemma untyped_elements {A} (as_type : option value -> option A) (wrap : A -> value) want path v out :
  (forall x y, as_type (Some x) = Some y -> x = wrap y) ->
  mapM (M := result) (untyped_element as_type want path) (imap pair v) = Ok out -> v = wrap <$> out.
Proof.
  intros W E%mapM_res_Forall2. apply list_eq. intros i. rewrite list_lookup_fmap.
  assert (L := Forall2_length _ _ _ E). rewrite length_imap in L.
  destruct (v !! i) as [x|] eqn:V; [|apply lookup_ge_None in V; by rewrite lookup_ge_None_2 by lia].
  destruct (Forall2_lookup_l _ _ _ i (i, x) E) as (y & -> & U); [by rewrite list_lookup_imap, V|].
  apply of_option_ok in U. cbn. f_equal. by apply W.
Qed.

Lemma resolveArray_value e v inp : resolveArray e v = Ok inp -> array_value v (array_of inp).
Proof.
  unfold resolveArray, resolveUntypedArray. intros E. destruct v; try done.
  - destruct (targetType e);
      apply res_bind_ok in E as (out & U & [= <-]); constructor;
      (eapply untyped_elements; [|exact U]); intros [] ?; by intros [= ->].
  - apply res_bind_ok in E as (? & _ & [= <-]). constructor.
  - apply res_bind_ok in E as (? & _ & [= <-]). constructor.
Qed.

(** The inputs of a message with a non-empty array. *)
Lemma resolveInputs_means e fs inp :
  resolveInputs e fs = Ok inp -> (0 < n inp)%nat ->
  exists v, e_lookupSource e fs = Some v /\ array_value v (array_of inp) /\
    lookupStart e fs = Some (VTime (start inp)) /\ resolveInterval e fs (n inp) = Ok (interval inp).
Proof.
  unfold resolveInputs, resolveStart. intros E N.
  apply res_bind_ok in E as (v & V%of_option_ok & (a & A%resolveArray_value & E)%res_bind_ok). exists v.
  destruct (n a =? 0)%nat eqn:Z; [injection E as ->; apply Nat.eqb_eq in Z; lia|].
  apply res_bind_ok in E as (s & (w & W%of_option_ok & T%of_option_ok)%res_bind_ok & (d & D & [= <-])%res_bind_ok).
  destruct w; by simplify_eq/=.
Qed.
End resolve.
