(* ===== verification/Filter.v ===== *)
(** * Pre-merge row filtering (internal/filter/filter.go) *)
From S2P Require Import Prelude GoInt GoStr GoFloat GoTime Values Qdb.

Inductive Mode : Set := ModeWhitelist | ModeBlacklist.

#[export] Instance Mode_eq_dec : EqDecision Mode.
Proof. solve_decision. Defined.

Record MatchEntry : Type := { Column : string; Value : value }.
Record Spec : Type := { SpecMode : string; Match : list MatchEntry }.

(** Exactly one of the two pointers of Go's [match] struct is non-nil. *)
Inductive expected : Type := I64 (i : Z) | Str (s : string).
Record match_ : Type := { offset : nat; want : expected }.

Record RowFilter : Type := { mode : Mode; matches : list match_ }.

Definition filter_error (fmt : string) (args : list arg) : error :=
  NewInvalidConfigError "filter" fmt args.

Definition parseMode (s : string) : result Mode :=
  if String.eqb s "whitelist" then Ok ModeWhitelist
  else if String.eqb s "blacklist" then Ok ModeBlacklist
  else Err (filter_error "filters.mode must be 'whitelist' or 'blacklist', got %q" [AS s]).

(** The name-to-offset and name-to-type maps; a later column of one name wins. *)
Definition indexColumns (columns : list WriterColumn) : gmap string nat * gmap string TsColumnType :=
  (list_to_map (reverse (imap (fun i col => (TrimSuffix (ColumnName col) nul, i)) columns)),
   list_to_map (reverse ((fun col => (TrimSuffix (ColumnName col) nul, ColumnType col)) <$> columns))).

Definition coerceInt64 (v : value) (column : string) : result Z :=
  match v with
  | VInt n => Ok n
  | VInt64 n => Ok n
  | _ => Err (filter_error "filters.match value for int64 column %q must be an integer, got %T"
                [AS column; AT (Some v)])
  end.

Definition coerceString (v : value) (column : string) : result string :=
  of_option (as_string (Some v))
    (filter_error "filters.match value for string column %q must be a string, got %T"
       [AS column; AT (Some v)]).

Definition resolveMatch (entry : MatchEntry) (offsetByName : gmap string nat)
    (typeByName : gmap string TsColumnType) : result match_ :=
  offset ← of_option (offsetByName !! Column entry)
    (filter_error "filters.match references unknown column %q" [AS (Column entry)]);
  match typeByName !! Column entry with
  | Some TsColumnInt64 => v ← coerceInt64 (Value entry) (Column entry); Ok {| offset := offset; want := I64 v |}
  | Some TsColumnString => v ← coerceString (Value entry) (Column entry); Ok {| offset := offset; want := Str v |}
  | _ => Err (filter_error "filters.match column %q has an unsupported type for filtering (only int64 and string are supported)"
                [AS (Column entry)])
  end.

(** [New]; the nil filter is [None]. *)
Definition New (spec : Spec) (columns : list WriterColumn) (exploded : list string)
    : result (option RowFilter) :=
  if String.eqb (SpecMode spec) EmptyString && bool_decide (length (Match spec) = 0%nat) then Ok None
  else
    mode ← parseMode (SpecMode spec);
    guard_err (bool_decide (length (Match spec) = 0%nat))
      (filter_error "filters.match must be non-empty when filters.mode is set" []);;
    let '(offsetByName, typeByName) := indexColumns columns in
    let explodedSet := list_to_set exploded : gset string in
    matches ← mapM (M := result) (fun entry =>
      guard_err (bool_decide (Column entry ∈ explodedSet))
        (filter_error "filters.match references exploded column %q; filters evaluate row 0 only and cannot filter per-sample columns"
           [AS (Column entry)]);;
      resolveMatch entry offsetByName typeByName) (Match spec);
    Ok (Some {| mode := mode; matches := matches |}).

Definition matchRow0 (table : WriterTable) (m : match_) : bool :=
  match GetData table (offset m) with
  | Ok cd =>
      match want m with
      | I64 i => match GetColumnDataInt64 cd with Some (x :: _) => x =? i | _ => false end
      | Str s => match GetColumnDataString cd with Some (x :: _) => String.eqb x s | _ => false end
      end
  | _ => false
  end.

Definition rowMatches (f : RowFilter) (table : WriterTable) : bool :=
  existsb (matchRow0 table) (matches f).

(** [RowFilter.Apply]; a nil receiver passes everything through. *)
Definition Apply (f : option RowFilter) (tables : list WriterTable) : list WriterTable :=
  match f with
  | None => tables
  | Some f => List.filter (fun t =>
      Bool.eqb (bool_decide (mode f = ModeWhitelist)) (rowMatches f t)) tables
  end.

(** ** Lemmas *)

Lemma Apply_sublist f tables : Apply f tables `sublist_of` tables.
Proof.
  destruct f as [f|]; cbn; [|done]. induction tables as [|t tables IH]; cbn; [done|].
  case_match; [by apply sublist_skip|by apply sublist_cons].
Qed.

Lemma Apply_Forall f (P : WriterTable -> Prop) tables : Forall P tables -> Forall P (Apply f tables).
Proof.
  intros F. destruct f as [f|]; [|done]. apply Forall_forall. intros t I%list_elem_of_In%filter_In.
  rewrite Forall_forall in F. apply F, list_elem_of_In, I.
Qed.

(** A column is indexed under its trimmed name, at its offset. *)
Lemma indexColumns_lookup columns i col :
  NoDup ((fun c => TrimSuffix (ColumnName c) nul) <$> columns) ->
  columns !! i = Some col ->
  (indexColumns columns).1 !! TrimSuffix (ColumnName col) nul = Some i /\
  (indexColumns columns).2 !! TrimSuffix (ColumnName col) nul = Some (ColumnType col).
Proof.
  intros ND L. unfold indexColumns; cbn. split; apply elem_of_list_to_map_1.
  - rewrite fmap_reverse, reverse_Permutation, fmap_imap. cbn.
    replace (imap _ columns) with ((fun c => TrimSuffix (ColumnName c) nul) <$> columns); [done|].
    clear. apply list_eq. intros i. rewrite list_lookup_fmap, list_lookup_imap. by destruct (columns !! i).
  - rewrite elem_of_reverse. apply elem_of_lookup_imap. eauto.
  - rewrite fmap_reverse, reverse_Permutation, <- list_fmap_compose. done.
  - rewrite elem_of_reverse. apply list_elem_of_fmap. exists col. split; [done|]. by eapply list_elem_of_lookup_2.
Qed.

(** Conversely, an indexed name is a column's. *)
Lemma indexColumns_inv columns name i t :
  (indexColumns columns).1 !! name = Some i -> (indexColumns columns).2 !! name = Some t ->
  NoDup ((fun c => TrimSuffix (ColumnName c) nul) <$> columns) ->
  exists col, columns !! i = Some col /\ TrimSuffix (ColumnName col) nul = name /\ ColumnType col = t.
Proof.
  intros O T ND. unfold indexColumns in O, T. cbn in O, T.
  apply elem_of_list_to_map_2 in O. rewrite elem_of_reverse in O.
  apply elem_of_lookup_imap in O as (j & col & [= -> ->] & L).
  destruct (indexColumns_lookup columns j col ND L) as [_ T2]. unfold indexColumns in T2. cbn in T2.
  rewrite T in T2. injection T2 as ->. eauto.
Qed.

(** What a built filter's predicates refer to. *)
Lemma New_matches spec columns exploded f :
  NoDup ((fun c => TrimSuffix (ColumnName c) nul) <$> columns) ->
  New spec columns exploded = Ok (Some f) ->
  Forall2 (fun entry m =>
    (Column entry ∉ exploded) /\
    exists col, columns !! offset m = Some col /\ TrimSuffix (ColumnName col) nul = Column entry /\
      match want m with
      | I64 z => ColumnType col = TsColumnInt64 /\ (Value entry = VInt z \/ Value entry = VInt64 z)
      | Str s => ColumnType col = TsColumnString /\ Value entry = VString s
      end) (Match spec) (matches f).
Proof.
  intros ND E. unfold New in E. destruct (_ && _); [done|].
  apply res_bind_ok in E as (md & _ & (? & _ & E)%res_bind_ok).
  pose proof (indexColumns_inv columns) as Inv. destruct (indexColumns columns) as [os ts]. cbn in Inv.
  apply res_bind_ok in E as (ms & E & [= <-]). cbn. apply mapM_res_Forall2 in E.
  eapply Forall2_impl; [exact E|]. cbn. intros entry m H.
  apply res_bind_ok in H as (? & G & (o & O & R)%res_bind_ok).
  apply guard_err_ok in G. apply bool_decide_eq_false in G. rewrite elem_of_list_to_set in G.
  apply of_option_ok in O. split; [done|].
  destruct (ts !! Column entry) as [t|] eqn:T; [|done].
  destruct (Inv _ _ _ O T ND) as (col & C & N & Ty). exists col.
  destruct t; try done; apply res_bind_ok in R as (v & V & [= <-]); cbn; split_and!; try done.
  - unfold coerceInt64 in V. destruct (Value entry); simplify_eq; auto.
  - unfold coerceString in V. apply of_option_ok in V. destruct (Value entry); simplify_eq/=. done.
Qed.

(** ** The specification: equality on the named column of the first row *)

(** The first value of a column, as a pipeline value. *)
Definition first_cell (cd : ColumnData) : option value :=
  match cd with
  | CDInt64 xs => VInt64 <$> head xs
  | CDDouble xs => VFloat64 <$> head xs
  | CDString xs => VString <$> head xs
  | CDBlob xs => VBytes <$> head xs
  | CDTimestamp xs => VTime <$> head xs
  end.

Definition row0 (columns : list WriterColumn) (t : WriterTable) (name : string) : option value :=
  '(i, _) ← list_find (fun col => TrimSuffix (ColumnName col) nul = name) columns;
  cd ← data t !! i;
  first_cell cd.

(** A YAML integer compares with an int64 cell, a YAML string with a string cell. *)
Definition entry_holds (columns : list WriterColumn) (t : WriterTable) (e : MatchEntry) : bool :=
  match row0 columns t (Column e), Value e with
  | Some (VInt64 x), (VInt y | VInt64 y) => x =? y
  | Some (VString a), VString b => String.eqb a b
  | _, _ => false
  end.

Definition spec_keeps (spec : Spec) (columns : list WriterColumn) (t : WriterTable) : bool :=
  if String.eqb (SpecMode spec) "whitelist" then existsb (entry_holds columns t) (Match spec)
  else if String.eqb (SpecMode spec) "blacklist" then negb (existsb (entry_holds columns t) (Match spec))
  else true.

Lemma list_find_column columns i col :
  NoDup ((fun c => TrimSuffix (ColumnName c) nul) <$> columns) -> columns !! i = Some col ->
  list_find (fun c => TrimSuffix (ColumnName c) nul = TrimSuffix (ColumnName col) nul) columns = Some (i, col).
Proof.
  intros ND L. apply list_find_Some. split_and!; [done..|]. intros j y J Lt Eq.
  assert (j = i); [|lia]. eapply (NoDup_lookup _ j i); [exact ND|..]; rewrite list_lookup_fmap;
    [rewrite J|rewrite L]; cbn; [done|]. by rewrite Eq.
Qed.

Lemma matchRow0_entry columns t e m col :
  NoDup ((fun c => TrimSuffix (ColumnName c) nul) <$> columns) ->
  rectangular columns t -> columns !! offset m = Some col -> TrimSuffix (ColumnName col) nul = Column e ->
  match want m with
  | I64 z => ColumnType col = TsColumnInt64 /\ (Value e = VInt z \/ Value e = VInt64 z)
  | Str s => ColumnType col = TsColumnString /\ Value e = VString s
  end ->
  matchRow0 t m = entry_holds columns t e.
Proof.
  intros ND (_ & _ & R) C N W. unfold matchRow0, entry_holds, row0, GetData.
  rewrite <- N, (list_find_column _ _ _ ND C). cbn [mbind option_bind].
  destruct (Forall2_lookup_l _ _ _ _ _ R C) as (cd & D & V & _). rewrite D. cbn [mbind option_bind].
  destruct (want m) as [z|s]; destruct W as [T W]; rewrite T in V; destruct cd as [xs|xs|xs|xs|xs]; try done;
    cbn; destruct xs; cbn; first [done | by destruct W as [-> | ->] | by rewrite W].
Qed.

(** ** Property *)

(** C20. The compiled filter is the configured one: on tables of the parser's
    schema, Apply keeps exactly the tables whose first row satisfies at least
    one (whitelist) or none (blacklist) of the "column equals value" entries,
    in their order; with no filter configured everything passes; and no
    predicate of an accepted filter reads a per-sample (exploded) column. *)
Theorem filter_exact spec columns exploded f tables :
  NoDup ((fun c => TrimSuffix (ColumnName c) nul) <$> columns) ->
  Forall (rectangular columns) tables ->
  New spec columns exploded = Ok f ->
  Apply f tables = List.filter (spec_keeps spec columns) tables /\
  (is_Some f -> Forall (fun e => Column e ∉ exploded) (Match spec)).
Proof.
  intros ND R E. destruct f as [f|].
  - pose proof (New_matches _ _ _ _ ND E) as M.
    assert (Md : mode f = ModeWhitelist /\ SpecMode spec = "whitelist" \/
                 mode f = ModeBlacklist /\ SpecMode spec = "blacklist").
    { unfold New in E. destruct (_ && _); [done|]. apply res_bind_ok in E as (md & P & (? & _ & E)%res_bind_ok).
      destruct (indexColumns columns). apply res_bind_ok in E as (ms & _ & [= <-]). cbn.
      unfold parseMode in P. repeat case_match; simplify_eq; bools; auto. }
    split.
    + cbn. apply filter_ext_in. intros t I%list_elem_of_In. rewrite Forall_forall in R.
      assert (X : rowMatches f t = existsb (entry_holds columns t) (Match spec)).
      { unfold rowMatches. induction M as [|e m es ms (_ & col & C & N & W) M IH]; cbn; [done|].
        rewrite (matchRow0_entry columns t e m col) by auto. f_equal. apply IH. }
      rewrite X. unfold spec_keeps. destruct Md as [[-> ->]|[-> ->]]; cbn; by destruct (existsb _ _).
    + intros _. apply Forall_forall. intros e I. apply list_elem_of_lookup in I as [i I].
      by destruct (Forall2_lookup_l _ _ _ _ _ M I) as (m & _ & ? & _).
  - assert (SpecMode spec = EmptyString) as S.
    { unfold New in E. destruct (_ && _) eqn:Q; [by bools|].
      apply res_bind_ok in E as (md & P & (? & _ & E)%res_bind_ok).
      destruct (indexColumns columns). by apply res_bind_ok in E as (ms & _ & ?). }
    split; [|by intros []]. cbn. unfold spec_keeps. rewrite S. cbn.
    clear. induction tables as [|t l IH]; cbn; [done|]. by rewrite <- IH.
Qed.
