(* ===== verification/Parser.v ===== *)
(** * The parser interface (parser.go) and the no-op parser (noop.go)

    A parser turns a message into a classified result.  [LawfulParser] is what
    the worker relies on: it never fails or panics on a message, an unusable
    message yields no table, and every table has the columns [cols] and is
    rectangular. *)
From S2P Require Import Prelude GoInt GoStr GoFloat GoTime Values Qdb FieldPath Convert Steps.

Inductive Outcome : Set := OutcomeOK | OutcomePartial | OutcomeUnusable.

#[export] Instance Outcome_eq_dec : EqDecision Outcome.
Proof. solve_decision. Defined.

Record ParseResult : Type := {
  Tables : list WriterTable; Outcome_of : Outcome; ParseErrors : list error }.

(** [now] is the value time.Now() returns during the call. *)
Definition Parser : Type := gotime -> option Msg -> result ParseResult.

Class LawfulParser (parse : Parser) (cols : list WriterColumn) : Prop := {
  parse_total now msg : exists r, parse now (Some msg) = Ok r;
  parse_unusable now msg r :
    parse now (Some msg) = Ok r -> Outcome_of r = OutcomeUnusable -> Tables r = [];
  parse_rectangular now msg r :
    parse now (Some msg) = Ok r -> Forall (rectangular cols) (Tables r);
}.

(** NoopParser.Parse. *)
Definition NoopParse : Parser := fun _ msg =>
  match msg with
  | None => Err (NewParsingFailedError "noop_parser" (Errorf "nil message" []))
  | Some msg =>
      if bool_decide (MsgData msg = []) then
        Ok {| Tables := []; Outcome_of := OutcomeUnusable;
              ParseErrors := [NewParsingFailedError "noop_parser" (Errorf "empty message data" [])] |}
      else Ok {| Tables := []; Outcome_of := OutcomeOK; ParseErrors := [] |}
  end.

#[export] Instance NoopParse_lawful cols : LawfulParser NoopParse cols.
Proof.
  split; intros now msg; unfold NoopParse.
  - case_bool_decide; eauto.
  - intros r. case_bool_decide; by intros [= <-].
  - intros r. case_bool_decide; intros [= <-]; constructor.
Qed.
