(* ===== verification/Yaml.v ===== *)
(** * The YAML parser (yaml.go)

    Compilation of a configuration into a parser, and the life of one message
    in it: a fresh state, the pipeline, the structural floor, and the table of
    one row or, for explode configurations, of N rows. *)
From S2P Require Import Prelude GoInt GoStr GoFloat GoTime Values Qdb FieldPath Convert Steps Compute Subject.
From S2P Require Import MapEntry Unpack Proto Schema Explode Exploded Filter Parser.
From Stdlib.Strings Require Import Byte.

Record YAMLConfig : Type := {
  Compression : string;
  Columns : list ColumnSchema;        (* output.columns *)
  Transformations : list TransformSpec;
  Filters : Filter.Spec }.

Record compiledStep : Type := { fn : TransformationStep; name : string; structural : bool }.

Record YAMLParser : Type := {
  config : YAMLConfig; pipeline : list compiledStep; hasIndexStep : bool;
  explode : option explodeSpec; columnTypes : list TsColumnType; columns : list WriterColumn;
  rowFilter : option RowFilter }.

Section yaml.
  Context `{GoLib, MapIter, ProtoLib}.

(** ** Compilation *)

Definition stepRegistry (name : string) : option (fields -> result TransformationStep) :=
  if String.eqb name "decompress" then Some makeDecompressStep
  else if String.eqb name "parse_json" then Some makeParseJSONStep
  else if String.eqb name "parse_protobuf" then Some makeParseProtobufStep
  else if String.eqb name "extract_index" then Some makeExtractIndexStep
  else if String.eqb name "extract_timestamp" then Some makeExtractTimestampStep
  else if String.eqb name "extract_field" then Some makeExtractFieldStep
  else if String.eqb name "extract_map_entry" then Some makeExtractMapEntryStep
  else if String.eqb name "extract_subject" then Some makeExtractSubjectStep
  else if String.eqb name "extract_table" then Some makeExtractTableStep
  else if String.eqb name "compute_field" then Some makeComputeFieldStep
  else if String.eqb name "safe_parse_number" then Some makeSafeParseNumberStep
  else if String.eqb name "unpack" then Some makeUnpackStep
  else None.

Definition compileStep (spec : TransformSpec) : result compiledStep :=
  let stepName := GetStepName spec in
  factory ← of_option (stepRegistry stepName)
    (config_error "unknown transformation step: %s" [AS stepName]);
  step ← map_err (fun err => config_error "failed to create step '%s': %v" [AS stepName; AE err])
    (factory (config_of spec));
  Ok {| fn := step; name := stepName; structural := isStructuralStep stepName |}.

Definition compilePipeline (specs : list TransformSpec) : result (list compiledStep) :=
  guard_err (bool_decide (length specs = 0%nat)) (config_error "empty transformation pipeline" []);;
  guard_err (negb (hasStep specs "extract_table"))
    (config_error "transformation pipeline must include an extract_table step" []);;
  mapM (M := result) compileStep specs.

Definition NewYAMLParserFromConfig (config : YAMLConfig) : result YAMLParser :=
  validateSchema (Columns config);;
  '(steps, explodeCfg) ← splitExplodeSpec (Transformations config);
  pipeline ← compilePipeline steps;
  '(columns, columnTypes) ← createColumnMapping (Columns config);
  validateColumnSynchronization (Columns config) columns columnTypes;;
  explode ← compileExplodeSpec explodeCfg steps (Columns config) columnTypes;
  validateArrayBindings steps explode (Columns config);;
  rowFilter ← Filter.New (Filters config) columns (explodedColumnNames explode);
  Ok {| config := config; pipeline := pipeline; hasIndexStep := hasStep steps "extract_index";
        explode := explode; columns := columns; columnTypes := columnTypes; rowFilter := rowFilter |}.

(** ** One message *)

(** newParseState, with the message and its payload attached as Parse does;
    the payload is not nil, as Parse has rejected empty ones.  The 1024-byte
    capacity of blob buffers is not observable. *)
Definition newParseState (p : YAMLParser) (msg : Msg) : ParseState :=
  let columnsLen := length (columns p) in
  {| Message := Some msg; Data := Some (MsgData msg); Fields := ∅; Errors := [];
     indexBuf := [zero_time]; doubleVals := replicate columnsLen (SpecFloat.S754_zero false);
     blobVals := replicate columnsLen []; int64Vals := replicate columnsLen 0;
     stringVals := replicate columnsLen EmptyString; timestampVals := replicate columnsLen zero_time |}.

(** runPipeline over the remaining steps: the state, and false when a
    structural step failed. *)
Fixpoint run_steps (steps : list compiledStep) (state : ParseState) : result (ParseState * bool) :=
  match steps with
  | [] => Ok (state, true)
  | step :: rest =>
      match fn step state with
      | Ok state' => run_steps rest state'
      | Err err =>
          let state' := add_Error state err in
          if structural step then Ok (state', false) else run_steps rest state'
      | Panic => Panic
      end
  end.
Definition runPipeline (p : YAMLParser) (state : ParseState) : result (ParseState * bool) :=
  run_steps (pipeline p) state.

Definition checkStructuralFloor (p : YAMLParser) (state : ParseState) : result string :=
  guard_err (hasIndexStep p && negb (bool_decide (is_Some (as_time (Fields state !! "$timestamp")))))
    (parse_error "extract_index step configured but produced no $timestamp" []);;
  tableNameField ← of_option (Fields state !! "$table")
    (parse_error "table name not set - extract_table step is required" []);
  tableName ← of_option (as_string (Some tableNameField))
    (parse_error "table name must be a string, got %T" [AT (Some tableNameField)]);
  let trimmed := TrimSuffix tableName nul in
  validateTableName trimmed;;
  Ok (if HasSuffix tableName nul then tableName else trimmed +:+ nul).

(** The column name without its terminator. *)
Definition strip_nul (fieldName : string) : string :=
  if HasSuffix fieldName nul then slice_string fieldName 0 (len fieldName - 1) else fieldName.

Definition overflow_error (i len : nat) : error :=
  parse_error "buffer overflow: column index %d >= buffer length %d" [AZ (Z.of_nat i); AZ (Z.of_nat len)].

(** The body of createWriterTable's loop for column [i].  Each branch checks
    the bound of its buffer, stores the value or its null sentinel at [i] and
    reads it back into a one-element column; the buffers belong to this call,
    so the stores are not kept. *)
Definition setColumn (p : YAMLParser) (state : ParseState) (table : WriterTable) (i : nat)
    : result WriterTable :=
  match columns p !! i, columnTypes p !! i with
  | Some col, Some t =>
      let value := Fields state !! strip_nul (ColumnName col) in
      let bounded (l : nat) (cd : ColumnData) :=
        guard_err (l <=? i)%nat (overflow_error i l);;
        map_err (fun err => NewParsingFailedError "yaml_parser" err) (SetData table i cd) in
      match t with
      | TsColumnDouble =>
          bounded (length (doubleVals state)) (CDDouble [default f64_nan (as_float64 value)])
      | TsColumnBlob =>
          bounded (length (blobVals state)) (CDBlob [default [] (as_bytes value)])
      | TsColumnInt64 =>
          bounded (length (int64Vals state)) (CDInt64 [default Int64Undefined (as_int64 value)])
      | TsColumnString | TsColumnSymbol =>
          bounded (length (stringVals state)) (CDString [default EmptyString (as_string value)])
      | TsColumnTimestamp =>
          bounded (length (timestampVals state)) (CDTimestamp [default MinTimespec (as_time value)])
      | TsColumnUninitialized => Ok table
      end
  | _, _ => Panic
  end.

Definition createWriterTable (p : YAMLParser) (now : gotime) (state : ParseState) (tableName : string)
    : result WriterTable :=
  let ts := default now (as_time (Fields state !! "$timestamp")) in
  match indexBuf state with
  | [] => Err (parse_error "indexBuf is empty" [])
  | _ :: rest =>
      table ← map_err (fun err => NewParsingFailedError "yaml_parser" err)
        (NewWriterTable tableName (columns p));
      let table := SetIndex table (ts :: rest) in
      fold_res (setColumn p state) (seq 0 (length (columns p))) table
  end.

Definition outcome_of_errors (errors : list error) : Outcome :=
  if bool_decide (length errors = 0%nat) then OutcomeOK else OutcomePartial.

Definition parseExploded (p : YAMLParser) (e : explodeSpec) (state : ParseState) (tableName : string)
    : result ParseResult :=
  match resolveInputs e (Fields state) with
  | Panic => Panic
  | Err err =>
      Ok {| Tables := []; Outcome_of := OutcomeUnusable;
            ParseErrors := Errors state ++ [NewParsingFailedError "yaml_parser" err] |}
  | Ok inp =>
      let outcome := outcome_of_errors (Errors state) in
      if (n inp =? 0)%nat then
        Ok {| Tables := []; Outcome_of := outcome; ParseErrors := Errors state |}
      else
        table ← createExplodedWriterTable e (columns p) (columnTypes p) (Fields state) tableName inp;
        Ok {| Tables := [table]; Outcome_of := outcome; ParseErrors := Errors state |}
  end.

Definition Parse (p : YAMLParser) : Parser := fun now msg =>
  match msg with
  | None => Err (parse_error "nil message" [])
  | Some msg =>
      if bool_decide (length (MsgData msg) = 0%nat) then
        Ok {| Tables := []; Outcome_of := OutcomeUnusable;
              ParseErrors := [parse_error "empty message data" []] |}
      else
        '(state, usable) ← runPipeline p (newParseState p msg);
        if negb usable then
          Ok {| Tables := []; Outcome_of := OutcomeUnusable; ParseErrors := Errors state |}
        else
          match checkStructuralFloor p state with
          | Panic => Panic
          | Err floorErr =>
              Ok {| Tables := []; Outcome_of := OutcomeUnusable; ParseErrors := Errors state ++ [floorErr] |}
          | Ok tableName =>
              match explode p with
              | Some e => parseExploded p e state tableName
              | None =>
                  table ← createWriterTable p now state tableName;
                  Ok {| Tables := [table]; Outcome_of := outcome_of_errors (Errors state);
                        ParseErrors := Errors state |}
              end
          end
  end.

End yaml.

(** ** What a compiled parser satisfies *)

Record parser_ok (p : YAMLParser) : Prop := {
  ok_columns : columns p = writer_column <$> Columns (config p);
  ok_names : NoDup (Name <$> Columns (config p));
  ok_mapping : Forall2 (fun col t => ColumnType col = writerDataType t /\ t <> TsColumnUninitialized)
    (columns p) (columnTypes p);
  ok_steps : Forall (fun s => framed_step (fn s)) (pipeline p);
  ok_explode e : explode p = Some e -> explode_bound (columnTypes p) e /\ hasIndexStep p = false;
}.

(** No step of its pipeline panics. *)
Definition steps_total (p : YAMLParser) : Prop := Forall (fun s => total_step (fn s)) (pipeline p).

(** The schemas of its parse_protobuf steps have no google.protobuf.Timestamp of
    their own. *)
Definition standard_timestamps `{GoLib, ProtoLib} (c : YAMLConfig) : Prop :=
  Forall (fun spec => GetStepName spec = "parse_protobuf" -> standard_schema (config_of spec)) (Transformations c).

Lemma strip_nul_app s : strip_nul (s +:+ nul) = s.
Proof.
  unfold strip_nul. rewrite HasSuffix_app, len_app. change (len nul) with 1.
  replace (len s + 1 - 1) with (len s) by lia. apply slice_string_prefix.
Qed.

Section compiled.
Context `{GoLibLaws, MapIter, ProtoLibLaws}.

Lemma stepRegistry_framed name factory config f :
  stepRegistry name = Some factory -> factory config = Ok f -> framed_step f.
Proof.
  unfold stepRegistry. intros R E. repeat case_match; simplify_eq; try (by eapply makeParseProtobufStep_framed);
    apply good_step_framed;
    eauto using makeDecompressStep_good, makeParseJSONStep_good, makeExtractIndexStep_good, makeExtractTimestampStep_good,
      makeExtractFieldStep_good, makeExtractMapEntryStep_good, makeExtractSubjectStep_good, makeExtractTableStep_good,
      makeComputeFieldStep_good, makeSafeParseNumberStep_good, makeUnpackStep_good.
Qed.

Lemma stepRegistry_total name factory config f :
  (name = "parse_protobuf" -> standard_schema config) ->
  stepRegistry name = Some factory -> factory config = Ok f -> total_step f.
Proof.
  unfold stepRegistry. intros S R E.
  destruct (String.eqb_spec name "parse_protobuf") as [->|_].
  { cbn in R. simplify_eq. eapply makeParseProtobufStep_total; [by apply S|done]. }
  repeat case_match; simplify_eq; apply good_step_total;
    eauto using makeDecompressStep_good, makeParseJSONStep_good, makeExtractIndexStep_good, makeExtractTimestampStep_good,
      makeExtractFieldStep_good, makeExtractMapEntryStep_good, makeExtractSubjectStep_good, makeExtractTableStep_good,
      makeComputeFieldStep_good, makeSafeParseNumberStep_good, makeUnpackStep_good.
Qed.

(** Each step of a pipeline is compiled from its specification. *)
Lemma compilePipeline_steps specs steps :
  compilePipeline specs = Ok steps -> Forall2 (fun spec s => compileStep spec = Ok s) specs steps.
Proof. unfold compilePipeline. intros E. by apply res_bind_ok in E as (? & _ & (? & _ & E%mapM_res_Forall2)%res_bind_ok). Qed.

Lemma compileStep_cases spec s :
  compileStep spec = Ok s ->
  exists f, stepRegistry (GetStepName spec) = Some f /\ f (config_of spec) = Ok (fn s).
Proof.
  unfold compileStep. intros C. apply res_bind_ok in C as (f & R%of_option_ok & (g & M & [= <-])%res_bind_ok).
  apply map_err_ok in M. by exists f.
Qed.

Lemma compilePipeline_framed specs steps :
  compilePipeline specs = Ok steps -> Forall (fun s => framed_step (fn s)) steps.
Proof.
  intros E%compilePipeline_steps. eapply Forall2_Forall_r; [exact E|]. apply Forall_true.
  intros spec s (f & R & M)%compileStep_cases. by eapply stepRegistry_framed.
Qed.

Lemma compilePipeline_total specs steps :
  Forall (fun spec => GetStepName spec = "parse_protobuf" -> standard_schema (config_of spec)) specs ->
  compilePipeline specs = Ok steps -> Forall (fun s => total_step (fn s)) steps.
Proof.
  intros S E%compilePipeline_steps. eapply Forall2_Forall_r; [exact E|]. eapply Forall_impl; [exact S|].
  intros spec St s (f & R & M)%compileStep_cases. exact (stepRegistry_total _ _ _ _ St R M).
Qed.

Lemma column_mapping_ok cols :
  Forall (fun c => isValidColumnType (Type_ c) = true) cols ->
  Forall2 (fun col t => ColumnType col = writerDataType t /\ t <> TsColumnUninitialized)
    (writer_column <$> cols) ((fun col => stringToColumnType (Type_ col)) <$> cols).
Proof.
  induction 1 as [|c cols V F IH]; cbn; constructor; [|done].
  split; [done|]. by apply isValidColumnType_initialized.
Qed.

Lemma NewYAMLParserFromConfig_ok c p : NewYAMLParserFromConfig c = Ok p -> parser_ok p.
Proof.
  unfold NewYAMLParserFromConfig, validateSchema, createColumnMapping. intros E.
  apply res_bind_ok in E as (? & V & ([steps ex] & Sp & (pl & P & (? & [= <-] & E)%res_bind_ok)%res_bind_ok)%res_bind_ok).
  apply res_bind_ok in V as (? & _ & [ND F]%validate_columns_ok).
  apply res_bind_ok in E as (? & _ & (e & X & (? & _ & (rf & _ & [= <-])%res_bind_ok)%res_bind_ok)%res_bind_ok).
  split; cbn; try done.
  - apply column_mapping_ok. eapply Forall_impl; [exact F|]. naive_solver.
  - by apply compilePipeline_framed in P.
  - intros e' ->. apply compileExplodeSpec_bound in X. naive_solver.
Qed.

Lemma splitExplodeSpec_scalar specs steps ex (P : TransformSpec -> Prop) :
  splitExplodeSpec specs = Ok (steps, ex) -> Forall P specs -> Forall P steps.
Proof.
  unfold splitExplodeSpec. intros E F. destruct (_ =? 0)%nat; [by injection E as <- <-|].
  apply res_bind_ok in E as (? & _ & E). destruct (last specs); [|done].
  apply res_bind_ok in E as (? & _ & [= <- <-]). by apply Forall_take.
Qed.

Lemma NewYAMLParserFromConfig_total c p :
  standard_timestamps c -> NewYAMLParserFromConfig c = Ok p -> steps_total p.
Proof.
  unfold NewYAMLParserFromConfig, createColumnMapping. intros S E.
  apply res_bind_ok in E as (? & V & ([steps ex] & Sp & (pl & P & (? & [= <-] & E)%res_bind_ok)%res_bind_ok)%res_bind_ok).
  apply res_bind_ok in E as (? & _ & (e & X & (? & _ & (rf & _ & [= <-])%res_bind_ok)%res_bind_ok)%res_bind_ok).
  eapply compilePipeline_total; [|exact P]. by eapply splitExplodeSpec_scalar.
Qed.

(** ** The pipeline *)

(** The state after the pipeline keeps the buffers of the fresh state. *)
Definition same_buffers (st st' : ParseState) : Prop :=
  Message st' = Message st /\ indexBuf st' = indexBuf st /\ doubleVals st' = doubleVals st /\
  blobVals st' = blobVals st /\ int64Vals st' = int64Vals st /\ stringVals st' = stringVals st /\
  timestampVals st' = timestampVals st.

Lemma run_steps_framed steps st st' b :
  Forall (fun s => framed_step (fn s)) steps -> run_steps steps st = Ok (st', b) ->
  same_buffers st st' /\ (exists new, Errors st' = Errors st ++ new /\ (b = false -> new <> [])).
Proof.
  intros F. revert st. induction F as [|s steps G F IH]; intros st E; cbn [run_steps] in E.
  - injection E as <- <-. split; [by split_and!|]. exists []. by rewrite app_nil_r.
  - destruct (fn s st) as [st1|err|] eqn:S; [| |done].
    + destruct (updates_frame _ _ (G st st1 S)) as (? & E1 & ?). destruct (IH st1 E) as (B & new & En & Eb). split.
      * unfold same_buffers in *. destruct_and!. repeat split; congruence.
      * exists new. by rewrite En, E1.
    + destruct (structural s).
      * injection E as <- <-. split; [by split_and!|]. by exists [err].
      * destruct (IH (add_Error st err) E) as (B & new & En & Eb). split; [exact B|]. exists (err :: new). split; [|done].
        rewrite En. cbn. by rewrite <- app_assoc.
Qed.

Lemma run_steps_total steps st :
  Forall (fun s => total_step (fn s)) steps -> exists r, run_steps steps st = Ok r.
Proof.
  intros F. revert st. induction F as [|s steps G F IH]; intros st; cbn [run_steps]; [by eexists|].
  specialize (G st). destruct (fn s st) as [st1|err|] eqn:S; [done| |by destruct G]. destruct (structural s); [by eexists|done].
Qed.

Lemma checkStructuralFloor_no_panic p st : no_panic (checkStructuralFloor p st).
Proof.
  unfold checkStructuralFloor. no_panic_tac. apply validateTableName_no_panic.
Qed.

(** ** The one-row table *)

(** The value of column [i]: the field of its name when it has the column's
    type, the null sentinel of the type otherwise. *)
Definition scalar_cell (p : YAMLParser) (fs : fields) (i : nat) : ColumnData :=
  let v := (columns p !! i) ≫= fun col => fs !! strip_nul (ColumnName col) in
  match default TsColumnBlob (columnTypes p !! i) with
  | TsColumnDouble => CDDouble [default f64_nan (as_float64 v)]
  | TsColumnInt64 => CDInt64 [default Int64Undefined (as_int64 v)]
  | TsColumnTimestamp => CDTimestamp [default MinTimespec (as_time v)]
  | TsColumnString | TsColumnSymbol => CDString [default EmptyString (as_string v)]
  | _ => CDBlob [default [] (as_bytes v)]
  end.

Lemma scalar_cell_typed p fs i col :
  parser_ok p -> columns p !! i = Some col ->
  ValueType (scalar_cell p fs i) = AsValueType (ColumnType col) /\
  cd_Length (scalar_cell p fs i) = 1%nat.
Proof.
  intros O C. destruct (Forall2_lookup_l _ _ _ _ _ (ok_mapping p O) C) as (t & T & E & I).
  rewrite E, writerDataType_value. unfold scalar_cell. rewrite C, T. by destruct t.
Qed.

(** The buffers of a state have one slot per column. *)
Definition buffers_fit (p : YAMLParser) (st : ParseState) : Prop :=
  let l := length (columns p) in
  length (indexBuf st) = 1%nat /\ length (doubleVals st) = l /\ length (blobVals st) = l /\
  length (int64Vals st) = l /\ length (stringVals st) = l /\ length (timestampVals st) = l.

Lemma newParseState_fit p msg st' : same_buffers (newParseState p msg) st' -> buffers_fit p st'.
Proof.
  intros (_ & E1 & E2 & E3 & E4 & E5 & E6). unfold buffers_fit.
  rewrite E1, E2, E3, E4, E5, E6. cbn. by rewrite !length_replicate.
Qed.

Lemma setColumn_ok p st t i :
  parser_ok p -> buffers_fit p st -> (i < length (columns p))%nat -> columnInfoByOffset t = columns p ->
  setColumn p st t i = Ok (set_data t (<[i := scalar_cell p (Fields st) i]> (data t))).
Proof.
  intros O (_ & B1 & B2 & B3 & B4 & B5) L Ct. destruct (lookup_lt_is_Some_2 _ _ L) as [col C].
  pose proof (scalar_cell_typed p (Fields st) i col O C) as [V _].
  destruct (Forall2_lookup_l _ _ _ _ _ (ok_mapping p O) C) as (ty & T & E & I).
  unfold setColumn, scalar_cell in *. rewrite C, T in *. cbn [default option_bind mbind] in *.
  assert (G : (length (columns p) <=? i)%nat = false) by (apply Nat.leb_gt; lia).
  rewrite <- Ct in C.
  destruct ty; try done; rewrite ?B1, ?B2, ?B3, ?B4, ?B5, G; cbn [guard_err mbind res_bind];
    by rewrite (SetData_ok _ _ col).
Qed.

Lemma createWriterTable_ok p now st name :
  parser_ok p -> buffers_fit p st ->
  exists t, createWriterTable p now st name = Ok t /\ rectangular (columns p) t /\
    TableName t = name /\ rowCount t = 1%nat /\
    idx t = [timespec (default now (as_time (Fields st !! "$timestamp")))] /\
    data t = scalar_cell p (Fields st) <$> seq 0 (length (columns p)).
Proof.
  intros O B. unfold createWriterTable.
  destruct (NewWriterTable_ok name (columns p)) as (t0 & -> & N0 & C0 & L0).
  { apply Forall_lookup. intros i col C.
    destruct (Forall2_lookup_l _ _ _ _ _ (ok_mapping p O) C) as (t & _ & -> & I). by destruct t. }
  destruct (indexBuf st) as [|b rest] eqn:Ib; [destruct B as [B _]; by rewrite Ib in B|].
  assert (rest = []) as -> by (destruct B as [B _]; rewrite Ib in B; by destruct rest).
  cbn [map_err mbind res_bind]. set (t1 := SetIndex t0 _).
  eexists. split; [|split; [apply (fill_rectangular _ (scalar_cell p (Fields st)) t1)|]].
  - apply (fill_columns _ (scalar_cell p (Fields st))); [done..|].
    intros t i Hi Ct. by apply setColumn_ok.
  - done.
  - done.
  - intros i col C. by apply scalar_cell_typed.
  - split_and!; done.
Qed.
End compiled.

(** ** The result of one message *)

(** What the batch writer needs of a table name: the null terminator, and a
    non-empty name before it that starts with an ASCII letter or digit. *)
Definition table_name_ok (name : string) : Prop :=
  HasSuffix name nul = true /\ validateTableName (TrimSuffix name nul) = Ok tt.

Section results.
Context `{GoLibLaws, MapIter, ProtoLibLaws}.

Lemma checkStructuralFloor_ok p st name :
  checkStructuralFloor p st = Ok name ->
  table_name_ok name /\ (hasIndexStep p = true -> is_Some (as_time (Fields st !! "$timestamp"))).
Proof.
  unfold checkStructuralFloor. intros E.
  apply res_bind_ok in E as (? & G & (f & _ & (t & _ & (u & V & [= <-])%res_bind_ok)%res_bind_ok)%res_bind_ok).
  destruct u. apply guard_err_ok in G. split.
  - destruct (HasSuffix t nul) eqn:S; [by split|]. split; [apply HasSuffix_app|]. by rewrite TrimSuffix_app.
  - intros I. rewrite I in G. cbn in G. bools. by apply bool_decide_eq_true in G.
Qed.

(** The cases of Parse on a message: rejected before the table, or a table
    built from the final state of the pipeline. *)
Inductive parsed (p : YAMLParser) (now : gotime) (msg : Msg) : ParseResult -> Prop :=
  | parsed_unusable errs : errs <> [] ->
      parsed p now msg {| Tables := []; Outcome_of := OutcomeUnusable; ParseErrors := errs |}
  | parsed_empty st e :
      explode p = Some e ->
      runPipeline p (newParseState p msg) = Ok (st, true) ->
      parsed p now msg {| Tables := []; Outcome_of := outcome_of_errors (Errors st); ParseErrors := Errors st |}
  | parsed_row st name t :
      explode p = None ->
      runPipeline p (newParseState p msg) = Ok (st, true) -> checkStructuralFloor p st = Ok name ->
      rectangular (columns p) t -> TableName t = name -> rowCount t = 1%nat ->
      idx t = [timespec (default now (as_time (Fields st !! "$timestamp")))] ->
      data t = scalar_cell p (Fields st) <$> seq 0 (length (columns p)) ->
      parsed p now msg {| Tables := [t]; Outcome_of := outcome_of_errors (Errors st); ParseErrors := Errors st |}
  | parsed_rows st name e inp t :
      explode p = Some e ->
      runPipeline p (newParseState p msg) = Ok (st, true) -> checkStructuralFloor p st = Ok name ->
      resolveInputs e (Fields st) = Ok inp -> (0 < n inp)%nat ->
      rectangular (columns p) t -> TableName t = name -> rowCount t = n inp ->
      idx t = timespec <$> buildExplodedIndex (start inp) (interval inp) (n inp) ->
      data t = exploded_cell e (columns p) (columnTypes p) (Fields st) inp <$> seq 0 (length (columns p)) ->
      parsed p now msg {| Tables := [t]; Outcome_of := outcome_of_errors (Errors st); ParseErrors := Errors st |}.

Lemma app_single_ne {A} (l : list A) x : l ++ [x] <> [].
Proof. by destruct l. Qed.

Lemma Parse_after_pipeline p now msg st b :
  parser_ok p -> MsgData msg <> [] -> runPipeline p (newParseState p msg) = Ok (st, b) ->
  exists r, Parse p now (Some msg) = Ok r /\ parsed p now msg r.
Proof.
  intros O M R. cbn [Parse]. rewrite bool_decide_false by (by intros ?%nil_length_inv).
  destruct (run_steps_framed _ _ _ _ (ok_steps p O) R) as (B & new & En & Eb). rewrite R. cbn [mbind res_bind].
  destruct b; cbn [negb]; [|eexists; split; [done|constructor; rewrite En; cbn; auto]].
  destruct (checkStructuralFloor p st) as [name|err|] eqn:F.
  2: eexists; split; [done|constructor; apply app_single_ne].
  2: by apply checkStructuralFloor_no_panic in F.
  destruct (explode p) as [e|] eqn:X.
  - unfold parseExploded. destruct (ok_explode p O e X) as [Bd _].
    destruct (resolveInputs e (Fields st)) as [inp|err|] eqn:I.
    2: eexists; split; [done|constructor; apply app_single_ne].
    2: by apply resolveInputs_no_panic in I.
    destruct (n inp =? 0)%nat eqn:N; [eexists; split; [done|by econstructor]|].
    destruct (createExplodedWriterTable_ok _ _ (ok_mapping p O) e (Fields st) name inp Bd) as (t & -> & T).
    { apply resolveInputs_typed in I; [done|]. apply Bd. }
    eexists. split; [done|]. apply Nat.eqb_neq in N. destruct_and! T. eapply parsed_rows; try done. lia.
  - destruct (createWriterTable_ok p now st name O) as (t & -> & T); [by eapply newParseState_fit|].
    eexists. split; [done|]. destruct_and! T. by eapply parsed_row.
Qed.

(** A message that parses, and that every message does when no step panics. *)
Lemma Parse_cases p now msg r : parser_ok p -> Parse p now (Some msg) = Ok r -> parsed p now msg r.
Proof.
  intros O E. destruct (decide (MsgData msg = [])) as [M|M].
  { cbn [Parse] in E. rewrite M in E. cbn in E. injection E as <-. by constructor. }
  destruct (runPipeline p (newParseState p msg)) as [[st b]|err|] eqn:R.
  - destruct (Parse_after_pipeline p now msg st b O M R) as (r' & E' & P). rewrite E in E'. by injection E' as ->.
  - cbn [Parse] in E. rewrite bool_decide_false in E by (by intros ?%nil_length_inv). by rewrite R in E.
  - cbn [Parse] in E. rewrite bool_decide_false in E by (by intros ?%nil_length_inv). by rewrite R in E.
Qed.

Lemma Parse_total p now msg : parser_ok p -> steps_total p -> exists r, Parse p now (Some msg) = Ok r.
Proof.
  intros O T. destruct (decide (MsgData msg = [])) as [M|M]; [cbn [Parse]; rewrite M; by eexists|].
  destruct (run_steps_total (pipeline p) (newParseState p msg) T) as [[st b] R].
  destruct (Parse_after_pipeline p now msg st b O M R) as (r & E & _). by exists r.
Qed.

(** The YAML parser keeps the contract of the parser interface. *)
Lemma Parse_lawful c p :
  standard_timestamps c -> NewYAMLParserFromConfig c = Ok p -> LawfulParser (Parse p) (columns p).
Proof.
  intros S E. pose proof (NewYAMLParserFromConfig_total c p S E) as T. apply NewYAMLParserFromConfig_ok in E as O. split.
  - intros now msg. by apply Parse_total.
  - intros now msg r P%Parse_cases U; [|done].
    destruct P; try done; cbn in U; unfold outcome_of_errors in U; by case_bool_decide.
  - intros now msg r P%Parse_cases; [|done]. destruct P; cbn; try done; by constructor.
Qed.
End results.

(** ** Properties *)

Section yaml_properties.
Context `{GoLibLaws, MapIter, ProtoLibLaws}.

(** C8. Parsing is total and classifies: a parser compiled from any accepted
    configuration whose protobuf schemas, if any, do not redefine
    google.protobuf.Timestamp returns a result for every message (no panic, and
    no error that would make the worker NACK it), the outcome agrees with the
    errors, an unusable message has no table, and a usable one has exactly one
    unless it exploded an empty array.  A schema that does redefine it can make
    the parser panic ([foreign_timestamp_panics]). *)
Theorem parse_total_classified c p now msg :
  NewYAMLParserFromConfig c = Ok p -> standard_timestamps c ->
  exists r, Parse p now (Some msg) = Ok r /\
    match Outcome_of r with
    | OutcomeUnusable => Tables r = [] /\ ParseErrors r <> []
    | OutcomePartial => ParseErrors r <> [] /\ (length (Tables r) = 1%nat \/ Tables r = [] /\ is_Some (explode p))
    | OutcomeOK => ParseErrors r = [] /\ (length (Tables r) = 1%nat \/ Tables r = [] /\ is_Some (explode p))
    end.
Proof.
  intros E S. pose proof (NewYAMLParserFromConfig_total c p S E) as T. apply NewYAMLParserFromConfig_ok in E as O.
  destruct (Parse_total p now msg O T) as [r R]. apply Parse_cases in R as P; [|done].
  exists r. split; [done|].
  destruct P as [|st e X|st|st]; cbn; [done|..]; unfold outcome_of_errors; case_bool_decide as L;
    (split; [first [by apply nil_length_inv|intros Z; by rewrite Z in L]|]);
    first [by left|right; by rewrite X].
Qed.

(** C10. Every table a parser produces is well formed: rectangular over the
    parser's columns (index and columns of one length, each column of its
    declared type), non-empty, and routed to a valid null-terminated name. *)
Theorem parse_tables_well_formed c p now msg r t :
  NewYAMLParserFromConfig c = Ok p -> Parse p now (Some msg) = Ok r -> t ∈ Tables r ->
  rectangular (columns p) t /\ table_name_ok (TableName t) /\
  (0 < rowCount t)%nat /\ (explode p = None -> rowCount t = 1%nat).
Proof.
  intros O%NewYAMLParserFromConfig_ok E I. apply Parse_cases in E as P; [|done].
  destruct P as [| |st name t' X R F Rt Nm Rc|st name e inp t' X R F Rs Np Rt Nm Rc]; cbn in I;
    try (by apply elem_of_nil in I); apply list_elem_of_singleton in I as ->;
    apply checkStructuralFloor_ok in F as [F _]; rewrite Nm, Rc; split_and!; try done; try lia.
  by rewrite X.
Qed.

(** No row is stamped with the wall clock when the configuration names a
    time source: with an extract_index step, or with a compiled explode, the
    result of a message does not depend on the time it is parsed at. *)
Theorem parse_clock_free c p now now' msg :
  NewYAMLParserFromConfig c = Ok p ->
  hasIndexStep p = true \/ is_Some (explode p) ->
  Parse p now msg = Parse p now' msg.
Proof.
  intros O%NewYAMLParserFromConfig_ok T. destruct msg as [msg|]; [|done]. cbn [Parse].
  case_bool_decide; [done|]. destruct (runPipeline p (newParseState p msg)) as [[st []]| |]; try done.
  cbn. destruct (checkStructuralFloor p st) as [name| |] eqn:F; try done.
  destruct (explode p) as [e|]; [done|]. destruct T as [T|[? ?]]; [|done].
  apply checkStructuralFloor_ok in F as [_ F]. destruct (F T) as [ts E].
  unfold createWriterTable. by rewrite E.
Qed.

(** C9. The row of a scalar configuration: its timestamp is the $timestamp field
    when that is a time, and column i holds the field of its name when that
    field has the column's type, the null sentinel of the type otherwise. *)
Theorem parse_row_content c p now msg r t :
  NewYAMLParserFromConfig c = Ok p -> explode p = None ->
  Parse p now (Some msg) = Ok r -> t ∈ Tables r ->
  exists st, runPipeline p (newParseState p msg) = Ok (st, true) /\ ParseErrors r = Errors st /\
    idx t = [timespec (default now (as_time (Fields st !! "$timestamp")))] /\
    forall i col, Columns (config p) !! i = Some col ->
      data t !! i = Some
        (let v := Fields st !! Name col in
         match stringToColumnType (Type_ col) with
         | TsColumnDouble => CDDouble [default f64_nan (as_float64 v)]
         | TsColumnInt64 => CDInt64 [default Int64Undefined (as_int64 v)]
         | TsColumnTimestamp => CDTimestamp [default MinTimespec (as_time v)]
         | TsColumnString | TsColumnSymbol => CDString [default EmptyString (as_string v)]
         | _ => CDBlob [default [] (as_bytes v)]
         end).
Proof.
  intros E X P I.
  assert (T : columnTypes p = (fun col => stringToColumnType (Type_ col)) <$> Columns (config p)).
  { clear - E. unfold NewYAMLParserFromConfig, createColumnMapping in E.
    apply res_bind_ok in E as (? & _ & ([steps ex] & _ & (pl & _ & (? & [= <-] & E)%res_bind_ok)%res_bind_ok)%res_bind_ok).
    by apply res_bind_ok in E as (? & _ & (e & _ & (? & _ & (rf & _ & [= <-])%res_bind_ok)%res_bind_ok)%res_bind_ok). }
  apply NewYAMLParserFromConfig_ok in E. apply Parse_cases in P as C; [|done].
  destruct C as [| |st name t' X' R F Rt Nm Rc Ix D|st name e inp t' X' R F]; cbn in I;
    try (by apply elem_of_nil in I); [|by rewrite X in X'].
  apply list_elem_of_singleton in I as ->. exists st. split_and!; [done..|].
  intros i col C. rewrite D, list_lookup_fmap.
  assert (L : columns p !! i = Some (writer_column col)) by (by rewrite (ok_columns p E), list_lookup_fmap, C).
  rewrite lookup_seq_lt by (by eapply lookup_lt_Some). cbn. f_equal.
  unfold scalar_cell. rewrite L, T, list_lookup_fmap, C. cbn. by rewrite strip_nul_app.
Qed.
End yaml_properties.

Section yaml_properties_explode.
Context `{GoLibLaws, MapIter, ProtoLibLaws}.

Lemma splitExplodeSpec_last specs step steps ex :
  last specs = Some step -> GetStepName step = "explode" ->
  splitExplodeSpec specs = Ok (steps, ex) -> ex = Config step.
Proof.
  intros L N E. unfold splitExplodeSpec in E. rewrite L in E.
  destruct (length _ =? 0)%nat eqn:Z.
  - apply Nat.eqb_eq, nil_length_inv in Z.
    assert (I : In step (List.filter (fun spec => String.eqb (GetStepName spec) "explode") specs)).
    { apply filter_In. rewrite N. split; [|done]. apply last_Some in L as [l ->]. apply in_or_app. by right; left. }
    by rewrite Z in I.
  - by apply res_bind_ok in E as (? & _ & (? & _ & [= <- <-])%res_bind_ok).
Qed.

(** A parser compiled from a configuration that ends in an explode step. *)
Lemma NewYAMLParserFromConfig_explode c p step cfg :
  NewYAMLParserFromConfig c = Ok p ->
  last (Transformations c) = Some step -> GetStepName step = "explode" -> Config step = Some cfg ->
  columns p = writer_column <$> Columns c /\
  columnTypes p = (fun col => stringToColumnType (Type_ col)) <$> Columns c /\
  exists e, explode p = Some e /\
    e_lookupSource e = field_at (configured_string cfg "source") /\
    lookupStart e = field_at (configured_string (configured_map (configured_map cfg "index") "start") "source") /\
    (forall fs n d, resolveInterval e fs n = Ok d ->
       configured_interval (configured_map (configured_map cfg "index") "interval") fs n d) /\
    (forall i col, Columns c !! i = Some col ->
       (i = targetCol e <-> Name col = configured_string cfg "target") /\
       (Some i = ordinalCol e <-> Name col = configured_string cfg "ordinal")).
Proof.
  intros E L N C. unfold NewYAMLParserFromConfig, validateSchema, createColumnMapping in E.
  apply res_bind_ok in E as (? & V & ([steps ex] & Sp & (pl & _ & (? & [= <-] & E)%res_bind_ok)%res_bind_ok)%res_bind_ok).
  apply res_bind_ok in V as (? & _ & [ND F]%validate_columns_ok).
  apply res_bind_ok in E as (? & _ & (o & X & (? & _ & (rf & _ & [= <-])%res_bind_ok)%res_bind_ok)%res_bind_ok).
  apply (splitExplodeSpec_last _ step) in Sp as ->; [|done..]. rewrite C in X. split_and!; [done..|].
  destruct o as [e|].
  - exists e. split; [done|]. eapply compileExplodeSpec_means; [exact ND| |exact X].
    eapply Forall_impl; [exact F|]. naive_solver.
  - unfold compileExplodeSpec in X. by repeat first [progress inv_res | case_match].
Qed.

(** C11. The rows of an exploded message, read off the configuration of the
    explode step: the array is the field at its source path, the start the
    time at its start path, and the interval the configured duration, the
    by_length entry of the array's length or the sourced field times its unit.
    There is one row per element; row i is stamped start + i * interval (the
    product wraps at 64 bits), to the nanosecond and without wrap when the
    whole span fits; the target column is the array itself, the ordinal column
    counts 0 .. n-1, and every other column repeats the field of its name or
    the null sentinel of its type. *)
Theorem parse_exploded_rows c p step cfg now msg r t :
  NewYAMLParserFromConfig c = Ok p ->
  last (Transformations c) = Some step -> GetStepName step = "explode" -> Config step = Some cfg ->
  Parse p now (Some msg) = Ok r -> t ∈ Tables r ->
  exists st v array start d,
    let N := cd_Length array in
    let index := configured_map cfg "index" in
    runPipeline p (newParseState p msg) = Ok (st, true) /\ ParseErrors r = Errors st /\
    field_at (configured_string cfg "source") (Fields st) = Some v /\ array_value v array /\
    field_at (configured_string (configured_map index "start") "source") (Fields st) = Some (VTime start) /\
    configured_interval (configured_map index "interval") (Fields st) N d /\
    (0 < N)%nat /\ rowCount t = N /\ length (idx t) = N /\
    (forall i, (i < N)%nat -> idx t !! i = Some (timespec (Add start (wrap64 (Z.of_nat i * d))))) /\
    (time_valid start -> 0 < d -> Z.of_nat N * d <= max_int64 ->
     in_int64 (ext start - 1) -> in_int64 (ext start + Z.of_nat N * d / Second + 2) ->
     forall i, (i < N)%nat -> exists u, idx t !! i = Some (timespec u) /\ time_valid u /\
       instant u = instant start + Z.of_nat i * d) /\
    (forall i col, Columns c !! i = Some col -> data t !! i = Some (exploded_column cfg array (Fields st) N col)).
Proof.
  intros E La Na Co P I.
  destruct (NewYAMLParserFromConfig_explode c p step cfg E La Na Co) as (Cs & Ty & e & X & So & Sta & Int & Pos).
  apply NewYAMLParserFromConfig_ok in E as O. apply Parse_cases in P as D; [|done].
  destruct D as [| |st name t' X'|st name e' inp t' X' R F Rs Np Rt Nm Rc Ix D]; cbn in I;
    try (by apply elem_of_nil in I); [by rewrite X in X'|].
  rewrite X in X'. injection X' as <-. apply list_elem_of_singleton in I as ->.
  destruct (ok_explode p O e X) as [Bd _].
  destruct (resolveInputs_typed e _ inp (proj1 (proj2 Bd)) Rs) as [_ Al].
  destruct (resolveInputs_means e _ inp Rs Np) as (v & V & Av & S & Iv).
  exists st, v, (array_of inp), (start inp), (interval inp). cbn zeta. rewrite Al.
  rewrite So in V. rewrite Sta in S. apply Int in Iv.
  split_and!; try done.
  - by rewrite Ix, length_timespec_index.
  - intros i L. rewrite Ix. unfold buildExplodedIndex. by rewrite !list_lookup_fmap, lookup_seq_lt.
  - intros W Dp Sp Lo Hi i L.
    destruct (exploded_instants _ _ _ W Dp Sp Lo Hi i L) as (u & U & Q). exists u. by rewrite Ix, list_lookup_fmap, U.
  - intros i col C. rewrite D, list_lookup_fmap, lookup_seq_lt
      by (rewrite Cs, length_fmap; by eapply lookup_lt_Some). cbn. f_equal.
    destruct (Pos i col C) as [T Or]. rewrite Cs, Ty. by apply (exploded_cell_column cfg (Columns c)).
Qed.
(** The parser compiled with another configuration record attached. *)
Definition with_config (c : YAMLConfig) (p : YAMLParser) : YAMLParser :=
  {| config := c; pipeline := pipeline p; hasIndexStep := hasIndexStep p; explode := explode p;
     columnTypes := columnTypes p; columns := columns p; rowFilter := rowFilter p |}.

Lemma splitExplodeSpec_none specs :
  hasStep specs "explode" = false -> splitExplodeSpec specs = Ok (specs, None).
Proof.
  intros N. unfold splitExplodeSpec. replace (List.filter _ specs) with (@nil TransformSpec); [done|].
  induction specs as [|s specs IH]; cbn in *; [done|]. apply orb_false_iff in N as [-> N]. auto.
Qed.

(** A terminal explode step whose [config] key is missing is not reported:
    its nil configuration reads as "no explode step", and the configuration
    compiles to exactly the scalar parser it would be without the step. *)
Theorem explode_without_config_ignored c specs spec :
  Transformations c = specs ++ [spec] -> hasStep specs "explode" = false ->
  GetStepName spec = "explode" -> Config spec = None ->
  NewYAMLParserFromConfig c =
    with_config c <$> NewYAMLParserFromConfig
      {| Compression := Compression c; Columns := Columns c; Transformations := specs; Filters := Filters c |}.
Proof.
  intros T N G C. unfold NewYAMLParserFromConfig. cbn [Columns Transformations Filters].
  rewrite T, (splitExplodeSpec_none specs N).
  assert (splitExplodeSpec (specs ++ [spec]) = Ok (specs, None)) as ->.
  { unfold splitExplodeSpec. rewrite List.filter_app. cbn [List.filter]. rewrite G. cbn [String.eqb].
    replace (List.filter _ specs) with (@nil TransformSpec).
    - cbn. rewrite last_snoc. rewrite G. cbn. rewrite length_app. cbn.
      replace (length specs + 1 - 1)%nat with (length specs) by lia.
      by rewrite take_app_length, C.
    - symmetry. clear - N. induction specs as [|s specs IH]; cbn in *; [done|].
      apply orb_false_iff in N as [-> N]. auto. }
  destruct (validateSchema (Columns c)); cbn; try done.
  destruct (compilePipeline specs); cbn; try done.
  destruct (validateColumnSynchronization _ _ _); cbn; try done.
  destruct (validateArrayBindings _ _ _); cbn; try done.
  by destruct (New _ _ _).
Qed.
End yaml_properties_explode.
