(* ===== verification/Backoff.v ===== *)
(** * Exponential backoff (connector/resilience/backoff.go) *)
From S2P Require Import Prelude GoInt GoStr GoFloat GoTime Values.

Record Backoff : Type := { base : Z; max : Z; next : Z }.

Definition NewBackoff (b maxDelay : Z) : Backoff := {| base := b; max := maxDelay; next := b |}.

(** [b.next *= 2] wraps at 64 bits. *)
Definition Next (b : Backoff) : Z * Backoff :=
  let n := wrap64 (next b * 2) in
  let n := if max b <? n then max b else n in
  (next b, {| base := base b; max := max b; next := n |}).

Definition Reset (b : Backoff) : Backoff := {| base := base b; max := max b; next := base b |}.

(** Wait: the timer of Next races with the cancellation of the context, which
    [cancelled] decides; the delay is consumed either way. *)
Definition Wait (b : Backoff) (cancelled : bool) : option error * Z * Backoff :=
  let '(d, b') := Next b in
  (if cancelled then Some Canceled else None, d, b').

(** The delays of [k] successive calls of Next. *)
Fixpoint delays (k : nat) (b : Backoff) : list Z * Backoff :=
  match k with
  | O => ([], b)
  | S k => let '(d, b') := Next b in let '(ds, b'') := delays k b' in (d :: ds, b'')
  end.

(** A backoff between its base and its cap, both of which leave room for the
    doubling. *)
Definition backoff_inv (b : Backoff) : Prop :=
  0 < base b <= next b /\ next b <= max b /\ max b <= max_int64 / 2.

Lemma Next_inv b : backoff_inv b -> backoff_inv (Next b).2 /\
  next (Next b).2 = Z.min (max b) (2 * next b) /\ base (Next b).2 = base b /\ max (Next b).2 = max b.
Proof.
  intros ((B & N) & M & C). unfold backoff_inv, Next; cbn.
  assert (C' : max b <= 2 ^ 62 - 1) by exact C.
  rewrite wrap64_id by (unfold_range; lia).
  destruct (max b <? next b * 2) eqn:E; bools; split_and!; lia.
Qed.

(** The delay sequence is min(max, base * 2^i): it starts at the base, doubles
    and stays at the cap, without overflow, for every cap up to half the int64
    range; and Reset restarts it. *)
Theorem backoff_sequence b maxDelay k i d :
  0 < b <= maxDelay -> maxDelay <= max_int64 / 2 ->
  let ds := (delays k (NewBackoff b maxDelay)).1 in
  length ds = k /\ (ds !! i = Some d -> d = Z.min maxDelay (b * 2 ^ Z.of_nat i) /\ b <= d <= maxDelay) /\
  Reset (delays k (NewBackoff b maxDelay)).2 = NewBackoff b maxDelay.
Proof.
  intros B C ds.
  assert (G : forall k bo, backoff_inv bo ->
    let r := delays k bo in
    length r.1 = k /\ base r.2 = base bo /\ max r.2 = max bo /\
    forall i d, r.1 !! i = Some d -> d = Z.min (max bo) (next bo * 2 ^ Z.of_nat i)).
  { clear. induction k as [|k IH]; intros bo I; [by split_and!|].
    pose proof (Next_inv bo I) as (I' & N & Bs & M). cbn [delays].
    destruct (Next bo) as [d0 b'] eqn:En. cbn [snd] in *.
    assert (d0 = next bo) as -> by (unfold Next in En; by injection En).
    destruct (IH b' I') as (L & B2 & M2 & D). destruct (delays k b') as [ds b'']. cbn [fst snd] in *.
    split_and!; [cbn; by rewrite L|congruence|congruence|].
    intros [|i] d E; cbn in E.
    - injection E as <-. destruct I as (_ & ? & _). rewrite Z.mul_1_r. lia.
    - rewrite (D i d E), N, M, Nat2Z.inj_succ, Z.pow_succ_r by lia.
      assert (1 <= 2 ^ Z.of_nat i) by (apply (Z.pow_le_mono_r 2 0); lia). destruct I as ((?&?)&?&?).
      destruct (Z.le_ge_cases (max bo) (2 * next bo)); nia. }
  destruct (G k (NewBackoff b maxDelay)) as (L & Bs & M & D); [unfold backoff_inv, NewBackoff; cbn [base next max]; lia|].
  split_and!; [done| |].
  - intros E. specialize (D _ _ E). cbn in D. split; [done|].
    assert (1 <= 2 ^ Z.of_nat i) by (apply (Z.pow_le_mono_r 2 0); lia). nia.
  - unfold Reset. rewrite Bs, M. done.
Qed.
