(* ===== verification/Breaker.v ===== *)
(** * Circuit breaker (connector/resilience/circuit_breaker.go)

    The breaker's fields are a record and each method a function on it.  Every
    method that changes state holds the mutex for its whole body, so methods
    are atomic; what interleaves is the time between the admission of a
    request and the recording of its result.  [now] is time.Now() in
    nanoseconds and [rnd n] the draw of Int63n(n), which panics for n <= 0. *)
From S2P Require Import Prelude GoInt GoStr GoFloat GoTime Values Qdb.

Inductive State : Set := StateClosed | StateOpen | StateHalfOpen.

#[export] Instance State_eq_dec : EqDecision State.
Proof. solve_decision. Defined.

Definition State_String (s : State) : string :=
  match s with StateClosed => "closed" | StateOpen => "open" | StateHalfOpen => "half-open" end.

(** The hooks the breaker fires, in order (hooks/data.go). *)
Inductive hook_event : Type :=
  | PreCircuitBreakerJitter (st : State) (JitterMs : Z)
  | PreCircuitBreakerStateChange (CurrentState NextState : State) (Reason : string)
  | PostCircuitBreakerStateChange (OldState NewState : State) (Reason : string)
      (FailureCount SuccessCount : Z) (Error : option error)
  | PostCircuitBreakerRequestRejected (st : State) (Reason : string).

Record CircuitBreaker : Type := {
  failureThreshold : Z; successThreshold : Z; timeout : Z; jitterMax : Z;
  baseAllowed : Z; maxAllowed : Z;
  hooks : bool;                      (* a registry is attached *)
  resource : string;
  state : State;
  consecutiveFailures : Z; consecutiveSuccesses : Z;
  lastFailureTime : option Z;        (* None: the zero time *)
  lastError : option error;
  lastStateChangeTime : Z;
  allowedRequests : Z; activeRequests : Z; successCount : Z;
  fired : list hook_event            (* hook executions, most recent last *)
}.

(** Field updates. *)
Definition upd_state (cb : CircuitBreaker) (s : State) (t : Z) : CircuitBreaker :=
  {| failureThreshold := failureThreshold cb; successThreshold := successThreshold cb;
     timeout := timeout cb; jitterMax := jitterMax cb; baseAllowed := baseAllowed cb;
     maxAllowed := maxAllowed cb; hooks := hooks cb; resource := resource cb; state := s;
     consecutiveFailures := consecutiveFailures cb; consecutiveSuccesses := consecutiveSuccesses cb;
     lastFailureTime := lastFailureTime cb; lastError := lastError cb; lastStateChangeTime := t;
     allowedRequests := allowedRequests cb; activeRequests := activeRequests cb;
     successCount := successCount cb; fired := fired cb |}.
Definition upd_counts (cb : CircuitBreaker) (f s : Z) (last : option Z) (err : option error) : CircuitBreaker :=
  {| failureThreshold := failureThreshold cb; successThreshold := successThreshold cb;
     timeout := timeout cb; jitterMax := jitterMax cb; baseAllowed := baseAllowed cb;
     maxAllowed := maxAllowed cb; hooks := hooks cb; resource := resource cb; state := state cb;
     consecutiveFailures := f; consecutiveSuccesses := s;
     lastFailureTime := last; lastError := err; lastStateChangeTime := lastStateChangeTime cb;
     allowedRequests := allowedRequests cb; activeRequests := activeRequests cb;
     successCount := successCount cb; fired := fired cb |}.
Definition upd_halfOpen (cb : CircuitBreaker) (allowed active succ : Z) : CircuitBreaker :=
  {| failureThreshold := failureThreshold cb; successThreshold := successThreshold cb;
     timeout := timeout cb; jitterMax := jitterMax cb; baseAllowed := baseAllowed cb;
     maxAllowed := maxAllowed cb; hooks := hooks cb; resource := resource cb; state := state cb;
     consecutiveFailures := consecutiveFailures cb; consecutiveSuccesses := consecutiveSuccesses cb;
     lastFailureTime := lastFailureTime cb; lastError := lastError cb;
     lastStateChangeTime := lastStateChangeTime cb;
     allowedRequests := allowed; activeRequests := active; successCount := succ; fired := fired cb |}.
Definition fire (cb : CircuitBreaker) (e : hook_event) : CircuitBreaker :=
  if hooks cb then
  {| failureThreshold := failureThreshold cb; successThreshold := successThreshold cb;
     timeout := timeout cb; jitterMax := jitterMax cb; baseAllowed := baseAllowed cb;
     maxAllowed := maxAllowed cb; hooks := hooks cb; resource := resource cb; state := state cb;
     consecutiveFailures := consecutiveFailures cb; consecutiveSuccesses := consecutiveSuccesses cb;
     lastFailureTime := lastFailureTime cb; lastError := lastError cb;
     lastStateChangeTime := lastStateChangeTime cb; allowedRequests := allowedRequests cb;
     activeRequests := activeRequests cb; successCount := successCount cb; fired := fired cb ++ [e] |}
  else cb.

(** NewCircuitBreaker with the options WithHooks, WithJitter and
    WithHalfOpenProgression, the three the manager always passes. *)
Definition NewCircuitBreaker (ft st tmo : Z) (hk : bool) (res : string) (jitter base_ max_ now : Z) : CircuitBreaker :=
  {| failureThreshold := ft; successThreshold := st; timeout := tmo; jitterMax := jitter;
     baseAllowed := base_; maxAllowed := max_; hooks := hk; resource := res; state := StateClosed;
     consecutiveFailures := 0; consecutiveSuccesses := 0; lastFailureTime := None; lastError := None;
     lastStateChangeTime := now; allowedRequests := base_; activeRequests := 0; successCount := 0;
     fired := [] |}.

(** ** Time and randomness *)

Definition Int63n (rnd : Z -> Z) (n : Z) : result Z := if n <=? 0 then Panic else Ok (rnd n).

(** The draw is in range. *)
Definition rnd_ok (rnd : Z -> Z) : Prop := forall n, 0 < n -> 0 <= rnd n < n.

(** [time.Since(last)], saturating; the zero time is further back than any
    duration. *)
Definition Since (now : Z) (last : option Z) : Z :=
  match last with
  | None => max_int64
  | Some t => duration_sub now t
  end.

Definition calculateEffectiveTimeout (rnd : Z -> Z) (cb : CircuitBreaker) : result Z :=
  if jitterMax cb <=? 0 then Ok (timeout cb)
  else
    let maxJitter := if go_div (timeout cb) 10 <? jitterMax cb then go_div (timeout cb) 10 else jitterMax cb in
    j ← Int63n rnd maxJitter;
    let jitter := wrap64 (j - go_div maxJitter 2) in
    Ok (wrap64 (timeout cb + jitter)).

(** applyJitterDelay: the delay slept, with the hook. *)
Definition applyJitterDelay (rnd : Z -> Z) (cb : CircuitBreaker) : result (Z * CircuitBreaker) :=
  if (0 <? jitterMax cb) && negb (bool_decide (state cb = StateClosed)) then
    jitter ← Int63n rnd (jitterMax cb);
    Ok (jitter, if 0 <? jitter then fire cb (PreCircuitBreakerJitter (state cb) (go_div jitter Millisecond)) else cb)
  else Ok (0, cb).

(** ** Methods that assume the lock *)

Definition resetHalfOpenStateLocked (cb : CircuitBreaker) : CircuitBreaker :=
  let cb := upd_halfOpen cb (baseAllowed cb) 0 0 in
  upd_counts cb (consecutiveFailures cb) 0 (lastFailureTime cb) (lastError cb).

Definition firePreStateChangeHookLocked (cb : CircuitBreaker) (newState : State) (reason : string) : CircuitBreaker :=
  fire cb (PreCircuitBreakerStateChange (state cb) newState reason).

Definition firePostStateChangeHookLocked (cb : CircuitBreaker) (oldState newState : State) (reason : string)
    : CircuitBreaker :=
  match oldState, newState with
  | StateClosed, StateOpen =>
      fire cb (PostCircuitBreakerStateChange oldState newState reason (consecutiveFailures cb) 0 (lastError cb))
  | StateHalfOpen, StateClosed =>
      fire cb (PostCircuitBreakerStateChange oldState newState reason 0 (consecutiveSuccesses cb) None)
  | _, _ => fire cb (PostCircuitBreakerStateChange oldState newState reason 0 0 None)
  end.

Definition fireRejectionHookLocked (cb : CircuitBreaker) (reason : string) : CircuitBreaker :=
  fire cb (PostCircuitBreakerRequestRejected (state cb) reason).

Definition transitionToLocked (now : Z) (cb : CircuitBreaker) (newState : State) (reason : string) : CircuitBreaker :=
  let oldState := state cb in
  let cb := firePreStateChangeHookLocked cb newState reason in
  let cb := upd_state cb newState now in
  let cb := if bool_decide (newState = StateHalfOpen) then resetHalfOpenStateLocked cb else cb in
  firePostStateChangeHookLocked cb oldState newState reason.

Definition onFailureLocked (now : Z) (cb : CircuitBreaker) (err : option error) : CircuitBreaker :=
  upd_counts cb (consecutiveFailures cb + 1) 0 (Some now) err.

Definition onSuccessLocked (cb : CircuitBreaker) : CircuitBreaker :=
  upd_counts cb 0 (consecutiveSuccesses cb + 1) (lastFailureTime cb) None.

Definition progressToNextLevelLocked (now : Z) (cb : CircuitBreaker) (currentLevel : Z) : CircuitBreaker :=
  let nextLevel := wrap64 (currentLevel * 2) in
  if (nextLevel <? currentLevel) || ((0 <? maxAllowed cb) && (maxAllowed cb <? nextLevel)) then
    if maxAllowed cb =? 0 then
      let cb := upd_halfOpen cb 0 (activeRequests cb) (successCount cb) in
      upd_counts cb (consecutiveFailures cb) 0 (lastFailureTime cb) (lastError cb)
    else transitionToLocked now cb StateClosed "progressive recovery completed"
  else
    let cb := upd_halfOpen cb nextLevel (activeRequests cb) 0 in
    upd_counts cb (consecutiveFailures cb) 0 (lastFailureTime cb) (lastError cb).

Definition updateHalfOpenStateLocked (now : Z) (cb : CircuitBreaker) : CircuitBreaker :=
  if 1 <=? consecutiveFailures cb then transitionToLocked now cb StateOpen "failure in half-open state"
  else
    let currentLevel := allowedRequests cb in
    if currentLevel =? 0 then
      transitionToLocked now cb StateClosed "progressive recovery completed (no limit reached)"
    else if currentLevel <=? consecutiveSuccesses cb then progressToNextLevelLocked now cb currentLevel
    else cb.

Definition shouldTransitionToHalfOpenLocked (rnd : Z -> Z) (now : Z) (cb : CircuitBreaker) : result bool :=
  effectiveTimeout ← calculateEffectiveTimeout rnd cb;
  Ok (effectiveTimeout <? Since now (lastFailureTime cb)).

Definition updateStateLocked (rnd : Z -> Z) (now : Z) (cb : CircuitBreaker) : result CircuitBreaker :=
  match state cb with
  | StateClosed =>
      Ok (if failureThreshold cb <=? consecutiveFailures cb
          then transitionToLocked now cb StateOpen "failure threshold exceeded" else cb)
  | StateOpen =>
      expired ← shouldTransitionToHalfOpenLocked rnd now cb;
      Ok (if (expired : bool) then transitionToLocked now cb StateHalfOpen "timeout expired" else cb)
  | StateHalfOpen => Ok (updateHalfOpenStateLocked now cb)
  end.

Definition resetLocked (cb : CircuitBreaker) : CircuitBreaker :=
  let cb := upd_state cb StateClosed (lastStateChangeTime cb) in
  resetHalfOpenStateLocked (upd_counts cb 0 0 None None).

(** ** Methods that take the lock *)

(** The compare-and-swap loop runs under the mutex, which every writer of the
    counter holds, so its first attempt succeeds. *)
Definition canProceedHalfOpenLocked (cb : CircuitBreaker) : CircuitBreaker * bool :=
  let allowed := allowedRequests cb in
  if allowed =? 0 then (cb, true)
  else if allowed <=? activeRequests cb then (cb, false)
  else (upd_halfOpen cb (allowedRequests cb) (activeRequests cb + 1) (successCount cb), true).

Definition canProceed (rnd : Z -> Z) (now : Z) (cb : CircuitBreaker) : result (CircuitBreaker * bool) :=
  cb ← updateStateLocked rnd now cb;
  Ok match state cb with
     | StateOpen => (fireRejectionHookLocked cb "circuit_open", false)
     | StateHalfOpen =>
         match canProceedHalfOpenLocked cb with
         | (cb, true) => (cb, true)
         | (cb, false) => (fireRejectionHookLocked cb "half_open_limit_exceeded", false)
         end
     | StateClosed => (cb, true)
     end.

Definition releaseHalfOpenSlotLocked (cb : CircuitBreaker) : CircuitBreaker :=
  upd_halfOpen cb (allowedRequests cb) (activeRequests cb - 1) (successCount cb).

Definition recordResult (rnd : Z -> Z) (now : Z) (cb : CircuitBreaker) (err : option error) : result CircuitBreaker :=
  let cb := if bool_decide (state cb = StateHalfOpen) then releaseHalfOpenSlotLocked cb else cb in
  let cb := if IsClusterUnavailable err then onFailureLocked now cb err else onSuccessLocked cb in
  updateStateLocked rnd now cb.

Definition GetState (cb : CircuitBreaker) : State := state cb.
Definition IsOpen (cb : CircuitBreaker) : bool := bool_decide (GetState cb = StateOpen).
Definition IsHalfOpen (cb : CircuitBreaker) : bool := bool_decide (GetState cb = StateHalfOpen).
Definition BreakerReset (cb : CircuitBreaker) : CircuitBreaker := resetLocked cb.

Definition open_error (cb : CircuitBreaker) : error :=
  NewConnectionFailedError "circuit-breaker" (resource cb) (Some (Errorf "circuit breaker open" [])).

(** Execute with nothing else using the breaker meanwhile: [fn] runs from [t1]
    to [t2], returns its error and has the effects [ev], which do not happen
    when the request is rejected.  The jitter only delays. *)
Definition Execute {Ev} (rnd : Z -> Z) (cb : CircuitBreaker) (t1 t2 : Z) (fn : option error * list Ev)
    : result (CircuitBreaker * option error * list Ev) :=
  '(_, cb) ← applyJitterDelay rnd cb;
  '(cb, proceed) ← canProceed rnd t1 cb;
  if (proceed : bool) then cb ← recordResult rnd t2 cb fn.1; Ok (cb, fn.1, fn.2)
  else Ok (cb, Some (open_error cb), []).

(** ** Effective timeout *)

Lemma go_div_pos a b : 0 <= a -> 0 < b -> go_div a b = a / b.
Proof. intros. unfold go_div. by rewrite Z.quot_div_nonneg. Qed.

Lemma effective_timeout_ok rnd cb :
  rnd_ok rnd -> 0 <= timeout cb <= max_int64 / 2 -> jitterMax cb <= 0 \/ 10 <= timeout cb ->
  exists eff, calculateEffectiveTimeout rnd cb = Ok eff /\ 20 * Z.abs (eff - timeout cb) <= timeout cb.
Proof.
  intros R T J. unfold calculateEffectiveTimeout. destruct (jitterMax cb <=? 0) eqn:E; bools.
  { exists (timeout cb). split; [done|]. lia. }
  rewrite (go_div_pos (timeout cb) 10) by lia. set (m := if _ <? _ then _ else _).
  assert (M : 0 < m <= timeout cb / 10).
  { unfold m. destruct (Z.ltb_spec (timeout cb / 10) (jitterMax cb)); zdiv. }
  clearbody m.
  unfold Int63n. rewrite (proj2 (Z.leb_gt _ _)) by lia. cbn [mbind res_bind].
  specialize (R m ltac:(lia)). rewrite go_div_pos by lia.
  assert (T2 : timeout cb <= 2 ^ 62 - 1) by apply T.
  rewrite (wrap64_id (rnd m - m / 2)) by (unfold_range; zdiv).
  rewrite wrap64_id by (unfold_range; zdiv).
  eexists. split; [done|]. zdiv.
Qed.

(** The recovery timeout is the configured one within 5 percent, whatever the
    jitter drawn; but with a positive jitter and a timeout below 10 ns the
    capped jitter is 0 and the draw panics. *)
Theorem effective_timeout_bounds rnd cb :
  rnd_ok rnd -> 0 <= timeout cb <= max_int64 / 2 ->
  (calculateEffectiveTimeout rnd cb = Panic <-> 0 < jitterMax cb /\ timeout cb < 10) /\
  forall eff, calculateEffectiveTimeout rnd cb = Ok eff -> 20 * Z.abs (eff - timeout cb) <= timeout cb.
Proof.
  intros R T. destruct (Z_le_gt_dec (jitterMax cb) 0) as [J|J]; [|destruct (Z_lt_ge_dec (timeout cb) 10) as [L|L]].
  - destruct (effective_timeout_ok rnd cb R T) as (e & -> & B); [lia|].
    split; [split; [done|lia]|]. by intros ? [= <-].
  - assert (calculateEffectiveTimeout rnd cb = Panic) as ->.
    { unfold calculateEffectiveTimeout. rewrite (proj2 (Z.leb_gt _ _)) by lia.
      rewrite (go_div_pos (timeout cb) 10), Z.div_small by lia.
      rewrite (proj2 (Z.ltb_lt _ _)) by lia. done. }
    split; [|done]. split; [lia|done].
  - destruct (effective_timeout_ok rnd cb R T) as (e & -> & B); [lia|].
    split; [split; [done|lia]|]. by intros ? [= <-].
Qed.

(** ** Interleavings

    Requests of several workers share a breaker: a request is admitted or
    rejected at one moment and its result is recorded at a later one. *)
Record system : Type := { br : CircuitBreaker; inflight : nat; clock : Z }.

Inductive label : Type := Granted | Rejected | Completed (err : option error) | WasReset.

Inductive sys_step (rnd : Z -> Z) (s : system) : label -> system -> Prop :=
  | step_admit t b : clock s <= t -> canProceed rnd t (br s) = Ok (b, true) ->
      sys_step rnd s Granted {| br := b; inflight := S (inflight s); clock := t |}
  | step_reject t b : clock s <= t -> canProceed rnd t (br s) = Ok (b, false) ->
      sys_step rnd s Rejected {| br := b; inflight := inflight s; clock := t |}
  | step_complete t b k err : clock s <= t -> inflight s = S k -> recordResult rnd t (br s) err = Ok b ->
      sys_step rnd s (Completed err) {| br := b; inflight := k; clock := t |}
  | step_reset : sys_step rnd s WasReset
      {| br := BreakerReset (br s); inflight := inflight s; clock := clock s |}.

Inductive sys_run (rnd : Z -> Z) (s : system) : list label -> system -> Prop :=
  | run_nil : sys_run rnd s [] s
  | run_snoc ls l s1 s2 : sys_run rnd s ls s1 -> sys_step rnd s1 l s2 -> sys_run rnd s (ls ++ [l]) s2.

Lemma sys_run_app rnd s l1 s1 l2 s2 : sys_run rnd s l1 s1 -> sys_run rnd s1 l2 s2 -> sys_run rnd s (l1 ++ l2) s2.
Proof.
  intros A B. induction B as [|ls l sa sb B IH St]; [by rewrite app_nil_r|].
  rewrite app_assoc. by eapply run_snoc.
Qed.

(** A result that does not say the cluster is unavailable. *)
Definition answered (l : label) : Prop :=
  match l with Completed err => IsClusterUnavailable err = false | _ => True end.

(** The breaker is closed with no failure counted. *)
Definition healthy (cb : CircuitBreaker) : Prop :=
  state cb = StateClosed /\ consecutiveFailures cb = 0 /\ 1 <= failureThreshold cb.

Lemma fire_healthy cb e : healthy (fire cb e) <-> healthy cb.
Proof. unfold fire. by destruct (hooks cb). Qed.

Lemma healthy_step rnd s l s' : sys_step rnd s l s' -> answered l -> healthy (br s) -> healthy (br s') /\ l <> Rejected.
Proof.
  intros St An (C & F & T). destruct St as [t b _ E|t b _ E|t b k err _ _ E|]; cbn in *.
  - unfold canProceed, updateStateLocked in E. rewrite C, F, (proj2 (Z.leb_gt _ _)) in E by lia.
    cbn in E. rewrite C in E. injection E as <-. by split.
  - unfold canProceed, updateStateLocked in E. rewrite C, F, (proj2 (Z.leb_gt _ _)) in E by lia.
    cbn in E. by rewrite C in E.
  - unfold recordResult, updateStateLocked in E. rewrite C, An, bool_decide_eq_false_2 in E by done.
    cbn in E. rewrite C, (proj2 (Z.leb_gt _ _)) in E by lia. injection E as <-. by split.
  - by split.
Qed.

(** Only unavailability trips the breaker: however requests interleave, as
    long as every recorded result leaves the cluster available (success, a
    rejected request, an error without a client code), the breaker stays
    closed and no request is rejected. *)
Theorem available_never_opens rnd s ls s' :
  healthy (br s) -> sys_run rnd s ls s' -> Forall answered ls ->
  state (br s') = StateClosed /\ Forall (fun l => l <> Rejected) ls.
Proof.
  intros I R. induction R as [|ls l s1 s2 R IH St]; intros An.
  - split; [apply I|done].
  - assert (G : forall ls s1, sys_run rnd s ls s1 -> Forall answered ls -> healthy (br s1)).
    { clear - I. induction 1 as [|ls l s1 s2 R IH St]; intros An; [done|].
      apply Forall_app in An as [A1 A2]. rewrite Forall_singleton in A2.
      exact (proj1 (healthy_step _ _ _ _ St A2 (IH A1))). }
    apply Forall_app in An as [A1 A2]. rewrite Forall_singleton in A2.
    destruct (healthy_step _ _ _ _ St A2 (G _ _ R A1)) as [(C & _) N]. split; [done|].
    apply Forall_app. split; [by apply IH|]. by rewrite Forall_singleton.
Qed.

(** ** Over-admission in half-open

    Entering half-open resets the successes but not [consecutiveFailures], so
    until the first probe has recorded its result every other canProceed sees
    "a failure in half-open", reopens the breaker, and the one after it
    re-enters half-open with the in-flight counter back at zero. *)

(** One failure opens, base limit 1, timeout 10 ns, no jitter. *)
Definition cb0 : CircuitBreaker := NewCircuitBreaker 1 2 10 false "qdb" 0 1 32 0.
Definition sys0 : system := {| br := cb0; inflight := 0; clock := 0 |}.
Definition unavailable : option error := Some (QdbError ErrTimeout "push" []).

(** The breaker at time 100, half-open, with one slot of one claimed. *)
Definition cb_probe : CircuitBreaker :=
  {| failureThreshold := 1; successThreshold := 2; timeout := 10; jitterMax := 0; baseAllowed := 1;
     maxAllowed := 32; hooks := false; resource := "qdb"; state := StateHalfOpen;
     consecutiveFailures := 1; consecutiveSuccesses := 0; lastFailureTime := Some 0;
     lastError := unavailable; lastStateChangeTime := 100;
     allowedRequests := 1; activeRequests := 1; successCount := 0; fired := [] |}.

(** The breaker the first failure opened. *)
Definition cb_open : CircuitBreaker :=
  {| failureThreshold := 1; successThreshold := 2; timeout := 10; jitterMax := 0; baseAllowed := 1;
     maxAllowed := 32; hooks := false; resource := "qdb"; state := StateOpen;
     consecutiveFailures := 1; consecutiveSuccesses := 0; lastFailureTime := Some 0;
     lastError := unavailable; lastStateChangeTime := 0;
     allowedRequests := 1; activeRequests := 0; successCount := 0; fired := [] |}.

(** The same, reopened at time 100 by a second canProceed. *)
Definition cb_reopened : CircuitBreaker := upd_state cb_probe StateOpen 100.

Definition no_rnd (n : Z) : Z := 0.

Lemma probe_reached :
  sys_run no_rnd sys0 [Granted; Completed unavailable; Granted]
    {| br := cb_probe; inflight := 1; clock := 100 |}.
Proof.
  apply (run_snoc _ _ [Granted; Completed unavailable] _ {| br := cb_open; inflight := 0; clock := 0 |}).
  - apply (run_snoc _ _ [Granted] _ {| br := cb0; inflight := 1; clock := 0 |}).
    + apply (run_snoc _ _ [] _ sys0); [apply run_nil|]. by apply (step_admit _ sys0 0 cb0).
    + by apply (step_complete _ {| br := cb0; inflight := 1; clock := 0 |} 0 cb_open 0).
  - by apply (step_admit _ {| br := cb_open; inflight := 0; clock := 0 |} 100 cb_probe).
Qed.

Lemma probe_again k :
  sys_run no_rnd {| br := cb_probe; inflight := k; clock := 100 |} [Rejected; Granted]
    {| br := cb_probe; inflight := S k; clock := 100 |}.
Proof.
  apply (run_snoc _ _ [Rejected] _ {| br := cb_reopened; inflight := k; clock := 100 |}).
  - apply (run_snoc _ _ [] _ {| br := cb_probe; inflight := k; clock := 100 |}); [apply run_nil|].
    by apply (step_reject _ {| br := cb_probe; inflight := k; clock := 100 |} 100 cb_reopened).
  - by apply (step_admit _ {| br := cb_reopened; inflight := k; clock := 100 |} 100 cb_probe).
Qed.

(** However small the half-open limit, any number of requests can be in flight
    in half-open: from a fresh breaker with limit 1 there is, for every n, a
    run with a single failure (the one that opened it) that ends half-open at
    limit 1 with n + 1 admitted and unfinished requests. *)
Theorem half_open_limit_not_enforced n :
  exists ls s, sys_run no_rnd sys0 ls s /\ state (br s) = StateHalfOpen /\
    allowedRequests (br s) = 1 /\ inflight s = S n /\
    Forall (fun l => forall err, l = Completed err -> err = unavailable) ls /\
    length (List.filter (fun l => match l with Completed _ => true | _ => false end) ls) = 1%nat.
Proof.
  assert (G : exists ls, sys_run no_rnd sys0 ls {| br := cb_probe; inflight := S n; clock := 100 |} /\
    Forall (fun l => forall err, l = Completed err -> err = unavailable) ls /\
    length (List.filter (fun l => match l with Completed _ => true | _ => false end) ls) = 1%nat).
  { induction n as [|n (ls & R & F & L)].
    - eexists. split; [exact probe_reached|]. split; [|done].
      repeat constructor; intros err; try done. by intros [= <-].
    - exists (ls ++ [Rejected; Granted]). split; [eapply sys_run_app; [exact R|apply probe_again]|].
      split; [apply Forall_app; split; [done|repeat constructor; done]|].
      by rewrite List.filter_app, length_app, L. }
  destruct G as (ls & R & F & L). exists ls, {| br := cb_probe; inflight := S n; clock := 100 |}.
  by split_and!.
Qed.

(** ** Refinement: progressive recovery

    With requests that do not overlap, the breaker implements the protocol its
    documentation describes: count failures while closed, wait while open, and
    climb from level to level while recovering. *)

Inductive recovery : Type :=
  | Closed (fails : Z)
  | Open (since : Z)
  | Recovering (level succ : Z).

Section spec.
(** Failure threshold, base level and highest level. *)
Variables thr base_ max_ : Z.

(** An admitted request that ends at [t2]. *)
Definition outcome (t2 : Z) (s : recovery) (failed : bool) : recovery :=
  match s with
  | Closed f => if failed then (if thr <=? f + 1 then Open t2 else Closed (f + 1)) else Closed 0
  | Recovering l k =>
      if failed then Open t2
      else if l <=? k + 1 then (if max_ <? 2 * l then Closed 0 else Recovering (2 * l) 0)
      else Recovering l (k + 1)
  | Open since => Open since
  end.

(** One request from [t1] to [t2]: the new state, and whether it was admitted. *)
Definition spec_step (eff t1 t2 : Z) (s : recovery) (failed : bool) : recovery * bool :=
  match s with
  | Open since =>
      if eff <? t1 - since then (outcome t2 (Recovering base_ 0) failed, true) else (Open since, false)
  | _ => (outcome t2 s failed, true)
  end.
End spec.

(** The configurations validateOptions accepts (Options.v), with the jitter
    that does not panic. *)
Definition breaker_cfg_ok (cb : CircuitBreaker) : Prop :=
  1 <= failureThreshold cb /\ 1 <= baseAllowed cb <= maxAllowed cb /\ maxAllowed cb <= 2 ^ 31 /\
  0 <= timeout cb <= max_int64 / 2 /\ (jitterMax cb <= 0 \/ 10 <= timeout cb).

Definition same_cfg (a b : CircuitBreaker) : Prop :=
  failureThreshold b = failureThreshold a /\ baseAllowed b = baseAllowed a /\
  maxAllowed b = maxAllowed a /\ timeout b = timeout a /\ jitterMax b = jitterMax a /\ resource b = resource a.

(** The breaker's fields represent a state of the protocol at time [t]. *)
Definition represents (t : Z) (cb : CircuitBreaker) (s : recovery) : Prop :=
  match s with
  | Closed f => state cb = StateClosed /\ consecutiveFailures cb = f /\ 0 <= f < failureThreshold cb
  | Open since => state cb = StateOpen /\ lastFailureTime cb = Some since /\ 0 <= since <= t /\
      0 <= consecutiveFailures cb
  | Recovering l k => state cb = StateHalfOpen /\ consecutiveFailures cb = 0 /\ allowedRequests cb = l /\
      consecutiveSuccesses cb = k /\ activeRequests cb = 0 /\ 0 <= k < l /\ l <= maxAllowed cb
  end.

(** ** The hooks change nothing but the log *)

Lemma fire_core_eq cb e :
  state (fire cb e) = state cb /\ consecutiveFailures (fire cb e) = consecutiveFailures cb /\
  consecutiveSuccesses (fire cb e) = consecutiveSuccesses cb /\ lastFailureTime (fire cb e) = lastFailureTime cb /\
  allowedRequests (fire cb e) = allowedRequests cb /\ activeRequests (fire cb e) = activeRequests cb /\
  failureThreshold (fire cb e) = failureThreshold cb /\ baseAllowed (fire cb e) = baseAllowed cb /\
  maxAllowed (fire cb e) = maxAllowed cb /\ timeout (fire cb e) = timeout cb /\
  jitterMax (fire cb e) = jitterMax cb /\ resource (fire cb e) = resource cb.
Proof. unfold fire. by destruct (hooks cb). Qed.

Lemma firePost_fire cb o n reason : exists e, firePostStateChangeHookLocked cb o n reason = fire cb e.
Proof. destruct o, n; by eexists. Qed.

(** What a transition does to the core fields. *)
Lemma transition_core now cb s reason :
  let cb' := transitionToLocked now cb s reason in
  same_cfg cb cb' /\ state cb' = s /\ consecutiveFailures cb' = consecutiveFailures cb /\
  lastFailureTime cb' = lastFailureTime cb /\
  match s with
  | StateHalfOpen => consecutiveSuccesses cb' = 0 /\ allowedRequests cb' = baseAllowed cb /\ activeRequests cb' = 0
  | _ => consecutiveSuccesses cb' = consecutiveSuccesses cb /\ allowedRequests cb' = allowedRequests cb /\
         activeRequests cb' = activeRequests cb
  end.
Proof.
  unfold transitionToLocked, firePreStateChangeHookLocked.
  set (cb1 := fire cb _). pose proof (fire_core_eq cb (PreCircuitBreakerStateChange (state cb) s reason)) as F1.
  fold cb1 in F1. clearbody cb1. set (cb2 := if bool_decide _ then _ else _).
  destruct (firePost_fire cb2 (state cb) s reason) as [e ->].
  pose proof (fire_core_eq cb2 e) as F2. set (cb3 := fire cb2 e) in *. clearbody cb3.
  destruct_and! F1. destruct_and! F2.
  assert (C : state cb2 = s /\ consecutiveFailures cb2 = consecutiveFailures cb1 /\
    lastFailureTime cb2 = lastFailureTime cb1 /\ same_cfg cb1 cb2 /\
    match s with
    | StateHalfOpen => consecutiveSuccesses cb2 = 0 /\ allowedRequests cb2 = baseAllowed cb1 /\ activeRequests cb2 = 0
    | _ => consecutiveSuccesses cb2 = consecutiveSuccesses cb1 /\ allowedRequests cb2 = allowedRequests cb1 /\
           activeRequests cb2 = activeRequests cb1
    end) by (unfold cb2; by destruct s).
  clearbody cb2. unfold same_cfg in *. destruct C as (C1 & C2 & C3 & C4 & C5). destruct_and! C4.
  destruct s; destruct_and! C5; split_and!; congruence.
Qed.

#[export] Instance same_cfg_preorder : PreOrder same_cfg.
Proof. split; [intros a; by unfold same_cfg|]. intros a b c A B. unfold same_cfg in *. destruct_and!. split_and!; congruence. Qed.

Lemma same_cfg_ok a b : same_cfg a b -> breaker_cfg_ok a -> breaker_cfg_ok b.
Proof. unfold same_cfg, breaker_cfg_ok. intros (-> & -> & -> & -> & -> & _). done. Qed.

Lemma fire_cfg cb e : same_cfg cb (fire cb e).
Proof. unfold fire, same_cfg. by destruct (hooks cb). Qed.

Lemma fire_represents t cb e s : represents t cb s -> represents t (fire cb e) s.
Proof. unfold represents, fire. by destruct (hooks cb), s. Qed.

(** Recording a result while closed. *)
Lemma record_closed rnd t cb err f :
  represents t cb (Closed f) -> 0 <= t ->
  exists cb', recordResult rnd t cb err = Ok cb' /\ same_cfg cb cb' /\
    represents t cb' (outcome (failureThreshold cb) (maxAllowed cb) t (Closed f) (IsClusterUnavailable err)).
Proof.
  intros (S & F & B) T. unfold recordResult, updateStateLocked. rewrite S, bool_decide_eq_false_2 by done.
  cbn [outcome]. destruct (IsClusterUnavailable err).
  - cbn. rewrite S, F. destruct (failureThreshold cb <=? f + 1) eqn:E; bools.
    + eexists. split; [done|].
      pose proof (transition_core t (onFailureLocked t cb err) StateOpen "failure threshold exceeded") as C.
      cbn in C. destruct_and! C. split; [etrans; [|eassumption]; by split_and!|].
      split_and!; try done; try congruence; lia.
    + eexists. split; [done|]. split; [by split_and!|]. split_and!; cbn; try done; lia.
  - cbn. rewrite S, (proj2 (Z.leb_gt _ _)) by lia. eexists. split; [done|]. split; [by split_and!|].
    split_and!; cbn; try done; lia.
Qed.

(** Recording the result of the only request in flight in half-open. *)
Lemma record_half rnd t cb err l k :
  breaker_cfg_ok cb -> state cb = StateHalfOpen -> 0 <= consecutiveFailures cb ->
  allowedRequests cb = l -> consecutiveSuccesses cb = k -> activeRequests cb = 1 ->
  0 <= k < l -> l <= maxAllowed cb -> 0 <= t ->
  exists cb', recordResult rnd t cb err = Ok cb' /\ same_cfg cb cb' /\
    represents t cb' (outcome (failureThreshold cb) (maxAllowed cb) t (Recovering l k) (IsClusterUnavailable err)).
Proof.
  intros (Ct & Cb & Cm & _) S F L K A B M T. unfold recordResult, updateStateLocked.
  rewrite bool_decide_eq_true_2 by done. cbn [outcome]. destruct (IsClusterUnavailable err).
  - cbn. rewrite S. unfold updateHalfOpenStateLocked. cbn. rewrite (proj2 (Z.leb_le _ _)) by lia.
    eexists. split; [done|].
    pose proof (transition_core t (onFailureLocked t (releaseHalfOpenSlotLocked cb) err) StateOpen
      "failure in half-open state") as C.
    cbn in C. destruct_and! C. split; [etrans; [|eassumption]; by split_and!|].
    split_and!; try done; try congruence; lia.
  - cbn. rewrite S. unfold updateHalfOpenStateLocked. cbn. rewrite L, K.
    rewrite (proj2 (Z.eqb_neq _ _)) by lia. destruct (l <=? k + 1) eqn:E; bools.
    + unfold progressToNextLevelLocked. cbn. rewrite wrap64_id by (unfold_range; lia).
      rewrite (Z.mul_comm l 2), (proj2 (Z.ltb_ge _ _)) by lia.
      rewrite (proj2 (Z.ltb_lt 0 _)) by lia. cbn [orb andb].
      destruct (maxAllowed cb <? 2 * l) eqn:E2; bools.
      * rewrite (proj2 (Z.eqb_neq _ _)) by lia. eexists. split; [done|].
        pose proof (transition_core t (onSuccessLocked (releaseHalfOpenSlotLocked cb)) StateClosed
          "progressive recovery completed") as C.
        cbn in C. destruct_and! C. split; [etrans; [|eassumption]; by split_and!|].
        assert (G : failureThreshold (transitionToLocked t (onSuccessLocked (releaseHalfOpenSlotLocked cb))
          StateClosed "progressive recovery completed") = failureThreshold cb)
          by (unfold same_cfg in *; destruct_and!; done).
        split_and!; try done; rewrite ?G; lia.
      * eexists. split; [done|]. split; [by split_and!|]. split_and!; cbn; try done; lia.
    + eexists. split; [done|]. split; [by split_and!|]. split_and!; cbn; try done; lia.
Qed.

(** The jitter delay of a degraded breaker only fires a hook. *)
Lemma jitter_ok rnd cb :
  exists d cb', applyJitterDelay rnd cb = Ok (d, cb') /\ (cb' = cb \/ exists e, cb' = fire cb e).
Proof.
  unfold applyJitterDelay, Int63n. destruct (_ && _) eqn:E; [|exists 0, cb; auto].
  apply andb_true_iff in E as [E _]. bools. rewrite (proj2 (Z.leb_gt _ _)) by lia. cbn.
  do 2 eexists. split; [done|]. case_match; eauto.
Qed.

Lemma jitter_preserves rnd t cb s :
  represents t cb s ->
  exists d cb', applyJitterDelay rnd cb = Ok (d, cb') /\ same_cfg cb cb' /\ represents t cb' s.
Proof.
  intros R. destruct (jitter_ok rnd cb) as (d & cb' & E & [->|[e ->]]); exists d; eexists;
    (split; [exact E|]); split; try done; [apply fire_cfg|by apply fire_represents].
Qed.

(** Admission while recovering takes the one slot. *)
Lemma admit_half rnd t cb l k :
  represents t cb (Recovering l k) ->
  exists cb', canProceed rnd t cb = Ok (cb', true) /\ same_cfg cb cb' /\ state cb' = StateHalfOpen /\
    consecutiveFailures cb' = 0 /\ allowedRequests cb' = l /\ consecutiveSuccesses cb' = k /\
    activeRequests cb' = 1.
Proof.
  intros (S & F & L & K & A & B & M). unfold canProceed, updateStateLocked, updateHalfOpenStateLocked.
  rewrite S, F, L. cbn. rewrite (proj2 (Z.eqb_neq _ _)) by lia. rewrite K, (proj2 (Z.leb_gt _ _)) by lia.
  rewrite S. unfold canProceedHalfOpenLocked. rewrite L, A.
  rewrite (proj2 (Z.eqb_neq _ _)), (proj2 (Z.leb_gt _ _)) by lia.
  eexists. split; [done|]. split_and!; cbn; try done; by split_and!.
Qed.

(** Admission by an open breaker whose timeout has passed starts at the base
    level. *)
Lemma admit_open rnd t cb since eff :
  breaker_cfg_ok cb -> represents t cb (Open since) -> t <= max_int64 ->
  calculateEffectiveTimeout rnd cb = Ok eff ->
  exists cb', canProceed rnd t cb = Ok (cb', eff <? t - since) /\ same_cfg cb cb' /\
    if eff <? t - since then
      state cb' = StateHalfOpen /\ 0 <= consecutiveFailures cb' /\ allowedRequests cb' = baseAllowed cb /\
      consecutiveSuccesses cb' = 0 /\ activeRequests cb' = 1
    else represents t cb' (Open since).
Proof.
  intros (_ & Cb & _) (S & L & B & F) T E.
  unfold canProceed, updateStateLocked, shouldTransitionToHalfOpenLocked. rewrite S, E. cbn.
  rewrite L. cbn. unfold duration_sub. rewrite Z.min_r, Z.max_r by (unfold max_int64, min_int64 in *; lia).
  destruct (eff <? t - since) eqn:X.
  - pose proof (transition_core t cb StateHalfOpen "timeout expired") as C. cbn zeta in C.
    set (cb1 := transitionToLocked _ _ _ _) in *. clearbody cb1.
    destruct C as (G & S1 & F1 & L1 & K1 & A1 & R1). rewrite S1.
    unfold canProceedHalfOpenLocked. rewrite A1, R1.
    rewrite (proj2 (Z.eqb_neq _ _)), (proj2 (Z.leb_gt _ _)) by lia.
    eexists. split; [done|]. split; [etrans; [exact G|by split_and!]|].
    split_and!; cbn; try done; lia.
  - rewrite S. eexists. split; [done|]. split; [apply fire_cfg|]. apply (fire_represents t cb _ (Open since)).
    repeat split; try done; lia.
Qed.

Lemma represents_later t t' cb s : represents t cb s -> t <= t' -> represents t' cb s.
Proof. destruct s; cbn; intros; [done| |done]. destruct_and!. split_and!; try done; lia. Qed.

(** One request. *)
Lemma Execute_refines {Ev} rnd cb t0 t1 t2 err (ev : list Ev) s :
  rnd_ok rnd -> breaker_cfg_ok cb -> represents t0 cb s -> 0 <= t0 <= t1 -> t1 <= t2 <= max_int64 ->
  exists eff cb', 20 * Z.abs (eff - timeout cb) <= timeout cb /\
    let '(s', admitted) := spec_step (failureThreshold cb) (baseAllowed cb) (maxAllowed cb) eff t1 t2 s
                             (IsClusterUnavailable err) in
    Execute rnd cb t1 t2 (err, ev) =
      Ok (cb', if admitted then err else Some (open_error cb), if admitted then ev else []) /\
    represents t2 cb' s' /\ same_cfg cb cb'.
Proof.
  intros Hr Hc Hs H01 H12.
  destruct (jitter_preserves rnd t0 cb s Hs) as (d & cb0 & Ej & G0 & R0).
  assert (O0 : breaker_cfg_ok cb0) by (by eapply same_cfg_ok).
  pose proof O0 as (_ & _ & _ & Tm & Jm).
  destruct (effective_timeout_ok rnd cb0 Hr Tm Jm) as (eff & Ee & Be).
  assert (G0' := G0). destruct G0' as (GT & GB & GM & GO & _ & GR).
  unfold Execute. rewrite Ej. cbn. rewrite GO in Be.
  apply (represents_later _ t1) in R0; [|lia].
  destruct s as [f|since|l k]; cbn.
  - pose proof R0 as (S & F & B). exists eff. unfold canProceed, updateStateLocked.
    rewrite S, F, (proj2 (Z.leb_gt _ _)) by lia. cbn. rewrite S. cbn.
    apply (represents_later _ t2) in R0; [|lia].
    destruct (record_closed rnd t2 cb0 err f R0 ltac:(lia)) as (cb' & -> & G & R).
    exists cb'. split; [done|]. cbn in R. rewrite GT in R. split_and!; try done. by etrans.
  - destruct (admit_open rnd t1 cb0 since eff O0 R0 ltac:(lia) Ee) as (cb1 & -> & G1 & C1). cbn.
    exists eff. destruct (eff <? t1 - since) eqn:X; cbn.
    + destruct C1 as (S1 & F1 & L1 & K1 & A1).
      assert (O1 : breaker_cfg_ok cb1) by (by eapply same_cfg_ok).
      pose proof O1 as (_ & B1 & _). assert (G1' := G1). destruct G1' as (HT & HB & HM & _).
      destruct (record_half rnd t2 cb1 err (baseAllowed cb1) 0 O1 S1 F1) as (cb' & -> & G & R);
        try (congruence || lia).
      exists cb'. split; [done|]. cbn in R. rewrite HM, HB, GM, GB in R.
      split_and!; try done. etrans; [exact G0|by etrans].
    + exists cb1. split; [done|]. split; [|split; [eapply (represents_later t1 t2 _ (Open since)); [exact C1|lia]|by etrans]].
      unfold open_error. destruct G1 as (_ & _ & _ & _ & _ & ->). by rewrite GR.
  - destruct (admit_half rnd t1 cb0 l k R0) as (cb1 & -> & G1 & S1 & F1 & L1 & K1 & A1). cbn.
    destruct R0 as (_ & _ & _ & _ & _ & Bk & Bl).
    exists eff. assert (O1 : breaker_cfg_ok cb1) by (by eapply same_cfg_ok).
    assert (G1' := G1). destruct G1' as (HT & HB & HM & _).
    destruct (record_half rnd t2 cb1 err l k O1 S1) as (cb' & -> & G & R); try (congruence || lia).
    exists cb'. split; [done|]. cbn in R. rewrite HM, GM in R.
    split_and!; try done. etrans; [exact G0|by etrans].
Qed.

(** ** Every request returns

    Execute does not panic when the jitter is off or the timeout at least 10 ns;
    its caller gets the function's own result and effects, or the circuit-open
    error and none. *)
Definition breaker_total (cb : CircuitBreaker) : Prop := jitterMax cb <= 0 \/ 10 <= timeout cb.

Lemma same_cfg_total a b : same_cfg a b -> breaker_total a -> breaker_total b.
Proof. unfold same_cfg, breaker_total. intros (_ & _ & _ & -> & -> & _). done. Qed.

Lemma calculateEffectiveTimeout_total rnd cb :
  breaker_total cb -> exists eff, calculateEffectiveTimeout rnd cb = Ok eff.
Proof.
  intros B. unfold calculateEffectiveTimeout. destruct (jitterMax cb <=? 0) eqn:E; [eauto|]. bools.
  destruct B as [B|B]; [lia|]. rewrite (go_div_pos (timeout cb) 10) by lia.
  set (m := if _ <? _ then _ else _).
  assert (0 < m) by (unfold m; destruct (Z.ltb_spec (timeout cb / 10) (jitterMax cb)); zdiv).
  unfold Int63n. rewrite (proj2 (Z.leb_gt _ _)) by lia. cbn. eauto.
Qed.

Lemma transition_cfg now cb s reason : same_cfg cb (transitionToLocked now cb s reason).
Proof. pose proof (transition_core now cb s reason) as C. cbn in C. apply C. Qed.

Lemma updateHalfOpen_cfg now cb : same_cfg cb (updateHalfOpenStateLocked now cb).
Proof.
  unfold updateHalfOpenStateLocked, progressToNextLevelLocked.
  repeat case_match; first [done|apply transition_cfg|by split_and!].
Qed.

Lemma updateState_total rnd now cb :
  breaker_total cb -> exists cb', updateStateLocked rnd now cb = Ok cb' /\ same_cfg cb cb'.
Proof.
  intros B. unfold updateStateLocked, shouldTransitionToHalfOpenLocked. destruct (state cb).
  - eexists. split; [done|]. case_match; [apply transition_cfg|done].
  - destruct (calculateEffectiveTimeout_total rnd cb B) as [eff ->]. cbn. eexists. split; [done|].
    case_match; [apply transition_cfg|done].
  - eexists. split; [done|]. apply updateHalfOpen_cfg.
Qed.

Lemma canProceed_total rnd now cb :
  breaker_total cb -> exists cb' b, canProceed rnd now cb = Ok (cb', b) /\ same_cfg cb cb'.
Proof.
  intros B. unfold canProceed. destruct (updateState_total rnd now cb B) as (cb1 & -> & G). cbn.
  unfold canProceedHalfOpenLocked, fireRejectionHookLocked.
  repeat case_match; do 2 eexists; (split; [done|]); simplify_eq; try done;
    etrans; try exact G; try apply fire_cfg; by split_and!.
Qed.

Lemma recordResult_total rnd now cb err :
  breaker_total cb -> exists cb', recordResult rnd now cb err = Ok cb' /\ same_cfg cb cb'.
Proof.
  intros B. unfold recordResult. set (cb1 := if bool_decide _ then _ else cb).
  assert (G1 : same_cfg cb cb1) by (unfold cb1; case_match; [by split_and!|done]). clearbody cb1.
  set (cb2 := if IsClusterUnavailable err then _ else _).
  assert (G2 : same_cfg cb1 cb2) by (unfold cb2; case_match; by split_and!). clearbody cb2.
  destruct (updateState_total rnd now cb2) as (cb3 & E & G3).
  { eapply same_cfg_total; [|exact B]. by etrans. }
  exists cb3. split; [done|]. etrans; [|exact G3]. by etrans.
Qed.

Lemma Execute_total {Ev} rnd cb t1 t2 (fn : option error * list Ev) :
  breaker_total cb -> exists cb' r, Execute rnd cb t1 t2 fn = Ok (cb', r.1, r.2) /\ same_cfg cb cb' /\
    (r = fn \/ r = (Some (open_error cb), [])).
Proof.
  intros B. unfold Execute. destruct (jitter_ok rnd cb) as (d & cb0 & E & H). rewrite E. cbn. clear E.
  assert (G0 : same_cfg cb cb0) by (destruct H as [->|[e ->]]; [done|apply fire_cfg]). clear H.
  destruct (canProceed_total rnd t1 cb0) as (cb1 & b & E & G1); [by eapply same_cfg_total|]. rewrite E. cbn.
  assert (G : same_cfg cb cb1) by by etrans. destruct b.
  - destruct (recordResult_total rnd t2 cb1 fn.1) as (cb2 & E2 & G2); [by eapply same_cfg_total|].
    rewrite E2. cbn. exists cb2, fn. split_and!; [done|by etrans|by left].
  - exists cb1, (Some (open_error cb1), []). split_and!; [done|done|right].
    unfold open_error. by destruct G as (_ & _ & _ & _ & _ & ->).
Qed.

(** ** Sequences of requests *)

(** A request: the random draws, when it starts and ends, what it returns. *)
Record request : Type := { req_rnd : Z -> Z; req_start : Z; req_end : Z; req_err : option error }.

(** The breaker over the requests of a list, one after the other, with the
    results its callers get and the requests that ran. *)
Fixpoint execute_all (cb : CircuitBreaker) (rs : list request)
    : result (CircuitBreaker * list (option error) * list request) :=
  match rs with
  | [] => Ok (cb, [], [])
  | r :: rs =>
      '(cb, e, ran) ← Execute (req_rnd r) cb (req_start r) (req_end r) (req_err r, [r]);
      '(cb, es, rans) ← execute_all cb rs;
      Ok (cb, e :: es, ran ++ rans)
  end.

(** The requests do not overlap and follow each other from time [t] on. *)
Fixpoint sequential (t : Z) (rs : list request) : Prop :=
  match rs with
  | [] => t <= max_int64
  | r :: rs => rnd_ok (req_rnd r) /\ t <= req_start r <= req_end r /\ req_end r <= max_int64 /\
      sequential (req_end r) rs
  end.

(** The protocol over the same requests: which were admitted, and the state it
    ends in.  The timeout each one meets is within 5 percent of [tmo]. *)
Inductive spec_run (thr base_ max_ tmo : Z) : recovery -> list request -> list bool -> recovery -> Prop :=
  | spec_nil s : spec_run thr base_ max_ tmo s [] [] s
  | spec_cons s r rs eff s1 b bs s2 :
      20 * Z.abs (eff - tmo) <= tmo ->
      spec_step thr base_ max_ eff (req_start r) (req_end r) s (IsClusterUnavailable (req_err r)) = (s1, b) ->
      spec_run thr base_ max_ tmo s1 rs bs s2 ->
      spec_run thr base_ max_ tmo s (r :: rs) (b :: bs) s2.

(** What the callers get: their own result when admitted, the circuit-open
    error otherwise. *)
Definition replies (res : string) (rs : list request) (bs : list bool) : list (option error) :=
  zip_with (fun r (b : bool) => if b then req_err r
    else Some (NewConnectionFailedError "circuit-breaker" res (Some (Errorf "circuit breaker open" [])))) rs bs.

(** The requests that ran: those admitted. *)
Definition admitted_of (rs : list request) (bs : list bool) : list request :=
  concat (zip_with (fun r (b : bool) => if b then [r] else []) rs bs).

(** The refinement, by induction on the requests. *)
Lemma breaker_refines rs : forall cb t s,
  breaker_cfg_ok cb -> represents t cb s -> 0 <= t -> sequential t rs ->
  exists cb' bs s' t', execute_all cb rs = Ok (cb', replies (resource cb) rs bs, admitted_of rs bs) /\
    spec_run (failureThreshold cb) (baseAllowed cb) (maxAllowed cb) (timeout cb) s rs bs s' /\
    represents t' cb' s' /\ same_cfg cb cb'.
Proof.
  induction rs as [|r rs IH]; intros cb t s Hc Hs Ht Hq.
  { exists cb, [], s, t. split_and!; try done. constructor. }
  destruct Hq as (Hr & H01 & H12 & Hq).
  destruct (Execute_refines (req_rnd r) cb t (req_start r) (req_end r) (req_err r) [r] s Hr Hc Hs
    ltac:(lia) ltac:(lia)) as (eff & cb1 & B & E).
  destruct (spec_step _ _ _ _ _ _ _ _) as [s1 b] eqn:Es. destruct E as (E & R1 & G1).
  destruct (IH cb1 (req_end r) s1) as (cb' & bs & s' & t' & E' & S' & R' & G'); [by eapply same_cfg_ok|done|lia|done|].
  destruct G1 as (Q1 & Q2 & Q3 & Q4 & Q5 & Q6). rewrite Q1, Q2, Q3, Q4 in S'. rewrite Q6 in E'.
  exists cb', (b :: bs), s', t'. split_and!.
  - cbn [execute_all]. rewrite E. cbn [mbind res_bind]. rewrite E'. cbn. by destruct b.
  - by eapply spec_cons.
  - done.
  - etrans; [|exact G']. by split_and!.
Qed.

(** *** The success threshold

    The same breaker with another success threshold. *)
Definition with_success (n : Z) (cb : CircuitBreaker) : CircuitBreaker :=
  {| failureThreshold := failureThreshold cb; successThreshold := n;
     timeout := timeout cb; jitterMax := jitterMax cb; baseAllowed := baseAllowed cb;
     maxAllowed := maxAllowed cb; hooks := hooks cb; resource := resource cb; state := state cb;
     consecutiveFailures := consecutiveFailures cb; consecutiveSuccesses := consecutiveSuccesses cb;
     lastFailureTime := lastFailureTime cb; lastError := lastError cb;
     lastStateChangeTime := lastStateChangeTime cb; allowedRequests := allowedRequests cb;
     activeRequests := activeRequests cb; successCount := successCount cb; fired := fired cb |}.

Lemma fire_success n cb e : fire (with_success n cb) e = with_success n (fire cb e).
Proof. unfold fire. by destruct cb as [? ? ? ? ? ? [] ? ? ? ? ? ? ? ? ? ? ?]. Qed.

Lemma transition_success n now cb s r :
  transitionToLocked now (with_success n cb) s r = with_success n (transitionToLocked now cb s r).
Proof.
  unfold transitionToLocked, firePreStateChangeHookLocked, firePostStateChangeHookLocked, fire.
  by destruct cb as [? ? ? ? ? ? [] ? [] ? ? ? ? ? ? ? ? ?], s.
Qed.

Lemma updateHalfOpen_success n now cb :
  updateHalfOpenStateLocked now (with_success n cb) = with_success n (updateHalfOpenStateLocked now cb).
Proof.
  unfold updateHalfOpenStateLocked, progressToNextLevelLocked. rewrite !transition_success.
  cbn [with_success consecutiveFailures consecutiveSuccesses allowedRequests maxAllowed]. by repeat case_match.
Qed.

Lemma updateState_success n rnd now cb :
  updateStateLocked rnd now (with_success n cb) = with_success n <$> updateStateLocked rnd now cb.
Proof.
  unfold updateStateLocked, shouldTransitionToHalfOpenLocked. rewrite !transition_success, updateHalfOpen_success.
  change (calculateEffectiveTimeout rnd (with_success n cb)) with (calculateEffectiveTimeout rnd cb).
  cbn [with_success state failureThreshold consecutiveFailures lastFailureTime].
  destruct (state cb); [by case_match| |done]. destruct (calculateEffectiveTimeout rnd cb); [|done..]. cbn. by case_match.
Qed.

Lemma canProceed_success n rnd now cb :
  canProceed rnd now (with_success n cb) = (fun r => (with_success n r.1, r.2)) <$> canProceed rnd now cb.
Proof.
  unfold canProceed. rewrite updateState_success. destruct (updateStateLocked rnd now cb) as [cb1| |]; [|done..].
  cbn. unfold canProceedHalfOpenLocked, fireRejectionHookLocked. rewrite !fire_success.
  cbn [with_success state allowedRequests activeRequests]. destruct (state cb1); [done..|].
  destruct (_ =? 0); [done|].
  destruct (_ <=? _); [|done]. cbn. by rewrite fire_success.
Qed.

Lemma recordResult_success n rnd now cb err :
  recordResult rnd now (with_success n cb) err = with_success n <$> recordResult rnd now cb err.
Proof.
  unfold recordResult. rewrite <- updateState_success. f_equal. cbn [with_success state].
  by destruct (bool_decide _), (IsClusterUnavailable err).
Qed.

Lemma execute_all_success n rs : forall cb,
  execute_all (with_success n cb) rs = (fun r => (with_success n r.1.1, r.1.2, r.2)) <$> execute_all cb rs.
Proof.
  induction rs as [|r rs IH]; intros cb; [done|]. cbn [execute_all]. unfold Execute.
  assert (J : applyJitterDelay (req_rnd r) (with_success n cb) =
              (fun x => (x.1, with_success n x.2)) <$> applyJitterDelay (req_rnd r) cb).
  { unfold applyJitterDelay. cbn [with_success jitterMax state].
    case_match; [|done]. destruct (Int63n _ _); [|done..]. cbn. case_match; [by rewrite <- fire_success|done]. }
  rewrite J. clear J. destruct (applyJitterDelay (req_rnd r) cb) as [[d cb1]| |]; [|done..].
  cbn. rewrite canProceed_success.
  destruct (canProceed _ _ _) as [[cb2 []]| |]; cbn.
  - rewrite recordResult_success. destruct (recordResult _ _ _ _) as [cb3| |]; [|done..]. cbn. rewrite IH.
    by destruct (execute_all cb3 rs) as [[[? ?] ?]| |].
  - rewrite IH. by destruct (execute_all cb2 rs) as [[[? ?] ?]| |].
  - done.
  - done.
Qed.

(** C12. Requests that do not overlap follow the recovery protocol of the half-open
    levels, whatever the jitter drawn and whether or not hooks are attached: any
    sequence of Execute calls on the detailed breaker is a run of the recovery
    automaton (count failures while closed, wait about the timeout while open,
    climb the levels while recovering), ends in a breaker that represents the
    automaton's state, runs exactly the admitted requests, and answers the
    rejected callers, and only those, with the circuit-open error.  The success
    threshold, which the comments and the ADRs document as the number of
    successes that close the breaker, has no part in it: with any other value
    the same requests run and get the same answers. *)
Theorem breaker_refines_recovery rs cb t s :
  breaker_cfg_ok cb -> represents t cb s -> 0 <= t -> sequential t rs ->
  exists cb' bs s' t', execute_all cb rs = Ok (cb', replies (resource cb) rs bs, admitted_of rs bs) /\
    spec_run (failureThreshold cb) (baseAllowed cb) (maxAllowed cb) (timeout cb) s rs bs s' /\
    represents t' cb' s' /\ same_cfg cb cb' /\
    forall n, execute_all (with_success n cb) rs =
      Ok (with_success n cb', replies (resource cb) rs bs, admitted_of rs bs).
Proof.
  intros C R T S. destruct (breaker_refines rs cb t s C R T S) as (cb' & bs & s' & t' & E & P & R' & G).
  exists cb', bs, s', t'. split_and!; try done. intros n. by rewrite execute_all_success, E.
Qed.

Lemma spec_run_length thr base_ max_ tmo s rs bs s' :
  spec_run thr base_ max_ tmo s rs bs s' -> length bs = length rs.
Proof. induction 1; cbn; congruence. Qed.

Lemma replies_admitted res rs bs :
  length bs = length rs -> Forall (fun b => b = true) bs ->
  replies res rs bs = map req_err rs /\ admitted_of rs bs = rs.
Proof.
  revert bs. induction rs as [|r rs IH]; intros [|b bs] L F; try done.
  apply Forall_cons in F as [-> F]. destruct (IH bs) as [E1 E2]; [by injection L|done|].
  unfold replies, admitted_of in *. cbn. by rewrite E1, E2.
Qed.

(** Successes from a recovering state: each one brings the close nearer. *)
Lemma spec_recovers thr base_ max_ tmo : forall rs s bs s',
  spec_run thr base_ max_ tmo s rs bs s' ->
  Forall (fun r => IsClusterUnavailable (req_err r) = false) rs ->
  match s with
  | Recovering l k => 0 <= k < l /\ l <= max_ /\ 2 * max_ - l - k <= Z.of_nat (length rs)
  | Closed f => f = 0
  | Open _ => False
  end -> s' = Closed 0 /\ Forall (fun b => b = true) bs.
Proof.
  intros rs s bs s' R F. induction R as [s|s r rs eff s1 b bs s2 B E R IH]; intros P.
  - destruct s; cbn in P; [by subst|done|lia].
  - apply Forall_cons in F as [F0 F]. rewrite F0 in E. cbn [length] in P.
    assert (b = true) as -> by (destruct s; cbn in E; [congruence|done|congruence]).
    specialize (IH F). destruct IH as [-> Hb]; [|split; [done|by constructor]].
    destruct s as [f| |l k]; cbn in E; [| |]; [by injection E as <-|done|].
    destruct (l <=? k + 1) eqn:X; bools; [|injection E as <-; lia].
    destruct (max_ <? 2 * l) eqn:Y; bools; injection E as <-; [done|lia].
Qed.

(** C13. Recovery terminates: once an open breaker has let a request through and
    it succeeded, or at any later point of the recovery, a breaker at level l
    with k successes is closed again after at most 2*max - l - k successful
    requests in a row, none of which it rejects. *)
Theorem recovery_completes rs cb t l k :
  breaker_cfg_ok cb -> represents t cb (Recovering l k) -> 0 <= t -> sequential t rs ->
  Forall (fun r => IsClusterUnavailable (req_err r) = false) rs ->
  2 * maxAllowed cb - l - k <= Z.of_nat (length rs) ->
  exists cb', execute_all cb rs = Ok (cb', map req_err rs, rs) /\ GetState cb' = StateClosed /\
    consecutiveFailures cb' = 0.
Proof.
  intros Hc Hs Ht Hq F L.
  destruct (breaker_refines rs cb t (Recovering l k)) as (cb' & bs & s' & t' & E & R & R' & _); try done.
  pose proof Hs as (_ & _ & _ & _ & _ & Bk & Bl).
  destruct (spec_recovers _ _ _ _ _ _ _ _ R F) as [-> B]; [lia|].
  destruct R' as (S & Z0 & _). exists cb'. split_and!; try done.
  destruct (replies_admitted (resource cb) rs bs) as [E1 E2]; [by eapply spec_run_length|done|].
  by rewrite E, E1, E2.
Qed.
