(* ===== verification/SinkOptions.v ===== *)
(** * Sink and source options (internal/sink/options.go, internal/source/options.go)

    Options are records; a functional option is a function on them.  The
    enumerations are those of the vendored QuasarDB client. *)
From S2P Require Import Prelude GoInt GoStr GoFloat GoTime Values.

Inductive WriterPushMode : Set := WriterPushModeTransactional | WriterPushModeFast | WriterPushModeAsync.
Inductive WriterDeduplicationMode : Set :=
  WriterDeduplicationModeDisabled | WriterDeduplicationModeDrop | WriterDeduplicationModeUpsert.
Inductive Compression : Set := CompNone | CompBalanced.
Inductive Encryption : Set := EncryptNone | EncryptAES.

Module SinkOpts.
(** [OnRetryProgress] is kept as whether a callback is set. *)
Record Options : Type := {
  ClusterUri : string;
  ClusterPublicKeyFile : string;
  ClusterPublicKey : string;
  UserSecurityFile : string;
  UserName : string;
  UserSecret : string;
  Encryption_ : option Encryption;
  PushMode : WriterPushMode;
  Compression_ : Compression;
  DeduplicationMode : WriterDeduplicationMode;
  ClientMaxParallelism : option Z;
  ClientMaxInBufSize : option Z;
  RetryAttempts : Z;
  Timeout : option Z;
  OnRetryProgress : bool;
}.

Definition Option : Type := Options -> Options.

Definition NewOptions (opts : list Option) : Options :=
  let options :=
    {| ClusterUri := EmptyString; ClusterPublicKeyFile := EmptyString; ClusterPublicKey := EmptyString;
       UserSecurityFile := EmptyString; UserName := EmptyString; UserSecret := EmptyString;
       Encryption_ := None; PushMode := WriterPushModeAsync; Compression_ := CompNone;
       DeduplicationMode := WriterDeduplicationModeDrop; ClientMaxParallelism := None;
       ClientMaxInBufSize := None; RetryAttempts := 10; Timeout := None; OnRetryProgress := false |} in
  foldl (fun options opt => opt options) options opts.

Definition WithClusterUri (uri : string) : Option := fun o =>
  {| ClusterUri := uri; ClusterPublicKeyFile := ClusterPublicKeyFile o;
     ClusterPublicKey := ClusterPublicKey o; UserSecurityFile := UserSecurityFile o; UserName := UserName o;
     UserSecret := UserSecret o; Encryption_ := Encryption_ o; PushMode := PushMode o;
     Compression_ := Compression_ o; DeduplicationMode := DeduplicationMode o;
     ClientMaxParallelism := ClientMaxParallelism o; ClientMaxInBufSize := ClientMaxInBufSize o;
     RetryAttempts := RetryAttempts o; Timeout := Timeout o; OnRetryProgress := OnRetryProgress o |}.

Definition WithClusterPublicKeyFile (file : string) : Option := fun o =>
  {| ClusterUri := ClusterUri o; ClusterPublicKeyFile := file; ClusterPublicKey := ClusterPublicKey o;
     UserSecurityFile := UserSecurityFile o; UserName := UserName o; UserSecret := UserSecret o;
     Encryption_ := Encryption_ o; PushMode := PushMode o; Compression_ := Compression_ o;
     DeduplicationMode := DeduplicationMode o; ClientMaxParallelism := ClientMaxParallelism o;
     ClientMaxInBufSize := ClientMaxInBufSize o; RetryAttempts := RetryAttempts o; Timeout := Timeout o;
     OnRetryProgress := OnRetryProgress o |}.

Definition WithClusterPublicKey (key : string) : Option := fun o =>
  {| ClusterUri := ClusterUri o; ClusterPublicKeyFile := ClusterPublicKeyFile o; ClusterPublicKey := key;
     UserSecurityFile := UserSecurityFile o; UserName := UserName o; UserSecret := UserSecret o;
     Encryption_ := Encryption_ o; PushMode := PushMode o; Compression_ := Compression_ o;
     DeduplicationMode := DeduplicationMode o; ClientMaxParallelism := ClientMaxParallelism o;
     ClientMaxInBufSize := ClientMaxInBufSize o; RetryAttempts := RetryAttempts o; Timeout := Timeout o;
     OnRetryProgress := OnRetryProgress o |}.

Definition WithUserSecurityFile (file : string) : Option := fun o =>
  {| ClusterUri := ClusterUri o; ClusterPublicKeyFile := ClusterPublicKeyFile o;
     ClusterPublicKey := ClusterPublicKey o; UserSecurityFile := file; UserName := UserName o;
     UserSecret := UserSecret o; Encryption_ := Encryption_ o; PushMode := PushMode o;
     Compression_ := Compression_ o; DeduplicationMode := DeduplicationMode o;
     ClientMaxParallelism := ClientMaxParallelism o; ClientMaxInBufSize := ClientMaxInBufSize o;
     RetryAttempts := RetryAttempts o; Timeout := Timeout o; OnRetryProgress := OnRetryProgress o |}.

Definition WithUserName (name : string) : Option := fun o =>
  {| ClusterUri := ClusterUri o; ClusterPublicKeyFile := ClusterPublicKeyFile o;
     ClusterPublicKey := ClusterPublicKey o; UserSecurityFile := UserSecurityFile o; UserName := name;
     UserSecret := UserSecret o; Encryption_ := Encryption_ o; PushMode := PushMode o;
     Compression_ := Compression_ o; DeduplicationMode := DeduplicationMode o;
     ClientMaxParallelism := ClientMaxParallelism o; ClientMaxInBufSize := ClientMaxInBufSize o;
     RetryAttempts := RetryAttempts o; Timeout := Timeout o; OnRetryProgress := OnRetryProgress o |}.

Definition WithUserSecret (secret : string) : Option := fun o =>
  {| ClusterUri := ClusterUri o; ClusterPublicKeyFile := ClusterPublicKeyFile o;
     ClusterPublicKey := ClusterPublicKey o; UserSecurityFile := UserSecurityFile o; UserName := UserName o;
     UserSecret := secret; Encryption_ := Encryption_ o; PushMode := PushMode o;
     Compression_ := Compression_ o; DeduplicationMode := DeduplicationMode o;
     ClientMaxParallelism := ClientMaxParallelism o; ClientMaxInBufSize := ClientMaxInBufSize o;
     RetryAttempts := RetryAttempts o; Timeout := Timeout o; OnRetryProgress := OnRetryProgress o |}.

Definition WithEncryption (enc : option Encryption) : Option := fun o =>
  {| ClusterUri := ClusterUri o; ClusterPublicKeyFile := ClusterPublicKeyFile o;
     ClusterPublicKey := ClusterPublicKey o; UserSecurityFile := UserSecurityFile o; UserName := UserName o;
     UserSecret := UserSecret o; Encryption_ := enc; PushMode := PushMode o; Compression_ := Compression_ o;
     DeduplicationMode := DeduplicationMode o; ClientMaxParallelism := ClientMaxParallelism o;
     ClientMaxInBufSize := ClientMaxInBufSize o; RetryAttempts := RetryAttempts o; Timeout := Timeout o;
     OnRetryProgress := OnRetryProgress o |}.

Definition WithPushMode (mode : WriterPushMode) : Option := fun o =>
  {| ClusterUri := ClusterUri o; ClusterPublicKeyFile := ClusterPublicKeyFile o;
     ClusterPublicKey := ClusterPublicKey o; UserSecurityFile := UserSecurityFile o; UserName := UserName o;
     UserSecret := UserSecret o; Encryption_ := Encryption_ o; PushMode := mode;
     Compression_ := Compression_ o; DeduplicationMode := DeduplicationMode o;
     ClientMaxParallelism := ClientMaxParallelism o; ClientMaxInBufSize := ClientMaxInBufSize o;
     RetryAttempts := RetryAttempts o; Timeout := Timeout o; OnRetryProgress := OnRetryProgress o |}.

Definition WithCompression (c : Compression) : Option := fun o =>
  {| ClusterUri := ClusterUri o; ClusterPublicKeyFile := ClusterPublicKeyFile o;
     ClusterPublicKey := ClusterPublicKey o; UserSecurityFile := UserSecurityFile o; UserName := UserName o;
     UserSecret := UserSecret o; Encryption_ := Encryption_ o; PushMode := PushMode o; Compression_ := c;
     DeduplicationMode := DeduplicationMode o; ClientMaxParallelism := ClientMaxParallelism o;
     ClientMaxInBufSize := ClientMaxInBufSize o; RetryAttempts := RetryAttempts o; Timeout := Timeout o;
     OnRetryProgress := OnRetryProgress o |}.

Definition WithDeduplicationMode (mode : WriterDeduplicationMode) : Option := fun o =>
  {| ClusterUri := ClusterUri o; ClusterPublicKeyFile := ClusterPublicKeyFile o;
     ClusterPublicKey := ClusterPublicKey o; UserSecurityFile := UserSecurityFile o; UserName := UserName o;
     UserSecret := UserSecret o; Encryption_ := Encryption_ o; PushMode := PushMode o;
     Compression_ := Compression_ o; DeduplicationMode := mode;
     ClientMaxParallelism := ClientMaxParallelism o; ClientMaxInBufSize := ClientMaxInBufSize o;
     RetryAttempts := RetryAttempts o; Timeout := Timeout o; OnRetryProgress := OnRetryProgress o |}.

Definition WithClientMaxParallelism (par : Z) : Option := fun o =>
  {| ClusterUri := ClusterUri o; ClusterPublicKeyFile := ClusterPublicKeyFile o;
     ClusterPublicKey := ClusterPublicKey o; UserSecurityFile := UserSecurityFile o; UserName := UserName o;
     UserSecret := UserSecret o; Encryption_ := Encryption_ o; PushMode := PushMode o;
     Compression_ := Compression_ o; DeduplicationMode := DeduplicationMode o;
     ClientMaxParallelism := Some par; ClientMaxInBufSize := ClientMaxInBufSize o;
     RetryAttempts := RetryAttempts o; Timeout := Timeout o; OnRetryProgress := OnRetryProgress o |}.

Definition WithClientMaxInBufSize (size : Z) : Option := fun o =>
  {| ClusterUri := ClusterUri o; ClusterPublicKeyFile := ClusterPublicKeyFile o;
     ClusterPublicKey := ClusterPublicKey o; UserSecurityFile := UserSecurityFile o; UserName := UserName o;
     UserSecret := UserSecret o; Encryption_ := Encryption_ o; PushMode := PushMode o;
     Compression_ := Compression_ o; DeduplicationMode := DeduplicationMode o;
     ClientMaxParallelism := ClientMaxParallelism o; ClientMaxInBufSize := Some size;
     RetryAttempts := RetryAttempts o; Timeout := Timeout o; OnRetryProgress := OnRetryProgress o |}.

Definition WithRetryAttempts (attempts : Z) : Option := fun o =>
  {| ClusterUri := ClusterUri o; ClusterPublicKeyFile := ClusterPublicKeyFile o;
     ClusterPublicKey := ClusterPublicKey o; UserSecurityFile := UserSecurityFile o; UserName := UserName o;
     UserSecret := UserSecret o; Encryption_ := Encryption_ o; PushMode := PushMode o;
     Compression_ := Compression_ o; DeduplicationMode := DeduplicationMode o;
     ClientMaxParallelism := ClientMaxParallelism o; ClientMaxInBufSize := ClientMaxInBufSize o;
     RetryAttempts := attempts; Timeout := Timeout o; OnRetryProgress := OnRetryProgress o |}.

Definition WithTimeout (timeout : Z) : Option := fun o =>
  {| ClusterUri := ClusterUri o; ClusterPublicKeyFile := ClusterPublicKeyFile o;
     ClusterPublicKey := ClusterPublicKey o; UserSecurityFile := UserSecurityFile o; UserName := UserName o;
     UserSecret := UserSecret o; Encryption_ := Encryption_ o; PushMode := PushMode o;
     Compression_ := Compression_ o; DeduplicationMode := DeduplicationMode o;
     ClientMaxParallelism := ClientMaxParallelism o; ClientMaxInBufSize := ClientMaxInBufSize o;
     RetryAttempts := RetryAttempts o; Timeout := Some timeout; OnRetryProgress := OnRetryProgress o |}.

Definition WithOnRetryProgress (fn : bool) : Option := fun o =>
  {| ClusterUri := ClusterUri o; ClusterPublicKeyFile := ClusterPublicKeyFile o;
     ClusterPublicKey := ClusterPublicKey o; UserSecurityFile := UserSecurityFile o; UserName := UserName o;
     UserSecret := UserSecret o; Encryption_ := Encryption_ o; PushMode := PushMode o;
     Compression_ := Compression_ o; DeduplicationMode := DeduplicationMode o;
     ClientMaxParallelism := ClientMaxParallelism o; ClientMaxInBufSize := ClientMaxInBufSize o;
     RetryAttempts := RetryAttempts o; Timeout := Timeout o; OnRetryProgress := fn |}.

(** The interface the connector's options implement: what each method returns. *)
Record OptionsProvider : Type := {
  p_ClusterUri : string; p_ClusterPublicKeyFile : string; p_UserSecurityFile : string;
  p_Encryption : option Encryption; p_Compression : Compression;
  p_DeduplicationMode : WriterDeduplicationMode; p_PushMode : WriterPushMode;
  p_ClientMaxParallelism : option Z; p_ClientMaxInBufSize : option Z; p_Timeout : option Z }.

Definition FromOptionsProvider (p : OptionsProvider) : Options :=
  let opts :=
    [WithClusterUri (p_ClusterUri p); WithClusterPublicKeyFile (p_ClusterPublicKeyFile p);
     WithUserSecurityFile (p_UserSecurityFile p); WithEncryption (p_Encryption p);
     WithCompression (p_Compression p); WithDeduplicationMode (p_DeduplicationMode p);
     WithPushMode (p_PushMode p)] in
  let opts := match p_ClientMaxParallelism p with
              | Some par => opts ++ [WithClientMaxParallelism par] | None => opts end in
  let opts := match p_ClientMaxInBufSize p with
              | Some size => opts ++ [WithClientMaxInBufSize size] | None => opts end in
  let opts := match p_Timeout p with Some t => opts ++ [WithTimeout t] | None => opts end in
  NewOptions opts.

(** The sink's configuration is exactly what the provider returns; the retry
    count is always the default of ten attempts, and no credentials pass. *)
Lemma FromOptionsProvider_fields p :
  FromOptionsProvider p =
  {| ClusterUri := p_ClusterUri p; ClusterPublicKeyFile := p_ClusterPublicKeyFile p;
     ClusterPublicKey := EmptyString; UserSecurityFile := p_UserSecurityFile p;
     UserName := EmptyString; UserSecret := EmptyString; Encryption_ := p_Encryption p;
     PushMode := p_PushMode p; Compression_ := p_Compression p;
     DeduplicationMode := p_DeduplicationMode p; ClientMaxParallelism := p_ClientMaxParallelism p;
     ClientMaxInBufSize := p_ClientMaxInBufSize p; RetryAttempts := 10; Timeout := p_Timeout p;
     OnRetryProgress := false |}.
Proof.
  unfold FromOptionsProvider. destruct p as [u k f e c d m [par|] [size|] [t|]]; reflexivity.
Qed.
End SinkOpts.

Module SourceOpts.
(** [Metrics] is kept as whether a sink for observations is set. *)
Record Options : Type := {
  Endpoint : string; StreamName : string; ConsumerName : string; CredsFile : string;
  TLSCAFile : string; BatchSize : Z; BatchTimeout : Z; FetchTimeout : Z; Metrics : bool }.

Definition Option : Type := Options -> Options.

Definition NewOptions (opts : list Option) : Options :=
  let options :=
    {| Endpoint := EmptyString; StreamName := EmptyString; ConsumerName := EmptyString;
       CredsFile := EmptyString; TLSCAFile := EmptyString; BatchSize := 100; BatchTimeout := Second;
       FetchTimeout := 5 * Second; Metrics := false |} in
  foldl (fun options opt => opt options) options opts.

Definition WithEndpoint (endpoint : string) : Option := fun o =>
  {| Endpoint := endpoint; StreamName := StreamName o; ConsumerName := ConsumerName o;
     CredsFile := CredsFile o; TLSCAFile := TLSCAFile o; BatchSize := BatchSize o;
     BatchTimeout := BatchTimeout o; FetchTimeout := FetchTimeout o; Metrics := Metrics o |}.

Definition WithStreamName (streamName : string) : Option := fun o =>
  {| Endpoint := Endpoint o; StreamName := streamName; ConsumerName := ConsumerName o;
     CredsFile := CredsFile o; TLSCAFile := TLSCAFile o; BatchSize := BatchSize o;
     BatchTimeout := BatchTimeout o; FetchTimeout := FetchTimeout o; Metrics := Metrics o |}.

Definition WithCredsFile (path : string) : Option := fun o =>
  {| Endpoint := Endpoint o; StreamName := StreamName o; ConsumerName := ConsumerName o; CredsFile := path;
     TLSCAFile := TLSCAFile o; BatchSize := BatchSize o; BatchTimeout := BatchTimeout o;
     FetchTimeout := FetchTimeout o; Metrics := Metrics o |}.

Definition WithTLSCAFile (path : string) : Option := fun o =>
  {| Endpoint := Endpoint o; StreamName := StreamName o; ConsumerName := ConsumerName o;
     CredsFile := CredsFile o; TLSCAFile := path; BatchSize := BatchSize o; BatchTimeout := BatchTimeout o;
     FetchTimeout := FetchTimeout o; Metrics := Metrics o |}.

Definition WithBatchSize (batchSize : Z) : Option := fun o =>
  {| Endpoint := Endpoint o; StreamName := StreamName o; ConsumerName := ConsumerName o;
     CredsFile := CredsFile o; TLSCAFile := TLSCAFile o; BatchSize := batchSize;
     BatchTimeout := BatchTimeout o; FetchTimeout := FetchTimeout o; Metrics := Metrics o |}.

Definition WithBatchTimeout (timeout : Z) : Option := fun o =>
  {| Endpoint := Endpoint o; StreamName := StreamName o; ConsumerName := ConsumerName o;
     CredsFile := CredsFile o; TLSCAFile := TLSCAFile o; BatchSize := BatchSize o; BatchTimeout := timeout;
     FetchTimeout := FetchTimeout o; Metrics := Metrics o |}.

Definition WithFetchTimeout (timeout : Z) : Option := fun o =>
  {| Endpoint := Endpoint o; StreamName := StreamName o; ConsumerName := ConsumerName o;
     CredsFile := CredsFile o; TLSCAFile := TLSCAFile o; BatchSize := BatchSize o;
     BatchTimeout := BatchTimeout o; FetchTimeout := timeout; Metrics := Metrics o |}.

Definition WithMetrics (m : bool) : Option := fun o =>
  {| Endpoint := Endpoint o; StreamName := StreamName o; ConsumerName := ConsumerName o;
     CredsFile := CredsFile o; TLSCAFile := TLSCAFile o; BatchSize := BatchSize o;
     BatchTimeout := BatchTimeout o; FetchTimeout := FetchTimeout o; Metrics := m |}.

Record OptionsProvider : Type := {
  p_URL : string; p_StreamName : string; p_CredsFile : string; p_TLSCAFile : string;
  p_BatchSize : Z; p_BatchTimeout : Z; p_FetchTimeout : Z }.

Definition FromOptionsProvider (p : OptionsProvider) : Options :=
  NewOptions
    [WithEndpoint (p_URL p); WithStreamName (p_StreamName p); WithCredsFile (p_CredsFile p);
     WithTLSCAFile (p_TLSCAFile p); WithBatchSize (p_BatchSize p); WithBatchTimeout (p_BatchTimeout p);
     WithFetchTimeout (p_FetchTimeout p)].
End SourceOpts.
