(* ===== verification/Sink.v ===== *)
(** * Sink: synchronous writes to QuasarDB (internal/sink/sink.go)

    The cluster, the clock and the context enter through [SinkEnv]: what push
    number [i] returns, and whether the context is found cancelled at the two
    points of attempt [i] where the code looks.  Each operation returns its
    error with the list of events it caused. *)
From S2P Require Import Prelude GoInt GoStr GoFloat GoTime Values Qdb SinkOptions.
Import SinkOpts.

(** ** The writer of the QuasarDB client (vendored writer.go)

    The table map, in insertion order. *)
Definition SetTable `{MapIter} (w : list WriterTable) (t : WriterTable) : error + list WriterTable :=
  if bool_decide (TableName t ∈ TableName <$> w) then
    inl (QdbError ErrInvalidArgument "writer_set_table" [AS "table"; AS (TableName t); AS "reason"; AS "already exists"])
  else match head (iter w) with
       | Some existing =>
           if writerTableSchemasEqual existing t then inr (w ++ [t])
           else inl (QdbError ErrInvalidArgument "writer_set_table"
                       [AS "table"; AS (TableName t); AS "existing_table"; AS (TableName existing);
                        AS "reason"; AS "schema mismatch"])
       | None => inr (w ++ [t])
       end.

(** ** Environment and events *)

Record SinkEnv : Type := {
  push_result : nat -> option error;   (* writer.Push of attempt i *)
  wait_cancelled : nat -> bool;        (* ctx.Done wins the sleep before attempt i *)
  ctx_cancelled : nat -> bool;         (* ctx.Err() before attempt i *)
  ctx_err : error                      (* ctx.Err() once cancelled *)
}.

Inductive sink_event : Type :=
  | Slept (d : Z)
  | Progress
  | Pushed (tables : list WriterTable) (err : option error).

(** ** Retries *)

Definition retryBaseBackoff : Z := 3 * Second.
Definition retryMaxBackoff : Z := 300 * Second.

(** waitBackoff before attempt [i]. *)
Definition waitBackoff (env : SinkEnv) (i : nat) (backoff : Z) : option error * list sink_event :=
  if wait_cancelled env i
  then (Some (NewWriteFailedError "sink" (Wrapf "context cancelled during retry backoff: %w" [] (ctx_err env))), [])
  else (None, [Slept backoff; Progress]).

(** The loop of retryWithBackoff from attempt [i] on, [fuel] attempts before
    the end; [push i] is the result and the events of a call to push. *)
Fixpoint retry_loop (env : SinkEnv) (push : nat -> option error * list sink_event)
    (attempts maxBackoff : Z) (fuel i : nat) (backoff : Z) (err : option error) : option error * list sink_event :=
  match fuel with
  | O => (err, [])
  | S fuel =>
      let '(waitErr, ev, backoff) :=
        if (0 <? i)%nat then
          let '(waitErr, ev) := waitBackoff env i backoff in
          (waitErr, ev, Z.min (wrap64 (backoff * 2)) maxBackoff)
        else (None, [], backoff) in
      match waitErr with
      | Some e => (Some e, ev)
      | None =>
          if ctx_cancelled env i then
            (Some (NewWriteFailedError "sink"
               (Wrapf "context cancelled before write attempt: %w" [] (ctx_err env))), ev)
          else
            let '(err, ev') := push i in
            match err with
            | None => (None, ev ++ ev')
            | Some e =>
                if negb (IsRetryable err) then (err, ev ++ ev')
                else
                  let ev'' := if Z.of_nat i <? attempts - 1 then [Progress] else [] in
                  let '(r, tr) := retry_loop env push attempts maxBackoff fuel (S i) backoff err in
                  (r, ev ++ ev' ++ ev'' ++ tr)
            end
      end
  end.

(** [for attempt := range attempts] runs no iteration for attempts <= 0. *)
Definition retryWithBackoff (env : SinkEnv) (attempts base maxBackoff : Z)
    (push : nat -> option error * list sink_event) : option error * list sink_event :=
  retry_loop env push attempts maxBackoff (Z.to_nat attempts) 0 base None.

(** ** The sink *)

Record Sink : Type := { Options_ : Options; closed : bool }.

(** pushTables: the tables are added to a fresh writer, which is then pushed. *)
Fixpoint set_tables `{MapIter} (w tables : list WriterTable) : error + list WriterTable :=
  match tables with
  | [] => inr w
  | t :: rest => match SetTable w t with inl e => inl e | inr w => set_tables w rest end
  end.

Definition pushTables `{MapIter} (env : SinkEnv) (tables : list WriterTable) (i : nat)
    : option error * list sink_event :=
  match set_tables [] tables with
  | inl e => (Some e, [])
  | inr w => (push_result env i, [Pushed w (push_result env i)])
  end.

Definition writeWithRetry `{MapIter} (env : SinkEnv) (s : Sink) (tables : list WriterTable)
    : option error * list sink_event :=
  if (length tables =? 0)%nat then (None, [])
  else retryWithBackoff env (RetryAttempts (Options_ s)) retryBaseBackoff retryMaxBackoff (pushTables env tables).

Definition Write `{MapIter} (env : SinkEnv) (s : Sink) (tables : list WriterTable)
    : option error * list sink_event :=
  if closed s then (Some (NewWriteFailedError "sink" (Errorf "sink is closed" [])), [])
  else if (length tables =? 0)%nat then (Some (NewWriteFailedError "sink" (Errorf "no tables provided" [])), [])
  else writeWithRetry env s tables.

Definition Connect (s : Sink) : option error := None.

(** Close: the new sink, and whether the handle was released by this call. *)
Definition Close (s : Sink) : Sink * bool :=
  ({| Options_ := Options_ s; closed := true |}, negb (closed s)).

(** ** Construction *)

Definition validateSinkOptions (opts : Options) : result unit :=
  guard_err (String.eqb (ClusterUri opts) EmptyString)
    (NewInvalidConfigError "sink" "cluster_uri is required" []).

(** qdb.HandleOptions (vendored): the fields the sink sets. *)
Record HandleOptions : Type := {
  h_clusterUri : string; h_clusterPublicKeyFile : string; h_clusterPublicKey : string;
  h_userSecurityFile : string; h_user : option (string * string); h_compression : Compression;
  h_encryption : option Encryption; h_parallelism : option Z; h_inBufSize : option Z; h_timeout : option Z }.

Definition configureClientParameters (h : HandleOptions) (opts : Options) : result HandleOptions :=
  guard_err (match ClientMaxParallelism opts with Some p => max_int64 <? p | None => false end)
    (Errorf "client max parallelism %d exceeds maximum allowed value %d"
       [AZ (default 0 (ClientMaxParallelism opts)); AZ max_int64]);;
  Ok {| h_clusterUri := h_clusterUri h; h_clusterPublicKeyFile := h_clusterPublicKeyFile h;
        h_clusterPublicKey := h_clusterPublicKey h; h_userSecurityFile := h_userSecurityFile h;
        h_user := h_user h; h_compression := h_compression h; h_encryption := h_encryption h;
        h_parallelism := match ClientMaxParallelism opts with Some p => Some p | None => h_parallelism h end;
        h_inBufSize := match ClientMaxInBufSize opts with Some n => Some n | None => h_inBufSize h end;
        h_timeout := h_timeout h |}.

Definition configureOptionalParameters (h : HandleOptions) (opts : Options) : HandleOptions :=
  {| h_clusterUri := h_clusterUri h; h_clusterPublicKeyFile := h_clusterPublicKeyFile h;
     h_clusterPublicKey :=
       if String.eqb (ClusterPublicKey opts) EmptyString then h_clusterPublicKey h else ClusterPublicKey opts;
     h_userSecurityFile := h_userSecurityFile h;
     h_user := if negb (String.eqb (UserName opts) EmptyString) && negb (String.eqb (UserSecret opts) EmptyString)
               then Some (UserName opts, UserSecret opts) else h_user h;
     h_compression := h_compression h; h_encryption := h_encryption h;
     h_parallelism := h_parallelism h; h_inBufSize := h_inBufSize h;
     h_timeout := match Timeout opts with Some t => Some t | None => h_timeout h end |}.

Definition buildHandleOptions (opts : Options) : result HandleOptions :=
  let h := {| h_clusterUri := ClusterUri opts; h_clusterPublicKeyFile := ClusterPublicKeyFile opts;
              h_clusterPublicKey := EmptyString; h_userSecurityFile := UserSecurityFile opts; h_user := None;
              h_compression := Compression_ opts; h_encryption := Encryption_ opts;
              h_parallelism := None; h_inBufSize := None; h_timeout := None |} in
  h ← configureClientParameters h opts;
  Ok (configureOptionalParameters h opts).

(** [connect] is qdb.NewHandleFromOptions. *)
Definition NewSink (connect : HandleOptions -> option error) (opts : Options) : result Sink :=
  validateSinkOptions opts;;
  handleOpts ← buildHandleOptions opts;
  match connect handleOpts with
  | Some err => Err (NewConnectionFailedError "sink" (ClusterUri opts) (Some err))
  | None => Ok {| Options_ := opts; closed := false |}
  end.

(** ** Laws *)

(** The tables of a batch after merging: names are distinct, one schema. *)
Definition pushable (cols : list WriterColumn) (tables : list WriterTable) : Prop :=
  NoDup (TableName <$> tables) /\ Forall (fun t => columnInfoByOffset t = cols) tables.

Lemma set_tables_ok `{MapIter} cols w tables :
  pushable cols (w ++ tables) -> set_tables w tables = inr (w ++ tables).
Proof.
  revert w. induction tables as [|t tables IH]; intros w [N F]; [by rewrite app_nil_r|].
  cbn. unfold SetTable. rewrite bool_decide_eq_false_2.
  2: { rewrite fmap_app, NoDup_app in N. intros I. apply (proj1 (proj2 N) _ I). left. }
  apply Forall_app in F as [Fw Ft]. apply Forall_cons in Ft as [Et Ft].
  assert (E : match head (iter w) with
    | Some existing => if writerTableSchemasEqual existing t then inr (w ++ [t])
        else inl (QdbError ErrInvalidArgument "writer_set_table" [AS "table"; AS (TableName t);
          AS "existing_table"; AS (TableName existing); AS "reason"; AS "schema mismatch"])
    | None => inr (w ++ [t]) end = inr (w ++ [t])).
  { destruct (head (iter w)) as [x|] eqn:Eh; [|done]. unfold writerTableSchemasEqual.
    rewrite bool_decide_eq_true_2; [done|]. rewrite Et. rewrite Forall_forall in Fw. apply Fw.
    rewrite <- (iter_perm w). destruct (iter w); [done|]. injection Eh as ->. left. }
  rewrite E, (IH (w ++ [t])); rewrite <- app_assoc; [done|]. split; [done|].
  apply Forall_app. split; [done|by constructor].
Qed.

(** What a trace pushed, and how long it slept. *)
Definition pushes (tr : list sink_event) : list (list WriterTable * option error) :=
  omap (fun e => match e with Pushed t r => Some (t, r) | _ => None end) tr.
Definition sleeps (tr : list sink_event) : list Z :=
  omap (fun e => match e with Slept d => Some d | _ => None end) tr.

Lemma pushes_app a b : pushes (a ++ b) = pushes a ++ pushes b.
Proof. apply omap_app. Qed.
Lemma sleeps_app a b : sleeps (a ++ b) = sleeps a ++ sleeps b.
Proof. apply omap_app. Qed.

(** The i-th backoff: 3 s doubling up to 300 s. *)
Definition backoff_delay (i : nat) : Z := Z.min retryMaxBackoff (retryBaseBackoff * 2 ^ Z.of_nat i).

Lemma backoff_delay_S i : Z.min (wrap64 (backoff_delay i * 2)) retryMaxBackoff = backoff_delay (S i).
Proof.
  unfold backoff_delay. assert (1 <= 2 ^ Z.of_nat i) by (apply (Z.pow_le_mono_r 2 0); lia).
  assert (B : retryBaseBackoff = 3000000000) by reflexivity.
  assert (M : retryMaxBackoff = 300000000000) by reflexivity. rewrite B, M.
  rewrite wrap64_id by (unfold_range; lia). rewrite Nat2Z.inj_succ, Z.pow_succ_r by lia. lia.
Qed.

(** The context error the sink returns when it gives up before attempt [k]. *)
Definition gave_up (env : SinkEnv) (k : nat) (res : option error) : Prop :=
  (exists msg, res = Some (NewWriteFailedError "sink" (Wrapf msg [] (ctx_err env)))) /\
  (ctx_cancelled env k = true \/ (0 < k)%nat /\ wait_cancelled env k = true).

Lemma retry_loop_outcome env tables push n :
  (forall i, push i = (push_result env i, [Pushed tables (push_result env i)])) -> forall fuel i err res tr,
  retry_loop env push (Z.of_nat n) retryMaxBackoff fuel i (backoff_delay (pred i)) err = (res, tr) -> (i + fuel)%nat = n ->
  exists k m, (i <= k <= n)%nat /\
    pushes tr = (fun j => (tables, push_result env j)) <$> seq i (k - i) /\
    (forall j, (i <= j)%nat -> (S j < k)%nat -> IsRetryable (push_result env j) = true) /\
    sleeps tr = backoff_delay <$> seq (pred i) m /\ (pred k <= pred i + m <= k)%nat /\
    ((i < k)%nat /\ res = push_result env (pred k) /\ (IsRetryable res = false \/ k = n)
     \/ (i = k /\ k = n)%nat /\ res = err
     \/ (k < n)%nat /\ ((i < k)%nat -> IsRetryable (push_result env (pred k)) = true) /\ gave_up env k res).
Proof.
  intros Hp. induction fuel as [|fuel IH]; intros i err res tr E L; cbn [retry_loop] in E; [|rewrite Hp in E].
  { injection E as <- <-. exists n, 0%nat. rewrite Nat.add_0_r in *. subst. rewrite Nat.sub_diag.
    split_and!; try done; try lia. right. by left. }
  assert (W : exists waitErr ev backoff,
    (if (0 <? i)%nat then let '(waitErr, ev) := waitBackoff env i (backoff_delay (pred i)) in
       (waitErr, ev, Z.min (wrap64 (backoff_delay (pred i) * 2)) retryMaxBackoff)
     else (None, [], backoff_delay (pred i))) = (waitErr, ev, backoff) /\ backoff = backoff_delay i /\
    pushes ev = [] /\
    ((waitErr = None /\ sleeps ev = backoff_delay <$> seq (pred i) (i - pred i)) \/
     (sleeps ev = [] /\ gave_up env i waitErr /\ exists e, waitErr = Some e))).
  { unfold waitBackoff, gave_up. destruct (Nat.ltb_spec 0 i) as [P|P].
    - destruct i as [|i]; [lia|]. cbn [pred]. rewrite backoff_delay_S.
      destruct (wait_cancelled env (S i)) eqn:C; do 3 eexists; (split; [done|]); split_and!; try done.
      + right. split_and!; eauto.
      + left. split; [done|]. replace (S i - i)%nat with 1%nat by lia. done.
    - assert (i = 0%nat) as -> by lia. do 3 eexists. split; [done|]. split_and!; try done. by left. }
  destruct W as (we & ev & bo & We & -> & Pe & We'). rewrite We in E.
  destruct We' as [[-> Sl]|(Sl & G & e & ->)].
  2: { injection E as <- <-. exists i, 0%nat. rewrite Nat.sub_diag. split_and!; try done; try lia.
       right. right. split_and!; [lia|lia|done]. }
  destruct (ctx_cancelled env i) eqn:C.
  { injection E as <- <-. exists i, (i - pred i)%nat. rewrite Nat.sub_diag, Pe. split_and!; try done; try lia.
    right. right. split_and!; [lia|lia|]. unfold gave_up. eauto. }
  destruct (push_result env i) as [e|] eqn:Pi.
  2: { injection E as <- <-. exists (S i), (i - pred i)%nat. replace (S i - i)%nat with 1%nat by lia.
       rewrite pushes_app, sleeps_app, Pe, Sl. cbn. rewrite app_nil_r, Pi.
       split_and!; try done; try lia. left. split_and!; [lia|by cbn|by left]. }
  destruct (IsRetryable (Some e)) eqn:R; cbn [negb] in E.
  - destruct (retry_loop _ _ _ _ _ _ _ _) as [r tr'] eqn:El in E. injection E as <- <-.
    destruct (IH (S i) (Some e) r tr' El ltac:(lia)) as (k & m & K & Pu & Re & Sp & Mb & O).
    exists k, (i - pred i + m)%nat.
    set (b := Z.of_nat i <? Z.of_nat n - 1). set (ev2 := if b then [Progress] else []).
    assert (P2 : pushes ev2 = [] /\ sleeps ev2 = []) by (unfold ev2; by destruct b).
    destruct P2 as [P2 S2]. clearbody ev2. cbn [app].
    change (Pushed tables (Some e) :: ev2 ++ tr') with ([Pushed tables (Some e)] ++ ev2 ++ tr').
    rewrite !pushes_app, !sleeps_app, Pe, Sl, P2, S2, Pu, Sp. cbn [pred] in *.
    replace (k - i)%nat with (S (k - S i)) by lia.
    split_and!; try done; try lia.
    + cbn. by rewrite Pi.
    + intros j Hj Hk. destruct (decide (i = j)) as [<-|]; [by rewrite Pi|]. apply Re; lia.
    + rewrite seq_app, fmap_app. by replace (pred i + (i - pred i))%nat with i by lia.
    + destruct O as [(O1 & O2 & O3)|[((O1 & O2) & O3)|(O1 & O2 & O3)]].
      * left. split_and!; [lia|done|done].
      * left. subst k r. cbn. rewrite Pi. split_and!; [lia|done|by right].
      * right. right. split_and!; [lia| |done]. intros _.
        destruct (decide (S i = k)) as [<-|]; [cbn; by rewrite Pi|apply O2; lia].
  - injection E as <- <-. exists (S i), (i - pred i)%nat. replace (S i - i)%nat with 1%nat by lia.
    rewrite pushes_app, sleeps_app, Pe, Sl. cbn. rewrite app_nil_r, Pi.
    split_and!; try done; try lia. left. split_and!; [lia|by cbn|by left].
Qed.

(** C14. A write of an open sink, for any behaviour of the cluster and the context:
    it pushes exactly the given tables, k times for some k up to the number of
    attempts; it goes on after an attempt only if the error is retryable, and
    sleeps 3 s, 6 s, ... up to 300 s in between; and it returns the result of
    its last push unchanged, unless the context was cancelled first.  So a nil
    error means that the last push, of all the tables, succeeded. *)
Theorem write_outcome `{MapIter} env s cols tables :
  closed s = false -> tables <> [] -> pushable cols tables -> 0 < RetryAttempts (Options_ s) ->
  exists k m, let '(err, tr) := Write env s tables in
    Z.of_nat k <= RetryAttempts (Options_ s) /\
    pushes tr = (fun j => (tables, push_result env j)) <$> seq 0 k /\
    (forall j, (S j < k)%nat -> IsRetryable (push_result env j) = true) /\
    sleeps tr = backoff_delay <$> seq 0 m /\ (pred k <= m <= k)%nat /\
    ((0 < k)%nat /\ err = push_result env (pred k) /\
       (IsRetryable err = false \/ Z.of_nat k = RetryAttempts (Options_ s))
     \/ Z.of_nat k < RetryAttempts (Options_ s) /\ gave_up env k err).
Proof.
  intros C T P A.
  assert (Hp : forall i, pushTables env tables i = (push_result env i, [Pushed tables (push_result env i)]))
    by (intros i; unfold pushTables; by rewrite (set_tables_ok cols [] tables P)).
  destruct (Write env s tables) as [err tr] eqn:E. unfold Write, writeWithRetry in E.
  rewrite C in E. destruct tables as [|t ts] eqn:Et; [done|]. rewrite <- Et in *. clear T.
  assert (L : (length tables =? 0)%nat = false) by (by subst). rewrite L in E.
  unfold retryWithBackoff in E.
  destruct (retry_loop_outcome env tables (pushTables env tables) (Z.to_nat (RetryAttempts (Options_ s))) Hp
    (Z.to_nat (RetryAttempts (Options_ s))) 0 None err tr) as (k & m & K & Pu & Re & Sp & Mb & O).
  { by rewrite Z2Nat.id by lia. }
  { lia. }
  exists k, m. cbn [pred] in Mb. rewrite Nat.sub_0_r in Pu. split_and!; try done; try lia.
  - intros j. apply Re. lia.
  - destruct O as [(O1 & O2 & O3)|[(O1 & _)|(O1 & _ & O3)]]; [left|lia|right; split; [lia|done]].
    split_and!; [lia|done|]. destruct O3; [by left|right; lia].
Qed.

(** A write that returns nil pushed all the tables. *)
Lemma retry_loop_ok env push attempts mb : forall fuel i bo err tr,
  retry_loop env push attempts mb fuel i bo err = (None, tr) -> (0 < fuel)%nat ->
  exists j, (push j).1 = None /\ (push j).2 ⊆ tr.
Proof.
  induction fuel as [|fuel IH]; intros i bo err tr E L; [lia|]. cbn [retry_loop] in E.
  destruct (if (0 <? i)%nat then _ else _) as [[[e|] ev] bo'] in E; [done|].
  destruct (ctx_cancelled env i); [done|].
  destruct (push i) as [[e|] ev'] eqn:P.
  - destruct (negb (IsRetryable (Some e))) eqn:R; [done|].
    destruct (retry_loop _ _ _ _ _ _ _ _) as [r tr'] eqn:El in E. injection E as -> <-.
    destruct fuel as [|fuel]; [by cbn in El|].
    destruct (IH _ _ _ _ El ltac:(lia)) as (j & J1 & J2). exists j. split; [done|]. set_solver.
  - injection E as <-. exists i. rewrite P. split; [done|]. cbn. set_solver.
Qed.

Lemma Write_ok_pushed `{MapIter} env s cols tables tr :
  Write env s tables = (None, tr) -> pushable cols tables -> 0 < RetryAttempts (Options_ s) ->
  Pushed tables None ∈ tr.
Proof.
  unfold Write, writeWithRetry, retryWithBackoff. intros E P A.
  destruct (closed s); [done|]. destruct (length tables =? 0)%nat; [done|].
  apply retry_loop_ok in E as (j & E & S); [|lia]. unfold pushTables in *.
  rewrite (set_tables_ok cols [] tables P) in *. cbn in *. apply S. rewrite E. left.
Qed.
