(* ===== verification/Hooks.v ===== *)
(** * Lifecycle hooks (connector/hooks/hooks.go)

    A hook observes [D] and may panic; [Ev] is whatever it does to the outside.
    The registry keeps the hooks of each name in registration order. *)
From S2P Require Import Prelude GoInt GoStr GoFloat GoTime.

Definition PreHookWarningThreshold : Z := 100 * Microsecond.
Definition PostHookWarningThreshold : Z := 500 * Microsecond.

Section hooks.
Context {D Ev : Type}.

(** What a hook did before it returned, and whether it ended in a panic. *)
Definition HookFunc : Type := D -> list Ev * bool.
Definition HookRegistry : Type := gmap string (list HookFunc).

Definition NewHookRegistry : HookRegistry := ∅.

Definition Register (r : HookRegistry) (name : string) (fn : HookFunc) : HookRegistry :=
  <[name := default [] (r !! name) ++ [fn]]> r.

Definition getWarningThreshold (name : string) : Z :=
  if bool_decide (name ∈ ["PreRead"; "PreWrite"; "PreAck"; "PreCircuitBreakerStateChange"; "PreCircuitBreakerJitter"])
  then PreHookWarningThreshold
  else if bool_decide (name ∈ ["PostRead"; "PostWrite"; "PostAck"; "PostCircuitBreakerStateChange"])
  then PostHookWarningThreshold
  else if String.eqb name "PostCircuitBreakerRequestRejected" then 5 * Microsecond
  else PreHookWarningThreshold.

(** The recover of a panicking hook: its effects so far stay. *)
Definition executeHookWithRecovery (hook : HookFunc) (data : D) : list Ev := (hook data).1.

Inductive log : Type :=
  | SlowHook (hook_index : nat) (execution_time : Z)
  | SlowTotal (total_execution_time : Z) (hook_count : nat).

(** Execute: the effects of the hooks and the warnings; [dur i] is the time
    hook [i] took and [total] the time of the whole call. *)
Definition Execute (r : HookRegistry) (name : string) (data : D) (dur : nat -> Z) (total : Z)
    : list Ev * list log :=
  match r !! name with
  | None => ([], [])
  | Some hooks =>
      let threshold := getWarningThreshold name in
      (concat ((fun hook => executeHookWithRecovery hook data) <$> hooks),
       omap (fun i => if threshold <? dur i then Some (SlowHook i (dur i)) else None) (seq 0 (length hooks))
       ++ (if (1 <? length hooks)%nat && (threshold <? total) then [SlowTotal total (length hooks)] else []))
  end.

(** Registering the hooks of a list of (name, hook) pairs. *)
Definition Register_all (regs : list (string * HookFunc)) : HookRegistry :=
  foldl (fun r '(name, fn) => Register r name fn) NewHookRegistry regs.

Lemma Register_all_lookup regs name :
  default [] (Register_all regs !! name) = (List.filter (fun p => String.eqb p.1 name) regs).*2.
Proof.
  unfold Register_all. induction regs as [|[n f] regs IH] using rev_ind; [done|].
  rewrite foldl_app, List.filter_app, fmap_app. cbn [foldl].
  set (r := foldl _ _ regs) in *. clearbody r. unfold Register, HookRegistry in *.
  destruct (String.eqb_spec n name) as [->|N].
  - rewrite lookup_insert_eq. cbn. rewrite IH, String.eqb_refl. done.
  - rewrite lookup_insert_ne by done. cbn. rewrite (proj2 (String.eqb_neq n name)) by done.
    cbn. by rewrite app_nil_r.
Qed.

(** Hooks are isolated: Execute runs every hook registered under the name, in
    registration order and each exactly once, whichever of them panic, and
    no hook of another name; a warning is logged exactly for the hooks over
    their threshold. *)
Theorem hooks_isolated regs name data dur total :
  let hooks := (List.filter (fun p => String.eqb p.1 name) regs).*2 in
  (Execute (Register_all regs) name data dur total).1 = concat ((fun hook => (hook data).1) <$> hooks) /\
  forall i d, SlowHook i d ∈ (Execute (Register_all regs) name data dur total).2 <->
    (i < length hooks)%nat /\ d = dur i /\ getWarningThreshold name < d.
Proof.
  intros hooks. pose proof (Register_all_lookup regs name) as E. fold hooks in E. unfold Execute.
  destruct (Register_all regs !! name) as [hs|]; cbn in E; subst hooks; rewrite <- E.
  - split; [done|]. intros i d. cbn. rewrite elem_of_app, list_elem_of_omap. split.
    + intros [(j & J & X)|X].
      * apply elem_of_seq in J. destruct (_ <? dur j) eqn:Y; [|done]. injection X as -> <-. bools.
        split_and!; [lia|done|lia].
      * exfalso. destruct (_ && _); [apply list_elem_of_singleton in X; done|by apply elem_of_nil in X].
    + intros (L & -> & T). left. exists i. split; [apply elem_of_seq; lia|].
      by rewrite (proj2 (Z.ltb_lt _ _)).
  - split; [done|]. intros i d. cbn. split; [intros X; by apply elem_of_nil in X|lia].
Qed.
End hooks.
