(* ===== verification/Manager.v ===== *)
(** * Circuit breaker manager (connector/resilience/manager.go)

    Breakers are shared by pointer: the manager maps a resource to an address
    and the heap holds the breakers. *)
From S2P Require Import Prelude GoInt GoStr GoFloat GoTime Values Qdb Breaker.

Definition ptr : Type := nat.

Record Manager : Type := {
  breakers : gmap string ptr;
  heap : list CircuitBreaker;
  defaultFailureThreshold : Z; defaultSuccessThreshold : Z; defaultTimeout : Z; defaultJitterMax : Z;
  defaultHalfOpenBase : Z; defaultHalfOpenMax : Z;
  manager_hooks : bool
}.

Definition ManagerOption : Type := Manager -> Manager.

Definition NewManager (opts : list ManagerOption) : Manager :=
  let m := {| breakers := ∅; heap := []; defaultFailureThreshold := 5; defaultSuccessThreshold := 2;
              defaultTimeout := 30 * Second; defaultJitterMax := 100 * Millisecond;
              defaultHalfOpenBase := 1; defaultHalfOpenMax := 32; manager_hooks := false |} in
  foldl (fun m opt => opt m) m opts.

Definition WithDefaults (failureThreshold successThreshold timeout : Z) : ManagerOption := fun m =>
  {| breakers := breakers m; heap := heap m; defaultFailureThreshold := failureThreshold;
     defaultSuccessThreshold := successThreshold; defaultTimeout := timeout;
     defaultJitterMax := defaultJitterMax m; defaultHalfOpenBase := defaultHalfOpenBase m;
     defaultHalfOpenMax := defaultHalfOpenMax m; manager_hooks := manager_hooks m |}.

Definition WithDefaultJitter (maxJitter : Z) : ManagerOption := fun m =>
  {| breakers := breakers m; heap := heap m; defaultFailureThreshold := defaultFailureThreshold m;
     defaultSuccessThreshold := defaultSuccessThreshold m; defaultTimeout := defaultTimeout m;
     defaultJitterMax := maxJitter; defaultHalfOpenBase := defaultHalfOpenBase m;
     defaultHalfOpenMax := defaultHalfOpenMax m; manager_hooks := manager_hooks m |}.

Definition WithDefaultHalfOpen (base maxAllowed : Z) : ManagerOption := fun m =>
  {| breakers := breakers m; heap := heap m; defaultFailureThreshold := defaultFailureThreshold m;
     defaultSuccessThreshold := defaultSuccessThreshold m; defaultTimeout := defaultTimeout m;
     defaultJitterMax := defaultJitterMax m; defaultHalfOpenBase := base;
     defaultHalfOpenMax := maxAllowed; manager_hooks := manager_hooks m |}.

(** [registry] tells whether the registry is non-nil. *)
Definition WithHookRegistry (registry : bool) : ManagerOption := fun m =>
  {| breakers := breakers m; heap := heap m; defaultFailureThreshold := defaultFailureThreshold m;
     defaultSuccessThreshold := defaultSuccessThreshold m; defaultTimeout := defaultTimeout m;
     defaultJitterMax := defaultJitterMax m; defaultHalfOpenBase := defaultHalfOpenBase m;
     defaultHalfOpenMax := defaultHalfOpenMax m; manager_hooks := registry |}.

Definition set_breakers (m : Manager) (b : gmap string ptr) (h : list CircuitBreaker) : Manager :=
  {| breakers := b; heap := h; defaultFailureThreshold := defaultFailureThreshold m;
     defaultSuccessThreshold := defaultSuccessThreshold m; defaultTimeout := defaultTimeout m;
     defaultJitterMax := defaultJitterMax m; defaultHalfOpenBase := defaultHalfOpenBase m;
     defaultHalfOpenMax := defaultHalfOpenMax m; manager_hooks := manager_hooks m |}.

(** ForResource under the read lock: the fast path. *)
Definition lookup_breaker (m : Manager) (resource : string) : option ptr := breakers m !! resource.

(** ForResource under the write lock: the second check, then the creation. *)
Definition create_breaker (now : Z) (m : Manager) (resource : string) : Manager * ptr :=
  match breakers m !! resource with
  | Some p => (m, p)
  | None =>
      let breaker := NewCircuitBreaker (defaultFailureThreshold m) (defaultSuccessThreshold m)
        (defaultTimeout m) (manager_hooks m) resource (defaultJitterMax m) (defaultHalfOpenBase m)
        (defaultHalfOpenMax m) now in
      let p := length (heap m) in
      (set_breakers m (<[resource := p]> (breakers m)) (heap m ++ [breaker]), p)
  end.

(** ForResource with no other caller in between. *)
Definition ForResource (now : Z) (m : Manager) (resource : string) : Manager * ptr :=
  match lookup_breaker m resource with
  | Some p => (m, p)
  | None => create_breaker now m resource
  end.

Definition GetBreaker (m : Manager) (resource : string) : option ptr := breakers m !! resource.

Definition ListResources `{MapIter} (m : Manager) : list string := iter (map_to_list (breakers m)).*1.

(** Applying a breaker method to the object at an address. *)
Definition on_breaker (m : Manager) (p : ptr) (f : CircuitBreaker -> CircuitBreaker) : Manager :=
  set_breakers m (breakers m) (alter f p (heap m)).

Definition ResetAll `{MapIter} (m : Manager) : Manager :=
  foldl (fun m p => on_breaker m p BreakerReset) m (iter (map_to_list (breakers m)).*2).

Definition ResetResource (m : Manager) (resource : string) : Manager * bool :=
  match breakers m !! resource with
  | Some p => (on_breaker m p BreakerReset, true)
  | None => (m, false)
  end.

Record CircuitBreakerStats : Type := { Resource : string; State_ : string; IsOpen_ : bool }.

Definition GetStats (m : Manager) : gmap string CircuitBreakerStats :=
  map_imap (fun resource p => breaker ← heap m !! p;
    Some {| Resource := resource; State_ := State_String (GetState breaker); IsOpen_ := IsOpen breaker |})
    (breakers m).

(** ** Concurrent callers of ForResource

    Each caller takes the read lock, and on a miss the write lock; between the
    two anything can happen, including requests that change a breaker. *)
Inductive caller : Type :=
  | Start (resource : string)
  | Missed (resource : string)
  | Got (resource : string) (p : ptr).

Record world : Type := { mgr : Manager; callers : list caller }.

Inductive step : world -> world -> Prop :=
  | step_read_hit m cs i r p :
      cs !! i = Some (Start r) -> lookup_breaker m r = Some p ->
      step {| mgr := m; callers := cs |} {| mgr := m; callers := <[i := Got r p]> cs |}
  | step_read_miss m cs i r :
      cs !! i = Some (Start r) -> lookup_breaker m r = None ->
      step {| mgr := m; callers := cs |} {| mgr := m; callers := <[i := Missed r]> cs |}
  | step_write m cs i r now m' p :
      cs !! i = Some (Missed r) -> create_breaker now m r = (m', p) ->
      step {| mgr := m; callers := cs |} {| mgr := m'; callers := <[i := Got r p]> cs |}
  | step_use m cs i r p f :
      cs !! i = Some (Got r p) ->
      step {| mgr := m; callers := cs |} {| mgr := on_breaker m p f; callers := cs |}.

Definition initial (opts : list ManagerOption) (resources : list string) : world :=
  {| mgr := set_breakers (NewManager opts) ∅ []; callers := Start <$> resources |}.

(** The map is a bijection between its resources and the heap, and every
    caller that is done holds the address in the map. *)
Record world_inv (w : world) : Prop := {
  inv_bound r p : breakers (mgr w) !! r = Some p -> (p < length (heap (mgr w)))%nat;
  inv_inj r1 r2 p : breakers (mgr w) !! r1 = Some p -> breakers (mgr w) !! r2 = Some p -> r1 = r2;
  inv_size : size (breakers (mgr w)) = length (heap (mgr w));
  inv_got r p : Got r p ∈ callers w -> breakers (mgr w) !! r = Some p;
}.

Lemma create_breaker_inv now m r m' p cs :
  world_inv {| mgr := m; callers := cs |} -> create_breaker now m r = (m', p) ->
  world_inv {| mgr := m'; callers := cs |} /\ breakers m' !! r = Some p /\
  (forall r' p', breakers m !! r' = Some p' -> breakers m' !! r' = Some p').
Proof.
  intros [B I S G] E. unfold create_breaker in E. cbn in *.
  destruct (breakers m !! r) as [q|] eqn:L; injection E as <- <-; [by split_and!|].
  assert (K : forall r' p', breakers m !! r' = Some p' ->
    <[r := length (heap m)]> (breakers m) !! r' = Some p').
  { intros r' p' X. rewrite lookup_insert_ne; [done|]. congruence. }
  split_and!; [|cbn; by rewrite lookup_insert_eq|exact K]. split; cbn.
  - intros r' p'. rewrite length_app. cbn. rewrite lookup_insert_Some.
    intros [[<- <-]|[_ X]]; [lia|apply B in X; lia].
  - intros r1 r2 p'. rewrite !lookup_insert_Some.
    intros [[<- <-]|[_ X]] [[<- Y]|[_ Y]]; try done.
    + apply B in Y. lia.
    + subst. apply B in X. lia.
    + by eapply I.
  - rewrite map_size_insert_None by done. rewrite S, length_app. cbn. lia.
  - intros r' p' X. by apply K, G.
Qed.

Lemma callers_got (cs : list caller) (i : nat) c r p :
  Got r p ∈ <[i := c]> cs -> Got r p ∈ cs \/ c = Got r p.
Proof.
  intros (j & J)%list_elem_of_lookup_1. apply list_lookup_insert_Some in J as [(-> & -> & _)|[_ J]].
  - by right.
  - left. by eapply list_elem_of_lookup_2.
Qed.

Lemma step_inv w w' : world_inv w -> step w w' -> world_inv w'.
Proof.
  intros Iv St. destruct St as [m cs i r p Hc L|m cs i r Hc L|m cs i r now m' p Hc E|m cs i r p f Hc].
  - destruct Iv as [B I S G]. split; try done. cbn in *.
    intros r' p' [X|X]%callers_got; [by apply G|by injection X as <- <-].
  - destruct Iv as [B I S G]. split; try done. cbn in *. intros r' p' [X|X]%callers_got; [by apply G|done].
  - destruct (create_breaker_inv now m r m' p cs Iv E) as ([B I S G] & F & _). split; try done. cbn in *.
    intros r' p' [X|X]%callers_got; [by apply G|by injection X as <- <-].
  - destruct Iv as [B I S G]. split; try done; cbn in *; intros; rewrite length_alter; eauto.
Qed.

Lemma initial_inv opts rs : world_inv (initial opts rs).
Proof.
  split; cbn; try done.
  intros r p (x & E & _)%list_elem_of_fmap. done.
Qed.

(** C28. Whatever the interleaving of concurrent callers, and of requests on the
    breakers they already got: all callers of a resource get the same breaker,
    callers of different resources get different ones, and no breaker is
    created that is not in the map, so each resource has exactly one. *)
Theorem manager_one_breaker_per_resource opts rs w :
  rtc step (initial opts rs) w ->
  (forall r1 p1 r2 p2, Got r1 p1 ∈ callers w -> Got r2 p2 ∈ callers w -> p1 = p2 <-> r1 = r2) /\
  (forall r p, Got r p ∈ callers w -> GetBreaker (mgr w) r = Some p /\ (p < length (heap (mgr w)))%nat) /\
  size (breakers (mgr w)) = length (heap (mgr w)).
Proof.
  intros R. assert (Iv : world_inv w).
  { generalize (initial_inv opts rs). induction R; eauto using step_inv. }
  destruct Iv as [B I S G]. split_and!; [|intros r p X; split; [by apply G|by eapply B, G]|done].
  intros r1 p1 r2 p2 X1 X2. apply G in X1, X2. split; [intros ->; by eapply I|intros ->; congruence].
Qed.
