(* ===== verification/Source.v ===== *)
(** * Source: JetStream pull subscription (internal/source/source.go)

    The NATS client enters through [NatsEnv] (what connecting, looking up the
    consumer and subscribing return) and through the arguments of the
    operations (what Fetch returned, the clock in nanoseconds).  [Error_text]
    is the Error method of an error. *)
From S2P Require Import Prelude GoInt GoStr GoFloat GoTime Values Steps SinkOptions.
Import SourceOpts.

(** Metadata of a JetStream message; [None] when Metadata() fails. *)
Record MsgMetadata : Type := { Stream : Z; Timestamp : Z; NumPending : Z }.
Record nats_msg : Type := { payload : Msg; Metadata : option MsgMetadata; reply : string }.

Record MessageInfo : Type := { InfoMsg : nats_msg; Sequence : Z }.

(** The acknowledgment functions of a batch close over its messages. *)
Record MessageBatch : Type := { Messages : list MessageInfo }.

Record Source : Type := {
  NatsConn : bool;                 (* non-nil *)
  JetStream : bool;                (* non-nil *)
  Subscription : option nat;       (* the subscription object *)
  Options_ : Options;
  filterSubject : string;
  pendingCount : Z;
  pendingAt : Z                    (* 0: never *)
}.

Record NatsEnv : Type := {
  Stat : string -> option error;                              (* os.Stat of a file *)
  nats_Connect : string -> option error;
  nats_JetStream : option error;
  ConsumerInfo : string -> string -> error + (string * Z);    (* FilterSubject, NumPending *)
  PullSubscribe : string -> string -> string -> error + nat   (* subject, durable, bound stream *)
}.

Definition NewSource (opts : Options) : result Source :=
  guard_err (String.eqb (Endpoint opts) EmptyString) (NewInvalidConfigError "source" "endpoint is required" []);;
  guard_err (String.eqb (StreamName opts) EmptyString) (NewInvalidConfigError "source" "stream name is required" []);;
  guard_err (String.eqb (ConsumerName opts) EmptyString)
    (NewInvalidConfigError "source" "consumer name is required" []);;
  Ok {| NatsConn := false; JetStream := false; Subscription := None; Options_ := opts;
        filterSubject := EmptyString; pendingCount := 0; pendingAt := 0 |}.

(** Field updates. *)
Definition set_conn (s : Source) (conn js : bool) : Source :=
  {| NatsConn := conn; JetStream := js; Subscription := Subscription s; Options_ := Options_ s;
     filterSubject := filterSubject s; pendingCount := pendingCount s; pendingAt := pendingAt s |}.
Definition set_filter (s : Source) (f : string) : Source :=
  {| NatsConn := NatsConn s; JetStream := JetStream s; Subscription := Subscription s; Options_ := Options_ s;
     filterSubject := f; pendingCount := pendingCount s; pendingAt := pendingAt s |}.
Definition set_sub (s : Source) (sub : option nat) : Source :=
  {| NatsConn := NatsConn s; JetStream := JetStream s; Subscription := sub; Options_ := Options_ s;
     filterSubject := filterSubject s; pendingCount := pendingCount s; pendingAt := pendingAt s |}.
Definition set_pending (s : Source) (count at_ : Z) : Source :=
  {| NatsConn := NatsConn s; JetStream := JetStream s; Subscription := Subscription s; Options_ := Options_ s;
     filterSubject := filterSubject s; pendingCount := count; pendingAt := at_ |}.

(** ** Connecting *)

(** connectOptions: the files are checked up front; the options are the
    credentials and CA files used (the event handlers only log). *)
Definition checked_file (env : NatsEnv) (path fmt : string) : error + list string :=
  if String.eqb path EmptyString then inr []
  else match Stat env path with
       | Some err => inl (NewInvalidConfigError "source" fmt [AE err])
       | None => inr [path]
       end.

Definition connectOptions (env : NatsEnv) (opts : Options) : error + list string :=
  match checked_file env (CredsFile opts) "credentials file not readable: %v" with
  | inl err => inl err
  | inr creds =>
      match checked_file env (TLSCAFile opts) "TLS CA file not readable: %v" with
      | inl err => inl err
      | inr ca => inr (creds ++ ca)
      end
  end.

Definition consumerFilterSubject (env : NatsEnv) (stream consumer : string) : error + string :=
  match ConsumerInfo env stream consumer with
  | inl err => inl (NewSubscriptionFailedError "source" consumer (Some err))
  | inr (filter, _) => inr filter
  end.

(** bindPullSubscription: nats.Bind, which never creates a consumer. *)
Definition bindPullSubscription (env : NatsEnv) (s : Source) : error + nat :=
  match PullSubscribe env (filterSubject s) (ConsumerName (Options_ s)) (StreamName (Options_ s)) with
  | inl err => inl (NewSubscriptionFailedError "source" (ConsumerName (Options_ s)) (Some err))
  | inr sub => inr sub
  end.

(** Connect: what it leaves in the source when a step fails, and the error. *)
Definition Connect (env : NatsEnv) (s : Source) : Source * option error :=
  match connectOptions env (Options_ s) with
  | inl err => (s, Some err)
  | inr _ =>
      match nats_Connect env (Endpoint (Options_ s)) with
      | Some err => (s, Some (NewConnectionFailedError "source" (Endpoint (Options_ s)) (Some err)))
      | None =>
          let s := set_conn s true (JetStream s) in
          match nats_JetStream env with
          | Some err => (s, Some (NewConnectionFailedError "source" "JetStream" (Some err)))
          | None =>
              let s := set_conn s true true in
              match consumerFilterSubject env (StreamName (Options_ s)) (ConsumerName (Options_ s)) with
              | inl err => (s, Some err)
              | inr filter =>
                  let s := set_filter s filter in
                  match bindPullSubscription env s with
                  | inl err => (s, Some err)
                  | inr sub => (set_sub s (Some sub), None)
                  end
              end
          end
      end
  end.

(** Close: whether this call drained and closed a connection. *)
Definition Close (s : Source) : bool := NatsConn s.

(** Rebind: [cancelled] is ctx.Err().  The teardown of the dead subscription is
    best-effort and its error is dropped; the subscription stays in place when
    the bind fails. *)
Definition Rebind (env : NatsEnv) (cancelled : option error) (s : Source) : Source * option error :=
  match cancelled with
  | Some err => (s, Some err)
  | None =>
      match bindPullSubscription env s with
      | inl err => (s, Some err)
      | inr sub => (set_sub s (Some sub), None)
      end
  end.

(** ** Fetching *)

Definition isNoData (err : error) : bool := is_nats_error err NatsTimeout.

(** [valid]: sub.IsValid() of a non-nil subscription. *)
Definition isSubscriptionDead (Error_text : error -> string) (err : error) (valid : option bool) : bool :=
  if bool_decide (valid = Some false) then true
  else if is_nats_error err NatsConsumerDeleted || is_nats_error err NatsNoResponders ||
          is_nats_error err NatsConsumerNotFound || is_nats_error err NatsBadSubscription ||
          is_nats_error err NatsSubscriptionClosed || is_nats_error err NatsConnectionClosed ||
          is_nats_error err NatsConnectionDraining then true
  else Contains (Error_text err) "invalid subscription" || Contains (Error_text err) "subscription closed".

(** toMessageInfos: the messages with their sequences, the lags observed, and
    the pending cache. *)
Definition sequence_of (i : nat) (msg : nats_msg) : Z :=
  match Metadata msg with Some meta => Stream meta | None => Z.of_nat i end.

Definition toMessageInfos (now : Z) (s : Source) (msgs : list nats_msg) : list MessageInfo * list Z * Source :=
  let infos := imap (fun i msg => {| InfoMsg := msg; Sequence := sequence_of i msg |}) msgs in
  let metas := omap Metadata msgs in
  let lags := (fun meta => duration_sub now (Timestamp meta)) <$> metas in
  (infos, lags,
   match last metas with
   | Some meta => set_pending s (NumPending meta) now
   | None => s
   end).

(** FetchBatch: [fetched] is what Subscription.Fetch returned, [valid] whether
    the subscription is then valid. *)
Definition FetchBatch (Error_text : error -> string) (now : Z) (fetched : list nats_msg + error) (valid : bool)
    (s : Source) : Source * (MessageBatch + error) :=
  match Subscription s with
  | None => (s, inr (NewConnectionFailedError "source" "fetch" (Some (NatsError NatsInvalidConnection))))
  | Some _ =>
      match fetched with
      | inr err =>
          if isNoData err then (s, inl {| Messages := [] |})
          else if isSubscriptionDead Error_text err (Some valid) then
            (s, inr (NewSubscriptionFailedError "source" (ConsumerName (Options_ s)) (Some err)))
          else (s, inr (NewConnectionFailedError "source" "fetch" (Some err)))
      | inl msgs =>
          let '(infos, _, s) := toMessageInfos now s msgs in (s, inl {| Messages := infos |})
      end
  end.

(** refreshPending: [info] is what ConsumerInfo returns. *)
Definition refreshPending (now : Z) (info : error + Z) (s : Source) : Source * Z * option error :=
  if negb (JetStream s) then
    (s, pendingCount s,
     Some (NewConnectionFailedError "source" "consumer-info" (Some (NatsError NatsInvalidConnection))))
  else match info with
       | inr n => (set_pending s n now, n, None)
       | inl err => (s, pendingCount s, Some (NewConnectionFailedError "source" "consumer-info" (Some err)))
       end.

Definition PendingMessages (now maxAge : Z) (info : error + Z) (s : Source) : Source * Z * option error :=
  if negb (pendingAt s =? 0) && (duration_sub now (pendingAt s) <? maxAge)
  then (s, pendingCount s, None) else refreshPending now info s.

(** ** Acknowledging *)

(** The map from sequence to message: the last message of a sequence wins. *)
Definition msgMap (infos : list MessageInfo) : gmap Z MessageInfo :=
  foldl (fun m info => <[Sequence info := info]> m) ∅ infos.

(** ackMessages and nackMessages over one operation [op] of the message (Ack
    or Nak, returning its error): the messages it was applied to, and the
    error that stopped the loop. *)
Fixpoint settle (op : nats_msg -> option error) (m : gmap Z MessageInfo) (sequences : list Z)
    : list nats_msg * option error :=
  match sequences with
  | [] => ([], None)
  | seq :: rest =>
      match m !! seq with
      | Some info =>
          match op (InfoMsg info) with
          | Some err => ([InfoMsg info], Some err)
          | None => let '(done, e) := settle op m rest in (InfoMsg info :: done, e)
          end
      | None => settle op m rest
      end
  end.

Definition ackMessages (Ack : nats_msg -> option error) (infos : list MessageInfo) (sequences : list Z) :=
  settle Ack (msgMap infos) sequences.
Definition nackMessages (Nak : nats_msg -> option error) (infos : list MessageInfo) (sequences : list Z) :=
  settle Nak (msgMap infos) sequences.

(** ** Laws *)

(** The sentinels of nats.go that end a pull subscription: the consumer is gone
    or nobody answers for it, the subscription is, the connection is. *)
Definition dead_sentinels : list nats_error :=
  [NatsConsumerDeleted; NatsNoResponders; NatsConsumerNotFound] ++ [NatsBadSubscription; NatsSubscriptionClosed] ++
  [NatsConnectionClosed; NatsConnectionDraining].

(** What kills a subscription, as the comments of source.go list it. *)
Definition dead (Error_text : error -> string) (err : error) (valid : bool) : Prop :=
  valid = false \/ Exists (fun sentinel => is_nats_error err sentinel = true) dead_sentinels \/
  Contains (Error_text err) "invalid subscription" = true \/ Contains (Error_text err) "subscription closed" = true.

Lemma isSubscriptionDead_spec text err valid : isSubscriptionDead text err (Some valid) = true <-> dead text err valid.
Proof.
  unfold isSubscriptionDead, dead, dead_sentinels. cbn [app]. rewrite !Exists_cons, Exists_nil.
  destruct valid; [|by split; [left|]].
  rewrite (bool_decide_false (Some true = Some false)) by done.
  match goal with |- context [if ?a then true else ?b] => change (if a then true else b) with (a || b) end.
  rewrite !orb_true_iff. assert (true <> false) by done. tauto.
Qed.


(** *** Acknowledging exactly *)

Lemma msgMap_lookup infos info :
  NoDup (Sequence <$> infos) -> info ∈ infos -> msgMap infos !! Sequence info = Some info.
Proof.
  unfold msgMap. induction infos as [|x infos IH] using rev_ind; intros N I; [by apply elem_of_nil in I|].
  rewrite fmap_app, NoDup_app in N. destruct N as (N & D & _). rewrite foldl_app. cbn.
  apply elem_of_app in I as [I|I%list_elem_of_singleton].
  - rewrite lookup_insert_ne; [by apply IH|]. intros E. apply (D (Sequence info)).
    + by apply list_elem_of_fmap_2.
    + rewrite <- E. left.
  - subst. apply lookup_insert_eq.
Qed.

(** [settles op msgs done e]: [op] was applied to a prefix of [msgs] and
    stopped at its first failure, if any. *)
Definition settles (op : nats_msg -> option error) (msgs done : list nats_msg) (e : option error) : Prop :=
  match e with
  | None => done = msgs /\ Forall (fun m => op m = None) msgs
  | Some err => exists ok m rest, done = ok ++ [m] /\ msgs = ok ++ m :: rest /\
      Forall (fun m => op m = None) ok /\ op m = Some err
  end.

Lemma settle_exact op infos seqs :
  NoDup (Sequence <$> infos) -> Forall (fun q => q ∈ Sequence <$> infos) seqs ->
  exists picked, Forall2 (fun q info => info ∈ infos /\ Sequence info = q) seqs picked /\
    settles op (InfoMsg <$> picked) (settle op (msgMap infos) seqs).1 (settle op (msgMap infos) seqs).2.
Proof.
  intros N. induction seqs as [|q seqs IH]; intros F; [by exists []|].
  apply Forall_cons in F as [(info & -> & I)%list_elem_of_fmap F].
  destruct (IH F) as (picked & P & S). exists (info :: picked). split; [by constructor|].
  cbn. rewrite (msgMap_lookup _ _ N I). destruct (op (InfoMsg info)) as [err|] eqn:O; cbn.
  - exists [], (InfoMsg info), (InfoMsg <$> picked). by split_and!.
  - destruct (settle op (msgMap infos) seqs) as [done [err|]]; cbn in *.
    + destruct S as (ok & m & rest & -> & -> & Fo & O'). exists (InfoMsg info :: ok), m, rest.
      split_and!; try done. by constructor.
    + destruct S as [-> Fo]. split; [done|by constructor].
Qed.

(** Acknowledging by sequence is exact when the batch has no repeated
    sequence: ackMessages acks, in the order asked, precisely the messages of
    the batch with those sequences, up to and including the first whose Ack
    fails, and returns that failure. *)
Theorem ack_exact Ack infos seqs :
  NoDup (Sequence <$> infos) -> Forall (fun q => q ∈ Sequence <$> infos) seqs ->
  exists picked, Forall2 (fun q info => info ∈ infos /\ Sequence info = q) seqs picked /\
    settles Ack (InfoMsg <$> picked) (ackMessages Ack infos seqs).1 (ackMessages Ack infos seqs).2.
Proof. apply settle_exact. Qed.

(** Sequences of a batch are distinct when every message has its metadata and
    the stream numbers its messages apart, as JetStream does. *)
Lemma toMessageInfos_NoDup now s msgs :
  Forall (fun m => is_Some (Metadata m)) msgs -> NoDup (Stream <$> omap Metadata msgs) ->
  NoDup (Sequence <$> (toMessageInfos now s msgs).1.1).
Proof.
  intros F N. cbn. rewrite fmap_imap.
  assert (G : forall f : nat -> nat, imap (fun i msg => sequence_of (f i) msg) msgs = Stream <$> omap Metadata msgs).
  2: { specialize (G id). unfold id in G. rewrite <- G in N. exact N. }
  clear N.
  induction F as [|m msgs [meta E] F IH]; intros f; [done|].
  cbn. unfold sequence_of at 1. rewrite E. cbn. f_equal. apply (IH (f ∘ S)).
Qed.

(** The index fallback breaks that.  In a batch of the message with stream
    sequence 1 followed by one whose metadata cannot be parsed, both get
    sequence 1; the first is then out of reach of the acknowledgment functions,
    whatever sequences they are given: it is redelivered after its row was
    written. *)
Theorem fallback_sequence_collides (msg : Msg) now s op seqs :
  let m0 := {| payload := msg; Metadata := Some {| Stream := 1; Timestamp := 0; NumPending := 0 |};
               reply := "first" |} in
  let m1 := {| payload := msg; Metadata := None; reply := "second" |} in
  let infos := (toMessageInfos now s [m0; m1]).1.1 in
  Sequence <$> infos = [1; 1] /\ m0 ∉ (ackMessages op infos seqs).1 /\ m0 ∉ (nackMessages op infos seqs).1.
Proof.
  intros m0 m1 infos. split; [done|]. unfold ackMessages, nackMessages.
  assert (M : msgMap infos = {[ 1 := {| InfoMsg := m1; Sequence := 1 |} ]}) by reflexivity.
  rewrite M. assert (G : m0 ∉ (settle op {[1 := {| InfoMsg := m1; Sequence := 1 |}]} seqs).1); [|done].
  induction seqs as [|q seqs IH]; cbn; [apply not_elem_of_nil|].
  destruct (decide (q = 1)) as [->|Q].
  - rewrite lookup_singleton_eq. cbn. destruct (op m1); cbn.
    + intros X%list_elem_of_singleton. done.
    + destruct (settle _ _ seqs) as [d e]. cbn in *. by intros [X|X]%elem_of_cons.
  - by rewrite lookup_singleton_ne.
Qed.

(** The pending count is served without a request while it is younger than the
    tolerance, and after a failed request the last known value comes with the
    error. *)
Theorem pending_cache s msgs t0 t1 maxAge info meta :
  last (omap Metadata msgs) = Some meta -> 0 < t0 <= t1 -> t1 <= max_int64 ->
  let s' := (toMessageInfos t0 s msgs).2 in
  PendingMessages t1 maxAge info s' =
    (if t1 - t0 <? maxAge then (s', NumPending meta, None)
     else if JetStream s then
       match info with
       | inr n => (set_pending s' n t1, n, None)
       | inl err => (s', NumPending meta, Some (NewConnectionFailedError "source" "consumer-info" (Some err)))
       end
     else (s', NumPending meta,
           Some (NewConnectionFailedError "source" "consumer-info" (Some (NatsError NatsInvalidConnection))))).
Proof.
  intros L T M s'. subst s'. unfold toMessageInfos. cbn [fst snd]. rewrite L. unfold PendingMessages. cbn.
  rewrite (proj2 (Z.eqb_neq t0 0)) by lia. unfold duration_sub.
  rewrite Z.min_r, Z.max_r by (unfold max_int64, min_int64 in *; lia). cbn.
  destruct (t1 - t0 <? maxAge); [done|]. unfold refreshPending. cbn.
  destruct (JetStream s); [|done]. by destruct info.
Qed.
