(* ===== verification/Stats.v ===== *)
(** * Worker and fetch-loop statistics (connector/stats.go)

    The atomic counters are uint64 and wrap.  A snapshot loads them one by one. *)
From S2P Require Import Prelude GoInt.

Record WorkerStats : Type := {
  MessagesProcessed : Z; ParseFailures : Z; WriteFailures : Z; MessagesDropped : Z;
  ParsesZeroRows : Z; RowsWritten : Z; Acks : Z; Nacks : Z }.

(** The counters of workerCounters, by name. *)
Inductive counter : Set :=
  | messagesProcessed | parseFailures | writeFailures | messagesDropped
  | parsesZeroRows | rowsWritten | acks | nacks.

#[export] Instance counter_eq_dec : EqDecision counter.
Proof. solve_decision. Defined.

Definition workerCounters : Type := counter -> Z.
Definition zero_counters : workerCounters := fun _ => 0.

(** [w.k.Add(n)]. *)
Definition counter_add (c : workerCounters) (k : counter) (n : Z) : workerCounters :=
  fun k' => if decide (k = k') then wrapu64 (c k' + n) else c k'.

Definition snapshot (c : workerCounters) : WorkerStats :=
  {| MessagesProcessed := c messagesProcessed; ParseFailures := c parseFailures;
     WriteFailures := c writeFailures; MessagesDropped := c messagesDropped;
     ParsesZeroRows := c parsesZeroRows; RowsWritten := c rowsWritten; Acks := c acks; Nacks := c nacks |}.

Definition accumulateStats (stats : list WorkerStats) : WorkerStats :=
  foldl (fun total s =>
    {| MessagesProcessed := wrapu64 (MessagesProcessed total + MessagesProcessed s);
       ParseFailures := wrapu64 (ParseFailures total + ParseFailures s);
       WriteFailures := wrapu64 (WriteFailures total + WriteFailures s);
       MessagesDropped := wrapu64 (MessagesDropped total + MessagesDropped s);
       ParsesZeroRows := wrapu64 (ParsesZeroRows total + ParsesZeroRows s);
       RowsWritten := wrapu64 (RowsWritten total + RowsWritten s);
       Acks := wrapu64 (Acks total + Acks s);
       Nacks := wrapu64 (Nacks total + Nacks s) |}) (snapshot zero_counters) stats.

(** Stats and PerWorkerStats over the workers' identities and counters. *)
Definition Stats (workers : list (string * workerCounters)) : WorkerStats :=
  accumulateStats ((fun w => snapshot w.2) <$> workers).

Record WorkerStatsSnapshot : Type := { Worker : string; Stats_of : WorkerStats }.

Definition PerWorkerStats (workers : list (string * workerCounters)) : list WorkerStatsSnapshot :=
  (fun w => {| Worker := w.1; Stats_of := snapshot w.2 |}) <$> workers.

(** One table's contribution to a batch. *)
Record TableWrite : Type := { Table : string; Rows : Z; Msgs : Z }.

Record FetchStats : Type := {
  MessagesFetched : Z; TransientErrors : Z; SubscriptionErrors : Z; RebindAttempts : Z }.

(** ** Laws *)

Definition load (s : WorkerStats) (k : counter) : Z :=
  match k with
  | messagesProcessed => MessagesProcessed s | parseFailures => ParseFailures s
  | writeFailures => WriteFailures s | messagesDropped => MessagesDropped s
  | parsesZeroRows => ParsesZeroRows s | rowsWritten => RowsWritten s
  | acks => Acks s | nacks => Nacks s
  end.

Lemma load_snapshot c k : load (snapshot c) k = c k.
Proof. by destruct k. Qed.

Lemma wrapu64_add a b : wrapu64 (wrapu64 a + b) = wrapu64 (a + b).
Proof. unfold wrapu64. by rewrite Z.add_mod_idemp_l. Qed.

Lemma counter_add_eq c k n : counter_add c k n k = wrapu64 (c k + n).
Proof. unfold counter_add. by rewrite decide_True. Qed.
Lemma counter_add_ne c k k' n : k <> k' -> counter_add c k n k' = c k'.
Proof. intros. unfold counter_add. by rewrite decide_False. Qed.

Lemma sum_perm (l1 l2 : list Z) : l1 ≡ₚ l2 -> foldr Z.add 0 l1 = foldr Z.add 0 l2.
Proof. induction 1; cbn; lia. Qed.

#[export] Instance sum_proper : Proper (Permutation ==> eq) (foldr Z.add 0).
Proof. intros l1 l2. apply sum_perm. Qed.

Lemma accumulateStats_load stats k :
  load (accumulateStats stats) k = wrapu64 (foldr Z.add 0 ((fun s => load s k) <$> stats)).
Proof.
  unfold accumulateStats. induction stats as [|s stats IH] using rev_ind; [by destruct k|].
  rewrite foldl_app, fmap_app, foldr_app. cbn [foldl foldr fmap list_fmap].
  set (total := foldl _ _ stats) in *.
  assert (E : foldr Z.add (load s k + 0) ((fun s0 => load s0 k) <$> stats) =
    foldr Z.add 0 ((fun s0 => load s0 k) <$> stats) + load s k).
  { clear. induction ((fun s0 => load s0 k) <$> stats) as [|x l IH]; cbn; lia. }
  change (list_fmap ?f ?l) with (f <$> l). rewrite E, <- (wrapu64_add (foldr _ _ _)), <- IH. by destruct k.
Qed.

(** The aggregate is exact, up to the 64-bit range: each counter of Stats is
    the sum of that counter over the workers, in whatever order they are. *)
Theorem stats_exact workers k :
  load (Stats workers) k = wrapu64 (foldr Z.add 0 ((fun w => w.2 k) <$> workers)) /\
  forall ws, ws ≡ₚ workers -> load (Stats ws) k = load (Stats workers) k.
Proof.
  assert (E : forall ws, load (Stats ws) k = wrapu64 (foldr Z.add 0 ((fun w : string * workerCounters => w.2 k) <$> ws))).
  { intros ws. unfold Stats. rewrite accumulateStats_load, <- list_fmap_compose.
    f_equal. f_equal. apply list_fmap_ext. intros ? ? _. apply load_snapshot. }
  split; [apply E|]. intros ws P. rewrite !E. f_equal. apply sum_perm. by apply fmap_Permutation.
Qed.
