(* ===== verification/Liveness.v ===== *)
(** * Liveness probes (connector/liveness.go)

    The stage a goroutine is blocked in and since when; an empty stage is a
    cleared probe.  The methods take the probe's mutex, so they are atomic. *)
From S2P Require Import Prelude GoInt GoTime.

Record Probe : Type := { stage : string; since : Z }.

Definition zero_probe : Probe := {| stage := EmptyString; since := 0 |}.

Definition Begin (now : Z) (s : string) : Probe := {| stage := s; since := now |}.
Definition End_ : Probe := zero_probe.
Definition Touch (now : Z) (p : Probe) : Probe :=
  if String.eqb (stage p) EmptyString then p else {| stage := stage p; since := now |}.

(** Sample: the stage, its age, and whether the probe is active. *)
Definition Sample (now : Z) (p : Probe) : string * Z * bool :=
  if String.eqb (stage p) EmptyString then (EmptyString, 0, false)
  else (stage p, duration_sub now (since p), true).

(** The operations on a probe over its lifetime. *)
Inductive probe_op : Type := OpBegin (s : string) (now : Z) | OpEnd | OpTouch (now : Z).

Definition probe_apply (p : Probe) (o : probe_op) : Probe :=
  match o with OpBegin s now => Begin now s | OpEnd => End_ | OpTouch now => Touch now p end.

(** The stage in progress after a history, and the time of the last sign of
    progress in it. *)
Definition in_progress (ops : list probe_op) : option (string * Z) :=
  foldl (fun cur o =>
    match o with
    | OpBegin s now => if String.eqb s EmptyString then None else Some (s, now)
    | OpEnd => None
    | OpTouch now => (fun '(s, _) => (s, now)) <$> cur
    end) None ops.

(** A probe reports exactly the stage its goroutine is in and the time since
    the last Begin or Touch in that stage; a Touch outside a stage never
    resurrects it. *)
Theorem probe_reports_progress ops now :
  Sample now (foldl probe_apply zero_probe ops) =
  match in_progress ops with
  | Some (s, t) => (s, duration_sub now t, true)
  | None => (EmptyString, 0, false)
  end.
Proof.
  assert (G : let p := foldl probe_apply zero_probe ops in
    match in_progress ops with
    | Some (s, t) => p = {| stage := s; since := t |} /\ String.eqb s EmptyString = false
    | None => stage p = EmptyString
    end).
  { unfold in_progress. induction ops as [|o ops IH] using rev_ind; [done|].
    rewrite !foldl_app. cbn [foldl]. cbn zeta in *.
    destruct (foldl _ None ops) as [[s t]|].
    - destruct IH as [-> E]. destruct o as [s' now'| |now']; cbn.
      + destruct (String.eqb s' EmptyString) eqn:E'; [by apply String.eqb_eq in E'|done].
      + done.
      + unfold Touch. cbn. by rewrite E.
    - destruct o as [s' now'| |now']; cbn.
      + destruct (String.eqb s' EmptyString) eqn:E'; [by apply String.eqb_eq in E'|done].
      + done.
      + unfold Touch. by rewrite IH. }
  cbn zeta in G. unfold Sample. destruct (in_progress ops) as [[s t]|].
  - destruct G as [-> E]. cbn. by rewrite E.
  - by rewrite G.
Qed.
