(* ===== verification/Worker.v ===== *)
(** * Worker: from a batch of messages to rows and acknowledgments
    (connector/worker.go)

    A batch is processed against a [BatchEnv]: the clock at each parse, the
    breaker's randomness and the times around the write, the cluster and the
    context ([SinkEnv]), and what Ack and Nak of each message return.  The
    worker's own effects are the list of [worker_event]s, in order; hooks and
    log lines cannot change the outcome, and only the hook names are kept. *)
From S2P Require Import Prelude GoInt GoStr GoFloat GoTime Values Qdb FieldPath Convert Steps Filter Parser.
From S2P Require Import Breaker SinkOptions Sink Source Stats Liveness.

Record Worker : Type := {
  id : Z;
  workerID : string;
  parser : Parser;
  rowFilter : option RowFilter;
  sink : Sink;
  circuitBreaker : CircuitBreaker;   (* the worker's own, or the shared one *)
  onTableWrites : bool;              (* a callback is registered *)
  parseErrorAction : string;
  closing : bool;
  counters : workerCounters
}.

Record BatchEnv : Type := {
  be_now : nat -> gotime;
  be_rnd : Z -> Z; be_start : Z; be_end : Z;
  be_sink : SinkEnv;
  be_ack : nats_msg -> option error;
  be_nak : nats_msg -> option error
}.

Inductive worker_event : Type :=
  | Hook (name : string)
  | SinkEv (e : sink_event)
  | TableWrites (events : list TableWrite)
  | AckCall (sequences : list Z) (settled : list nats_msg) (err : option error)
  | NackCall (sequences : list Z) (settled : list nats_msg) (err : option error).

(** Field updates. *)
Definition with_counters (w : Worker) (c : workerCounters) : Worker :=
  {| id := id w; workerID := workerID w; parser := parser w; rowFilter := rowFilter w; sink := sink w;
     circuitBreaker := circuitBreaker w; onTableWrites := onTableWrites w;
     parseErrorAction := parseErrorAction w; closing := closing w; counters := c |}.
Definition with_breaker (w : Worker) (cb : CircuitBreaker) : Worker :=
  {| id := id w; workerID := workerID w; parser := parser w; rowFilter := rowFilter w; sink := sink w;
     circuitBreaker := cb; onTableWrites := onTableWrites w;
     parseErrorAction := parseErrorAction w; closing := closing w; counters := counters w |}.

Definition count (w : Worker) (k : counter) (n : nat) : Worker :=
  with_counters w (counter_add (counters w) k (Z.of_nat n)).

Definition GetStats (w : Worker) : WorkerStats := snapshot (counters w).

(** ** Parsing *)

(** One message of parseMessages: the policy on its classified result. *)
Definition parse_message (w : Worker) (now : gotime) (acc : list WriterTable * list Z * workerCounters)
    (msgInfo : MessageInfo) : result (list WriterTable * list Z * workerCounters) :=
  let '(validTables, failed, c) := acc in
  let nack := (validTables, failed ++ [Sequence msgInfo], counter_add c parseFailures 1) in
  match parser w now (Some (payload (InfoMsg msgInfo))) with
  | Panic => Panic
  | Err _ => Ok nack
  | Ok res =>
      if String.eqb (parseErrorAction w) "fail" && negb (bool_decide (Outcome_of res = OutcomeOK)) then Ok nack
      else if bool_decide (Outcome_of res = OutcomeUnusable) then
        Ok (validTables, failed, counter_add c messagesDropped 1)
      else
        Ok (validTables ++ Tables res, failed,
            if (length (Tables res) =? 0)%nat then counter_add c parsesZeroRows 1 else c)
  end.

Definition parseMessages (env : BatchEnv) (w : Worker) (infos : list MessageInfo)
    : result (list WriterTable * list Z * workerCounters) :=
  fold_res (fun acc '(i, info) => parse_message w (be_now env i) acc info) (imap pair infos) ([], [], counters w).

(** ** Per-table statistics *)

Definition add_table_write (counts : gmap string TableWrite) (t : WriterTable) : gmap string TableWrite :=
  let name := TrimSuffix (TableName t) nul in
  let c := default {| Table := EmptyString; Rows := 0; Msgs := 0 |} (counts !! name) in
  <[name := {| Table := name; Rows := Rows c + Z.of_nat (rowCount t); Msgs := Msgs c + 1 |}]> counts.

Definition tableWritesFor `{MapIter} (w : Worker) (tables : list WriterTable) : list TableWrite :=
  if negb (onTableWrites w) || (length tables =? 0)%nat then []
  else iter (map_to_list (foldl add_table_write ∅ tables)).*2.

Definition emitTableWrites (w : Worker) (events : list TableWrite) : list worker_event :=
  if negb (onTableWrites w) || (length events =? 0)%nat then [] else [TableWrites events].

(** ** Settling a batch *)

Definition rows_of (tables : list WriterTable) : nat := sum_list (rowCount <$> tables).

(** Step 3: NACK the messages that failed to parse. *)
Definition nack_failed (env : BatchEnv) (w : Worker) (infos : list MessageInfo) (failed : list Z)
    : Worker * list worker_event :=
  if (length failed =? 0)%nat then (w, [])
  else
    let '(settled, nackErr) := nackMessages (be_nak env) infos failed in
    (match nackErr with Some _ => w | None => count w nacks (length failed) end,
     [NackCall failed settled nackErr]).

(** Step 4: the sequences that did not fail. *)
Definition valid_sequences (infos : list MessageInfo) (failed : list Z) : list Z :=
  filter (fun seq => seq ∉ failed) (Sequence <$> infos).

(** Step 5: the write under the circuit breaker. *)
Definition write_tables `{MapIter} (env : BatchEnv) (w : Worker) (tables : list WriterTable)
    (tableWrites : list TableWrite) : result (Worker * list worker_event * option error) :=
  let '(err, tr) := Write (be_sink env) (sink w) tables in
  '(cb, writeErr, tr) ← Execute (be_rnd env) (circuitBreaker w) (be_start env) (be_end env) (err, tr);
  let w := with_breaker w cb in
  let '(w, ev) := match writeErr with
                  | None => (count w rowsWritten (rows_of tables), emitTableWrites w tableWrites)
                  | Some _ => (w, [])
                  end in
  Ok (w, [Hook "PreWrite"] ++ (SinkEv <$> tr) ++ ev ++ [Hook "PostWrite"], writeErr).

Definition handleWriteFailure (env : BatchEnv) (w : Worker) (infos : list MessageInfo) (validSequences : list Z)
    : Worker * list worker_event :=
  let w := count w writeFailures 1 in
  let '(settled, cbErr) := nackMessages (be_nak env) infos validSequences in
  (match cbErr with Some _ => w | None => count w nacks (length validSequences) end,
   [Hook "PreAck"; NackCall validSequences settled cbErr; Hook "PostAck"]).

(** Step 6: ACK. *)
Definition ack_valid (env : BatchEnv) (w : Worker) (infos : list MessageInfo) (validSequences : list Z)
    : Worker * list worker_event :=
  if (length validSequences =? 0)%nat then (w, [])
  else
    let '(settled, ackErr) := ackMessages (be_ack env) infos validSequences in
    (match ackErr with Some _ => w | None => count w acks (length validSequences) end,
     [Hook "PreAck"; AckCall validSequences settled ackErr; Hook "PostAck"]).

(** processBatchFromChannel.  A nil batch passes the hooks and then panics. *)
Definition processBatchFromChannel `{MapIter} (env : BatchEnv) (w : Worker) (batch : option MessageBatch)
    : result (Worker * list worker_event * option error) :=
  if closing w then Ok (w, [], None)
  else
    let read := [Hook "PreRead"; Hook "PostRead"] in
    match batch with
    | None => Panic
    | Some batch =>
        let infos := Messages batch in
        if (length infos =? 0)%nat then Ok (w, read, None)
        else
          '(validTables, failed, c) ← parseMessages env w infos;
          let w := with_counters w c in
          let validTables := Apply (rowFilter w) validTables in
          let tableWrites := tableWritesFor w validTables in
          match (if (0 <? length validTables)%nat then MergeWriterTables validTables else Ok validTables) with
          | Panic => Panic
          | Err mergeErr => Ok (w, read, Some mergeErr)
          | Ok tables =>
              let '(w, nackEv) := nack_failed env w infos failed in
              let validSequences := valid_sequences infos failed in
              let w := count w messagesProcessed (length validSequences) in
              '(w, writeEv, writeErr) ← (if (0 <? length tables)%nat
                                         then write_tables env w tables tableWrites else Ok (w, [], None));
              let '(w, settleEv) := match writeErr with
                                    | Some _ => handleWriteFailure env w infos validSequences
                                    | None => ack_valid env w infos validSequences
                                    end in
              Ok (w, read ++ nackEv ++ writeEv ++ settleEv, writeErr)
          end
    end.

(** shutdown: once no batch is active. *)
Definition shutdown (w : Worker) : Worker :=
  {| id := id w; workerID := workerID w; parser := parser w; rowFilter := rowFilter w;
     sink := (Sink.Close (sink w)).1; circuitBreaker := circuitBreaker w; onTableWrites := onTableWrites w;
     parseErrorAction := parseErrorAction w; closing := true; counters := counters w |}.

(** What the select of Run receives, and Run over a sequence of receptions:
    the worker (its sink closed when Run returns), the trace and the result;
    [None] while Run has not returned. *)
Inductive received : Type :=
  | RecvDone (err : error)                                (* ctx.Done *)
  | RecvClosed
  | RecvBatch (env : BatchEnv) (batch : option MessageBatch).

Definition close_sink (w : Worker) : Worker :=
  {| id := id w; workerID := workerID w; parser := parser w; rowFilter := rowFilter w;
     sink := (Sink.Close (sink w)).1; circuitBreaker := circuitBreaker w; onTableWrites := onTableWrites w;
     parseErrorAction := parseErrorAction w; closing := closing w; counters := counters w |}.

Fixpoint Run `{MapIter} (w : Worker) (input : list received)
    : result (Worker * list worker_event * option (option error)) :=
  match input with
  | [] => Ok (w, [], None)
  | RecvDone err :: _ => Ok (close_sink w, [], Some (Some err))
  | RecvClosed :: _ => Ok (close_sink w, [], Some None)
  | RecvBatch env batch :: input =>
      '(w, tr, _) ← processBatchFromChannel env w batch;
      '(w, trs, r) ← Run w input;
      Ok (w, tr ++ trs, r)
  end.

(** ** Laws *)

(** What the parser returned for each message of a batch. *)
Definition parsed (env : BatchEnv) (w : Worker) (infos : list MessageInfo) (rs : list ParseResult) : Prop :=
  Forall2 (fun '(i, info) r => parser w (be_now env i) (Some (payload (InfoMsg info))) = Ok r) (imap pair infos) rs.

(** The parse-error-action policy: a message is rejected (NACKed for
    redelivery) in fail mode when it has any parse error; otherwise its tables
    go on, none for an unusable message. *)
Definition rejects (w : Worker) (r : ParseResult) : bool :=
  String.eqb (parseErrorAction w) "fail" && negb (bool_decide (Outcome_of r = OutcomeOK)).

Definition failed_of (w : Worker) (infos : list MessageInfo) (rs : list ParseResult) : list Z :=
  concat (zip_with (fun info r => if rejects w r then [Sequence info] else []) infos rs).

Definition tables_of (w : Worker) (rs : list ParseResult) : list WriterTable :=
  concat ((fun r => if rejects w r then [] else Tables r) <$> rs).

(** Counter changes, modulo the 64-bit width. *)
Definition counted (c c' : workerCounters) (gain : counter -> Z) : Prop :=
  forall k, wrapu64 (c' k) = wrapu64 (c k + gain k).

(** The counters parseMessages adds to. *)
Definition parse_gain (w : Worker) (rs : list ParseResult) (k : counter) : Z :=
  let n (p : ParseResult -> bool) := Z.of_nat (length (List.filter p rs)) in
  match k with
  | parseFailures => n (rejects w)
  | messagesDropped => n (fun r => negb (rejects w r) && bool_decide (Outcome_of r = OutcomeUnusable))
  | parsesZeroRows =>
      n (fun r => negb (rejects w r) && negb (bool_decide (Outcome_of r = OutcomeUnusable)) &&
                  (length (Tables r) =? 0)%nat)
  | _ => 0
  end.

Lemma counted_refl c : counted c c (fun _ => 0).
Proof. intros k. by rewrite Z.add_0_r. Qed.

Lemma counted_trans c1 c2 c3 g1 g2 :
  counted c1 c2 g1 -> counted c2 c3 g2 -> counted c1 c3 (fun k => g1 k + g2 k).
Proof.
  intros A B k. rewrite B. rewrite <- wrapu64_add, A, wrapu64_add. f_equal. lia.
Qed.

Lemma counted_add c k n : counted c (counter_add c k n) (fun k' => if decide (k = k') then n else 0).
Proof.
  intros k'. unfold counter_add. case_decide; [|by rewrite Z.add_0_r].
  unfold wrapu64. by rewrite Z.mod_mod.
Qed.

Lemma counted_ext c c' g g' : counted c c' g -> (forall k, g k = g' k) -> counted c c' g'.
Proof. intros A E k. by rewrite <- E. Qed.

Section worker.
Context `{MapIter} (cols : list WriterColumn) (w : Worker).
Context `{!LawfulParser (parser w) cols}.

(** One message: never an error, and the effect of the policy. *)
Lemma parse_message_step now t f c info :
  exists r c', parser w now (Some (payload (InfoMsg info))) = Ok r /\
    parse_message w now (t, f, c) info =
      Ok (t ++ (if rejects w r then [] else Tables r), f ++ (if rejects w r then [Sequence info] else []), c') /\
    counted c c' (parse_gain w [r]).
Proof.
  destruct (parse_total now (payload (InfoMsg info))) as [r E]. exists r. unfold parse_message. rewrite E.
  unfold rejects, parse_gain, rejects. cbn [List.filter].
  destruct (String.eqb (parseErrorAction w) "fail" && negb (bool_decide (Outcome_of r = OutcomeOK))) eqn:R.
  - eexists. split; [done|]. split; [by rewrite app_nil_r|].
    eapply counted_ext; [apply counted_add|]. by intros [].
  - destruct (bool_decide (Outcome_of r = OutcomeUnusable)) eqn:U.
    + eexists. split; [done|]. split.
      * rewrite (parse_unusable _ _ _ E) by by apply bool_decide_eq_true in U. by rewrite !app_nil_r.
      * eapply counted_ext; [apply counted_add|]. by intros [].
    + eexists. split; [done|]. split; [by rewrite app_nil_r|]. cbn.
      destruct (length (Tables r) =? 0)%nat.
      * eapply counted_ext; [apply counted_add|]. by intros [].
      * eapply counted_ext; [apply counted_refl|]. by intros [].
Qed.

Lemma parse_gain_cons r rs k : parse_gain w (r :: rs) k = parse_gain w [r] k + parse_gain w rs k.
Proof. destruct k; cbn; repeat case_match; cbn [length]; lia. Qed.

Lemma parseMessages_ok env infos :
  exists rs c', parsed env w infos rs /\
    parseMessages env w infos = Ok (tables_of w rs, failed_of w infos rs, c') /\
    counted (counters w) c' (parse_gain w rs).
Proof.
  unfold parseMessages, parsed, tables_of, failed_of. revert env.
  assert (G : forall (g : nat -> nat) env t f c, exists rs c',
    Forall2 (fun '(i, info) r => parser w (be_now env i) (Some (payload (InfoMsg info))) = Ok r)
      (imap (fun i info => (g i, info)) infos) rs /\
    fold_res (fun acc '(i, info) => parse_message w (be_now env i) acc info)
      (imap (fun i info => (g i, info)) infos) (t, f, c) =
      Ok (t ++ concat ((fun r => if rejects w r then [] else Tables r) <$> rs),
          f ++ concat (zip_with (fun info r => if rejects w r then [Sequence info] else []) infos rs), c') /\
    counted c c' (parse_gain w rs)).
  { induction infos as [|info infos IH]; intros g env t f c.
    - exists [], c. split_and!; [constructor|cbn; by rewrite !app_nil_r|].
      eapply counted_ext; [apply counted_refl|]. by intros [].
    - destruct (parse_message_step (be_now env (g 0%nat)) t f c info) as (r & c1 & E & P & C).
      destruct (IH (g ∘ S) env (t ++ (if rejects w r then [] else Tables r))
        (f ++ (if rejects w r then [Sequence info] else [])) c1) as (rs & c2 & F & P2 & C2).
      exists (r :: rs), c2. split_and!.
      + cbn. constructor; [exact E|exact F].
      + rewrite imap_cons. cbn [fold_res]. rewrite P. cbn [mbind res_bind].
        rewrite <- !app_assoc in P2. exact P2.
      + eapply counted_ext; [eapply counted_trans; [exact C|exact C2]|].
        intros k. by rewrite parse_gain_cons. }
  intros env. apply (G (fun i => i) env [] []).
Qed.

(** The kept tables are rectangular over the parser's columns. *)
Lemma tables_of_rect env infos rs : parsed env w infos rs -> Forall (rectangular cols) (tables_of w rs).
Proof.
  unfold parsed, tables_of. intros P. apply Forall_concat, Forall_fmap, Forall_forall.
  intros r I. cbn. destruct (rejects w r); [constructor|].
  apply list_elem_of_lookup_1 in I as [i I]. eapply Forall2_lookup_r in P as ([j info] & _ & P); [|exact I].
  by eapply parse_rectangular.
Qed.

Lemma parsed_length env infos rs : parsed env w infos rs -> length rs = length infos.
Proof. intros P%Forall2_length. by rewrite length_imap in P. Qed.

(** What is merged can be pushed, and merging loses no row. *)
Lemma merged_ok tables :
  Forall (rectangular cols) tables ->
  exists out, (if (0 <? length tables)%nat then MergeWriterTables tables else Ok tables) = Ok out /\
    pushable cols out /\ rows_of out = rows_of tables /\ (out = [] <-> tables = []) /\
    Forall (rectangular cols) out.
Proof.
  intros R. destruct (Nat.ltb_spec 0 (length tables)) as [L|L].
  - destruct (MergeWriterTables_rect cols tables R) as (out & E & R' & N & S & C). exists out.
    split_and!; try done.
    + split; [done|]. eapply Forall_impl; [exact R'|]. by intros t [? _].
    + split; [|intros ->; cbn in L; lia]. intros ->. destruct tables as [|t ts]; [done|].
      exfalso. apply (not_elem_of_nil (TableName t)). apply S. left.
  - destruct tables; [|cbn in L; lia]. exists []. split_and!; try done. split; constructor.
Qed.

(** *** The whole batch *)

(** The survivors of a batch: parsed, kept by the policy and by the filter. *)
Definition survivors (rs : list ParseResult) : list WriterTable := Apply (rowFilter w) (tables_of w rs).

Definition settled_ok (r : list nats_msg * option error) (n : nat) : Z :=
  match r.2 with None => Z.of_nat n | Some _ => 0 end.

(** The counters of a batch that ends with [err]. *)
Definition batch_gain (env : BatchEnv) (infos : list MessageInfo) (rs : list ParseResult) (err : option error)
    (k : counter) : Z :=
  let failed := failed_of w infos rs in
  let valid := valid_sequences infos failed in
  parse_gain w rs k +
  match k with
  | messagesProcessed => Z.of_nat (length valid)
  | nacks => settled_ok (nackMessages (be_nak env) infos failed) (length failed) +
      match err with Some _ => settled_ok (nackMessages (be_nak env) infos valid) (length valid) | None => 0 end
  | acks => match err with None => settled_ok (ackMessages (be_ack env) infos valid) (length valid) | Some _ => 0 end
  | rowsWritten => match err with None => Z.of_nat (rows_of (survivors rs)) | Some _ => 0 end
  | writeFailures => match err with Some _ => 1 | None => 0 end
  | _ => 0
  end.

(** The events of the write step, given the result [r] of the breaker. *)
Definition write_events (tableWrites : list TableWrite) (r : option error * list sink_event) : list worker_event :=
  [Hook "PreWrite"] ++ (SinkEv <$> r.2) ++
  match r.1 with None => emitTableWrites w tableWrites | Some _ => [] end ++ [Hook "PostWrite"].

Definition nack_events (env : BatchEnv) (infos : list MessageInfo) (failed : list Z) : list worker_event :=
  (nack_failed env w infos failed).2.

Definition settle_events (env : BatchEnv) (infos : list MessageInfo) (valid : list Z) (err : option error)
    : list worker_event :=
  match err with
  | Some _ => (handleWriteFailure env w infos valid).2
  | None => (ack_valid env w infos valid).2
  end.
End worker.

Lemma nack_failed_eq env w infos failed :
  exists c, nack_failed env w infos failed = (with_counters w c, nack_events w env infos failed) /\
    counted (counters w) c (fun k => if decide (k = nacks)
      then settled_ok (nackMessages (be_nak env) infos failed) (length failed) else 0).
Proof.
  unfold nack_events, nack_failed, settled_ok, count. destruct failed as [|q failed]; cbn [length Nat.eqb].
  { exists (counters w). split; [by destruct w|]. eapply counted_ext; [apply counted_refl|].
    intros k. by repeat case_match. }
  destruct (nackMessages _ _ _) as [d [e|]]; cbn [snd].
  - exists (counters w). split; [by destruct w|]. eapply counted_ext; [apply counted_refl|].
    intros k. by case_match.
  - eexists. split; [done|]. eapply counted_ext; [apply counted_add|].
    intros k. repeat case_decide; congruence.
Qed.

Lemma settle_eq env w infos valid err :
  exists c, match err with
            | Some _ => handleWriteFailure env w infos valid
            | None => ack_valid env w infos valid
            end = (with_counters w c, settle_events w env infos valid err) /\
    counted (counters w) c (fun k =>
      match k with
      | nacks => match err with Some _ => settled_ok (nackMessages (be_nak env) infos valid) (length valid) | None => 0 end
      | acks => match err with None => settled_ok (ackMessages (be_ack env) infos valid) (length valid) | Some _ => 0 end
      | writeFailures => match err with Some _ => 1 | None => 0 end
      | _ => 0
      end).
Proof.
  unfold settle_events, handleWriteFailure, ack_valid, settled_ok, count. destruct err as [e|].
  - cbn [counters with_counters]. destruct (nackMessages _ _ _) as [d [e'|]]; cbn [snd].
    + eexists. split; [done|]. eapply counted_ext; [apply counted_add|]. by intros [].
    + eexists. split; [done|]. eapply counted_ext; [eapply counted_trans; apply counted_add|]. by intros [].
  - destruct valid as [|q valid]; cbn [length Nat.eqb].
    { exists (counters w). split; [by destruct w|]. eapply counted_ext; [apply counted_refl|]. by intros []. }
    destruct (ackMessages _ _ _) as [d [e|]]; cbn [snd].
    + exists (counters w). split; [by destruct w|]. eapply counted_ext; [apply counted_refl|]. by intros [].
    + eexists. split; [done|]. eapply counted_ext; [apply counted_add|]. by intros [].
Qed.

(** The settling events do not depend on the worker. *)
Lemma nack_events_indep w w' env infos failed : nack_events w env infos failed = nack_events w' env infos failed.
Proof. unfold nack_events, nack_failed. by repeat case_match. Qed.

Lemma settle_events_indep w w' env infos valid err :
  settle_events w env infos valid err = settle_events w' env infos valid err.
Proof. unfold settle_events, handleWriteFailure, ack_valid. by repeat case_match. Qed.

Lemma write_events_indep w w' tw r : onTableWrites w = onTableWrites w' -> write_events w tw r = write_events w' tw r.
Proof. unfold write_events, emitTableWrites. by intros ->. Qed.

(** The write step returns, and changes only the breaker and the row counter. *)
Lemma write_tables_eq `{MapIter} env w tables tw :
  breaker_total (circuitBreaker w) ->
  exists r cb c, Execute (be_rnd env) (circuitBreaker w) (be_start env) (be_end env)
      (Write (be_sink env) (sink w) tables) = Ok (cb, r.1, r.2) /\
    (r = Write (be_sink env) (sink w) tables \/ r = (Some (open_error (circuitBreaker w)), [])) /\
    write_tables env w tables tw = Ok (with_counters (with_breaker w cb) c, write_events w tw r, r.1) /\
    counted (counters w) c (fun k => if decide (k = rowsWritten)
      then match r.1 with None => Z.of_nat (rows_of tables) | Some _ => 0 end else 0).
Proof.
  intros B. unfold write_tables, write_events.
  destruct (Write (be_sink env) (sink w) tables) as [err tr] eqn:Ew.
  destruct (Execute_total (be_rnd env) (circuitBreaker w) (be_start env) (be_end env) (err, tr) B)
    as (cb & r & E & _ & D).
  exists r, cb. rewrite E. cbn [mbind res_bind]. destruct r as [[e|] ev]; cbn [fst snd] in *.
  - exists (counters w). split_and!; try done. eapply counted_ext; [apply counted_refl|]. intros k. by case_decide.
  - eexists. split_and!; try done. eapply counted_ext; [apply counted_add|].
    intros k. repeat case_decide; congruence.
Qed.

(** Everything about one batch: it returns, and its trace, its error and its
    counters are these. *)
Lemma process_outcome `{MapIter} cols (env : BatchEnv) (w : Worker) `{!LawfulParser (parser w) cols} (batch : MessageBatch) :
  let infos := Messages batch in
  closing w = false -> infos <> [] -> breaker_total (circuitBreaker w) ->
  exists rs tables w' tr err,
    parsed env w infos rs /\
    (if (0 <? length (survivors w rs))%nat then MergeWriterTables (survivors w rs) else Ok (survivors w rs)) = Ok tables /\
    pushable cols tables /\ rows_of tables = rows_of (survivors w rs) /\ (tables = [] <-> survivors w rs = []) /\
    processBatchFromChannel env w (Some batch) = Ok (w', tr, err) /\
    (exists writeEv,
      tr = [Hook "PreRead"; Hook "PostRead"] ++ nack_events w env infos (failed_of w infos rs) ++ writeEv ++
           settle_events w env infos (valid_sequences infos (failed_of w infos rs)) err /\
      (tables = [] /\ writeEv = [] /\ err = None \/
       tables <> [] /\ exists r cb,
         Execute (be_rnd env) (circuitBreaker w) (be_start env) (be_end env) (Write (be_sink env) (sink w) tables) =
           Ok (cb, r.1, r.2) /\
         (r = Write (be_sink env) (sink w) tables \/ r = (Some (open_error (circuitBreaker w)), [])) /\
         err = r.1 /\ writeEv = write_events w (tableWritesFor w (survivors w rs)) r)) /\
    counted (counters w) (counters w') (batch_gain w env infos rs err).
Proof.
  intros infos Hc Hi Hb. destruct (parseMessages_ok cols w env infos) as (rs & c & P & E & C).
  pose proof (tables_of_rect cols w env infos rs P) as R.
  destruct (merged_ok cols (survivors w rs)) as (tables & M & Pu & Ro & Em & _); [by apply Apply_Forall|].
  exists rs, tables. unfold processBatchFromChannel. rewrite Hc. fold infos.
  assert ((length infos =? 0)%nat = false) as -> by (by destruct infos).
  rewrite E. cbn [mbind res_bind].
  change (Apply (rowFilter (with_counters w c)) (tables_of w rs)) with (survivors w rs).
  set (tw := tableWritesFor (with_counters w c) (survivors w rs)).
  change (tableWritesFor w (survivors w rs)) with tw. rewrite M.
  set (failed := failed_of w infos rs). set (valid := valid_sequences infos failed).
  destruct (nack_failed_eq env (with_counters w c) infos failed) as (c1 & -> & C1).
  rewrite (nack_events_indep _ w). unfold count. cbn [with_counters counters] in *.
  set (w2 := with_counters _ (counter_add c1 _ _)).
  assert (C2 : counted (counters w) (counters w2) (fun k => parse_gain w rs k +
    match k with
    | nacks => settled_ok (nackMessages (be_nak env) infos failed) (length failed)
    | messagesProcessed => Z.of_nat (length valid) | _ => 0 end)).
  { eapply counted_ext; [eapply counted_trans; [exact C|eapply counted_trans; [exact C1|apply counted_add]]|].
    intros k. fold valid. destruct k; repeat case_decide; try congruence; lia. }
  destruct (Nat.ltb_spec 0 (length tables)) as [L|L].
  - destruct (write_tables_eq env w2 tables tw Hb) as (r & cb & c3 & Ex & D & -> & C3).
    cbn [mbind res_bind].
    destruct (settle_eq env (with_counters (with_breaker w2 cb) c3) infos valid r.1) as (c4 & -> & C4).
    eexists _, _, _. split; [exact P|]. split; [reflexivity|]. split; [exact Pu|]. split; [exact Ro|].
    split; [exact Em|]. split; [reflexivity|]. split.
    + eexists. split; [by rewrite (settle_events_indep _ w)|]. right.
      split; [intros T; rewrite T in L; cbn in L; lia|]. exists r, cb. split; [exact Ex|]. split; [exact D|]. split; [done|].
      by apply write_events_indep.
    + eapply counted_ext; [eapply counted_trans; [exact C2|eapply counted_trans; [exact C3|exact C4]]|].
      intros k. unfold batch_gain. fold failed valid. rewrite Ro. destruct k, (r.1); repeat case_decide; try congruence; lia.
  - assert (T : tables = []) by (destruct tables; [done|cbn in L; lia]). cbn [mbind res_bind].
    destruct (settle_eq env w2 infos valid None) as (c4 & E4 & C4). rewrite E4.
    eexists _, _, _. split; [exact P|]. split; [reflexivity|]. split; [exact Pu|]. split; [exact Ro|].
    split; [exact Em|]. split; [reflexivity|]. split.
    + eexists. split; [by rewrite (settle_events_indep _ w)|]. by left.
    + eapply counted_ext; [eapply counted_trans; [exact C2|exact C4]|].
      intros k. unfold batch_gain. fold failed valid. destruct k; try (rewrite (proj1 Em T); cbn); lia.
Qed.

(** *** Every message is settled exactly once *)

(** The calls to the batch's acknowledgment functions, in order: [true] for
    AckFunc, [false] for NackFunc. *)
Definition calls (tr : list worker_event) : list (bool * list Z) :=
  omap (fun e => match e with AckCall q _ _ => Some (true, q) | NackCall q _ _ => Some (false, q) | _ => None end) tr.

Lemma calls_app a b : calls (a ++ b) = calls a ++ calls b.
Proof. apply omap_app. Qed.

Lemma calls_nack w env infos failed :
  calls (nack_events w env infos failed) = if (length failed =? 0)%nat then [] else [(false, failed)].
Proof. unfold nack_events, nack_failed. case_match; [done|]. by destruct (nackMessages _ _ _). Qed.

Lemma calls_settle w env infos valid err :
  calls (settle_events w env infos valid err) =
  match err with
  | Some _ => [(false, valid)]
  | None => if (length valid =? 0)%nat then [] else [(true, valid)]
  end.
Proof.
  unfold settle_events, handleWriteFailure, ack_valid. destruct err.
  - by destruct (nackMessages _ _ _).
  - case_match; [done|]. by destruct (ackMessages _ _ _).
Qed.

Lemma calls_write w tw r : calls (write_events w tw r) = [].
Proof.
  unfold write_events. rewrite !calls_app. cbn. induction r.2 as [|e l IH]; cbn; [|done].
  unfold emitTableWrites. by repeat case_match.
Qed.

Lemma failed_of_sublist w infos : forall rs, failed_of w infos rs `sublist_of` (Sequence <$> infos).
Proof.
  unfold failed_of. induction infos as [|info infos IH]; intros [|r rs]; cbn; try apply sublist_nil_l.
  specialize (IH rs). destruct (rejects w r); cbn; by constructor.
Qed.

Lemma failed_of_spec w infos : forall rs i info r,
  NoDup (Sequence <$> infos) -> infos !! i = Some info -> rs !! i = Some r ->
  Sequence info ∈ failed_of w infos rs <-> rejects w r = true.
Proof.
  induction infos as [|x infos IH]; intros [|y rs] [|i] info r N Ii Ri; try done; cbn in *.
  - injection Ii as ->. injection Ri as ->. apply NoDup_cons in N as [N _].
    assert (F : Sequence info ∉ failed_of w infos rs).
    { intros X. apply N. eapply elem_of_submseteq; [exact X|]. apply sublist_submseteq, failed_of_sublist. }
    unfold failed_of in *. cbn. destruct (rejects w r); cbn; [|naive_solver]. split; [done|left].
  - apply NoDup_cons in N as [N0 N]. rewrite <- (IH rs i info r N Ii Ri).
    assert (Sequence info <> Sequence x).
    { intros E. apply N0. rewrite <- E. apply list_elem_of_fmap_2. by eapply list_elem_of_lookup_2. }
    unfold failed_of. cbn. rewrite elem_of_app. split; [|by right]. intros [X|X]; [|done].
    destruct (rejects w y); [apply list_elem_of_singleton in X; done|by apply elem_of_nil in X].
Qed.

Lemma failed_valid_perm w infos rs :
  NoDup (Sequence <$> infos) ->
  failed_of w infos rs ++ valid_sequences infos (failed_of w infos rs) ≡ₚ Sequence <$> infos.
Proof.
  intros N. pose proof (failed_of_sublist w infos rs) as S. unfold valid_sequences.
  set (f := failed_of w infos rs) in *. apply NoDup_Permutation; [|done|].
  - apply NoDup_app. split_and!; [by eapply sublist_NoDup|by intros q Q [? _]%list_elem_of_filter|by apply NoDup_filter].
  - intros q. rewrite elem_of_app, list_elem_of_filter. split.
    + intros [Q|[_ Q]]; [|done]. eapply elem_of_submseteq; [exact Q|by apply sublist_submseteq].
    + intros Q. destruct (decide (q ∈ f)); tauto.
Qed.

Lemma split_events (a b c d s : list worker_event) l1 x l2 :
  a ++ b ++ (c ++ (SinkEv <$> l1 ++ x :: l2) ++ d) ++ s =
  (a ++ b ++ c ++ (SinkEv <$> l1)) ++ SinkEv x :: ((SinkEv <$> l2) ++ d ++ s).
Proof. by rewrite fmap_app, fmap_cons, <- !app_assoc. Qed.

Lemma ack_in_calls q settled e tr : AckCall q settled e ∈ tr -> (true, q) ∈ calls tr.
Proof. intros I. apply list_elem_of_omap. by exists (AckCall q settled e). Qed.

(** Every message of a batch is settled exactly once, whatever the cluster,
    the breaker and the acknowledgments do.  A worker with a lawful parser
    never fails on a batch of distinct sequences: its acknowledgment calls are
    one NACK of the rejected messages, if any, and then exactly one call for
    all the others: an ACK when the write succeeded or there was nothing to
    write, a NACK when the write failed.  A message is rejected exactly in fail
    mode on a parse outcome other than OK. *)
Theorem worker_settles_batch `{MapIter} cols env w (L : LawfulParser (parser w) cols) batch :
  closing w = false -> Messages batch <> [] -> breaker_total (circuitBreaker w) ->
  NoDup (Sequence <$> Messages batch) ->
  exists w' tr err rs failed valid,
    processBatchFromChannel env w (Some batch) = Ok (w', tr, err) /\
    parsed env w (Messages batch) rs /\
    (forall i info r, Messages batch !! i = Some info -> rs !! i = Some r ->
       Sequence info ∈ failed <-> parseErrorAction w = "fail" /\ Outcome_of r <> OutcomeOK) /\
    failed ++ valid ≡ₚ Sequence <$> Messages batch /\
    calls tr = (if (length failed =? 0)%nat then [] else [(false, failed)]) ++
               match err with
               | Some _ => [(false, valid)]
               | None => if (length valid =? 0)%nat then [] else [(true, valid)]
               end.
Proof.
  intros Hc Hi Hb N.
  destruct (process_outcome cols env w batch Hc Hi Hb)
    as (rs & tables & w' & tr & err & P & _ & _ & _ & _ & E & (wev & -> & D) & _).
  do 6 eexists. split; [exact E|]. split; [exact P|].
  split; [|split; [by apply (failed_valid_perm w _ rs)|]].
  - intros i info r Ii Ri. rewrite (failed_of_spec w _ rs i info r N Ii Ri). unfold rejects.
    rewrite andb_true_iff, negb_true_iff, bool_decide_eq_false, String.eqb_eq. done.
  - rewrite !calls_app, calls_nack, calls_settle.
    assert (calls wev = []) as -> by (destruct D as [(_ & -> & _)|(_ & r & cb & _ & _ & _ & ->)]; [done|apply calls_write]).
    done.
Qed.

(** C1. At-least-once delivery: messages are acknowledged only after their rows
    are in QuasarDB.  If a batch's trace contains an ACK, then either no row
    survived parsing and filtering, or the merge of all surviving rows was
    pushed, the push succeeded, and it came before the ACK.  (The sink must
    make at least one attempt, as the configured ones do.) *)
Theorem ack_only_after_write `{MapIter} cols env w (L : LawfulParser (parser w) cols) batch w' tr err q settled e :
  closing w = false -> breaker_total (circuitBreaker w) -> 0 < SinkOpts.RetryAttempts (Sink.Options_ (sink w)) ->
  processBatchFromChannel env w (Some batch) = Ok (w', tr, err) -> AckCall q settled e ∈ tr ->
  exists rs, parsed env w (Messages batch) rs /\
    (survivors w rs = [] \/
     exists tables before after, MergeWriterTables (survivors w rs) = Ok tables /\
       rows_of tables = rows_of (survivors w rs) /\
       tr = before ++ SinkEv (Pushed tables None) :: after /\ AckCall q settled e ∈ after).
Proof.
  intros Hc Hb Ha Hp I. destruct (decide (Messages batch = [])) as [Em|Hi].
  { unfold processBatchFromChannel in Hp. rewrite Hc, Em in Hp. injection Hp as <- <- <-.
    by apply ack_in_calls, elem_of_nil in I. }
  destruct (process_outcome cols env w batch Hc Hi Hb)
    as (rs & tables & w1 & tr1 & err1 & P & M & Pu & Ro & Em & E & (wev & T & D) & _).
  rewrite Hp in E. injection E as <- <- <-. exists rs. split; [exact P|].
  destruct D as [(Te & _ & _)|(Tn & r & cb & _ & R & Er & W)]; [left; by apply Em|right].
  assert (Sn : survivors w rs <> []) by (intros X; by apply Tn, Em).
  rewrite (proj2 (Nat.ltb_lt 0 _)) in M by (destruct (survivors w rs); [done|cbn; lia]).
  subst tr. rewrite !elem_of_app in I. destruct I as [I|[I|[I|I]]].
  - by apply ack_in_calls, elem_of_nil in I.
  - apply ack_in_calls in I. rewrite calls_nack in I. case_match; [by apply elem_of_nil in I|].
    by apply list_elem_of_singleton in I.
  - subst wev. apply ack_in_calls in I. rewrite calls_write in I. by apply elem_of_nil in I.
  - destruct err as [err|].
    { apply ack_in_calls in I. rewrite calls_settle in I. by apply list_elem_of_singleton in I. }
    destruct R as [R|R]; [|by rewrite R in Er].
    assert (X : Pushed tables None ∈ r.2).
    { destruct r as [r1 r2]. cbn in Er |- *. subst r1. by eapply Write_ok_pushed. }
    apply list_elem_of_split in X as (l1 & l2 & X). subst wev. unfold write_events. rewrite X.
    rewrite split_events. eexists _, _, _. split; [exact M|]. split; [exact Ro|]. split; [reflexivity|].
    rewrite !elem_of_app. by right; right.
Qed.

(** *** Conservation of messages in the counters *)

Lemma failed_of_length w infos : forall rs, length rs = length infos ->
  length (failed_of w infos rs) = length (List.filter (rejects w) rs).
Proof.
  unfold failed_of. induction infos as [|x infos IH]; intros [|r rs] E; try done.
  cbn. rewrite length_app, IH by by injection E. by destruct (rejects w r).
Qed.

Lemma settle_all_ok op m qs : (forall msg, op msg = None) -> (settle op m qs).2 = None.
Proof.
  intros O. induction qs as [|q qs IH]; [done|]. cbn. destruct (m !! q) as [info|]; [|done].
  rewrite O. by destruct (settle op m qs).
Qed.

(** C22. The counters account for every message of a batch: besides what each
    counter gains ([batch_gain]: rows written only by a successful write, drops
    and empty parses by outcome), messages processed and parse failures add up
    to the batch, and so do acks and nacks when no acknowledgment fails. *)
Theorem worker_counters_exact `{MapIter} cols env w (L : LawfulParser (parser w) cols) batch :
  closing w = false -> Messages batch <> [] -> breaker_total (circuitBreaker w) ->
  NoDup (Sequence <$> Messages batch) ->
  exists w' tr err rs, processBatchFromChannel env w (Some batch) = Ok (w', tr, err) /\
    parsed env w (Messages batch) rs /\
    let gain := batch_gain w env (Messages batch) rs err in
    counted (counters w) (counters w') gain /\
    gain messagesProcessed + gain parseFailures = Z.of_nat (length (Messages batch)) /\
    ((forall m, be_ack env m = None) -> (forall m, be_nak env m = None) ->
     gain acks + gain nacks = Z.of_nat (length (Messages batch))).
Proof.
  intros Hc Hi Hb N.
  destruct (process_outcome cols env w batch Hc Hi Hb)
    as (rs & tables & w' & tr & err & P & _ & _ & _ & _ & E & _ & C).
  exists w', tr, err, rs. split; [exact E|]. split; [exact P|]. cbn zeta. split; [exact C|].
  pose proof (failed_valid_perm w (Messages batch) rs N) as F%Permutation_length.
  rewrite length_app, length_fmap in F. pose proof (failed_of_length w (Messages batch) rs (parsed_length _ _ _ _ P)) as G.
  unfold batch_gain. split.
  - cbn [parse_gain]. lia.
  - intros A B. unfold settled_ok, ackMessages, nackMessages. rewrite !(settle_all_ok _ _ _ A), !(settle_all_ok _ _ _ B).
    cbn [parse_gain]. destruct err; lia.
Qed.
