(* ===== verification/Health.v ===== *)
(** * Health state, monitor and probe verdicts
    (connector/health.go, internal/telemetry/probes.go)

    Conditions are keys of a map from their start; [transitions] is the log:
    one entry per edge, [true] for unhealthy, [false] for recovered.  Clock
    readings are in nanoseconds; [None] is the zero time. *)
From S2P Require Import Prelude GoInt GoStr GoTime Breaker Liveness Source.

Definition condRebinding : string := "subscription-rebinding".
Definition condFetchStalled : string := "fetch-stalled".
Definition condStuckPrefix : string := "stage-stuck:".
Definition MonitorInterval : Z := 30 * Second.

Record healthState : Type := {
  lastFetchSuccess : option Z;
  lastEvaluate : option Z;
  active : gmap string Z;
  transitions : list (bool * string)
}.

Definition newHealthState : healthState :=
  {| lastFetchSuccess := None; lastEvaluate := None; active := ∅; transitions := [] |}.

Definition recordFetchSuccess (now : Z) (h : healthState) : healthState :=
  {| lastFetchSuccess := Some now; lastEvaluate := lastEvaluate h; active := active h;
     transitions := transitions h |}.

Definition fetchSuccessAge (now : Z) (h : healthState) : Z := Since now (lastFetchSuccess h).

Definition recordEvaluate (now : Z) (h : healthState) : healthState :=
  {| lastFetchSuccess := lastFetchSuccess h; lastEvaluate := Some now; active := active h;
     transitions := transitions h |}.

Definition lastEvaluateAt (h : healthState) : option Z := lastEvaluate h.

Definition set_cond (now : Z) (reason : string) (h : healthState) : healthState :=
  match active h !! reason with
  | Some _ => h
  | None => {| lastFetchSuccess := lastFetchSuccess h; lastEvaluate := lastEvaluate h;
               active := <[reason := now]> (active h); transitions := transitions h ++ [(true, reason)] |}
  end.

Definition clear (reason : string) (h : healthState) : healthState :=
  match active h !! reason with
  | None => h
  | Some _ => {| lastFetchSuccess := lastFetchSuccess h; lastEvaluate := lastEvaluate h;
                 active := delete reason (active h); transitions := transitions h ++ [(false, reason)] |}
  end.

Definition isActive (reason : string) (h : healthState) : bool := bool_decide (is_Some (active h !! reason)).

(** snapshot: the keys in the order of the map iteration. *)
Definition health_snapshot `{Values.MapIter} (h : healthState) : list string * option Z :=
  (Values.iter (map_to_list (active h)).*1, lastFetchSuccess h).

(** ** The monitor *)

Record healthMonitor : Type := { probes : list (string * Probe); stuckThreshold : Z; interval : Z }.

(** newHealthMonitor: the fetch loop's probe, then one per worker. *)
Definition newHealthMonitor (fetchProbe : Probe) (workers : list (string * Probe)) (threshold : Z) : healthMonitor :=
  {| probes := ("fetch-loop", fetchProbe) :: workers; stuckThreshold := threshold; interval := MonitorInterval |}.

Definition evaluate_probe (threshold now : Z) (h : healthState) (ref : string * Probe) : healthState :=
  let condition := condStuckPrefix +:+ ref.1 in
  let '(_, age, act) := Sample now ref.2 in
  if (act : bool) && (threshold <? age) then set_cond now condition h else clear condition h.

Definition evaluate (m : healthMonitor) (now : Z) (h : healthState) : healthState :=
  let h := foldl (evaluate_probe (stuckThreshold m) now) h (probes m) in
  let stalled := (stuckThreshold m <? fetchSuccessAge now h) && negb (isActive condRebinding h) in
  let h := if stalled then set_cond now condFetchStalled h else clear condFetchStalled h in
  recordEvaluate now h.

(** ** Summaries *)

Record HealthSummary : Type := {
  Healthy : bool; FetchHealthy : bool; Conditions : list string; LastFetchSuccess : option Z;
  BreakerOpen : bool; BreakerStates_of : gmap string string }.

Definition StageStuck (s : HealthSummary) : bool := existsb (fun c => HasPrefix c condStuckPrefix) (Conditions s).

(** BreakerStates: a map, the last worker of a name wins. *)
Definition BreakerStates (workers : list (string * CircuitBreaker)) : gmap string State :=
  foldl (fun m w => <[w.1 := GetState w.2]> m) ∅ workers.

Definition Health `{Values.MapIter} (h : healthState) (workers : list (string * CircuitBreaker)) : HealthSummary :=
  let '(conditions, lastFetch) := health_snapshot h in
  let states := BreakerStates workers in
  let breakerOpen := bool_decide (map_Exists (fun _ s => s <> StateClosed) states) in
  let fetchHealthy := (length conditions =? 0)%nat in
  {| Healthy := fetchHealthy && negb breakerOpen; FetchHealthy := fetchHealthy; Conditions := conditions;
     LastFetchSuccess := lastFetch; BreakerOpen := breakerOpen; BreakerStates_of := State_String <$> states |}.

(** ** Probe verdicts (internal/telemetry/probes.go)

    The HealthSource is given by its health summary, its heartbeat and whether
    NATS is connected. *)
Definition heartbeatStaleAfter : Z := 3 * MonitorInterval.
Definition reasonHeartbeatStale : string := "heartbeat-stale".
Definition reasonStageStuck : string := "stage-stuck".

Record liveness : Type := { Alive_ : bool; Reason : string; LConditions : list string }.

Definition evaluateLiveness (last : option Z) (health : HealthSummary) (now : Z) : liveness :=
  if match last with Some t => heartbeatStaleAfter <? duration_sub now t | None => false end
  then {| Alive_ := false; Reason := reasonHeartbeatStale; LConditions := [] |}
  else if StageStuck health
  then {| Alive_ := false; Reason := reasonStageStuck; LConditions := Conditions health |}
  else {| Alive_ := true; Reason := EmptyString; LConditions := [] |}.

Definition Alive (last : option Z) (health : HealthSummary) (now : Z) : bool * string :=
  let verdict := evaluateLiveness last health now in (Alive_ verdict, Reason verdict).

Record readiness : Type := { Ready : bool; NatsConnected_ : bool; RHealth : HealthSummary }.

Definition evaluateReadiness (natsConnected : bool) (health : HealthSummary) : readiness :=
  {| Ready := natsConnected && FetchHealthy health && negb (BreakerOpen health);
     NatsConnected_ := natsConnected; RHealth := health |}.

Definition probeStatus (ok : bool) : Z := if ok then 200 else 503.

(** handleLivez and handleReadyz: the status and the body. *)
Definition handleLivez (last : option Z) (health : HealthSummary) (now : Z) : Z * liveness :=
  let verdict := evaluateLiveness last health now in (probeStatus (Alive_ verdict), verdict).
Definition handleReadyz (natsConnected : bool) (health : HealthSummary) : Z * readiness :=
  let verdict := evaluateReadiness natsConnected health in (probeStatus (Ready verdict), verdict).

(** ** Laws *)

Lemma set_cond_active now r h r' : is_Some (active (set_cond now r h) !! r') <-> r' = r \/ is_Some (active h !! r').
Proof.
  unfold set_cond. destruct (active h !! r) as [t|] eqn:E; cbn.
  - split; [by right|]. intros [->|X]; [by eexists|done].
  - destruct (decide (r = r')) as [->|N].
    + rewrite lookup_insert_eq. split; [by left|by eexists].
    + rewrite lookup_insert_ne by done. split; [by right|]. intros [->|X]; done.
Qed.

Lemma clear_active r h r' : is_Some (active (clear r h) !! r') <-> r' <> r /\ is_Some (active h !! r').
Proof.
  unfold clear. destruct (active h !! r) as [t|] eqn:E; cbn.
  - rewrite lookup_delete_is_Some. naive_solver.
  - split; [|by intros []]. intros X. split; [|done]. intros ->. rewrite E in X. by destruct X.
Qed.

Lemma set_cond_frame now r h :
  lastFetchSuccess (set_cond now r h) = lastFetchSuccess h /\ lastEvaluate (set_cond now r h) = lastEvaluate h.
Proof. unfold set_cond. by case_match. Qed.
Lemma clear_frame r h :
  lastFetchSuccess (clear r h) = lastFetchSuccess h /\ lastEvaluate (clear r h) = lastEvaluate h.
Proof. unfold clear. by case_match. Qed.

(** *** Edge-triggered logging *)

Inductive cond_op : Type := OpSet (now : Z) (r : string) | OpClear (r : string).
Definition cond_apply (h : healthState) (o : cond_op) : healthState :=
  match o with OpSet now r => set_cond now r h | OpClear r => clear r h end.

(** The entries of one condition in the log. *)
Definition edges (r : string) (l : list (bool * string)) : list bool :=
  (List.filter (fun p => String.eqb p.2 r) l).*1.

(** [alternating b l]: l is b, not b, b, ... *)
Fixpoint alternating (b : bool) (l : list bool) : Prop :=
  match l with [] => True | x :: l => x = b /\ alternating (negb b) l end.

Lemma alternating_snoc l : forall b x,
  alternating b l -> x = (if Nat.even (length l) then b else negb b) -> alternating b (l ++ [x]).
Proof.
  induction l as [|y l IH]; intros b x A ->; [done|]. destruct A as [-> A]. split; [done|].
  apply IH; [done|]. cbn [length]. rewrite Nat.even_succ, <- Nat.negb_even.
  destruct (Nat.even (length l)); cbn; by rewrite ?negb_involutive.
Qed.

Lemma edges_snoc r l b r' : edges r (l ++ [(b, r')]) = edges r l ++ (if String.eqb r' r then [b] else []).
Proof. unfold edges. rewrite List.filter_app, fmap_app. cbn. by destruct (String.eqb r' r). Qed.

Definition edges_inv (r : string) (h : healthState) : Prop :=
  alternating true (edges r (transitions h)) /\
  bool_decide (is_Some (active h !! r)) = Nat.odd (length (edges r (transitions h))) /\
  (is_Some (active h !! r) <-> last (edges r (transitions h)) = Some true).

Lemma edges_inv_push r h h' b r' :
  edges_inv r h -> transitions h' = transitions h ++ [(b, r')] ->
  (r' <> r -> active h' !! r = active h !! r) ->
  (r' = r -> bool_decide (is_Some (active h !! r)) = negb b /\ bool_decide (is_Some (active h' !! r)) = b) ->
  edges_inv r h'.
Proof.
  intros (A & O & L) T F E. unfold edges_inv. rewrite T, edges_snoc.
  destruct (String.eqb_spec r' r) as [->|N]; [|rewrite app_nil_r, (F N); by split_and!].
  destruct (E eq_refl) as [E1 E2]. rewrite length_app, last_snoc. cbn [length]. rewrite Nat.add_1_r, E2.
  rewrite Nat.odd_succ, <- Nat.negb_odd, <- O, E1, negb_involutive.
  split_and!; [|done|].
  - apply alternating_snoc; [done|]. rewrite <- Nat.negb_odd, <- O, E1. by destruct b.
  - destruct b; [apply bool_decide_eq_true in E2|apply bool_decide_eq_false in E2]; naive_solver.
Qed.

Lemma cond_apply_edges r h o : edges_inv r h -> edges_inv r (cond_apply h o).
Proof.
  intros I. destruct o as [now r'|r']; cbn [cond_apply]; unfold set_cond, clear;
    destruct (active h !! r') as [t|] eqn:E; try done.
  - eapply edges_inv_push; [exact I|done| |]; cbn [active].
    + intros N. by apply lookup_insert_ne.
    + intros ->. by rewrite E, lookup_insert_eq.
  - eapply edges_inv_push; [exact I|done| |]; cbn [active].
    + intros N. by apply lookup_delete_ne.
    + intros ->. by rewrite E, lookup_delete_eq.
Qed.

(** Each health transition is logged exactly once: whatever conditions are set
    and cleared, repeatedly or not, the log entries of a condition alternate
    between unhealthy and recovered, starting with unhealthy, and the condition
    is active exactly when its last entry is unhealthy. *)
Theorem health_edge_triggered ops r :
  let h := foldl cond_apply newHealthState ops in
  alternating true (edges r (transitions h)) /\
  (is_Some (active h !! r) <-> last (edges r (transitions h)) = Some true).
Proof.
  intros h. enough (G : edges_inv r h) by (split; apply G).
  subst h. induction ops as [|o ops IH] using rev_ind.
  { split; [done|]. split; [done|]. cbn. rewrite lookup_empty. split; [by intros []|done]. }
  rewrite foldl_app. cbn [foldl]. set (h := foldl _ _ ops) in *. clearbody h. by apply cond_apply_edges.
Qed.

(** *** One evaluation *)

Definition stuck (threshold now : Z) (p : Probe) : Prop :=
  exists s age, Sample now p = (s, age, true) /\ threshold < age.

Lemma stuck_cond_inj a b : condStuckPrefix +:+ a = condStuckPrefix +:+ b -> a = b.
Proof. unfold condStuckPrefix. cbn. intros E. by injection E. Qed.

Lemma evaluate_probe_active threshold now h ref r :
  is_Some (active (evaluate_probe threshold now h ref) !! r) <->
  if decide (r = condStuckPrefix +:+ ref.1) then stuck threshold now ref.2 else is_Some (active h !! r).
Proof.
  unfold evaluate_probe, stuck. destruct (Sample now ref.2) as [[s age] a].
  assert (St : (exists s' age', (s, age, a) = (s', age', true) /\ threshold < age') <-> a && (threshold <? age) = true).
  { rewrite andb_true_iff, Z.ltb_lt. split; [intros (? & ? & [= <- <- ->] & ?); done|].
    intros [-> X]. eauto. }
  destruct (decide _) as [->|D]; [rewrite St|]; destruct (a && (threshold <? age)).
  - rewrite set_cond_active. split; [done|by left].
  - rewrite clear_active. naive_solver.
  - rewrite set_cond_active. naive_solver.
  - rewrite clear_active. naive_solver.
Qed.

Lemma evaluate_probe_frame threshold now h ref :
  lastFetchSuccess (evaluate_probe threshold now h ref) = lastFetchSuccess h.
Proof.
  unfold evaluate_probe. destruct (Sample _ _) as [[s age] a].
  case_match; [apply set_cond_frame|apply clear_frame].
Qed.

Lemma evaluate_probes_active threshold now ps h r :
  NoDup ps.*1 ->
  is_Some (active (foldl (evaluate_probe threshold now) h ps) !! r) <->
  (exists p, p ∈ ps /\ r = condStuckPrefix +:+ p.1 /\ stuck threshold now p.2) \/
  (forall p, p ∈ ps -> r <> condStuckPrefix +:+ p.1) /\ is_Some (active h !! r).
Proof.
  revert h. induction ps as [|p ps IH]; intros h N; cbn [foldl].
  { split; [intros X; right; split; [intros p I; by apply elem_of_nil in I|done]|].
    intros [(p & I & _)|[_ X]]; [by apply elem_of_nil in I|done]. }
  apply NoDup_cons in N as [N0 N]. rewrite IH by done. rewrite evaluate_probe_active.
  setoid_rewrite elem_of_cons. case_decide as D.
  - assert (U : forall q, q ∈ ps -> r <> condStuckPrefix +:+ q.1).
    { intros q Q E. apply N0. rewrite D in E. apply stuck_cond_inj in E. rewrite E. by apply list_elem_of_fmap_2. }
    split.
    + intros [(q & Q & E & _)|[_ X]]; [by destruct (U q Q)|]. left. exists p. auto.
    + intros [(q & [->|Q] & E & X)|[X _]]; [by right|by destruct (U q Q)|]. destruct (X p); auto.
  - split.
    + intros [(q & Q & E & X)|[X Y]]; [left; exists q; auto|]. right. split; [|done].
      intros q [->|Q]; [done|by apply X].
    + intros [(q & [->|Q] & E & X)|[X Y]]; [done|left; exists q; auto|]. right. split; [|done].
      intros q Q. apply X. auto.
Qed.

Lemma evaluate_probes_fetch threshold now ps h :
  lastFetchSuccess (foldl (evaluate_probe threshold now) h ps) = lastFetchSuccess h.
Proof. revert h. induction ps as [|p ps IH]; intros h; [done|]. cbn. by rewrite IH, evaluate_probe_frame. Qed.

Lemma evaluate_active m now h r :
  NoDup (probes m).*1 ->
  is_Some (active (evaluate m now h) !! r) <->
  (exists p, p ∈ probes m /\ r = condStuckPrefix +:+ p.1 /\ stuck (stuckThreshold m) now p.2) \/
  r = condFetchStalled /\ stuckThreshold m < fetchSuccessAge now h /\ ~ is_Some (active h !! condRebinding) \/
  r <> condFetchStalled /\ (forall p, p ∈ probes m -> r <> condStuckPrefix +:+ p.1) /\ is_Some (active h !! r).
Proof.
  intros N. unfold evaluate. set (h1 := foldl _ h (probes m)).
  assert (A1 : forall r, is_Some (active h1 !! r) <->
    (exists p, p ∈ probes m /\ r = condStuckPrefix +:+ p.1 /\ stuck (stuckThreshold m) now p.2) \/
    (forall p, p ∈ probes m -> r <> condStuckPrefix +:+ p.1) /\ is_Some (active h !! r))
    by (intros; by apply evaluate_probes_active).
  assert (R : isActive condRebinding h1 = isActive condRebinding h).
  { unfold isActive. apply bool_decide_ext. rewrite A1. split; [|by right].
    by intros [(p & _ & E & _)|[_ X]]. }
  assert (F : fetchSuccessAge now h1 = fetchSuccessAge now h)
    by (unfold fetchSuccessAge, h1; by rewrite evaluate_probes_fetch).
  rewrite F, R. cbn [active recordEvaluate].
  assert (B : (stuckThreshold m <? fetchSuccessAge now h) && negb (isActive condRebinding h) = true <->
    stuckThreshold m < fetchSuccessAge now h /\ ~ is_Some (active h !! condRebinding)).
  { rewrite andb_true_iff, negb_true_iff, Z.ltb_lt. unfold isActive. by rewrite bool_decide_eq_false. }
  destruct (_ && _) eqn:E.
  - rewrite set_cond_active, A1. destruct (decide (r = condFetchStalled)) as [->|D]; [naive_solver|].
    naive_solver.
  - rewrite clear_active, A1. destruct (decide (r = condFetchStalled)) as [->|D].
    + split; [by intros []|]. intros [(p & _ & X & _)|[(_ & X)|[X _]]]; [done|by apply B in X|done].
    + naive_solver.
Qed.

(** C24. One evaluation of the monitor is exact: a stage-stuck condition is active
    afterwards exactly for the goroutines blocked in a probed stage for longer
    than the threshold (an idle goroutine never is), fetch-stalled exactly
    when the last successful fetch, of an empty batch or not, is older than
    the threshold and no re-bind is in progress, every other condition is
    untouched, and the heartbeat is the instant of the evaluation. *)
Theorem evaluate_exact m now h :
  NoDup (probes m).*1 ->
  let h' := evaluate m now h in
  (forall owner p, (owner, p) ∈ probes m ->
     is_Some (active h' !! (condStuckPrefix +:+ owner)) <-> stuck (stuckThreshold m) now p) /\
  (is_Some (active h' !! condFetchStalled) <->
     stuckThreshold m < fetchSuccessAge now h /\ ~ is_Some (active h !! condRebinding)) /\
  (is_Some (active h' !! condRebinding) <-> is_Some (active h !! condRebinding)) /\
  lastEvaluateAt h' = Some now /\ lastFetchSuccess h' = lastFetchSuccess h.
Proof.
  intros N h'. split_and!.
  - intros owner p I. unfold h'. rewrite evaluate_active by done. split.
    + intros [(q & Q & E & X)|[(E & _)|(_ & X & _)]]; [|done|by destruct (X _ I)].
      apply stuck_cond_inj in E. destruct q as [o q]. cbn in *. subst o.
      assert (q = p) as <-; [|done].
      apply list_elem_of_lookup_1 in I as [i I], Q as [j Q].
      assert (i = j) as <-.
      { eapply NoDup_lookup; [exact N| |]; rewrite list_lookup_fmap; [by rewrite I|by rewrite Q]. }
      congruence.
    + intros X. left. exists (owner, p). auto.
  - unfold h'. rewrite evaluate_active by done. split.
    + intros [(q & Q & E & _)|[(_ & X)|(X & _)]]; done.
    + intros X. right. by left.
  - unfold h'. rewrite evaluate_active by done. split.
    + intros [(q & Q & E & _)|[(E & _)|(_ & _ & X)]]; done.
    + intros X. right. right. split_and!; [done| |done]. by intros p _ E.
  - done.
  - unfold h', evaluate. cbn. case_match.
    + rewrite (proj1 (set_cond_frame _ _ _)). apply evaluate_probes_fetch.
    + rewrite (proj1 (clear_frame _ _)). apply evaluate_probes_fetch.
Qed.

(** *** Summaries and verdicts *)

Lemma BreakerStates_lookup workers n s :
  NoDup workers.*1 -> BreakerStates workers !! n = Some s <-> exists cb, (n, cb) ∈ workers /\ GetState cb = s.
Proof.
  unfold BreakerStates. induction workers as [|w ws IH] using rev_ind; intros N.
  { cbn. rewrite lookup_empty. split; [done|]. intros (cb & I & _). by apply elem_of_nil in I. }
  rewrite fmap_app, NoDup_app in N. destruct N as (N & D & _). rewrite foldl_app. cbn [foldl].
  destruct w as [n' cb']. cbn [fst snd]. destruct (decide (n' = n)) as [->|Ne].
  - rewrite lookup_insert_eq. split.
    + intros [= <-]. exists cb'. split; [|done]. apply elem_of_app. right. left.
    + intros (cb & [I|I%list_elem_of_singleton]%elem_of_app & <-).
      * exfalso. apply (D n); [|left]. by apply (list_elem_of_fmap_2 fst) in I.
      * by injection I as ->.
  - rewrite lookup_insert_ne, IH by done. split.
    + intros (cb & I & E). exists cb. split; [|done]. apply elem_of_app. by left.
    + intros (cb & [I|I%list_elem_of_singleton]%elem_of_app & E); [by exists cb|]. by injection I as ->.
Qed.

Lemma health_conditions `{Values.MapIter} h r workers :
  r ∈ Conditions (Health h workers) <-> is_Some (active h !! r).
Proof.
  unfold Health, health_snapshot. cbn. rewrite Values.iter_perm, list_elem_of_fmap. split.
  - intros ([k t] & -> & I). apply elem_of_map_to_list in I. by exists t.
  - intros [t E]. exists (r, t). split; [done|]. by apply elem_of_map_to_list.
Qed.

(** The probe endpoints tell the truth.  /readyz answers 200 exactly when NATS
    is connected, no health condition is active and every worker's breaker is
    closed; /livez answers 503 exactly when the heartbeat is stale or a stage
    is stuck: whatever NATS and the breakers do, it never asks for a restart
    because of a dependency. *)
Theorem probe_verdicts_exact `{Values.MapIter} h workers nats last now :
  NoDup workers.*1 ->
  ((handleReadyz nats (Health h workers)).1 = 200 <->
     nats = true /\ active h = ∅ /\ Forall (fun w => GetState w.2 = StateClosed) workers) /\
  ((handleLivez last (Health h workers) now).1 = 503 <->
     (exists t, last = Some t /\ heartbeatStaleAfter < duration_sub now t) \/
     (exists r, is_Some (active h !! r) /\ HasPrefix r condStuckPrefix = true)).
Proof.
  intros N. split.
  - unfold handleReadyz, probeStatus, evaluateReadiness. cbn [fst Ready].
    assert (B : BreakerOpen (Health h workers) = false <-> Forall (fun w => GetState w.2 = StateClosed) workers).
    { unfold Health. cbn. rewrite bool_decide_eq_false, Forall_forall. split.
      - intros X [n cb] I. destruct (decide (GetState cb = StateClosed)); [done|]. exfalso. apply X.
        exists n, (GetState cb). split; [|done]. apply BreakerStates_lookup; [done|]. by exists cb.
      - intros X (n & s & E & Ns). apply BreakerStates_lookup in E as (cb & I & <-); [|done].
        by apply Ns, (X (n, cb)). }
    assert (F : FetchHealthy (Health h workers) = true <-> active h = ∅).
    { assert (FetchHealthy (Health h workers) = true <-> Conditions (Health h workers) = []) as ->.
      { unfold Health, health_snapshot. cbn. destruct (Values.iter _); done. }
      split; [|intros E].
      - intros E. apply map_empty. intros r. apply eq_None_not_Some. rewrite <- (health_conditions h r workers), E.
        apply not_elem_of_nil.
      - destruct (Conditions (Health h workers)) as [|r l] eqn:C; [done|].
        assert (X : is_Some (active h !! r)) by (apply (health_conditions h r workers); rewrite C; left).
        rewrite E, lookup_empty in X. by destruct X. }
    rewrite <- B, <- F. destruct nats, (FetchHealthy (Health h workers)), (BreakerOpen (Health h workers)); cbn; naive_solver.
  - unfold handleLivez, probeStatus, evaluateLiveness. cbn [fst].
    assert (S : StageStuck (Health h workers) = true <-> exists r, is_Some (active h !! r) /\ HasPrefix r condStuckPrefix = true).
    { unfold StageStuck. rewrite existsb_exists. setoid_rewrite <- list_elem_of_In.
      split; intros (r & I & P); exists r; by rewrite health_conditions in *. }
    rewrite <- S. destruct last as [t|].
    + destruct (Z.ltb_spec heartbeatStaleAfter (duration_sub now t)); cbn [Alive_]; [naive_solver|].
      destruct (StageStuck _); cbn; naive_solver lia.
    + destruct (StageStuck _); cbn; naive_solver.
Qed.
