(* ===== verification/Connector.v ===== *)
(** * Connector: the fetch loop and the re-bind ladder (connector/connector.go)

    The loop is driven by one [fetch_input] per iteration: what Fetch and the
    re-bind return, the clock, and at which of its looks at the context the
    code finds it cancelled.  Its effects are the [loop_event]s, in order; a
    send to the work channel blocks until a worker takes it, so the channel's
    capacity does not show. *)
From S2P Require Import Prelude GoInt GoStr GoFloat GoTime Values Steps Backoff SinkOptions Source Liveness.
From S2P Require Import Stats Breaker Health.

Definition fetchBackoffBase : Z := 100 * Millisecond.
Definition fetchBackoffMax : Z := 5 * Second.
Definition idleSleep : Z := 100 * Millisecond.
Definition rebindBackoffBase : Z := Second.
Definition rebindBackoffMax : Z := 32 * Second.
Definition rebindMaxAttempts : Z := 10.

Record Connector : Type := {
  source : Source;
  health : healthState;
  fetchProbe : Probe;
  stats : FetchStats;
  rebindBase : Z; rebindMax : Z; rebindAttempts : Z
}.

Record rebind_input : Type := {
  rb_start : Z;                         (* when the condition is set *)
  rb_env : nat -> NatsEnv;              (* attempt i *)
  rb_ctx : nat -> option error;         (* ctx.Err() in Rebind *)
  rb_cancelled : nat -> bool;           (* ctx.Err() after a failed attempt *)
  rb_wait_cancelled : nat -> bool;      (* ctx.Done wins the sleep *)
  rb_now : nat -> Z
}.

Record fetch_input : Type := {
  fi_cancelled : bool;                  (* ctx.Err() at the loop head *)
  fi_start : Z; fi_now : Z;             (* around the fetch *)
  fi_fetched : list nats_msg + error;   (* Subscription.Fetch *)
  fi_valid : bool;                      (* Subscription.IsValid() *)
  fi_recover_cancelled : bool;          (* ctx.Err() in recoverFetch *)
  fi_wait_cancelled : bool;             (* ctx.Done wins the backoff *)
  fi_rebind : rebind_input;
  fi_dispatch_cancelled : bool;         (* ctx.Done wins the dispatch *)
  fi_error_text : error -> string
}.

Inductive loop_event : Type :=
  | Sent (batch : MessageBatch)
  | Waited (d : Z)
  | Idle
  | Rebound
  | Fatal (err : error)
  | Closed_workCh.

(** Field updates. *)
Definition with_source (c : Connector) (s : Source) : Connector :=
  {| source := s; health := health c; fetchProbe := fetchProbe c; stats := stats c;
     rebindBase := rebindBase c; rebindMax := rebindMax c; rebindAttempts := rebindAttempts c |}.
Definition with_health (c : Connector) (h : healthState) : Connector :=
  {| source := source c; health := h; fetchProbe := fetchProbe c; stats := stats c;
     rebindBase := rebindBase c; rebindMax := rebindMax c; rebindAttempts := rebindAttempts c |}.
Definition with_probe (c : Connector) (p : Probe) : Connector :=
  {| source := source c; health := health c; fetchProbe := p; stats := stats c;
     rebindBase := rebindBase c; rebindMax := rebindMax c; rebindAttempts := rebindAttempts c |}.
Definition add_stats (c : Connector) (fetched transient subscription rebinds : Z) : Connector :=
  {| source := source c; health := health c; fetchProbe := fetchProbe c;
     stats := {| MessagesFetched := wrapu64 (MessagesFetched (stats c) + fetched);
                 TransientErrors := wrapu64 (TransientErrors (stats c) + transient);
                 SubscriptionErrors := wrapu64 (SubscriptionErrors (stats c) + subscription);
                 RebindAttempts := wrapu64 (RebindAttempts (stats c) + rebinds) |};
     rebindBase := rebindBase c; rebindMax := rebindMax c; rebindAttempts := rebindAttempts c |}.

(** NewConnector: the fields of the fetch loop. *)
Definition NewConnector (s : Source) : Connector :=
  {| source := s; health := newHealthState; fetchProbe := zero_probe;
     stats := {| MessagesFetched := 0; TransientErrors := 0; SubscriptionErrors := 0; RebindAttempts := 0 |};
     rebindBase := rebindBackoffBase; rebindMax := rebindBackoffMax; rebindAttempts := rebindMaxAttempts |}.

Definition isSubscriptionFailed (err : error) : bool :=
  bool_decide (as_connector_code err = Some ErrCodeSubscriptionFailed).

(** ** Re-binding *)

(** The loop of rebindSubscription from attempt [i] on, [fuel] attempts before
    the budget: whether to go on fetching. *)
Fixpoint rebind_loop (ri : rebind_input) (fuel i : nat) (backoff : Backoff) (c : Connector)
    : bool * Connector * list loop_event :=
  match fuel with
  | O => (false, c, [Fatal (NewMaxRetriesExceededError "source" (rebindAttempts c))])
  | S fuel =>
      let c := add_stats c 0 0 0 1 in
      let '(s, err) := Rebind (rb_env ri i) (rb_ctx ri i) (source c) in
      let c := with_source c s in
      match err with
      | None => (true, with_health c (clear condRebinding (recordFetchSuccess (rb_now ri i) (health c))), [Rebound])
      | Some _ =>
          if rb_cancelled ri i then (false, c, [])
          else if Z.of_nat i <? rebindAttempts c then
            let '(waitErr, d, backoff) := Wait backoff (rb_wait_cancelled ri i) in
            match waitErr with
            | Some _ => (false, c, [])
            | None => let '(r, c, ev) := rebind_loop ri fuel (S i) backoff c in (r, c, Waited d :: ev)
            end
          else rebind_loop ri fuel (S i) backoff c
      end
  end.

Definition rebindSubscription (ri : rebind_input) (c : Connector) : bool * Connector * list loop_event :=
  let c := with_health c (set_cond (rb_start ri) condRebinding (health c)) in
  rebind_loop ri (Z.to_nat (rebindAttempts c)) 1 (NewBackoff (rebindBase c) (rebindMax c)) c.

(** ** One round *)

Definition fetchOnce (fi : fetch_input) (c : Connector) : Connector * (MessageBatch + error) :=
  let c := with_probe c (Begin (fi_start fi) "fetch") in
  let '(s, r) := FetchBatch (fi_error_text fi) (fi_now fi) (fi_fetched fi) (fi_valid fi) (source c) in
  (with_probe (with_source c s) End_, r).

Definition recoverFetch (fi : fetch_input) (err : error) (backoff : Backoff) (c : Connector)
    : bool * Connector * Backoff * list loop_event :=
  if fi_recover_cancelled fi then (false, c, backoff, [])
  else if isSubscriptionFailed err then
    let '(r, c, ev) := rebindSubscription (fi_rebind fi) (add_stats c 0 0 1 0) in (r, c, backoff, ev)
  else
    let c := add_stats c 0 1 0 0 in
    let '(waitErr, d, backoff) := Wait backoff (fi_wait_cancelled fi) in
    match waitErr with
    | Some _ => (false, c, backoff, [])
    | None => (true, c, backoff, [Waited d])
    end.

Definition dispatch (fi : fetch_input) (batch : MessageBatch) (c : Connector) : bool * Connector * list loop_event :=
  if (length (Messages batch) =? 0)%nat then
    if fi_dispatch_cancelled fi then (false, c, []) else (true, c, [Idle])
  else
    let c := with_probe c (Begin (fi_now fi) "dispatch") in
    if fi_dispatch_cancelled fi then (false, with_probe c End_, [])
    else (true, with_probe c End_, [Sent batch]).

(** One iteration of fetchLoop after the check of its head. *)
Definition fetch_round (fi : fetch_input) (backoff : Backoff) (c : Connector)
    : bool * Connector * Backoff * list loop_event :=
  let '(c, r) := fetchOnce fi c in
  match r with
  | inr err => recoverFetch fi err backoff c
  | inl batch =>
      let backoff := Reset backoff in
      let c := with_health c (recordFetchSuccess (fi_now fi) (health c)) in
      let c := add_stats c (Z.of_nat (length (Messages batch))) 0 0 0 in
      let '(go, c, ev) := dispatch fi batch c in
      (go, c, backoff, ev)
  end.

(** fetchLoop over the inputs so far; [true] once it has returned, which
    closes the work channel. *)
Fixpoint fetch_rounds (inputs : list fetch_input) (backoff : Backoff) (c : Connector)
    : bool * Connector * list loop_event :=
  match inputs with
  | [] => (false, c, [])
  | fi :: inputs =>
      if fi_cancelled fi then (true, c, [Closed_workCh])
      else
        let '(go, c, backoff, ev) := fetch_round fi backoff c in
        if (go : bool) then
          let '(stopped, c, evs) := fetch_rounds inputs backoff c in (stopped, c, ev ++ evs)
        else (true, c, ev ++ [Closed_workCh])
  end.

Definition fetchLoop (inputs : list fetch_input) (c : Connector) : bool * Connector * list loop_event :=
  fetch_rounds inputs (NewBackoff fetchBackoffBase fetchBackoffMax) c.

(** ** Laws *)

(** *** The re-bind ladder *)

Lemma Wait_eq bo b : Wait bo b = (if b then Some Canceled else None, (Next bo).1, (Next bo).2).
Proof. unfold Wait. by destruct (Next bo). Qed.

Lemma delays_S k bo : (delays (S k) bo).1 = (Next bo).1 :: (delays k (Next bo).2).1.
Proof. cbn. destruct (Next bo). by destruct (delays k _). Qed.

Lemma Rebind_cases env ctx s s' err :
  Rebind env ctx s = (s', err) ->
  match err with None => is_Some (Subscription s') | Some _ => s' = s end.
Proof.
  unfold Rebind. destruct ctx; [by intros [= <- <-]|].
  destruct (bindPullSubscription env s); intros [= <- <-]; [done|by eexists].
Qed.

Definition waits (bo : Backoff) (k : nat) : list loop_event := Waited <$> (delays k bo).1.

Lemma waits_S bo k : waits bo (S k) = Waited (Next bo).1 :: waits (Next bo).2 k.
Proof. unfold waits. by rewrite delays_S. Qed.

Definition ladder_fatal (c : Connector) : loop_event :=
  Fatal (NewMaxRetriesExceededError "source" (rebindAttempts c)).

(** How the ladder from attempt [i] on, with [fuel] attempts left, can end
    after [k] more attempts. *)
Definition ladder_end (ri : rebind_input) (fuel i k : nat) (bo : Backoff) (c c' : Connector) (go : bool)
    (ev : list loop_event) : Prop :=
  go = true /\ (1 <= k)%nat /\ ev = waits bo (pred k) ++ [Rebound] /\ is_Some (Subscription (source c')) /\
    health c' = clear condRebinding (recordFetchSuccess (rb_now ri (i + k - 1)) (health c)) \/
  go = false /\ k = fuel /\ ev = waits bo (pred k) ++ [ladder_fatal c] /\ source c' = source c /\ health c' = health c \/
  go = false /\ (1 <= k)%nat /\ ev = waits bo (pred k) /\ source c' = source c /\ health c' = health c /\
    (rb_cancelled ri (i + k - 1) = true \/ rb_wait_cancelled ri (i + k - 1) = true).

(** The attempts [i], ..., [i + n - 1] on the source [s] fail. *)
Definition refused (ri : rebind_input) (s : Source) (i n : nat) : Prop :=
  forall j, (i <= j < i + n)%nat -> exists err, Rebind (rb_env ri j) (rb_ctx ri j) s = (s, Some err).

(** Of [k] attempts from [i] on all failed, or all but the last. *)
Definition ladder_calls (ri : rebind_input) (i k : nat) (s s' : Source) (go : bool) : Prop :=
  if go then refused ri s i (pred k) /\ Rebind (rb_env ri (i + k - 1)) (rb_ctx ri (i + k - 1)) s = (s', None)
  else refused ri s i k.

Lemma refused_0 ri s i : refused ri s i 0.
Proof. intros j. lia. Qed.

Lemma refused_S ri s i n err :
  Rebind (rb_env ri i) (rb_ctx ri i) s = (s, Some err) -> refused ri s (S i) n -> refused ri s i (S n).
Proof. intros E R j J. destruct (decide (j = i)) as [->|N]; [by eexists|apply R; lia]. Qed.

Lemma ladder_calls_S ri i k s s' go err :
  (go = true -> 1 <= k)%nat -> Rebind (rb_env ri i) (rb_ctx ri i) s = (s, Some err) ->
  ladder_calls ri (S i) k s s' go -> ladder_calls ri i (S k) s s' go.
Proof.
  intros K E. unfold ladder_calls. destruct go; [|by eapply refused_S].
  specialize (K eq_refl). intros [R C]. replace (i + S k - 1)%nat with (S i + k - 1)%nat by lia. split; [|done].
  destruct k; [lia|]. by eapply refused_S.
Qed.

Lemma rebind_loop_end ri : forall fuel i bo c go c' ev,
  rebind_loop ri fuel i bo c = (go, c', ev) -> Z.of_nat (i + fuel) = rebindAttempts c + 1 ->
  exists k, (k <= fuel)%nat /\ wrapu64 (RebindAttempts (stats c')) = wrapu64 (RebindAttempts (stats c) + Z.of_nat k) /\
    ladder_end ri fuel i k bo c c' go ev /\ ladder_calls ri i k (source c) (source c') go.
Proof.
  induction fuel as [|fuel IH]; intros i bo c go c' ev E L; cbn [rebind_loop] in E.
  { injection E as <- <- <-. exists 0%nat. rewrite Z.add_0_r. split_and!; [done|done| |apply refused_0].
    right. left. by split_and!. }
  destruct (Rebind _ _ _) as [s err] eqn:R. pose proof (Rebind_cases _ _ _ _ _ R) as Rc. cbn [add_stats source] in R, Rc.
  assert (W : forall x y, wrapu64 (wrapu64 (x + 1) + y) = wrapu64 (x + (1 + y)))
    by (intros x y; rewrite wrapu64_add; f_equal; lia).
  assert (W1 : forall x, wrapu64 (wrapu64 (x + 1)) = wrapu64 (x + Z.of_nat 1)) by (intros x; unfold wrapu64; by rewrite Z.mod_mod).
  destruct err as [err|].
  2: { injection E as <- <- <-. exists 1%nat. unfold ladder_end, ladder_calls. replace (i + 1 - 1)%nat with i by lia.
       split_and!; [lia|apply W1|by left; split_and!|apply refused_0|exact R]. }
  subst s. assert (R1 : refused ri (source c) i 1) by (eapply refused_S; [exact R|apply refused_0]).
  destruct (rb_cancelled ri i) eqn:C.
  { injection E as <- <- <-. exists 1%nat. unfold ladder_end. replace (i + 1 - 1)%nat with i by lia.
    split_and!; [lia|apply W1|right; right; split_and!; auto|exact R1]. }
  cbn [with_source add_stats rebindAttempts] in E.
  assert (St : forall bo' evs, rebind_loop ri fuel (S i) bo' (with_source (add_stats c 0 0 0 1) (source c)) = (go, c', evs) ->
    exists k, (k <= fuel)%nat /\
      wrapu64 (RebindAttempts (stats c')) = wrapu64 (RebindAttempts (stats c) + Z.of_nat (S k)) /\
      ladder_end ri fuel (S i) k bo' c c' go evs /\ ladder_calls ri i (S k) (source c) (source c') go).
  { intros bo' evs E'. destruct (IH _ _ _ _ _ _ E') as (k & K & A & D & F); [cbn; lia|].
    exists k. split; [done|]. split; [rewrite A; cbn; rewrite W; f_equal; lia|]. split; [done|].
    eapply ladder_calls_S; [|exact R|exact F]. intros ->. destruct D as [(_ & D & _)|[(D & _)|(D & _)]]; done. }
  destruct (Z.ltb_spec (Z.of_nat i) (rebindAttempts c)) as [B|B].
  - rewrite Wait_eq in E. destruct (rb_wait_cancelled ri i) eqn:Wc.
    { injection E as <- <- <-. exists 1%nat. unfold ladder_end. replace (i + 1 - 1)%nat with i by lia.
      split_and!; [lia|apply W1|right; right; split_and!; auto|exact R1]. }
    destruct (rebind_loop _ _ _ _ _) as [[r c1] evs] eqn:E1. injection E as <- <- <-.
    destruct (St _ _ E1) as (k & K & A & D & F). exists (S k). split_and!; [lia|done| |done].
    destruct fuel as [|fuel]; [lia|].
    unfold ladder_end in *. cbn [pred]. replace (i + S k - 1)%nat with (i + k)%nat by lia.
    replace (S i + k - 1)%nat with (i + k)%nat in D by lia.
    destruct D as [(D1 & D2 & -> & D)|[(D1 & -> & -> & D)|(D1 & D2 & -> & D)]].
    + left. destruct k; [lia|]. rewrite waits_S. destruct D. split_and!; try done; lia.
    + right. left. rewrite waits_S. cbn [pred]. destruct D. by split_and!.
    + right. right. destruct k; [lia|]. rewrite waits_S. destruct D as (? & ? & ?). split_and!; try done; lia.
  - assert (fuel = 0%nat) as -> by lia. destruct (St _ _ E) as (k & K & A & D & F).
    assert (k = 0%nat) as -> by lia. exists 1%nat. split_and!; [lia|done| |done].
    destruct D as [(_ & D & _)|[(D1 & _ & -> & D)|(_ & D & _)]]; [lia| |lia].
    right. left. destruct D. by split_and!.
Qed.

(** The delays of a backoff in closed form. *)
Lemma waits_eq b maxDelay k :
  0 < b <= maxDelay -> maxDelay <= max_int64 / 2 ->
  waits (NewBackoff b maxDelay) k = (fun i => Waited (Z.min maxDelay (b * 2 ^ Z.of_nat i))) <$> seq 0 k.
Proof.
  intros B M. apply list_eq. intros i. unfold waits. rewrite !list_lookup_fmap.
  destruct (backoff_sequence b maxDelay k i 0 B M) as (L & _ & _).
  destruct (decide (i < k)%nat) as [I|I].
  - rewrite lookup_seq_lt by done. destruct (lookup_lt_is_Some_2 (delays k (NewBackoff b maxDelay)).1 i) as [d D]; [lia|].
    rewrite D. cbn. by destruct (proj1 (proj2 (backoff_sequence b maxDelay k i d B M)) D) as [-> _].
  - rewrite !lookup_ge_None_2; [done|rewrite length_seq; lia|lia].
Qed.

(** C16. Re-binding a dead subscription is bounded and exact.
    rebindSubscription makes at most the budgeted number of attempts, sleeping
    min(max, base * 2^i) after the i-th failed one but never after the last,
    and ends in one of three ways: all attempts but the last failed and the last
    one gave the fresh subscription, with the condition cleared and the fetch
    clock refreshed; every attempt of the whole budget failed, which reports
    MaxRetriesExceeded once and leaves the condition active; or every attempt so
    far failed and the context was cancelled, silently. *)
Theorem rebind_bounded ri c go c' ev :
  0 <= rebindAttempts c -> 0 < rebindBase c <= rebindMax c -> rebindMax c <= max_int64 / 2 ->
  active (health c) !! condRebinding = None ->
  rebindSubscription ri c = (go, c', ev) ->
  exists k, Z.of_nat k <= rebindAttempts c /\
    wrapu64 (RebindAttempts (stats c')) = wrapu64 (RebindAttempts (stats c) + Z.of_nat k) /\
    let sleeps := (fun i => Waited (Z.min (rebindMax c) (rebindBase c * 2 ^ Z.of_nat i))) <$> seq 0 (pred k) in
    let failed j := exists err, Rebind (rb_env ri j) (rb_ctx ri j) (source c) = (source c, Some err) in
    (go = true /\ ev = sleeps ++ [Rebound] /\
       (forall j, (1 <= j < k)%nat -> failed j) /\
       Rebind (rb_env ri k) (rb_ctx ri k) (source c) = (source c', None) /\ is_Some (Subscription (source c')) /\
       active (health c') !! condRebinding = None /\ lastFetchSuccess (health c') = Some (rb_now ri k)
     \/ go = false /\ source c' = source c /\ is_Some (active (health c') !! condRebinding) /\
         (forall j, (1 <= j <= k)%nat -> failed j) /\
         (Z.of_nat k = rebindAttempts c /\
          ev = sleeps ++ [Fatal (NewMaxRetriesExceededError "source" (rebindAttempts c))]
          \/ ev = sleeps /\ (rb_cancelled ri k = true \/ rb_wait_cancelled ri k = true))).
Proof.
  intros N0 Bb Bm Hn E. unfold rebindSubscription in E. cbn [with_health rebindAttempts rebindBase rebindMax] in E.
  destruct (rebind_loop_end _ _ _ _ _ _ _ _ E) as (k & K & A & D & F); [cbn; lia|].
  exists k. split; [lia|]. split; [exact A|]. cbn zeta.
  unfold ladder_end, ladder_fatal in D. unfold ladder_calls, refused in F.
  cbn [with_health health source rebindAttempts] in D, F. rewrite (waits_eq _ _ _ Bb Bm) in D.
  replace (1 + k - 1)%nat with k in D, F by lia. unfold set_cond in D. rewrite Hn in D.
  destruct D as [(-> & K1 & -> & S & H)|[(-> & -> & -> & Sc & H)|(-> & K1 & -> & Sc & H & C)]].
  - left. destruct F as [F R]. split_and!; try done; [intros j J; apply F; lia|..]; rewrite H; unfold clear; cbn; rewrite lookup_insert_eq; cbn; [|done].
    apply lookup_delete_eq.
  - right. split; [done|]. split; [done|]. split; [rewrite H; cbn; rewrite lookup_insert_eq; by eexists|].
    split; [intros j J; apply F; lia|]. left. split; [lia|done].
  - right. split; [done|]. split; [done|]. split; [rewrite H; cbn; rewrite lookup_insert_eq; by eexists|].
    split; [intros j J; apply F; lia|]. by right.
Qed.

(** The production ladder sleeps 1 + 2 + 4 + 8 + 16 + 4*32 = 159 s in all when
    the durable never comes back: the tenth failure is reported without a
    further sleep. *)
Example rebind_total_sleep :
  foldr Z.add 0 (delays 9 (NewBackoff rebindBackoffBase rebindBackoffMax)).1 = 159 * Second.
Proof. reflexivity. Qed.

(** *** The fetch loop *)

(** The batches sent to the workers, in order. *)
Definition sent (ev : list loop_event) : list MessageBatch :=
  omap (fun e => match e with Sent b => Some b | _ => None end) ev.

Lemma sent_app a b : sent (a ++ b) = sent a ++ sent b.
Proof. apply omap_app. Qed.

(** The non-empty batch an iteration fetches. *)
Definition batch_of (fi : fetch_input) : list MessageBatch :=
  match fi_fetched fi with
  | inl ((_ :: _) as msgs) => [{| Messages := imap (fun i msg => {| InfoMsg := msg; Sequence := sequence_of i msg |}) msgs |}]
  | _ => []
  end.

Definition fetched_count (fi : fetch_input) : Z :=
  match fi_fetched fi with inl msgs => Z.of_nat (length msgs) | inr _ => 0 end.

(** A fetch that succeeded, with messages or none. *)
Definition fetch_ok (fi : fetch_input) : bool :=
  match fi_fetched fi with inl _ => true | inr err => isNoData err end.

Lemma sent_waits bo k l : sent (waits bo k ++ l) = sent l.
Proof. rewrite sent_app. unfold waits. induction (delays k bo).1 as [|d ds IH]; [done|]. exact IH. Qed.

(** Everything the loop keeps. *)
Definition kept (c c' : Connector) (fetched : Z) : Prop :=
  (is_Some (Subscription (source c)) -> is_Some (Subscription (source c'))) /\
  rebindAttempts c' = rebindAttempts c /\ rebindBase c' = rebindBase c /\ rebindMax c' = rebindMax c /\
  wrapu64 (MessagesFetched (stats c')) = wrapu64 (MessagesFetched (stats c) + fetched).

Lemma wrapu64_idem z : wrapu64 (wrapu64 z) = wrapu64 z.
Proof. unfold wrapu64. by rewrite Z.mod_mod. Qed.

Lemma kept_refl c : kept c c 0.
Proof. split_and!; try done. by rewrite Z.add_0_r. Qed.

Lemma kept_trans c1 c2 c3 n m : kept c1 c2 n -> kept c2 c3 m -> kept c1 c3 (n + m).
Proof.
  intros (A1 & A2 & A3 & A4 & A5) (B1 & B2 & B3 & B4 & B5). split_and!; try congruence; [auto|].
  rewrite B5, <- wrapu64_add, A5, wrapu64_add. f_equal. lia.
Qed.

Lemma kept_stats c n t s r : kept c (add_stats c n t s r) n.
Proof. split_and!; try done. apply wrapu64_idem. Qed.

Lemma rebind_loop_kept ri : forall fuel i bo c go c' ev,
  rebind_loop ri fuel i bo c = (go, c', ev) -> kept c c' 0.
Proof.
  induction fuel as [|fuel IH]; intros i bo c go c' ev E; cbn [rebind_loop] in E.
  { injection E as <- <- <-. apply kept_refl. }
  destruct (Rebind _ _ _) as [s err] eqn:R. apply Rebind_cases in R. cbn [add_stats source] in R.
  assert (K : kept c (with_source (add_stats c 0 0 0 1) s) 0).
  { destruct (kept_stats c 0 0 0 1) as (A1 & A2 & A3 & A4 & A5). split_and!; try done.
    cbn. destruct err; [by rewrite R|done]. }
  destruct err as [err|]; [|by injection E as <- <- <-].
  destruct (rb_cancelled ri i); [by injection E as <- <- <-|].
  rewrite Wait_eq in E. case_match.
  - destruct (rb_wait_cancelled ri i); [by injection E as <- <- <-|].
    destruct (rebind_loop _ _ _ _ _) as [[r c1] evs] eqn:E1. injection E as <- <- <-.
    apply (kept_trans _ _ _ 0 0 K). by eapply IH.
  - apply (kept_trans _ _ _ 0 0 K). by eapply IH.
Qed.

Definition rebind_cancelled (ri : rebind_input) : Prop :=
  exists i, rb_cancelled ri i = true \/ rb_wait_cancelled ri i = true.

Lemma rebind_sends ri c go c' ev :
  0 <= rebindAttempts c -> rebindSubscription ri c = (go, c', ev) ->
  sent ev = [] /\ kept c c' 0 /\
  (go = false -> rebind_cancelled ri \/ exists err, Fatal err ∈ ev).
Proof.
  intros N E. unfold rebindSubscription in E. split_and!.
  - destruct (rebind_loop_end _ _ _ _ _ _ _ _ E) as (k & _ & _ & D & _); [cbn; lia|].
    destruct D as [(_ & _ & -> & _)|[(_ & _ & -> & _)|(_ & _ & -> & _)]];
      rewrite ?sent_waits; try done. rewrite <- (app_nil_r (waits _ _)). apply sent_waits.
  - exact (rebind_loop_kept _ _ _ _ _ _ _ _ E).
  - intros ->. destruct (rebind_loop_end _ _ _ _ _ _ _ _ E) as (k & _ & _ & D & _); [cbn; lia|].
    destruct D as [(D & _)|[(_ & _ & -> & _)|(_ & _ & _ & _ & _ & D)]]; [done| |left; by eexists].
    right. eexists. apply elem_of_app. right. left.
Qed.

(** One of the looks at the context found it cancelled. *)
Definition cancelled (fi : fetch_input) : Prop :=
  fi_cancelled fi = true \/ fi_recover_cancelled fi = true \/ fi_wait_cancelled fi = true \/
  fi_dispatch_cancelled fi = true \/ rebind_cancelled (fi_rebind fi).

(** What a fetch returns and keeps. *)
Lemma FetchBatch_spec fi s :
  is_Some (Subscription s) ->
  let '(s', r) := FetchBatch (fi_error_text fi) (fi_now fi) (fi_fetched fi) (fi_valid fi) s in
  is_Some (Subscription s') /\
  match r with
  | inl b => fetch_ok fi = true /\ Z.of_nat (length (Messages b)) = fetched_count fi /\
             batch_of fi = (if (length (Messages b) =? 0)%nat then [] else [b])
  | inr _ => fetch_ok fi = false /\ fetched_count fi = 0 /\ batch_of fi = []
  end.
Proof.
  intros [sub Sub]. unfold FetchBatch, fetch_ok, fetched_count, batch_of. rewrite Sub.
  destruct (fi_fetched fi) as [msgs|err].
  - cbn. split; [case_match; cbn; by rewrite ?Sub; eexists|]. split; [done|].
    split; [by rewrite length_imap|by destruct msgs].
  - destruct (isNoData err); [cbn; split; [by rewrite ?Sub; eexists|by split_and!]|].
    destruct (isSubscriptionDead _ _ _); (cbn; split; [by rewrite ?Sub; eexists|by split_and!]).
Qed.

Lemma dispatch_spec fi b c go c' ev :
  dispatch fi b c = (go, c', ev) ->
  kept c c' 0 /\ health c' = health c /\ go = negb (fi_dispatch_cancelled fi) /\
  sent ev = (if fi_dispatch_cancelled fi then [] else if (length (Messages b) =? 0)%nat then [] else [b]).
Proof.
  unfold dispatch. destruct (length (Messages b) =? 0)%nat, (fi_dispatch_cancelled fi); intros [= <- <- <-];
    (split; [unfold kept; cbn; by rewrite Z.add_0_r|by split_and!]).
Qed.

Lemma recoverFetch_spec fi err bo c go c' bo' ev :
  0 <= rebindAttempts c -> recoverFetch fi err bo c = (go, c', bo', ev) ->
  kept c c' 0 /\ sent ev = [] /\ (go = false -> cancelled fi \/ exists err, Fatal err ∈ ev).
Proof.
  intros N. unfold recoverFetch. destruct (fi_recover_cancelled fi) eqn:Rc.
  { intros [= <- <- <- <-]. split_and!; [apply kept_refl|done|]. intros _. left. unfold cancelled. auto. }
  destruct (isSubscriptionFailed err).
  - destruct (rebindSubscription _ _) as [[r c1] ev1] eqn:R. intros [= <- <- <- <-].
    destruct (rebind_sends _ (add_stats c 0 0 1 0) _ _ _ N R) as (S & K & G).
    split_and!; [|done|].
    + apply (kept_trans _ _ _ 0 0 (kept_stats c 0 0 1 0) K).
    + intros X. destruct (G X); [left|by right]. unfold cancelled. auto.
  - rewrite Wait_eq. destruct (fi_wait_cancelled fi) eqn:Wc; intros [= <- <- <- <-].
    + split_and!; [apply kept_stats|done|]. intros _. left. unfold cancelled. auto.
    + split_and!; [apply kept_stats|done|done].
Qed.

Lemma fetch_round_spec fi bo c go c' bo' ev :
  is_Some (Subscription (source c)) -> 0 <= rebindAttempts c ->
  fetch_round fi bo c = (go, c', bo', ev) ->
  kept c c' (fetched_count fi) /\
  sent ev = (if fi_dispatch_cancelled fi then [] else batch_of fi) /\
  (go = true -> sent ev = batch_of fi) /\
  (go = false -> cancelled fi \/ exists err, Fatal err ∈ ev) /\
  (fetch_ok fi = true -> lastFetchSuccess (health c') = Some (fi_now fi)).
Proof.
  intros Sub N E. unfold fetch_round, fetchOnce in E. cbn [with_probe source] in E.
  pose proof (FetchBatch_spec fi (source c) Sub) as F.
  destruct (FetchBatch _ _ _ _ _) as [s r]. destruct F as [Sub' F].
  set (c1 := with_probe (with_source _ s) End_) in E.
  assert (K1 : kept c c1 0) by (split_and!; try done; cbn; by rewrite Z.add_0_r).
  destruct r as [b|err].
  - destruct F as (Ok & Cn & B). destruct (dispatch _ _ _) as [[g c2] ev2] eqn:D. injection E as <- <- <- <-.
    apply dispatch_spec in D as (K2 & H & -> & S). rewrite <- B in S. rewrite S. split_and!.
    + rewrite <- (Z.add_0_r (fetched_count fi)), <- Cn. eapply kept_trans; [|exact K2].
      rewrite <- (Z.add_0_l (Z.of_nat _)).
      apply (kept_trans _ (with_health c1 (recordFetchSuccess (fi_now fi) (health c1)))); [exact K1|].
      exact (kept_stats (with_health c1 (recordFetchSuccess (fi_now fi) (health c1))) _ 0 0 0).
    + done.
    + intros X. apply negb_true_iff in X. by rewrite X.
    + intros X%negb_false_iff. left. unfold cancelled. auto.
    + intros _. by rewrite H.
  - destruct F as (Ok & -> & ->). apply recoverFetch_spec in E as (K2 & -> & G); [|done]. split_and!.
    + apply (kept_trans _ _ _ 0 0 K1 K2).
    + by case_match.
    + done.
    + exact G.
    + congruence.
Qed.

(** C15. No fetched message is lost, duplicated or reordered on its way to the
    workers: as long as the loop runs, the batches sent to the work channel
    are exactly the non-empty batches fetched, in order, and the counter of
    fetched messages counts them; when it stops, the batches sent are a prefix
    of those fetched and the channel is closed.  And it only stops when its
    context was cancelled or the re-bind budget was exhausted: a transient
    error, however often it repeats, never stops it. *)
Theorem fetch_loop_delivers inputs c stopped c' ev :
  is_Some (Subscription (source c)) -> 0 <= rebindAttempts c ->
  fetchLoop inputs c = (stopped, c', ev) ->
  if stopped then
    sent ev `prefix_of` concat (batch_of <$> inputs) /\ last ev = Some Closed_workCh /\
    ((exists fi, fi ∈ inputs /\ cancelled fi) \/ exists err, Fatal err ∈ ev)
  else
    sent ev = concat (batch_of <$> inputs) /\
    wrapu64 (MessagesFetched (stats c')) =
      wrapu64 (MessagesFetched (stats c) + foldr Z.add 0 (fetched_count <$> inputs)).
Proof.
  unfold fetchLoop. generalize (NewBackoff fetchBackoffBase fetchBackoffMax) as bo.
  revert c stopped c' ev. induction inputs as [|fi inputs IH]; intros c stopped c' ev bo Sub N E; cbn [fetch_rounds] in E.
  { injection E as <- <- <-. split; [done|]. by rewrite Z.add_0_r. }
  destruct (fi_cancelled fi) eqn:Cf.
  { injection E as <- <- <-. split_and!; [apply prefix_nil|done|]. left. exists fi.
    split; [left|]. by left. }
  destruct (fetch_round fi bo c) as [[[go c1] bo1] ev1] eqn:R.
  destruct (fetch_round_spec _ _ _ _ _ _ _ Sub N R) as (K & S & Sg & G & _).
  rewrite fmap_cons. cbn [concat foldr fmap]. destruct go.
  - destruct (fetch_rounds inputs bo1 c1) as [[st c2] evs] eqn:Es. injection E as <- <- <-.
    destruct K as (K1 & K2 & K3 & K4 & K5).
    specialize (IH c1 st c2 evs bo1 (K1 Sub) ltac:(lia) Es). destruct st.
    + destruct IH as (P & L & Z). split_and!.
      * rewrite sent_app, (Sg eq_refl). by apply prefix_app.
      * rewrite last_app, L. done.
      * destruct Z as [(x & X & Y)|(e & X)]; [left; exists x; split; [by right|done]|].
        right. exists e. apply elem_of_app. by right.
    + destruct IH as (P & Q). split; [by rewrite sent_app, (Sg eq_refl), P|].
      rewrite Q, <- wrapu64_add, K5, wrapu64_add. f_equal. rewrite <- Z.add_assoc. reflexivity.
  - injection E as <- <- <-. split_and!.
    + rewrite sent_app, S. cbn. rewrite app_nil_r. case_match; [apply prefix_nil|by apply prefix_app_r].
    + by rewrite last_snoc.
    + destruct (G eq_refl) as [X|[e X]]; [left; exists fi; split; [left|done]|].
      right. exists e. apply elem_of_app. by left.
Qed.

(** Idle is healthy: after any round whose fetch returned, with messages or
    with none, an evaluation of the monitor within the threshold of it leaves
    fetch-stalled inactive. *)
Theorem idle_is_healthy fi bo c go c' bo' ev m now :
  is_Some (Subscription (source c)) -> 0 <= rebindAttempts c ->
  fetch_round fi bo c = (go, c', bo', ev) -> fetch_ok fi = true ->
  NoDup (probes m).*1 -> 0 <= fi_now fi <= now -> now <= max_int64 -> now - fi_now fi <= stuckThreshold m ->
  active (evaluate m now (health c')) !! condFetchStalled = None.
Proof.
  intros Sub N R Ok Nd T M A. destruct (fetch_round_spec _ _ _ _ _ _ _ Sub N R) as (_ & _ & _ & _ & L).
  apply eq_None_not_Some. rewrite evaluate_active by done.
  intros [(p & _ & X & _)|[(_ & X & _)|(X & _)]]; [done| |done].
  unfold fetchSuccessAge in X. rewrite (L Ok) in X. cbn in X. unfold duration_sub in X.
  unfold max_int64, min_int64 in *. lia.
Qed.
