(* ===== verification/Window.v ===== *)
(** * Rolling per-table window (internal/telemetry/window.go)

    Five one-minute buckets, a ring indexed by the minute modulo five; a bucket
    is reset when a newer minute reaches its slot.  The clock is Unix seconds;
    counts are uint64. *)
From S2P Require Import Prelude GoInt GoStr GoFloat Values Stats.
From Stdlib Require Import SpecFloat.

Definition windowBucketCount : nat := 5.
Definition maxDistinctPerBucket : nat := Z.to_nat 10000.
Definition overflowKey : string := "other".

Record tableCount : Type := { TMsgs : Z; TRows : Z }.

(** [counts] is [None] for a nil map. *)
Record windowBucket : Type := { minute : Z; counts : option (gmap string tableCount) }.

Abbreviation tableWindow := (list windowBucket).

Definition newTableWindow : tableWindow := replicate windowBucketCount {| minute := 0; counts := None |}.

Definition minute_of (now : Z) : Z := go_div now 60.

Definition zero_count : tableCount := {| TMsgs := 0; TRows := 0 |}.

(** The bucket's map after the reset of a stale slot. *)
Definition fresh_counts (b : windowBucket) (m : Z) : gmap string tableCount :=
  match counts b with
  | Some c => if minute b =? m then c else ∅
  | None => ∅
  end.

Definition add_counts (c : gmap string tableCount) (table : string) (rows msgs : Z) : gmap string tableCount :=
  let key := if bool_decide (c !! table = None) && (maxDistinctPerBucket <=? size c)%nat
             then overflowKey else table in
  let t := default zero_count (c !! key) in
  <[key := {| TMsgs := wrapu64 (TMsgs t + msgs); TRows := wrapu64 (TRows t + rows) |}]> c.

(** add; a negative minute would index out of range. *)
Definition add (now : Z) (w : tableWindow) (table : string) (rows msgs : Z) : result tableWindow :=
  let m := minute_of now in
  match w !! Z.to_nat (go_rem m 5) with
  | Some b =>
      if m <? 0 then Panic
      else Ok (<[Z.to_nat (go_rem m 5) :=
                 {| minute := m; counts := Some (add_counts (fresh_counts b m) table rows msgs) |}]> w)
  | None => Panic
  end.

Record tableShare : Type := { STable : string; SRows : Z; SMsgs : Z; SharePct : float64 }.
Record windowReport : Type := { Top : list tableShare; Distinct : Z; TotalRows : Z }.

Definition merge_count (acc : gmap string tableCount * Z) (e : string * tableCount) : gmap string tableCount * Z :=
  let m := default zero_count (acc.1 !! e.1) in
  (<[e.1 := {| TMsgs := wrapu64 (TMsgs m + TMsgs e.2); TRows := wrapu64 (TRows m + TRows e.2) |}]> acc.1,
   wrapu64 (acc.2 + TRows e.2)).

(** The live buckets merged, with the total of rows. *)
Definition live (oldest : Z) (b : windowBucket) : gmap string tableCount :=
  match counts b with
  | Some c => if minute b <? oldest then ∅ else c
  | None => ∅
  end.

Definition merged `{MapIter} (now : Z) (w : tableWindow) : gmap string tableCount * Z :=
  let oldest := minute_of now - 5 + 1 in
  foldl (fun acc b => foldl merge_count acc (iter (map_to_list (live oldest b)))) (∅, 0) w.


Definition share_of (total : Z) (e : string * tableCount) : tableShare :=
  {| STable := e.1; SRows := TRows e.2; SMsgs := TMsgs e.2;
     SharePct := if 0 <? total then f64_mul (f64_div (f64_of_Z (TRows e.2)) (f64_of_Z total)) (f64_of_Z 100)
                 else f64_of_Z 0 |}.

(** The order of the report: rows descending, name ascending on ties. *)
Definition before (a b : tableShare) : bool :=
  if SRows a =? SRows b then String.ltb (STable a) (STable b) else SRows b <? SRows a.

Definition share_le (a b : tableShare) : Prop := before b a = false.

#[export] Instance share_le_dec a b : Decision (share_le a b).
Proof. unfold share_le. apply _. Defined.

(** report; the names are distinct, so any sort gives the same order. *)
Definition report `{MapIter} (now : Z) (topN : nat) (w : tableWindow) : windowReport :=
  let '(m, total) := merged now w in
  let entries := iter (map_to_list m) in
  {| Top := take topN (merge_sort share_le (share_of total <$> entries));
     Distinct := Z.of_nat (length (filter (fun e => e.1 <> overflowKey) entries));
     TotalRows := total |}.

(** ** Exactness over the ring *)

(** The history: one (time, table, rows, messages) per call of add. *)
Record entry : Type := { at_ : Z; table : string; erows : Z; emsgs : Z }.

Definition add_all (l : list entry) (w : tableWindow) : result tableWindow :=
  fold_res (fun w e => add (at_ e) w (table e) (erows e) (emsgs e)) l w.

(** Rows of a map, modulo the width. *)
Definition rows_sum (m : gmap string tableCount) : Z := foldr Z.add 0 (TRows <$> (map_to_list m).*2).

Definition rows_at (m : Z) (l : list entry) : Z :=
  foldr Z.add 0 (erows <$> filter (fun e => minute_of (at_ e) = m) l).

Lemma foldr_add_app (a b : list Z) : foldr Z.add 0 (a ++ b) = foldr Z.add 0 a + foldr Z.add 0 b.
Proof. induction a as [|x a IH]; cbn; lia. Qed.

Lemma rows_sum_insert_new m k c : m !! k = None -> rows_sum (<[k := c]> m) = TRows c + rows_sum m.
Proof. intros E. unfold rows_sum. by rewrite map_to_list_insert. Qed.

Lemma rows_sum_insert m k c :
  rows_sum (<[k := c]> m) = rows_sum m - TRows (default zero_count (m !! k)) + TRows c.
Proof.
  destruct (m !! k) as [c0|] eqn:E; cbn; [|rewrite rows_sum_insert_new by done; lia].
  rewrite <- (insert_delete_id m k c0 E) at 2. rewrite <- insert_delete_eq.
  rewrite !rows_sum_insert_new by apply lookup_delete_eq. lia.
Qed.

(** Adding to a bucket adds its rows, whatever the key they are booked under. *)
Lemma add_counts_rows c table rows msgs :
  wrapu64 (rows_sum (add_counts c table rows msgs)) = wrapu64 (rows_sum c + rows).
Proof.
  unfold add_counts. set (key := if _ && _ then _ else _). rewrite rows_sum_insert. cbn [TRows].
  unfold wrapu64. rewrite Zplus_mod_idemp_r. f_equal. lia.
Qed.

(** The contents of a slot for a minute. *)
Definition slot (w : tableWindow) (m : Z) : gmap string tableCount :=
  match w !! Z.to_nat (m mod 5) with Some b => fresh_counts b m | None => ∅ end.

(** The ring after a history [l] whose last minute is at most [last]: five
    slots, none ahead of the clock and each on its own residue; and for every
    minute of the window the slot holds exactly the rows added in it. *)
Record ring (l : list entry) (last : Z) (w : tableWindow) : Prop := {
  ring_length : length w = 5%nat;
  ring_slots i b c : w !! i = Some b -> counts b = Some c -> minute b <= last /\ minute b mod 5 = Z.of_nat i;
  ring_rows m : last - 5 < m -> wrapu64 (rows_sum (slot w m)) = wrapu64 (rows_at m l);
}.

Lemma ring_later l last last' w : ring l last w -> last <= last' -> ring l last' w.
Proof.
  intros [A B C] L. split; [done| |].
  - intros i b c X Y. destruct (B i b c X Y). split; [lia|done].
  - intros m M. apply C. lia.
Qed.

Lemma ring_empty : ring [] 0 newTableWindow.
Proof.
  split; [done| |].
  - intros i b c X. apply lookup_replicate in X as [-> _]. done.
  - intros m _. unfold slot. destruct (newTableWindow !! Z.to_nat (m mod 5)) as [b|] eqn:E; [|done].
    apply lookup_replicate in E as [-> _]. done.
Qed.

Lemma rows_at_snoc m l e : rows_at m (l ++ [e]) = rows_at m l + (if minute_of (at_ e) =? m then erows e else 0).
Proof.
  unfold rows_at. rewrite filter_app, fmap_app, foldr_add_app. f_equal.
  rewrite filter_cons. destruct (Z.eqb_spec (minute_of (at_ e)) m); [rewrite decide_True by done|rewrite decide_False by done]; cbn; lia.
Qed.

Lemma add_ring l last w e :
  ring l last w -> 0 <= last <= minute_of (at_ e) ->
  exists w', add (at_ e) w (table e) (erows e) (emsgs e) = Ok w' /\ ring (l ++ [e]) (minute_of (at_ e)) w'.
Proof.
  intros R L. apply (ring_later _ _ (minute_of (at_ e))) in R; [|lia]. destruct R as [A B C].
  pose proof (fun m => rows_at_snoc m l e) as RA. unfold add. set (m := minute_of (at_ e)) in *. clearbody m.
  assert (G : go_rem m 5 = m mod 5) by (unfold go_rem; rewrite Z.rem_mod_nonneg by lia; done). rewrite G.
  assert (I : (Z.to_nat (m mod 5) < 5)%nat) by (pose proof (Z.mod_pos_bound m 5); lia).
  destruct (lookup_lt_is_Some_2 w (Z.to_nat (m mod 5))) as [b E]; [lia|]. rewrite E.
  rewrite (proj2 (Z.ltb_ge m 0)) by lia. eexists. split; [done|]. split.
  - by rewrite length_insert.
  - intros i b' c X Y. apply list_lookup_insert_Some in X as [(<- & <- & _)|[_ X]]; [|by eapply B].
    cbn. split; [lia|]. rewrite Z2Nat.id; [done|]. apply Z.mod_pos_bound. lia.
  - intros m' M. rewrite RA. unfold slot.
    destruct (decide (Z.to_nat (m mod 5) = Z.to_nat (m' mod 5))) as [D|D].
    + assert (m mod 5 = m' mod 5) by (pose proof (Z.mod_pos_bound m 5); pose proof (Z.mod_pos_bound m' 5); lia).
      rewrite <- D, list_lookup_insert_eq by lia. unfold fresh_counts at 1. cbn [counts minute].
      destruct (Z.eqb_spec m m') as [<-|Nm].
      * rewrite add_counts_rows, <- wrapu64_add, <- (wrapu64_add (rows_at m l)). do 2 f_equal.
        specialize (C m ltac:(lia)). unfold slot in C. by rewrite E in C.
      * assert (m < m') by (zdiv). rewrite Z.add_0_r, <- (C m') by lia. unfold slot. rewrite <- D, E.
        unfold fresh_counts. destruct (counts b) as [c|] eqn:Cb; [|done].
        destruct (B _ _ _ E Cb). by rewrite (proj2 (Z.eqb_neq _ _)) by lia.
    + rewrite list_lookup_insert_ne by done.
      rewrite (proj2 (Z.eqb_neq m m')) by congruence. rewrite Z.add_0_r. apply C. lia.
Qed.

(** ** The report *)

Lemma merge_count_fold es : forall acc,
  wrapu64 (foldl merge_count acc es).2 = wrapu64 (acc.2 + foldr Z.add 0 (TRows <$> es.*2)) /\
  wrapu64 (rows_sum (foldl merge_count acc es).1) = wrapu64 (rows_sum acc.1 + foldr Z.add 0 (TRows <$> es.*2)).
Proof.
  induction es as [|e es IH]; intros acc; cbn [foldl fmap list_fmap foldr].
  { by rewrite !Z.add_0_r. }
  destruct (IH (merge_count acc e)) as [A B]. rewrite A, B. unfold merge_count. cbn [fst snd]. split.
  - rewrite wrapu64_add. f_equal. lia.
  - rewrite rows_sum_insert. cbn [TRows].
    set (m := TRows (default zero_count (acc.1 !! e.1))). set (s := foldr _ _ _).
    replace (rows_sum acc.1 - m + wrapu64 (m + TRows e.2) + s) with (wrapu64 (m + TRows e.2) + (rows_sum acc.1 - m + s)) by lia.
    rewrite wrapu64_add. f_equal. lia.
Qed.

Lemma merged_total `{MapIter} now w :
  let total := foldr Z.add 0 ((fun b => rows_sum (live (minute_of now - 5 + 1) b)) <$> w) in
  wrapu64 (merged now w).2 = wrapu64 total /\ wrapu64 (rows_sum (merged now w).1) = wrapu64 total.
Proof.
  unfold merged. set (oldest := minute_of now - 5 + 1).
  assert (G : forall acc, let r := foldl (fun acc b => foldl merge_count acc (iter (map_to_list (live oldest b)))) acc w in
    let total := foldr Z.add 0 ((fun b => rows_sum (live oldest b)) <$> w) in
    wrapu64 r.2 = wrapu64 (acc.2 + total) /\ wrapu64 (rows_sum r.1) = wrapu64 (rows_sum acc.1 + total)).
  { induction w as [|b w IH]; intros acc; cbn [foldl fmap list_fmap foldr]; [by rewrite !Z.add_0_r|].
    destruct (IH (foldl merge_count acc (iter (map_to_list (live oldest b))))) as [A B]. cbn zeta in *. rewrite A, B.
    destruct (merge_count_fold (iter (map_to_list (live oldest b))) acc) as [C D].
    assert (E : foldr Z.add 0 (TRows <$> (iter (map_to_list (live oldest b))).*2) = rows_sum (live oldest b))
      by (unfold rows_sum; by rewrite iter_perm).
    rewrite E in C, D. rewrite <- (wrapu64_add (foldl _ _ _).2), C, wrapu64_add.
    rewrite <- (wrapu64_add (rows_sum (foldl _ _ _).1)), D, wrapu64_add.
    split; f_equal; lia. }
  destruct (G (∅, 0)) as [A B]. cbn [fst snd] in *. cbn zeta. rewrite A, B. split; f_equal; done.
Qed.

(** The minute of the window that slot [i] is for. *)
Definition slot_minute (M : Z) (i : nat) : Z := M - (M - Z.of_nat i) mod 5.

Lemma slot_minute_once M x (r : Z) :
  foldr Z.add 0 ((fun i => if x =? slot_minute M i then r else 0) <$> seq 0 5) =
  (if (M - 4 <=? x) && (x <=? M) then r else 0).
Proof.
  unfold slot_minute. cbn [seq fmap list_fmap foldr Z.of_nat]. change (Z.of_nat 0) with 0.
  assert (M mod 5 = 0 \/ M mod 5 = 1 \/ M mod 5 = 2 \/ M mod 5 = 3 \/ M mod 5 = 4) as Hm by zdiv.
  assert (E : forall i, (M - i) mod 5 = (M mod 5 - i) mod 5) by (intros; by rewrite Zminus_mod_idemp_l).
  rewrite !E. clear E.
  destruct Hm as [-> | [-> | [-> | [-> | ->]]]];
    repeat match goal with |- context [Z.modulo ?a 5] =>
      let v := eval vm_compute in (Z.modulo a 5) in change (Z.modulo a 5) with v end;
    repeat match goal with |- context [Z.eqb ?a ?b] => destruct (Z.eqb_spec a b) end;
    destruct (Z.leb_spec (M - 4) x), (Z.leb_spec x M); cbn; lia.
Qed.

Lemma slot_minute_spec M i : (i < 5)%nat -> M - 5 < slot_minute M i <= M /\ slot_minute M i mod 5 = Z.of_nat i.
Proof.
  intros I. unfold slot_minute. pose proof (Z.mod_pos_bound (M - Z.of_nat i) 5). split; [lia|].
  rewrite Zminus_mod_idemp_r. replace (M - (M - Z.of_nat i)) with (Z.of_nat i) by lia. apply Z.mod_small. lia.
Qed.

(** What a slot shows in the report is what it holds for its minute. *)
Lemma live_slot l last w M i b :
  ring l last w -> last <= M -> w !! i = Some b -> live (M - 5 + 1) b = slot w (slot_minute M i).
Proof.
  intros [A B _] L E. assert (I : (i < 5)%nat) by (rewrite <- A; by eapply lookup_lt_Some).
  destruct (slot_minute_spec M i I) as [S1 S2]. unfold slot. rewrite S2, Nat2Z.id, E. unfold live, fresh_counts.
  destruct (counts b) as [c|] eqn:C; [|done]. destruct (B i b c E C) as [B1 B2].
  destruct (Z.ltb_spec (minute b) (M - 5 + 1)), (Z.eqb_spec (minute b) (slot_minute M i)); try done; [lia|].
  exfalso. unfold slot_minute in *. zdiv.
Qed.

Lemma rows_at_cons m e l : rows_at m (e :: l) = (if minute_of (at_ e) =? m then erows e else 0) + rows_at m l.
Proof.
  unfold rows_at. rewrite filter_cons.
  destruct (Z.eqb_spec (minute_of (at_ e)) m); [rewrite decide_True by done|rewrite decide_False by done]; cbn; lia.
Qed.

Lemma foldr_add_split (f g : nat -> Z) (s : list nat) :
  foldr Z.add 0 ((fun i => f i + g i) <$> s) = foldr Z.add 0 (f <$> s) + foldr Z.add 0 (g <$> s).
Proof. induction s as [|i s IH]; cbn in *; lia. Qed.

(** The rows of the history in the window that ends with minute [M]. *)
Definition rows_in (M : Z) (l : list entry) : Z :=
  foldr Z.add 0 (erows <$> filter (fun e => M - 4 <= minute_of (at_ e) <= M) l).

Lemma slots_cover M l : foldr Z.add 0 ((fun i => rows_at (slot_minute M i) l) <$> seq 0 5) = rows_in M l.
Proof.
  induction l as [|e l IH]; [done|].
  transitivity (foldr Z.add 0 ((fun i => (if minute_of (at_ e) =? slot_minute M i then erows e else 0) +
    rows_at (slot_minute M i) l) <$> seq 0 5)).
  { f_equal. apply list_fmap_ext. intros i x _. apply rows_at_cons. }
  rewrite foldr_add_split, IH, slot_minute_once. unfold rows_in. rewrite filter_cons.
  destruct (Z.leb_spec (M - 4) (minute_of (at_ e))), (Z.leb_spec (minute_of (at_ e)) M); cbn [andb];
    (case_decide; [try lia|try lia]); done.
Qed.

Lemma wrapu64_sum_ext (f g : nat -> Z) s :
  (forall i, i ∈ s -> wrapu64 (f i) = wrapu64 (g i)) ->
  wrapu64 (foldr Z.add 0 (f <$> s)) = wrapu64 (foldr Z.add 0 (g <$> s)).
Proof.
  induction s as [|i s IH]; intros E; [done|]. cbn [fmap list_fmap foldr].
  rewrite <- wrapu64_add, (E i) by left. rewrite wrapu64_add, (Z.add_comm (g i)), (Z.add_comm (g i)).
  rewrite <- wrapu64_add. change (list_fmap ?f ?l) with (f <$> l). rewrite IH by (intros; apply E; by right).
  by rewrite wrapu64_add.
Qed.

Lemma ring_live_total l last w M :
  ring l last w -> last <= M ->
  wrapu64 (foldr Z.add 0 ((fun b => rows_sum (live (M - 5 + 1) b)) <$> w)) = wrapu64 (rows_in M l).
Proof.
  intros R L. rewrite <- slots_cover.
  assert (E : (fun b => rows_sum (live (M - 5 + 1) b)) <$> w = (fun i => rows_sum (slot w (slot_minute M i))) <$> seq 0 5).
  { apply list_eq. intros i. rewrite !list_lookup_fmap. destruct (w !! i) as [b|] eqn:E.
    - assert (I : (i < 5)%nat) by (rewrite <- (ring_length _ _ _ R); by eapply lookup_lt_Some).
      rewrite lookup_seq_lt by done. cbn. by rewrite (live_slot l last w M i b).
    - apply lookup_ge_None in E. rewrite (ring_length _ _ _ R) in E. by rewrite lookup_seq_ge. }
  rewrite E. apply wrapu64_sum_ext. intros i I. apply elem_of_seq in I.
  destruct (slot_minute_spec M i ltac:(lia)). eapply ring_rows; [exact R|]. lia.
Qed.

(** Minutes never decrease, and none is before the epoch. *)
Fixpoint clocked (last : Z) (l : list entry) : Prop :=
  match l with [] => True | e :: l => 0 <= last <= minute_of (at_ e) /\ clocked (minute_of (at_ e)) l end.

Lemma add_all_ring l : forall pre last w,
  ring pre last w -> 0 <= last -> clocked last l ->
  exists w' last', add_all l w = Ok w' /\ ring (pre ++ l) last' w' /\ last <= last' /\
    (forall M, last <= M -> Forall (fun e => minute_of (at_ e) <= M) l -> last' <= M).
Proof.
  unfold add_all. induction l as [|e l IH]; intros pre last w R L C.
  { exists w, last. split_and!; [done|by rewrite app_nil_r|lia|done]. }
  destruct C as [C0 C]. destruct (add_ring pre last w e R) as (w1 & E & R1); [lia|].
  destruct (IH _ _ _ R1 ltac:(lia) C) as (w' & last' & E' & R' & L' & B). exists w', last'. split_and!.
  - cbn [fold_res]. rewrite E. cbn [mbind res_bind]. exact E'.
  - by rewrite <- app_assoc in R'.
  - lia.
  - intros M HM F. apply Forall_cons in F as [F0 F]. by apply B.
Qed.

(** The five-minute window is exact, and bounded in time whatever the number of
    tables: after any history of writes on a clock that does not go back, the
    total of the report at a later instant is the sum (modulo 2^64) of the rows
    written in the current minute and the four before it, none of the rows of
    a reused bucket, and overflowing tables into the shared entry loses no
    row: the merged entries add up to the same total. *)
Theorem window_exact `{MapIter} l now topN :
  clocked 0 l -> 0 <= now -> Forall (fun e => minute_of (at_ e) <= minute_of now) l ->
  exists w, add_all l newTableWindow = Ok w /\
    wrapu64 (TotalRows (report now topN w)) = wrapu64 (rows_in (minute_of now) l) /\
    wrapu64 (rows_sum (merged now w).1) = wrapu64 (TotalRows (report now topN w)).
Proof.
  intros C N F. destruct (add_all_ring l [] 0 _ ring_empty ltac:(lia) C) as (w & last & E & R & L & B).
  exists w. split; [done|]. specialize (B (minute_of now)).
  assert (0 <= minute_of now) by (unfold minute_of, go_div; apply Z.quot_pos; lia).
  pose proof (ring_live_total _ _ _ (minute_of now) R ltac:(auto)) as T.
  destruct (merged_total now w) as [M1 M2]. cbn zeta in *. unfold report.
  destruct (merged now w) as [m t]. cbn [TotalRows fst snd] in *. rewrite M1, M2. by rewrite T.
Qed.
