(* ===== verification/Lag.v ===== *)
(** * Interval lag estimation (internal/telemetry/lag.go)

    Two cumulative histogram snapshots are diffed into per-bucket counts.
    Counts are uint64. *)
From S2P Require Import Prelude GoInt GoStr GoFloat Values Stats Window.
From Stdlib Require Import SpecFloat.

Definition f64_zero : float64 := S754_zero false.

(** metrics.HistogramSnapshot. *)
Record Bucket : Type := { UpperBound : float64; CumulativeCount : Z }.
Record HistogramSnapshot : Type := { Count : Z; Sum : float64; Buckets : list Bucket }.

Record lagSummary : Type := { Samples : Z; P50 : float64; P99 : float64; MaxLE : float64 }.

(** The loop of bucketDeltas over the buckets of both snapshots: the counts
    and the last cumulative delta. *)
Fixpoint delta_loop (prev cur : list Bucket) (prevCumulative : Z) : option (list Z * Z) :=
  match cur, prev with
  | [], _ => Some ([], prevCumulative)
  | b :: cur, p :: prev =>
      if negb (f64_eq (UpperBound p) (UpperBound b)) || (CumulativeCount b <? CumulativeCount p) then None
      else
        let cumulative := wrapu64 (CumulativeCount b - CumulativeCount p) in
        if cumulative <? prevCumulative then None
        else '(counts, total) ← delta_loop prev cur cumulative;
             Some (wrapu64 (cumulative - prevCumulative) :: counts, total)
  | _ :: _, [] => None   (* excluded by the length check *)
  end.

Definition bucketDeltas (prev cur : HistogramSnapshot) : option (list Z) :=
  if negb (Nat.eqb (length (Buckets prev)) (length (Buckets cur))) || (Count cur <? Count prev) then None
  else
    '(counts, prevCumulative) ← delta_loop (Buckets prev) (Buckets cur) 0;
    let total := wrapu64 (Count cur - Count prev) in
    if total <? prevCumulative then None else Some (counts ++ [wrapu64 (total - prevCumulative)]).

(** The loop of bucketQuantile from bucket [i] on; [None] past the end. *)
Fixpoint quantile_loop (bounds : list float64) (target : float64) (counts : list Z) (i : nat) (cumulative : float64)
    : option float64 :=
  match counts with
  | [] => None
  | c :: counts =>
      if c =? 0 then quantile_loop bounds target counts (S i) cumulative
      else
        let next := f64_add cumulative (f64_of_Z c) in
        if f64_ge next target then
          match bounds !! i with
          | None => last bounds
          | Some bound =>
              let lower := if (0 <? i)%nat then default f64_zero (bounds !! pred i) else f64_zero in
              Some (f64_add lower (f64_div (f64_mul (f64_sub bound lower) (f64_sub target cumulative)) (f64_of_Z c)))
          end
        else quantile_loop bounds target counts (S i) next
  end.

Definition bucketQuantile (q : float64) (bounds : list float64) (counts : list Z) : float64 :=
  let total := wrapu64 (foldr Z.add 0 counts) in
  if (total =? 0) || (length bounds =? 0)%nat then f64_zero
  else
    let target := f64_mul q (f64_of_Z total) in
    match quantile_loop bounds target counts 0 f64_zero with
    | Some v => v
    | None => default f64_zero (last bounds)
    end.

(** maxBound scans the counts from the end. *)
Fixpoint max_loop (bounds : list float64) (counts : list Z) (n : nat) : option float64 :=
  match n with
  | O => Some f64_zero
  | S i =>
      match counts !! i with
      | Some c => if c =? 0 then max_loop bounds counts i
                  else match bounds !! i with Some b => Some b | None => last bounds end
      | None => None
      end
  end.

Definition maxBound (bounds : list float64) (counts : list Z) : option float64 :=
  max_loop bounds counts (length counts).

(** lagInterval; a panic of maxBound (no finite bound) would be [None] inside. *)
Definition lagInterval (prev cur : HistogramSnapshot) : option (option lagSummary) :=
  match bucketDeltas prev cur with
  | None => Some None
  | Some counts =>
      let samples := wrapu64 (Count cur - Count prev) in
      if samples =? 0 then Some None
      else
        let bounds := UpperBound <$> Buckets cur in
        m ← maxBound bounds counts;
        Some (Some {| Samples := samples; P50 := bucketQuantile (f64_div (f64_of_Z 50) (f64_of_Z 100)) bounds counts;
                      P99 := bucketQuantile (f64_div (f64_of_Z 99) (f64_of_Z 100)) bounds counts; MaxLE := m |})
  end.

(** ** Laws *)

Definition snapshot_ok (s : HistogramSnapshot) : Prop :=
  in_uint64 (Count s) /\ Forall (fun b => in_uint64 (CumulativeCount b)) (Buckets s).

Lemma delta_loop_spec prev : forall cur c0 counts total,
  Forall (fun b => in_uint64 (CumulativeCount b)) prev -> Forall (fun b => in_uint64 (CumulativeCount b)) cur ->
  length prev = length cur -> 0 <= c0 < 2 ^ 64 -> delta_loop prev cur c0 = Some (counts, total) ->
  length counts = length cur /\ Forall (fun n => 0 <= n) counts /\ total = c0 + foldr Z.add 0 counts /\
  0 <= total < 2 ^ 64 /\
  forall i p b, prev !! i = Some p -> cur !! i = Some b ->
    c0 + foldr Z.add 0 (take (S i) counts) = CumulativeCount b - CumulativeCount p.
Proof.
  induction prev as [|p prev IH]; intros [|b cur] c0 counts total Fp Fc L C E; try done; cbn [delta_loop] in E.
  { injection E as <- <-. split_and!; try done; cbn; lia. }
  apply Forall_cons in Fp as [Hp Fp], Fc as [Hb Fc].
  destruct (negb _ || _) eqn:G; [done|]. apply orb_false_iff in G as [_ G]. apply Z.ltb_ge in G.
  unfold in_uint64 in *. rewrite wrapu64_id in E by (unfold_range; lia).
  set (d := CumulativeCount b - CumulativeCount p) in *.
  destruct (Z.ltb_spec d c0) as [|D]; [done|].
  destruct (delta_loop prev cur d) as [[cs t]|] eqn:E1; [|done]. cbn in E. injection E as <- <-.
  destruct (IH cur d cs t Fp Fc ltac:(by injection L) ltac:(lia) E1) as (A1 & A2 & A3 & A4 & A5).
  rewrite wrapu64_id by (unfold_range; lia). split_and!.
  - cbn. by rewrite A1.
  - constructor; [lia|done].
  - cbn. lia.
  - lia.
  - lia.
  - intros [|i] p' b' P B; cbn in P, B |- *.
    + injection P as ->. injection B as ->. unfold d. rewrite take_0. cbn. lia.
    + specialize (A5 i p' b' P B). cbn [take] in A5. lia.
Qed.

(** The converse: nothing legitimate is refused. *)
Lemma delta_loop_total prev : forall cur c0,
  Forall2 (fun p b => f64_eq (UpperBound p) (UpperBound b) = true /\ in_uint64 (CumulativeCount b) /\
    0 <= CumulativeCount p <= CumulativeCount b) prev cur ->
  0 <= c0 ->
  (forall i p b, prev !! i = Some p -> cur !! i = Some b -> c0 <= CumulativeCount b - CumulativeCount p) ->
  (forall i j p b p' b', (i <= j)%nat -> prev !! i = Some p -> cur !! i = Some b -> prev !! j = Some p' ->
     cur !! j = Some b' -> CumulativeCount b - CumulativeCount p <= CumulativeCount b' - CumulativeCount p') ->
  exists counts total, delta_loop prev cur c0 = Some (counts, total) /\
    (total = c0 \/ exists i p b, prev !! i = Some p /\ cur !! i = Some b /\
       total = CumulativeCount b - CumulativeCount p).
Proof.
  intros cur c0 F. revert c0. induction F as [|p b prev cur (U & I & M) F IH]; intros c0 C H0 Hm.
  { exists [], c0. split; [done|by left]. }
  cbn [delta_loop]. rewrite U, (proj2 (Z.ltb_ge _ _)) by lia. cbn [negb orb]. unfold in_uint64 in *.
  rewrite wrapu64_id by (unfold_range; lia). pose proof (H0 0%nat p b eq_refl eq_refl) as D0.
  rewrite (proj2 (Z.ltb_ge _ _)) by lia.
  destruct (IH (CumulativeCount b - CumulativeCount p)) as (cs & t & -> & T).
  - lia.
  - intros i p' b' Ip Ib. apply (Hm 0%nat (S i) p b p' b'); [lia|done..].
  - intros i j p1 b1 p2 b2 L. intros. eapply (Hm (S i) (S j)); eauto. lia.
  - cbn. do 2 eexists. split; [done|]. right. destruct T as [->|(i & p' & b' & ? & ? & ->)].
    + by exists 0%nat, p, b.
    + by exists (S i), p', b'.
Qed.

(** Two snapshots of one histogram that only grows: each bucket's cumulative
    count grew by no less than the one before it and no more than the total. *)
Definition grows (prev cur : HistogramSnapshot) : Prop :=
  Forall2 (fun p b => f64_eq (UpperBound p) (UpperBound b) = true /\ in_uint64 (CumulativeCount b) /\
    0 <= CumulativeCount p <= CumulativeCount b) (Buckets prev) (Buckets cur) /\
  Count prev <= Count cur /\
  (forall i j p b p' b', (i <= j)%nat -> Buckets prev !! i = Some p -> Buckets cur !! i = Some b ->
     Buckets prev !! j = Some p' -> Buckets cur !! j = Some b' ->
     CumulativeCount b - CumulativeCount p <= CumulativeCount b' - CumulativeCount p') /\
  (forall i p b, Buckets prev !! i = Some p -> Buckets cur !! i = Some b ->
     CumulativeCount b - CumulativeCount p <= Count cur - Count prev).

(** The interval histogram is exact: when bucketDeltas accepts two snapshots,
    its counts are one per bucket plus the tail, none negative, those of the
    first k buckets add up to the growth of the k-th cumulative count, and all
    of them to the growth of the total: no observation is lost or counted
    twice.  And it accepts every pair of snapshots of one growing histogram. *)
Theorem bucketDeltas_exact prev cur :
  snapshot_ok prev -> snapshot_ok cur ->
  (grows prev cur -> is_Some (bucketDeltas prev cur)) /\
  forall counts, bucketDeltas prev cur = Some counts ->
  length counts = S (length (Buckets cur)) /\ Forall (fun n => 0 <= n) counts /\
  foldr Z.add 0 counts = Count cur - Count prev /\
  forall i p b, Buckets prev !! i = Some p -> Buckets cur !! i = Some b ->
    foldr Z.add 0 (take (S i) counts) = CumulativeCount b - CumulativeCount p.
Proof.
  intros [P0 P] [C0 C]. split.
  { intros (F & G & Hm & Ht). unfold bucketDeltas. rewrite (Forall2_length _ _ _ F), Nat.eqb_refl.
    rewrite (proj2 (Z.ltb_ge _ _)) by lia. cbn [negb orb].
    destruct (delta_loop_total _ _ 0 F) as (cs & t & -> & T); [lia| |exact Hm|].
    - intros i p b Ip Ib. eapply Forall2_lookup_lr in F; [|done..]. lia.
    - cbn. unfold in_uint64 in *. rewrite wrapu64_id by (unfold_range; lia).
      rewrite (proj2 (Z.ltb_ge _ _)); [by eexists|].
      destruct T as [->|(i & p & b & Ip & Ib & ->)]; [lia|by eapply Ht]. }
  intros counts E. unfold bucketDeltas in E. destruct (negb _ || _) eqn:G; [done|].
  apply orb_false_iff in G as [L G]. apply negb_false_iff, Nat.eqb_eq in L. apply Z.ltb_ge in G.
  destruct (delta_loop _ _ 0) as [[cs t]|] eqn:D; [|done]. cbn in E.
  unfold in_uint64 in *. rewrite wrapu64_id in E by (unfold_range; lia).
  destruct (Z.ltb_spec (Count cur - Count prev) t) as [|T]; [done|]. injection E as <-.
  destruct (delta_loop_spec _ _ 0 _ _ P C L ltac:(lia) D) as (A1 & A2 & A3 & A4 & A5).
  rewrite wrapu64_id by (unfold_range; lia). split_and!.
  - rewrite length_app, A1. cbn. lia.
  - apply Forall_app. split; [done|]. constructor; [lia|done].
  - rewrite foldr_add_app. cbn. lia.
  - intros i p b Ip Ib. rewrite take_app_le by (rewrite A1; apply lookup_lt_Some in Ib; lia).
    specialize (A5 i p b Ip Ib). lia.
Qed.
