(* ===== verification/Telemetry.v ===== *)
(** * Metrics, scrape collector and console statistics
    (internal/metrics/metrics.go, internal/telemetry/collector.go and stats.go)

    Prometheus is third-party: a histogram is an abstract value with the
    operations [PromHistogram], and [const_metric] is prometheus.NewConstMetric,
    of which only the documented failures are used.  The connector a scrape
    reads is a [StatsSource]: what each of its accessors returns. *)
From S2P Require Import Prelude GoInt GoStr GoFloat GoTime Values Breaker Source Stats Health Window Lag.

(** ** Metrics *)

Definition Namespace : string := "qdb_nats_connector".

Record BucketConfig : Type := { Start : Z; Factor : float64; BCount : Z }.
Record Config : Type := { LagBuckets : BucketConfig; WriteBuckets : BucketConfig }.

Class PromHistogram : Type := {
  histogram : Type;
  ExponentialBuckets : float64 -> float64 -> Z -> list float64;
  NewHistogram : string -> list float64 -> histogram;
  Observe : float64 -> histogram -> histogram;
  hist_Write : histogram -> error + option HistogramSnapshot   (* dto.Metric.Histogram *)
}.

Section metrics.
Context `{PromHistogram}.

Record Metrics : Type := { messageLag : histogram; writeDuration : histogram; fetchBatchSize : histogram }.

Definition buckets (b : BucketConfig) : list float64 := ExponentialBuckets (Seconds (Start b)) (Factor b) (BCount b).

Definition fetchBatchBuckets : list float64 := ExponentialBuckets (f64_of_Z 1) (f64_of_Z 2) 12.

(** New: [register] is reg.Register of the collector of a name. *)
Definition NewMetrics (register : string -> option error) (cfg : Config) : error + Metrics :=
  let m := {| messageLag := NewHistogram "message_lag_seconds" (buckets (LagBuckets cfg));
              writeDuration := NewHistogram "write_duration_seconds" (buckets (WriteBuckets cfg));
              fetchBatchSize := NewHistogram "fetch_batch_size" fetchBatchBuckets |} in
  let fix go names :=
    match names with
    | [] => inr m
    | n :: names =>
        match register n with
        | Some err => inl (NewUnexpectedError "metrics" "histogram registration failed" (Some err))
        | None => go names
        end
    end in
  go ["message_lag_seconds"; "write_duration_seconds"; "fetch_batch_size"].

(** The observers; [None] is the nil receiver. *)
Definition ObserveLag (lag : Z) (m : option Metrics) : option Metrics :=
  (fun m => let lag := if lag <? 0 then 0 else lag in
            {| messageLag := Observe (Seconds lag) (messageLag m); writeDuration := writeDuration m;
               fetchBatchSize := fetchBatchSize m |}) <$> m.
Definition ObserveWriteDuration (d : Z) (m : option Metrics) : option Metrics :=
  (fun m => {| messageLag := messageLag m; writeDuration := Observe (Seconds d) (writeDuration m);
               fetchBatchSize := fetchBatchSize m |}) <$> m.
Definition ObserveFetchBatchSize (n : Z) (m : option Metrics) : option Metrics :=
  (fun m => {| messageLag := messageLag m; writeDuration := writeDuration m;
               fetchBatchSize := Observe (f64_of_Z n) (fetchBatchSize m) |}) <$> m.

(** LagSnapshot; [None] for false. *)
Definition LagSnapshot (m : option Metrics) : option HistogramSnapshot :=
  m ← m;
  match hist_Write (messageLag m) with inr (Some h) => Some h | _ => None end.
End metrics.

(** ** The scrape source *)

Record StatsSource : Type := {
  src_health : HealthSummary;
  src_natsConnected : bool;
  src_workers : list WorkerStatsSnapshot;
  src_fetch : FetchStats;
  src_depth : Z;
  src_breakers : gmap string State;
  src_pending : Z * option error
}.

(** ** Collector *)

Inductive ValueType : Set := CounterValue | GaugeValue.

Record Desc : Type := { fqName : string; variableLabels : list string }.

#[export] Instance Desc_eq_dec : EqDecision Desc.
Proof. solve_decision. Defined.

Record Metric : Type := { m_desc : Desc; m_type : ValueType; m_value : float64; m_labels : list string }.

Definition family (name : string) (labels : list string) : Desc :=
  {| fqName := (Namespace +:+ "_" +:+ name)%string; variableLabels := labels |}.

Definition d_messagesFetched : Desc := family "messages_fetched_total" [].
Definition d_fetchErrors : Desc := family "fetch_errors_total" ["kind"].
Definition d_rebindAttempts : Desc := family "rebind_attempts_total" [].
Definition d_messagesProcessed : Desc := family "messages_processed_total" ["worker"].
Definition d_parseFailures : Desc := family "parse_failures_total" ["worker"].
Definition d_messagesDropped : Desc := family "messages_dropped_total" ["worker"].
Definition d_parsesZeroRows : Desc := family "parses_zero_rows_total" ["worker"].
Definition d_writeFailures : Desc := family "write_failures_total" ["worker"].
Definition d_rowsWritten : Desc := family "rows_written_total" ["worker"].
Definition d_acks : Desc := family "acks_total" ["worker"].
Definition d_nacks : Desc := family "nacks_total" ["worker"].
Definition d_consumerPending : Desc := family "consumer_pending_messages" [].
Definition d_breakerState : Desc := family "breaker_state" ["worker"].
Definition d_workChannelDepth : Desc := family "work_channel_depth" [].
Definition d_lastFetchSuccess : Desc := family "last_fetch_success_timestamp_seconds" [].
Definition d_ready : Desc := family "ready" [].
Definition d_healthy : Desc := family "healthy" [].

Definition Describe : list Desc :=
  [d_messagesFetched; d_fetchErrors; d_rebindAttempts; d_messagesProcessed; d_parseFailures; d_messagesDropped;
   d_parsesZeroRows; d_writeFailures; d_rowsWritten; d_acks; d_nacks; d_consumerPending; d_breakerState;
   d_workChannelDepth; d_lastFetchSuccess; d_ready; d_healthy].

Definition breakerStateValue (s : State) : option float64 :=
  match s with
  | StateClosed => Some (f64_of_Z 0)
  | StateHalfOpen => Some (f64_of_Z 1)
  | StateOpen => Some (f64_of_Z 2)
  end.

Definition boolValue (b : bool) : float64 := f64_of_Z (if b then 1 else 0).

Section collector.
Context `{Values.MapIter}.
Context (const_metric : Desc -> list string -> option error).   (* the error of NewConstMetric *)

Definition emit (d : Desc) (t : ValueType) (v : float64) (labels : list string) : list Metric :=
  match const_metric d labels with
  | Some _ => []
  | None => [{| m_desc := d; m_type := t; m_value := v; m_labels := labels |}]
  end.

Definition collectFetch (src : StatsSource) : list Metric :=
  let fetch := src_fetch src in
  emit d_messagesFetched CounterValue (f64_of_Z (MessagesFetched fetch)) [] ++
  emit d_fetchErrors CounterValue (f64_of_Z (TransientErrors fetch)) ["transient"] ++
  emit d_fetchErrors CounterValue (f64_of_Z (SubscriptionErrors fetch)) ["subscription"] ++
  emit d_rebindAttempts CounterValue (f64_of_Z (RebindAttempts fetch)) [].

Definition collectWorker (snap : WorkerStatsSnapshot) : list Metric :=
  let c d v := emit d CounterValue (f64_of_Z v) [Worker snap] in
  let s := Stats_of snap in
  c d_messagesProcessed (MessagesProcessed s) ++ c d_parseFailures (ParseFailures s) ++
  c d_messagesDropped (MessagesDropped s) ++ c d_parsesZeroRows (ParsesZeroRows s) ++
  c d_writeFailures (WriteFailures s) ++ c d_rowsWritten (RowsWritten s) ++
  c d_acks (Acks s) ++ c d_nacks (Nacks s).

Definition collectWorkers (src : StatsSource) : list Metric := concat (collectWorker <$> src_workers src).

(** One breaker of the range over BreakerStates. *)
Definition collectBreaker (e : string * State) : list Metric :=
  match breakerStateValue e.2 with
  | Some v => emit d_breakerState GaugeValue v [e.1]
  | None => []
  end.

Definition collectGauges (src : StatsSource) : list Metric :=
  let health := src_health src in
  emit d_healthy GaugeValue (boolValue (Healthy health)) [] ++
  emit d_ready GaugeValue (boolValue (Ready (evaluateReadiness (src_natsConnected src) health))) [] ++
  emit d_workChannelDepth GaugeValue (f64_of_Z (src_depth src)) [] ++
  emit d_lastFetchSuccess GaugeValue
    (match LastFetchSuccess health with
     | None => f64_of_Z 0
     | Some t => f64_div (f64_of_Z t) (f64_of_Z 1000000000)
     end) [] ++
  concat (collectBreaker <$> iter (map_to_list (src_breakers src))).

(** The count is emitted whether or not the refresh failed. *)
Definition collectPending (src : StatsSource) : list Metric :=
  emit d_consumerPending GaugeValue (f64_of_Z (src_pending src).1) [].

Definition Collect (src : StatsSource) : list Metric :=
  collectFetch src ++ collectWorkers src ++ collectGauges src ++ collectPending src.
End collector.

(** ** Console statistics *)

Definition eventChanCap : nat := 256.
Definition topTablesN : nat := 10.

Record statsSnapshot : Type := {
  at_time : Z; worker : WorkerStats; fetch : FetchStats; lag : option HistogramSnapshot (* lag, lagOK *) }.

Inductive attr_value : Type :=
  | AFloat (f : float64)
  | AUint (n : Z)
  | AInt (n : Z)
  | ACounts (m : gmap string Z)
  | AShares (l : list tableShare)
  | AError (e : error).

Abbreviation attr := (string * attr_value)%type.

(** snapshot. *)
Definition add_worker (total : WorkerStats) (w : WorkerStatsSnapshot) : WorkerStats :=
  let s := Stats_of w in
  {| MessagesProcessed := wrapu64 (MessagesProcessed total + MessagesProcessed s);
     ParseFailures := wrapu64 (ParseFailures total + ParseFailures s);
     WriteFailures := wrapu64 (WriteFailures total + WriteFailures s);
     MessagesDropped := wrapu64 (MessagesDropped total + MessagesDropped s);
     ParsesZeroRows := wrapu64 (ParsesZeroRows total + ParsesZeroRows s);
     RowsWritten := wrapu64 (RowsWritten total + RowsWritten s);
     Acks := wrapu64 (Acks total + Acks s);
     Nacks := wrapu64 (Nacks total + Nacks s) |}.

Definition stats_snapshot (lag : option HistogramSnapshot) (src : StatsSource) (now : Z) : statsSnapshot :=
  {| at_time := now; worker := foldl add_worker (Stats.snapshot zero_counters) (src_workers src);
     fetch := src_fetch src; lag := lag |}.

Definition rate (elapsed : float64) (cur prev : Z) : float64 :=
  if cur <? prev then f64_of_Z 0 else f64_div (f64_of_Z (wrapu64 (cur - prev))) elapsed.

Definition rateAttrs (prev cur : statsSnapshot) : list attr :=
  let elapsed := Seconds (duration_sub (at_time cur) (at_time prev)) in
  if f64_le elapsed (f64_of_Z 0) then []
  else
    let r (get : WorkerStats -> Z) := AFloat (rate elapsed (get (worker cur)) (get (worker prev))) in
    [("msgs_per_s", r MessagesProcessed); ("rows_per_s", r RowsWritten); ("parse_fail_per_s", r ParseFailures);
     ("drops_per_s", r MessagesDropped); ("write_fail_per_s", r WriteFailures);
     ("fetched_per_s", AFloat (rate elapsed (MessagesFetched (fetch cur)) (MessagesFetched (fetch prev))))].

(** The panic is that of maxBound on a histogram without finite buckets. *)
Definition lagAttrs (prev cur : statsSnapshot) : result (list attr) :=
  match lag prev, lag cur with
  | Some p, Some c =>
      match lagInterval p c with
      | None => Panic
      | Some None => Ok [("lag_samples", AUint 0)]
      | Some (Some s) =>
          Ok [("lag_samples", AUint (Samples s)); ("lag_p50_s", AFloat (P50 s)); ("lag_p99_s", AFloat (P99 s));
              ("lag_max_le_s", AFloat (MaxLE s))]
      end
  | _, _ => Ok []
  end.

Definition breakerCounts (states : list (string * State)) : gmap string Z :=
  foldl (fun counts e => let k := State_String e.2 in <[k := default 0 (counts !! k) + 1]> counts) ∅ states.

Section stats_logger.
Context `{Values.MapIter}.

Definition gaugeAttrs (src : StatsSource) : list attr :=
  [("work_channel_depth", AInt (src_depth src));
   ("breakers", ACounts (breakerCounts (iter (map_to_list (src_breakers src)))))] ++
  match (src_pending src).2 with
  | Some err => [("pending_err", AError err)]
  | None => [("pending", AUint (src_pending src).1)]
  end.

Record StatsLogger : Type := {
  window : tableWindow;
  queue : list (list TableWrite);      (* the events channel *)
  dropped : Z;
  prev : statsSnapshot;
  logged : list (list attr)
}.

Definition NewStatsLogger (first : statsSnapshot) : StatsLogger :=
  {| window := newTableWindow; queue := []; dropped := 0; prev := first; logged := [] |}.

(** Record, called by the workers: it never waits. *)
Definition Record_ (events : list TableWrite) (s : StatsLogger) : StatsLogger :=
  if (length events =? 0)%nat then s
  else if (length (queue s) <? eventChanCap)%nat
  then {| window := window s; queue := queue s ++ [events]; dropped := dropped s; prev := prev s; logged := logged s |}
  else {| window := window s; queue := queue s; dropped := wrapu64 (dropped s + Z.of_nat (length events));
          prev := prev s; logged := logged s |}.

(** One event of the loop of run; [clock] is read once per add. *)
Definition add_event (w : tableWindow) (e : Z * TableWrite) : result tableWindow :=
  add e.1 w (Table e.2) (Z.max (Rows e.2) 0) (Z.max (Msgs e.2) 0).

Definition consume (clock : nat -> Z) (s : StatsLogger) : result StatsLogger :=
  match queue s with
  | [] => Ok s
  | events :: q =>
      w ← fold_res add_event (imap (fun i e => (clock i, e)) events) (window s);
      Ok {| window := w; queue := q; dropped := dropped s; prev := prev s; logged := logged s |}
  end.

Definition tableAttrs (now : Z) (s : StatsLogger) : list attr :=
  let r := report now topTablesN (window s) in
  [("top_tables", AShares (Top r)); ("tables_distinct", AInt (Distinct r));
   ("table_events_dropped", AUint (dropped s))].

Definition logTick (now : Z) (src : StatsSource) (p cur : statsSnapshot) (s : StatsLogger) : result (list attr) :=
  lags ← lagAttrs p cur;
  Ok (("interval_s", AFloat (Seconds (duration_sub (at_time cur) (at_time p)))) ::
      rateAttrs p cur ++ lags ++ gaugeAttrs src ++ tableAttrs now s).

(** The ticker's case; [unow] is the window's clock in Unix seconds. *)
Definition tick (now unow : Z) (lag : option HistogramSnapshot) (src : StatsSource) (s : StatsLogger)
    : result StatsLogger :=
  let cur := stats_snapshot lag src now in
  line ← logTick unow src (prev s) cur s;
  Ok {| window := window s; queue := queue s; dropped := dropped s; prev := cur; logged := logged s ++ [line] |}.

(** The calls of the workers and the rounds of the loop, as they interleave. *)
Inductive stats_op : Type :=
  | OpRecord (events : list TableWrite)
  | OpConsume (clock : nat -> Z)
  | OpTick (now unow : Z) (lag : option HistogramSnapshot) (src : StatsSource).

Definition stats_apply (s : StatsLogger) (o : stats_op) : result StatsLogger :=
  match o with
  | OpRecord events => Ok (Record_ events s)
  | OpConsume clock => consume clock s
  | OpTick now unow lag src => tick now unow lag src s
  end.
End stats_logger.

(** ** Laws *)

(** *** The scrape *)

(** What NewConstMetric documents: it fails only on a wrong number of labels
    or on a label that is not valid UTF-8. *)
Definition const_metric_documented (utf8 : string -> Prop) (const_metric : Desc -> list string -> option error) : Prop :=
  forall d labels, length labels = length (variableLabels d) -> Forall utf8 labels -> const_metric d labels = None.

(** The series of a worker: the families and the counters they expose. *)
Definition worker_series : list (Desc * (WorkerStats -> Z)) :=
  [(d_messagesProcessed, MessagesProcessed); (d_parseFailures, ParseFailures); (d_messagesDropped, MessagesDropped);
   (d_parsesZeroRows, ParsesZeroRows); (d_writeFailures, WriteFailures); (d_rowsWritten, RowsWritten);
   (d_acks, Acks); (d_nacks, Nacks)].

Definition series (m : Metric) : string * list string := (fqName (m_desc m), m_labels m).

Section scrape.
Context `{Values.MapIter} (utf8 : string -> Prop) (const_metric : Desc -> list string -> option error).
Context (Doc : const_metric_documented utf8 const_metric) (ascii_kinds : utf8 "transient" /\ utf8 "subscription").

Lemma emit_ok d t v labels :
  length labels = length (variableLabels d) -> Forall utf8 labels ->
  emit const_metric d t v labels = [{| m_desc := d; m_type := t; m_value := v; m_labels := labels |}].
Proof. intros L U. unfold emit. by rewrite Doc. Qed.

Definition counter_metric (snap : WorkerStatsSnapshot) (e : Desc * (WorkerStats -> Z)) : Metric :=
  {| m_desc := e.1; m_type := CounterValue; m_value := f64_of_Z (e.2 (Stats_of snap)); m_labels := [Worker snap] |}.

Lemma collectWorker_eq snap :
  utf8 (Worker snap) -> collectWorker const_metric snap = counter_metric snap <$> worker_series.
Proof. intros U. unfold collectWorker. rewrite !emit_ok by (done || by constructor). done. Qed.

Lemma collectWorkers_eq src :
  Forall (fun w => utf8 (Worker w)) (src_workers src) ->
  collectWorkers const_metric src = (w ← src_workers src; counter_metric w <$> worker_series).
Proof.
  unfold collectWorkers. induction 1 as [|w ws U _ IH]; [done|]. cbn [fmap list_fmap concat mbind list_bind].
  rewrite collectWorker_eq by done. cbn in IH |- *. by rewrite IH.
Qed.

Definition breaker_metric (e : string * State) : Metric :=
  {| m_desc := d_breakerState; m_type := GaugeValue; m_value := default f64_nan (breakerStateValue e.2); m_labels := [e.1] |}.

Lemma collectBreaker_eq (l : list (string * State)) :
  Forall (fun e => utf8 e.1) l -> concat (collectBreaker const_metric <$> l) = breaker_metric <$> l.
Proof.
  induction 1 as [|[k s] l U _ IH]; [done|]. cbn [fmap list_fmap concat]. cbn in IH |- *. rewrite IH.
  unfold collectBreaker. destruct s; cbn [breakerStateValue fst snd]; by rewrite emit_ok by (done || by constructor).
Qed.

(** The whole scrape, nothing skipped. *)
Definition counter_of (d : Desc) (v : Z) (labels : list string) : Metric :=
  {| m_desc := d; m_type := CounterValue; m_value := f64_of_Z v; m_labels := labels |}.
Definition gauge_of (d : Desc) (v : float64) : Metric :=
  {| m_desc := d; m_type := GaugeValue; m_value := v; m_labels := [] |}.

Definition fetch_metrics (src : StatsSource) : list Metric :=
  let f := src_fetch src in
  [counter_of d_messagesFetched (MessagesFetched f) []; counter_of d_fetchErrors (TransientErrors f) ["transient"];
   counter_of d_fetchErrors (SubscriptionErrors f) ["subscription"]; counter_of d_rebindAttempts (RebindAttempts f) []].

Definition gauge_metrics (src : StatsSource) : list Metric :=
  let health := src_health src in
  [gauge_of d_healthy (boolValue (Healthy health));
   gauge_of d_ready (boolValue (src_natsConnected src && FetchHealthy health && negb (BreakerOpen health)));
   gauge_of d_workChannelDepth (f64_of_Z (src_depth src));
   gauge_of d_lastFetchSuccess (match LastFetchSuccess health with
                                | None => f64_of_Z 0
                                | Some t => f64_div (f64_of_Z t) (f64_of_Z 1000000000)
                                end)].

Definition pending_metric (src : StatsSource) : list Metric :=
  [gauge_of d_consumerPending (f64_of_Z (src_pending src).1)].

Definition scrape (src : StatsSource) : list Metric :=
  fetch_metrics src ++ (w ← src_workers src; counter_metric w <$> worker_series) ++ gauge_metrics src ++
  (breaker_metric <$> iter (map_to_list (src_breakers src))) ++ pending_metric src.

Lemma Collect_scrape src :
  Forall (fun w => utf8 (Worker w)) (src_workers src) -> map_Forall (fun k _ => utf8 k) (src_breakers src) ->
  Collect const_metric src = scrape src.
Proof.
  intros W B. unfold Collect, scrape. rewrite collectWorkers_eq by done.
  assert (B' : Forall (fun e => utf8 e.1) (iter (map_to_list (src_breakers src)))).
  { rewrite iter_perm. apply map_Forall_to_list in B. eapply Forall_impl; [exact B|]. by intros []. }
  unfold collectFetch, collectGauges, collectPending. rewrite collectBreaker_eq by done. destruct ascii_kinds.
  rewrite !emit_ok by (done || by constructor). cbn [app]. by rewrite <- ?app_assoc.
Qed.
End scrape.

(** Lists of pairs with first components apart. *)
Definition firsts {A B} (P : list A) (l : list (A * B)) : Prop := Forall (fun x => x.1 ∈ P) l.

Lemma firsts_weaken {A B} (P Q : list A) (l : list (A * B)) : P ⊆ Q -> firsts P l -> firsts Q l.
Proof. intros S F. eapply Forall_impl; [exact F|]. intros x X. by apply S. Qed.

Lemma firsts_app {A B} (P Q : list A) (l k : list (A * B)) : firsts P l -> firsts Q k -> firsts (P ++ Q) (l ++ k).
Proof.
  intros L K. apply Forall_app. split; (eapply firsts_weaken; [|done]); intros x X; apply elem_of_app; auto.
Qed.

Definition apart {A} `{EqDecision A} (P Q : list A) : bool := forallb (fun x => negb (bool_decide (x ∈ Q))) P.

Lemma NoDup_app_firsts {A B} `{EqDecision A} (P Q : list A) (l k : list (A * B)) :
  apart P Q = true -> firsts P l -> firsts Q k -> NoDup l -> NoDup k -> NoDup (l ++ k).
Proof.
  intros D Pl Qk L K. apply forallb_Forall_true in D. apply NoDup_app. split_and!; [done| |done]. intros x X Y.
  eapply Forall_forall in Pl; [|exact X]. eapply Forall_forall in Qk; [|exact Y].
  eapply Forall_forall in D; [|exact Pl]. apply negb_true_iff, bool_decide_eq_false in D. done.
Qed.

Lemma firsts_series (l : list Metric) : firsts ((fqName ∘ m_desc) <$> l) (series <$> l).
Proof. apply Forall_fmap, Forall_forall. intros m M. by apply (list_elem_of_fmap_2 (fqName ∘ m_desc)). Qed.

Definition worker_names : list string := (fun e => fqName e.1) <$> worker_series.

Lemma series_workers ws :
  firsts worker_names (series <$> (w ← ws; counter_metric w <$> worker_series)) /\
  (NoDup (Worker <$> ws) -> NoDup (series <$> (w ← ws; counter_metric w <$> worker_series))).
Proof.
  assert (L : forall w, series <$> (counter_metric w <$> worker_series) = (fun n => (n, [Worker w])) <$> worker_names) by done.
  induction ws as [|w ws [F N]]; [split; [apply Forall_nil_2|intros _; apply NoDup_nil_2]|].
  cbn [mbind list_bind]. rewrite fmap_app, L. split.
  - apply Forall_app. split; [|exact F]. apply Forall_fmap, Forall_forall. intros n I. exact I.
  - intros [Nw D]%NoDup_cons. apply NoDup_app. split_and!; [| |by apply N].
    + apply NoDup_fmap_2; [by intros x y [= ->]|]. by apply (bool_decide_unpack _).
    + intros x X Y. apply list_elem_of_fmap in X as (n & -> & _). apply list_elem_of_fmap in Y as (m & E & M).
      apply list_elem_of_bind in M as (w' & M & W). apply list_elem_of_fmap in M as (e & -> & _).
      injection E as _ E. apply Nw. rewrite E. by apply list_elem_of_fmap_2.
Qed.

Lemma series_breakers `{Values.MapIter} (m : gmap string State) :
  firsts [fqName d_breakerState] (series <$> (breaker_metric <$> iter (map_to_list m))) /\
  NoDup (series <$> (breaker_metric <$> iter (map_to_list m))).
Proof.
  split; [apply Forall_fmap, Forall_fmap, Forall_forall; intros; left|].
  assert (E : series <$> (breaker_metric <$> iter (map_to_list m)) =
              (fun k => (fqName d_breakerState, [k])) <$> (iter (map_to_list m)).*1)
    by by rewrite <- !list_fmap_compose.
  rewrite E. apply NoDup_fmap_2; [by intros x y [= ->]|]. rewrite iter_perm. apply NoDup_fst_map_to_list.
Qed.

Lemma scrape_distinct `{Values.MapIter} src : NoDup (Worker <$> src_workers src) -> NoDup (series <$> scrape src).
Proof.
  intros N. unfold scrape. rewrite !fmap_app. destruct (series_workers (src_workers src)) as [Fw Nw]. specialize (Nw N).
  destruct (series_breakers (src_breakers src)) as [Fb Nb].
  pose proof (firsts_app _ _ _ _ Fb (firsts_series (pending_metric src))) as F3.
  pose proof (firsts_app _ _ _ _ (firsts_series (gauge_metrics src)) F3) as F2.
  pose proof (firsts_app _ _ _ _ Fw F2) as F1.
  eapply NoDup_app_firsts; [|apply firsts_series|exact F1| |]; [by vm_compute|by apply (bool_decide_unpack _); vm_compute|].
  eapply NoDup_app_firsts; [|exact Fw|exact F2|exact Nw|]; [by vm_compute|].
  eapply NoDup_app_firsts; [|apply firsts_series|exact F3| |]; [by vm_compute|by apply (bool_decide_unpack _); vm_compute|].
  eapply NoDup_app_firsts; [|exact Fb|apply firsts_series|exact Nb|]; [by vm_compute|by apply (bool_decide_unpack _); vm_compute].
Qed.

(** A scrape is complete and well formed.  When the workers have distinct
    names (and NewConstMetric does what it documents), Collect emits every
    series, with the counters and the state it read, and skips none; each
    metric is of a described family with its labels; and no series occurs
    twice, which would fail the whole scrape. *)
Theorem scrape_exact `{Values.MapIter} utf8 const_metric src :
  const_metric_documented utf8 const_metric -> utf8 "transient" /\ utf8 "subscription" ->
  Forall (fun w => utf8 (Worker w)) (src_workers src) -> map_Forall (fun k _ => utf8 k) (src_breakers src) ->
  NoDup (Worker <$> src_workers src) ->
  Collect const_metric src = scrape src /\
  Forall (fun m => m_desc m ∈ Describe /\ length (m_labels m) = length (variableLabels (m_desc m))) (Collect const_metric src) /\
  NoDup (series <$> Collect const_metric src).
Proof.
  intros Doc Kinds W B N. rewrite (Collect_scrape utf8 const_metric Doc Kinds src W B). split; [done|].
  unfold scrape, fetch_metrics, gauge_metrics, pending_metric. split.
  - repeat (apply Forall_app; split); rewrite ?Forall_cons, ?Forall_nil.
    + split_and!; try done; cbn [m_desc counter_metric breaker_metric counter_of gauge_of fst]; apply (bool_decide_unpack _); by vm_compute.
    + apply Forall_forall. intros m M. apply list_elem_of_bind in M as (w & M & _).
      apply list_elem_of_fmap in M as (e & -> & M). repeat (apply elem_of_cons in M as [->|M]); try by apply elem_of_nil in M.
      all: split; [cbn [m_desc counter_metric breaker_metric counter_of gauge_of fst]; apply (bool_decide_unpack _); by vm_compute|done].
    + split_and!; try done; cbn [m_desc counter_metric breaker_metric counter_of gauge_of fst]; apply (bool_decide_unpack _); by vm_compute.
    + apply Forall_fmap, Forall_forall. intros e _. split; [cbn [m_desc counter_metric breaker_metric counter_of gauge_of fst]; apply (bool_decide_unpack _); by vm_compute|done].
    + split_and!; try done; cbn [m_desc counter_metric breaker_metric counter_of gauge_of fst]; apply (bool_decide_unpack _); by vm_compute.
  - by apply scrape_distinct.
Qed.

(** *** The console statistics *)

(** The non-empty calls of Record. *)
Definition recorded_of (o : stats_op) : list TableWrite := match o with OpRecord events => events | _ => [] end.

(** What makes a round of the loop safe: a clock that is not before 1970, and
    histograms with at least one finite bucket. *)
Definition op_safe (o : stats_op) : Prop :=
  match o with
  | OpRecord _ => True
  | OpConsume clock => forall i, 0 <= clock i
  | OpTick _ _ (Some lag) _ => Buckets lag <> []
  | OpTick _ _ None _ => True
  end.

Lemma maxBound_total bounds counts : bounds <> [] -> is_Some (maxBound bounds counts).
Proof.
  intros B. unfold maxBound. assert (L : (length counts <= length counts)%nat) by done.
  revert L. generalize (length counts) at 1 3 as n. induction n as [|n IH]; intros L; cbn [max_loop]; [by eexists|].
  destruct (lookup_lt_is_Some_2 counts n L) as [c ->]. case_match; [apply IH; lia|].
  case_match; [by eexists|]. by apply last_is_Some.
Qed.

Lemma lagInterval_total prev cur : Buckets cur <> [] -> is_Some (lagInterval prev cur).
Proof.
  intros B. unfold lagInterval. destruct (bucketDeltas _ _); [|by eexists]. case_match; [by eexists|].
  destruct (maxBound_total (UpperBound <$> Buckets cur) l) as [m ->]; [by destruct (Buckets cur)|by eexists].
Qed.

Lemma add_total now w table rows msgs :
  0 <= now -> length w = 5%nat -> exists w', add now w table rows msgs = Ok w' /\ length w' = 5%nat.
Proof.
  intros N L. unfold add. assert (M : 0 <= minute_of now) by (unfold minute_of, go_div; apply Z.quot_pos; lia).
  destruct (lookup_lt_is_Some_2 w (Z.to_nat (go_rem (minute_of now) 5))) as [b ->].
  { rewrite L. unfold go_rem. pose proof (Z.rem_bound_pos (minute_of now) 5). lia. }
  rewrite (proj2 (Z.ltb_ge _ _)) by lia. eexists. split; [done|]. by rewrite length_insert.
Qed.

Lemma add_events_total l : forall w,
  Forall (fun e => 0 <= e.1) l -> length w = 5%nat -> exists w', fold_res add_event l w = Ok w' /\ length w' = 5%nat.
Proof.
  induction l as [|e l IH]; intros w F L; [by exists w|]. apply Forall_cons in F as [F0 F].
  destruct (add_total e.1 w (Table e.2) (Z.max (Rows e.2) 0) (Z.max (Msgs e.2) 0) F0 L) as (w1 & E & L1).
  destruct (IH w1 F L1) as (w' & E' & L'). exists w'. split; [|done]. cbn [fold_res].
  assert (add_event w e = Ok w1) as -> by exact E. exact E'.
Qed.

Record logger_inv (ops : list stats_op) (s : StatsLogger) (kept lost : list TableWrite) (times : list (Z * TableWrite)) : Prop := {
  li_split : concat (recorded_of <$> ops) ≡ₚ kept ++ lost;
  li_order : kept `sublist_of` concat (recorded_of <$> ops);
  li_kept : kept = times.*2 ++ concat (queue s);
  li_lost : dropped s = wrapu64 (Z.of_nat (length lost));
  li_cap : (length (queue s) <= eventChanCap)%nat;
  li_window : fold_res add_event times newTableWindow = Ok (window s);
  li_length : length (window s) = 5%nat
}.

Section stats_run.
Context `{Values.MapIter}.

Lemma logger_record ops s kept lost times events :
  logger_inv ops s kept lost times ->
  exists kept' lost', logger_inv (ops ++ [OpRecord events]) (Record_ events s) kept' lost' times.
Proof.
  intros [I1 I2 I3 I4 I5 I6 I7]. unfold Record_. destruct events as [|e events]; cbn [length Nat.eqb].
  { exists kept, lost. split; try done; rewrite fmap_app, concat_app; cbn; by rewrite app_nil_r. }
  destruct (Nat.ltb_spec (length (queue s)) eventChanCap) as [R|R].
  - exists (kept ++ e :: events), lost. split; try done; cbn [queue dropped window].
    + rewrite fmap_app, concat_app, I1. cbn. rewrite app_nil_r. solve_Permutation.
    + rewrite fmap_app, concat_app. cbn. rewrite app_nil_r. by apply sublist_app.
    + rewrite concat_app, I3. cbn. by rewrite app_nil_r, app_assoc.
    + rewrite length_app. cbn. lia.
  - exists kept, (lost ++ e :: events). split; try done; cbn [queue dropped window].
    + rewrite fmap_app, concat_app, I1. cbn. rewrite app_nil_r. solve_Permutation.
    + rewrite fmap_app, concat_app. by apply sublist_inserts_r.
    + rewrite I4, length_app, Nat2Z.inj_add. unfold wrapu64. by rewrite Zplus_mod_idemp_l.
Qed.

Lemma imap_pair_snd {A} (f : nat -> Z) (l : list A) : (imap (fun i e => (f i, e)) l).*2 = l.
Proof. revert f. induction l as [|x l IH]; intros f; [done|]. cbn. f_equal. apply (IH (f ∘ S)). Qed.

Lemma logger_consume ops s kept lost times clock :
  (forall i, 0 <= clock i) -> logger_inv ops s kept lost times ->
  exists s' times', consume clock s = Ok s' /\ logger_inv (ops ++ [OpConsume clock]) s' kept lost times'.
Proof.
  intros C [I1 I2 I3 I4 I5 I6 I7]. unfold consume.
  assert (R : concat (recorded_of <$> ops ++ [OpConsume clock]) = concat (recorded_of <$> ops))
    by (rewrite fmap_app, concat_app; cbn; by rewrite app_nil_r).
  destruct (queue s) as [|events q] eqn:Q.
  { exists s, times. split; [done|]. split; rewrite ?R, ?Q; done. }
  set (l := imap _ events).
  assert (F : Forall (fun e => 0 <= e.1) l) by (apply Forall_lookup; intros i x; unfold l; rewrite list_lookup_imap; destruct (events !! i); intros [= <-]; apply C).
  destruct (add_events_total l (window s) F I7) as (w & E & L). rewrite E. cbn [mbind res_bind].
  eexists _, (times ++ l). split; [done|]. split; rewrite ?R; cbn [queue dropped window]; try done.
  - rewrite I3, fmap_app. unfold l. rewrite imap_pair_snd. cbn. by rewrite app_assoc.
  - cbn in I5. lia.
  - rewrite fold_res_app, I6. exact E.
Qed.

Lemma logger_tick ops s kept lost times now unow lag src :
  op_safe (OpTick now unow lag src) -> logger_inv ops s kept lost times ->
  exists s', tick now unow lag src s = Ok s' /\ logger_inv (ops ++ [OpTick now unow lag src]) s' kept lost times /\
    exists line, logged s' = logged s ++ [line].
Proof.
  intros Sf [I1 I2 I3 I4 I5 I6 I7]. unfold tick, logTick.
  set (cur := stats_snapshot lag src now).
  assert (T : exists lags, lagAttrs (prev s) cur = Ok lags).
  { unfold lagAttrs. destruct (Telemetry.lag (prev s)) as [p|]; [|by eexists]. cbn. destruct lag as [c|]; [|by eexists].
    destruct (lagInterval_total p c Sf) as [[m|] ->]; by eexists. }
  destruct T as [lags ->]. cbn [mbind res_bind].
  eexists. split; [done|]. split; [|by eexists].
  assert (R : concat (recorded_of <$> ops ++ [OpTick now unow lag src]) = concat (recorded_of <$> ops))
    by (rewrite fmap_app, concat_app; cbn; by rewrite app_nil_r).
  split; rewrite ?R; done.
Qed.

Lemma logger_run ops first :
  Forall op_safe ops ->
  exists s kept lost times, fold_res stats_apply ops (NewStatsLogger first) = Ok s /\ logger_inv ops s kept lost times.
Proof.
  induction ops as [|o ops IH] using rev_ind; intros F.
  { exists (NewStatsLogger first), [], [], []. split; [done|]. split; try done. cbn. unfold eventChanCap. lia. }
  apply Forall_app in F as [F Fo]. rewrite Forall_singleton in Fo.
  destruct (IH F) as (s & kept & lost & times & E & I). rewrite fold_res_app, E. cbn [mbind res_bind fold_res].
  destruct o as [events|clock|now unow lag src]; cbn [stats_apply].
  - destruct (logger_record _ _ _ _ _ events I) as (k & l & I'). by eexists _, k, l, times.
  - destruct (logger_consume _ _ _ _ _ clock Fo I) as (s' & t' & -> & I'). by eexists s', kept, lost, t'.
  - destruct (logger_tick _ _ _ _ _ _ _ _ _ Fo I) as (s' & -> & I' & _). by eexists s', kept, lost, times.
Qed.
End stats_run.

(** C26. The statistics never hold up the pipeline and account for every event.
    Whatever the interleaving of the workers' Record calls with the logger's
    rounds, nothing panics, the event channel stays within its capacity, and
    the recorded table writes are, in order, those in the window (each added
    once), those buffered, and those dropped on a full channel, which the
    counter the log line shows counts. *)
Theorem stats_accounting `{Values.MapIter} ops first :
  Forall op_safe ops ->
  exists s kept lost times,
    fold_res stats_apply ops (NewStatsLogger first) = Ok s /\
    concat (recorded_of <$> ops) ≡ₚ kept ++ lost /\ kept `sublist_of` concat (recorded_of <$> ops) /\
    kept = times.*2 ++ concat (queue s) /\ fold_res add_event times newTableWindow = Ok (window s) /\
    dropped s = wrapu64 (Z.of_nat (length lost)) /\ (length (queue s) <= eventChanCap)%nat.
Proof.
  intros F. destruct (logger_run ops first F) as (s & kept & lost & times & E & []). exists s, kept, lost, times. by split_and!.
Qed.
