(* ===== verification/Options.v ===== *)
(** * Connector options (connector/options.go)

    The flags as a record, their validation and the typed options derived from
    them.  [Stat] is os.Stat of a path ([Some true] for a missing file), and
    [SplitHostPort] whether net.SplitHostPort accepts an address.  The zero
    values of the QuasarDB enumerations are constants of its C header. *)
From S2P Require Import Prelude GoInt GoStr GoFloat GoTime Values SinkOptions Breaker.

Record Options : Type := {
  PidFile : string;
  NatsEndpoint : string; NatsStreamName : string; NatsConsumerName : string;
  NatsCredsFile : string; NatsCAFile : string;
  NatsBatchSize : Z; NatsBatchTimeout : Z; NatsFetchTimeout : Z;
  Workers : Z;
  QdbClusterUri : string; QdbClusterPublicKeyFile : string; QdbUserSecurityFile : string;
  QdbCompression : string; QdbEncryption : string; QdbPushMode : string; QdbDeduplicationMode : string;
  QdbClientMaxParallelism : Z; QdbClientMaxInBufSize : Z;
  MaxRetries : Z;
  CircuitBreakerFailureThreshold : Z; CircuitBreakerSuccessThreshold : Z;
  CircuitBreakerTimeout : Z; CircuitBreakerShared : bool; CircuitBreakerJitterMax : Z;
  CircuitBreakerHalfOpenBase : Z; CircuitBreakerHalfOpenMax : Z;
  HealthStuckThreshold : Z; HTTPAddr : string; StatsInterval : Z;
  MetricsLagBucketStart : Z; MetricsLagBucketFactor : float64; MetricsLagBucketCount : Z;
  MetricsWriteBucketStart : Z; MetricsWriteBucketFactor : float64; MetricsWriteBucketCount : Z;
  ParserType : string; ParserConfig : string; ParseErrorAction : string
}.

(** ** Validation *)

Definition config_err (fmt : string) (args : list arg) : error := NewInvalidConfigError "connector" fmt args.

(** validateBucketConfig. *)
Definition validateBucketConfig (flag : string) (start : Z) (factor : float64) (count : Z) : option error :=
  if start <=? 0 then Some (config_err "%s-start must be positive" [AS flag])
  else if f64_le factor (f64_of_Z 1) then Some (config_err "%s-factor must be > 1.0" [AS flag])
  else if (count <? 1) || (64 <? count) then Some (config_err "%s-count must be in [1, 64]" [AS flag])
  else None.

(** The checks of validateOptions on the circuit breaker flags. *)
Definition validateBreakerOptions (o : Options) : option error :=
  if CircuitBreakerFailureThreshold o <=? 0 then
    Some (config_err "circuit breaker failure threshold must be positive" [])
  else if CircuitBreakerSuccessThreshold o <=? 0 then
    Some (config_err "circuit breaker success threshold must be positive" [])
  else if CircuitBreakerTimeout o <=? 0 then Some (config_err "circuit breaker timeout must be positive" [])
  else if CircuitBreakerHalfOpenBase o <=? 0 then
    Some (config_err "circuit breaker half-open base must be positive" [])
  else if negb (CircuitBreakerHalfOpenMax o =? 0) && (CircuitBreakerHalfOpenMax o <? CircuitBreakerHalfOpenBase o) then
    Some (config_err "circuit breaker half-open max must be >= base (or 0 for no limit)" [])
  else if negb (CircuitBreakerHalfOpenMax o =? 0) && (1000000 <? CircuitBreakerHalfOpenMax o) then
    Some (config_err "circuit breaker half-open max too large (max 1000000, or 0 for no limit)" [])
  else if CircuitBreakerJitterMax o <? 0 then Some (config_err "circuit breaker jitter max cannot be negative" [])
  else if go_div (CircuitBreakerTimeout o) 2 <? CircuitBreakerJitterMax o then
    Some (config_err "circuit breaker jitter max cannot exceed half the timeout" [])
  else None.

(** The checks on the parser flags. *)
Definition validateParserOptions (Stat : string -> option bool) (o : Options) : option error :=
  if negb (bool_decide (ParserType o ∈ ["yaml"; "noop"])) then
    Some (config_err "invalid parser type: %s (valid: yaml, noop)" [AS (ParserType o)])
  else if negb (bool_decide (ParseErrorAction o ∈ ["drop"; "fail"])) then
    Some (config_err "invalid parse-error-action: %s (valid: drop, fail)" [AS (ParseErrorAction o)])
  else if String.eqb (ParserType o) "yaml" && String.eqb (ParserConfig o) EmptyString then
    Some (config_err "yaml parser requires --parser-config flag pointing to a YAML configuration file" [])
  else if negb (String.eqb (ParserConfig o) EmptyString) then
    if Contains (ParserConfig o) ".." then
      Some (config_err "parser-config path must not contain '..' (path traversal)" [])
    else match Stat (ParserConfig o) with
         | None => None
         | Some true => Some (config_err "parser-config file not found: %s" [AS (ParserConfig o)])
         | Some false => Some (config_err "cannot access parser-config file: %v" [AS (ParserConfig o)])
         end
  else None.

Definition validateOptions (Stat : string -> option bool) (SplitHostPort : string -> bool) (o : Options)
    : option error :=
  if Workers o <=? 0 then Some (config_err "workers must be positive" [])
  else if String.eqb (NatsStreamName o) EmptyString then Some (config_err "stream name is required" [])
  else if String.eqb (NatsEndpoint o) EmptyString then Some (config_err "NATS URL is required" [])
  else match validateBreakerOptions o with
  | Some e => Some e
  | None =>
      if HealthStuckThreshold o <=? 0 then Some (config_err "health stuck threshold must be positive" [])
      else if StatsInterval o <? 0 then Some (config_err "stats interval cannot be negative (0 disables)" [])
      else if negb (String.eqb (HTTPAddr o) EmptyString) && negb (SplitHostPort (HTTPAddr o)) then
        Some (config_err "invalid http-addr %q (want host:port or :port): %v" [AS (HTTPAddr o)])
      else match validateBucketConfig "metrics-lag-bucket" (MetricsLagBucketStart o) (MetricsLagBucketFactor o)
                   (MetricsLagBucketCount o) with
      | Some e => Some e
      | None =>
          match validateBucketConfig "metrics-write-bucket" (MetricsWriteBucketStart o)
                  (MetricsWriteBucketFactor o) (MetricsWriteBucketCount o) with
          | Some e => Some e
          | None => validateParserOptions Stat o
          end
      end
  end.

(** ** Typed options *)

Definition parseCompression (val : string) : result Compression :=
  if String.eqb val "none" then Ok CompNone
  else if String.eqb val "balanced" then Ok CompBalanced
  else Err (config_err "invalid compression value: %s (valid values: none, balanced)" [AS val]).

Definition parseEncryption (val : string) : result Encryption :=
  if String.eqb val "none" then Ok EncryptNone
  else if String.eqb val "aes" then Ok EncryptAES
  else Err (config_err "invalid encryption value: %s (valid values: none, aes)" [AS val]).

Definition parsePushMode (val : string) : result WriterPushMode :=
  if String.eqb val "transactional" then Ok WriterPushModeTransactional
  else if String.eqb val "async" then Ok WriterPushModeAsync
  else if String.eqb val "fast" then Ok WriterPushModeFast
  else Err (config_err "invalid push mode value: %s (valid values: transactional, async, fast)" [AS val]).

Definition parseDeduplicationMode (val : string) : result WriterDeduplicationMode :=
  if String.eqb val "disabled" then Ok WriterDeduplicationModeDisabled
  else if String.eqb val "drop" then Ok WriterDeduplicationModeDrop
  else if String.eqb val "upsert" then Ok WriterDeduplicationModeUpsert
  else Err (config_err "invalid deduplication mode value: %s (valid values: disabled, drop, upsert)" [AS val]).

(** [when b m d]: [if b { parse and set }], [d] being the value kept otherwise. *)
Definition unless_empty {A} (val : string) (parse : string -> result A) (d : A) : result A :=
  if String.eqb val EmptyString then Ok d else parse val.

(** parseAndSetFields on fresh options: the two provider views, which the
    getters of Options return.  [zero_comp] and [zero_dedup] are the zero
    values of the enumerations. *)
Definition parseAndSetFields (zero_comp : Compression) (zero_dedup : WriterDeduplicationMode) (o : Options)
    : result (SinkOpts.OptionsProvider * SourceOpts.OptionsProvider) :=
  comp ← unless_empty (QdbCompression o) parseCompression zero_comp;
  enc ← unless_empty (QdbEncryption o) (fun v => Some <$> parseEncryption v) None;
  pushMode ← unless_empty (QdbPushMode o) parsePushMode WriterPushModeAsync;
  dedup ← unless_empty (QdbDeduplicationMode o) parseDeduplicationMode zero_dedup;
  Ok ({| SinkOpts.p_ClusterUri := QdbClusterUri o; SinkOpts.p_ClusterPublicKeyFile := QdbClusterPublicKeyFile o;
         SinkOpts.p_UserSecurityFile := QdbUserSecurityFile o; SinkOpts.p_Encryption := enc;
         SinkOpts.p_Compression := comp; SinkOpts.p_DeduplicationMode := dedup; SinkOpts.p_PushMode := pushMode;
         SinkOpts.p_ClientMaxParallelism :=
           if 0 <? QdbClientMaxParallelism o then Some (QdbClientMaxParallelism o) else None;
         SinkOpts.p_ClientMaxInBufSize :=
           if 0 <? QdbClientMaxInBufSize o then Some (QdbClientMaxInBufSize o) else None;
         SinkOpts.p_Timeout := None |},
      {| SourceOpts.p_URL := NatsEndpoint o; SourceOpts.p_StreamName := NatsStreamName o;
         SourceOpts.p_CredsFile := NatsCredsFile o; SourceOpts.p_TLSCAFile := NatsCAFile o;
         SourceOpts.p_BatchSize := NatsBatchSize o; SourceOpts.p_BatchTimeout := NatsBatchTimeout o;
         SourceOpts.p_FetchTimeout := NatsFetchTimeout o |}).

(** ** The options object

    The getters of an Options value read its parsed fields and fill them on
    first use; [initialized] tells whether parseAndSetFields has completed. *)

Record OptionsObject : Type := {
  raw : Options; parsedSink : SinkOpts.OptionsProvider; parsedSource : SourceOpts.OptionsProvider;
  parsedConsumer : string; initialized : bool }.

Section object.
Context (zero_comp : Compression) (zero_dedup : WriterDeduplicationMode).

(** An Options literal: every parsed field has its zero value. *)
Definition fresh_object (o : Options) : OptionsObject := {|
  raw := o;
  parsedSink := {|
    SinkOpts.p_ClusterUri := EmptyString; SinkOpts.p_ClusterPublicKeyFile := EmptyString; SinkOpts.p_UserSecurityFile := EmptyString;
    SinkOpts.p_Encryption := None; SinkOpts.p_Compression := zero_comp; SinkOpts.p_DeduplicationMode := zero_dedup;
    SinkOpts.p_PushMode := WriterPushModeTransactional; SinkOpts.p_ClientMaxParallelism := None;
    SinkOpts.p_ClientMaxInBufSize := None; SinkOpts.p_Timeout := None |};
  parsedSource := {|
    SourceOpts.p_URL := EmptyString; SourceOpts.p_StreamName := EmptyString; SourceOpts.p_CredsFile := EmptyString;
    SourceOpts.p_TLSCAFile := EmptyString; SourceOpts.p_BatchSize := 0; SourceOpts.p_BatchTimeout := 0; SourceOpts.p_FetchTimeout := 0 |};
  parsedConsumer := EmptyString; initialized := false |}.

Definition on_sink (f : SinkOpts.OptionsProvider -> SinkOpts.OptionsProvider) (o : OptionsObject) : OptionsObject :=
  {| raw := raw o; parsedSink := f (parsedSink o); parsedSource := parsedSource o; parsedConsumer := parsedConsumer o;
     initialized := initialized o |}.

(** The assignments to the fields of parsedSinkOptions. *)
Definition set_sink (uris : bool) (o : Options) (comp : Compression) (enc : option Encryption) (push : WriterPushMode)
    (dedup : WriterDeduplicationMode) (par size : option Z) (p : SinkOpts.OptionsProvider) : SinkOpts.OptionsProvider :=
  {| SinkOpts.p_ClusterUri := if uris then QdbClusterUri o else SinkOpts.p_ClusterUri p;
     SinkOpts.p_ClusterPublicKeyFile := if uris then QdbClusterPublicKeyFile o else SinkOpts.p_ClusterPublicKeyFile p;
     SinkOpts.p_UserSecurityFile := if uris then QdbUserSecurityFile o else SinkOpts.p_UserSecurityFile p;
     SinkOpts.p_Encryption := enc; SinkOpts.p_Compression := comp; SinkOpts.p_DeduplicationMode := dedup; SinkOpts.p_PushMode := push;
     SinkOpts.p_ClientMaxParallelism := par; SinkOpts.p_ClientMaxInBufSize := size; SinkOpts.p_Timeout := SinkOpts.p_Timeout p |}.

Definition set_comp (c : Compression) (o : OptionsObject) : OptionsObject :=
  on_sink (fun p => set_sink false (raw o) c (SinkOpts.p_Encryption p) (SinkOpts.p_PushMode p) (SinkOpts.p_DeduplicationMode p)
                      (SinkOpts.p_ClientMaxParallelism p) (SinkOpts.p_ClientMaxInBufSize p) p) o.
Definition set_enc (e : option Encryption) (o : OptionsObject) : OptionsObject :=
  on_sink (fun p => set_sink false (raw o) (SinkOpts.p_Compression p) e (SinkOpts.p_PushMode p) (SinkOpts.p_DeduplicationMode p)
                      (SinkOpts.p_ClientMaxParallelism p) (SinkOpts.p_ClientMaxInBufSize p) p) o.
Definition set_push (m : WriterPushMode) (o : OptionsObject) : OptionsObject :=
  on_sink (fun p => set_sink false (raw o) (SinkOpts.p_Compression p) (SinkOpts.p_Encryption p) m (SinkOpts.p_DeduplicationMode p)
                      (SinkOpts.p_ClientMaxParallelism p) (SinkOpts.p_ClientMaxInBufSize p) p) o.
Definition set_dedup (d : WriterDeduplicationMode) (o : OptionsObject) : OptionsObject :=
  on_sink (fun p => set_sink false (raw o) (SinkOpts.p_Compression p) (SinkOpts.p_Encryption p) (SinkOpts.p_PushMode p) d
                      (SinkOpts.p_ClientMaxParallelism p) (SinkOpts.p_ClientMaxInBufSize p) p) o.
Definition set_performance (o : OptionsObject) : OptionsObject :=
  let keep (n : Z) (old : option Z) := if 0 <? n then Some n else old in
  on_sink (fun p => set_sink false (raw o) (SinkOpts.p_Compression p) (SinkOpts.p_Encryption p) (SinkOpts.p_PushMode p)
                      (SinkOpts.p_DeduplicationMode p) (keep (QdbClientMaxParallelism (raw o)) (SinkOpts.p_ClientMaxParallelism p))
                      (keep (QdbClientMaxInBufSize (raw o)) (SinkOpts.p_ClientMaxInBufSize p)) p) o.

(** The source options and the strings, which need no parsing. *)
Definition set_plain (o : OptionsObject) : OptionsObject :=
  let r := raw o in
  {| raw := r;
     parsedSink := let p := parsedSink o in
       set_sink true r (SinkOpts.p_Compression p) (SinkOpts.p_Encryption p) (SinkOpts.p_PushMode p) (SinkOpts.p_DeduplicationMode p)
         (SinkOpts.p_ClientMaxParallelism p) (SinkOpts.p_ClientMaxInBufSize p) p;
     parsedSource := {|
       SourceOpts.p_URL := NatsEndpoint r; SourceOpts.p_StreamName := NatsStreamName r; SourceOpts.p_CredsFile := NatsCredsFile r;
       SourceOpts.p_TLSCAFile := NatsCAFile r; SourceOpts.p_BatchSize := NatsBatchSize r; SourceOpts.p_BatchTimeout := NatsBatchTimeout r;
       SourceOpts.p_FetchTimeout := NatsFetchTimeout r |};
     parsedConsumer := NatsConsumerName r; initialized := initialized o |}.

(** [value, err := parse(..); if err != nil { return err }; field = value]; no
    parser panics. *)
Definition settle {A} (r : result A) (set : A -> OptionsObject -> OptionsObject) (next : OptionsObject -> option error * OptionsObject)
    (o : OptionsObject) : option error * OptionsObject :=
  match r with
  | Ok a => next (set a o)
  | Err e => (Some e, o)
  | Panic => (None, o)
  end.

(** parseAndSetFields on the object: it stops at the first value that does not
    parse and leaves the fields set so far. *)
Definition Initialize (o : OptionsObject) : option error * OptionsObject :=
  let r := raw o in
  let p := parsedSink o in
  settle (unless_empty (QdbCompression r) parseCompression (SinkOpts.p_Compression p)) set_comp (
  settle (unless_empty (QdbEncryption r) (fun v => Some <$> parseEncryption v) (SinkOpts.p_Encryption p)) set_enc (
  settle (unless_empty (QdbPushMode r) parsePushMode WriterPushModeAsync) set_push (
  settle (unless_empty (QdbDeduplicationMode r) parseDeduplicationMode (SinkOpts.p_DeduplicationMode p)) set_dedup (
  fun o => let o := set_performance o in
    (None, {| raw := raw o; parsedSink := parsedSink o; parsedSource := parsedSource o; parsedConsumer := parsedConsumer o;
              initialized := true |}))))) (set_plain o).

(** The error is ignored. *)
Definition ensureInitialized (o : OptionsObject) : OptionsObject := if initialized o then o else (Initialize o).2.

Definition getter {A} (field : OptionsObject -> A) (o : OptionsObject) : A * OptionsObject :=
  let o := ensureInitialized o in (field o, o).

Definition get_ClusterUri := getter (fun o => SinkOpts.p_ClusterUri (parsedSink o)).
Definition get_ClusterPublicKeyFile := getter (fun o => SinkOpts.p_ClusterPublicKeyFile (parsedSink o)).
Definition get_UserSecurityFile := getter (fun o => SinkOpts.p_UserSecurityFile (parsedSink o)).
Definition get_Encryption := getter (fun o => SinkOpts.p_Encryption (parsedSink o)).
Definition get_Compression := getter (fun o => SinkOpts.p_Compression (parsedSink o)).
Definition get_DeduplicationMode := getter (fun o => SinkOpts.p_DeduplicationMode (parsedSink o)).
Definition get_PushMode := getter (fun o => SinkOpts.p_PushMode (parsedSink o)).
Definition get_ClientMaxParallelism := getter (fun o => SinkOpts.p_ClientMaxParallelism (parsedSink o)).
Definition get_ClientMaxInBufSize := getter (fun o => SinkOpts.p_ClientMaxInBufSize (parsedSink o)).
Definition get_Timeout := getter (fun o => SinkOpts.p_Timeout (parsedSink o)).
Definition get_URL := getter (fun o => SourceOpts.p_URL (parsedSource o)).
Definition get_StreamName := getter (fun o => SourceOpts.p_StreamName (parsedSource o)).
Definition get_ConsumerName := getter (fun o => parsedConsumer o).
Definition get_CredsFile := getter (fun o => SourceOpts.p_CredsFile (parsedSource o)).
Definition get_TLSCAFile := getter (fun o => SourceOpts.p_TLSCAFile (parsedSource o)).
Definition get_BatchSize := getter (fun o => SourceOpts.p_BatchSize (parsedSource o)).
Definition get_BatchTimeout := getter (fun o => SourceOpts.p_BatchTimeout (parsedSource o)).
Definition get_FetchTimeout := getter (fun o => SourceOpts.p_FetchTimeout (parsedSource o)).
Definition GetWorkers (o : OptionsObject) : Z := Workers (raw o).

(** What source.FromOptionsProvider reads, and what sink.FromOptionsProvider
    reads, getter by getter. *)
Definition source_provider (o : OptionsObject) : SourceOpts.OptionsProvider * OptionsObject :=
  let '(url, o) := get_URL o in let '(stream, o) := get_StreamName o in let '(creds, o) := get_CredsFile o in
  let '(ca, o) := get_TLSCAFile o in let '(size, o) := get_BatchSize o in let '(wait, o) := get_BatchTimeout o in
  let '(total, o) := get_FetchTimeout o in
  ({| SourceOpts.p_URL := url; SourceOpts.p_StreamName := stream; SourceOpts.p_CredsFile := creds; SourceOpts.p_TLSCAFile := ca;
      SourceOpts.p_BatchSize := size; SourceOpts.p_BatchTimeout := wait; SourceOpts.p_FetchTimeout := total |}, o).

Definition sink_provider (o : OptionsObject) : SinkOpts.OptionsProvider * OptionsObject :=
  let '(uri, o) := get_ClusterUri o in let '(key, o) := get_ClusterPublicKeyFile o in let '(user, o) := get_UserSecurityFile o in
  let '(enc, o) := get_Encryption o in let '(comp, o) := get_Compression o in let '(dedup, o) := get_DeduplicationMode o in
  let '(push, o) := get_PushMode o in let '(par, o) := get_ClientMaxParallelism o in let '(size, o) := get_ClientMaxInBufSize o in
  let '(timeout, o) := get_Timeout o in
  ({| SinkOpts.p_ClusterUri := uri; SinkOpts.p_ClusterPublicKeyFile := key; SinkOpts.p_UserSecurityFile := user;
      SinkOpts.p_Encryption := enc; SinkOpts.p_Compression := comp; SinkOpts.p_DeduplicationMode := dedup; SinkOpts.p_PushMode := push;
      SinkOpts.p_ClientMaxParallelism := par; SinkOpts.p_ClientMaxInBufSize := size; SinkOpts.p_Timeout := timeout |}, o).
End object.

(** The worker's own breaker (NewWorker without a manager). *)
Definition worker_breaker (o : Options) (now : Z) : CircuitBreaker :=
  NewCircuitBreaker (CircuitBreakerFailureThreshold o) (CircuitBreakerSuccessThreshold o)
    (CircuitBreakerTimeout o) true "qdb-cluster" (CircuitBreakerJitterMax o)
    (CircuitBreakerHalfOpenBase o) (CircuitBreakerHalfOpenMax o) now.

(** ** Laws *)

(** What the validated flags guarantee. *)
Lemma validateOptions_ok Stat Split o :
  validateOptions Stat Split o = None ->
  0 < Workers o /\ NatsStreamName o <> EmptyString /\ NatsEndpoint o <> EmptyString /\
  validateBreakerOptions o = None /\ validateParserOptions Stat o = None /\ 0 < HealthStuckThreshold o.
Proof.
  unfold validateOptions. by repeat (case_match; try done; bools; try lia).
Qed.

Lemma validateBreakerOptions_ok o :
  validateBreakerOptions o = None ->
  1 <= CircuitBreakerFailureThreshold o /\ 1 <= CircuitBreakerSuccessThreshold o /\ 0 < CircuitBreakerTimeout o /\
  1 <= CircuitBreakerHalfOpenBase o /\
  (CircuitBreakerHalfOpenMax o = 0 \/ CircuitBreakerHalfOpenBase o <= CircuitBreakerHalfOpenMax o <= 1000000) /\
  0 <= CircuitBreakerJitterMax o <= CircuitBreakerTimeout o / 2.
Proof.
  unfold validateBreakerOptions. intros E.
  repeat (case_match; [done|]). bools.
  assert (go_div (CircuitBreakerTimeout o) 2 = CircuitBreakerTimeout o / 2) as G by (apply go_div_pos; lia).
  rewrite G in *.
  repeat match goal with H : _ && _ = false |- _ => apply andb_false_iff in H end.
  rewrite !negb_false_iff, !Z.eqb_eq, ?Z.ltb_ge in *. lia.
Qed.

(** C29. Validated flags give the components what their theorems assume.  For flags
    that validateOptions accepts with a bounded half-open limit and a timeout
    of at least 10 ns (or no jitter) and at most half the int64 range, the
    worker's breaker is a valid closed breaker on which no request panics; the
    sink gets the URI of the flags, ten attempts and, when no push mode is
    given, the async one; and the source gets a non-empty endpoint and stream,
    its consumer name being left to the connector. *)
Theorem validated_configuration Stat Split zc zd o now sink src :
  validateOptions Stat Split o = None -> parseAndSetFields zc zd o = Ok (sink, src) ->
  CircuitBreakerHalfOpenMax o <> 0 -> CircuitBreakerTimeout o <= max_int64 / 2 ->
  CircuitBreakerJitterMax o = 0 \/ 10 <= CircuitBreakerTimeout o ->
  breaker_cfg_ok (worker_breaker o now) /\ breaker_total (worker_breaker o now) /\
  represents now (worker_breaker o now) (Closed 0) /\
  SinkOpts.RetryAttempts (SinkOpts.FromOptionsProvider sink) = 10 /\
  SinkOpts.ClusterUri (SinkOpts.FromOptionsProvider sink) = QdbClusterUri o /\
  (QdbPushMode o = EmptyString -> SinkOpts.PushMode (SinkOpts.FromOptionsProvider sink) = WriterPushModeAsync) /\
  SourceOpts.Endpoint (SourceOpts.FromOptionsProvider src) <> EmptyString /\
  SourceOpts.StreamName (SourceOpts.FromOptionsProvider src) <> EmptyString /\
  SourceOpts.ConsumerName (SourceOpts.FromOptionsProvider src) = EmptyString.
Proof.
  intros V P M T J. apply validateOptions_ok in V as (_ & Sn & En & B & _ & _).
  apply validateBreakerOptions_ok in B as (B1 & B2 & B3 & B4 & B5 & B6).
  unfold parseAndSetFields in P.
  apply res_bind_ok in P as (comp & _ & P). apply res_bind_ok in P as (enc & _ & P).
  apply res_bind_ok in P as (pm & Pm & P). apply res_bind_ok in P as (dd & _ & P).
  injection P as <- <-. rewrite SinkOpts.FromOptionsProvider_fields. cbn.
  split_and!; try done.
  - unfold breaker_cfg_ok. cbn. change (2 ^ 31) with 2147483648. lia.
  - unfold breaker_total. cbn. lia.
  - lia.
  - intros E. rewrite E in Pm. by injection Pm as <-.
Qed.

(** *** The getters *)

Section object_laws.
Context (zero_comp : Compression) (zero_dedup : WriterDeduplicationMode).

Lemma unless_empty_safe {A} v (parse : string -> result A) d : (forall w, no_panic (parse w)) -> no_panic (unless_empty v parse d).
Proof. intros N. unfold unless_empty. case_match; [done|apply N]. Qed.

Lemma parses_safe o :
  no_panic (unless_empty (QdbCompression o) parseCompression zero_comp) /\
  no_panic (unless_empty (QdbEncryption o) (fun v => Some <$> parseEncryption v) None) /\
  no_panic (unless_empty (QdbPushMode o) parsePushMode WriterPushModeAsync) /\
  no_panic (unless_empty (QdbDeduplicationMode o) parseDeduplicationMode zero_dedup).
Proof.
  split_and!; apply unless_empty_safe; intros w;
    unfold parseCompression, parseEncryption, parsePushMode, parseDeduplicationMode, no_panic; by repeat case_match.
Qed.

(** On a fresh object, Initialize and the function on flags agree. *)
Lemma Initialize_fresh o :
  match parseAndSetFields zero_comp zero_dedup o with
  | Ok (sink, src) =>
      Initialize (fresh_object zero_comp zero_dedup o) =
        (None, {| raw := o; parsedSink := sink; parsedSource := src; parsedConsumer := NatsConsumerName o; initialized := true |})
  | Err e => (Initialize (fresh_object zero_comp zero_dedup o)).1 = Some e /\ initialized (Initialize (fresh_object zero_comp zero_dedup o)).2 = false
  | Panic => False
  end.
Proof.
  pose proof (parses_safe o) as (N1 & N2 & N3 & N4).
  unfold parseAndSetFields.
  change (Initialize (fresh_object zero_comp zero_dedup o)) with
    (settle (unless_empty (QdbCompression o) parseCompression zero_comp) set_comp (
     settle (unless_empty (QdbEncryption o) (fun v => Some <$> parseEncryption v) None) set_enc (
     settle (unless_empty (QdbPushMode o) parsePushMode WriterPushModeAsync) set_push (
     settle (unless_empty (QdbDeduplicationMode o) parseDeduplicationMode zero_dedup) set_dedup (
     fun o => let o := set_performance o in
      (None, {| raw := raw o; parsedSink := parsedSink o; parsedSource := parsedSource o; parsedConsumer := parsedConsumer o;
                initialized := true |}))))) (set_plain (fresh_object zero_comp zero_dedup o))).
  destruct (unless_empty (QdbCompression o) _ _); [|done..].
  destruct (unless_empty (QdbEncryption o) _ _); [|done..].
  destruct (unless_empty (QdbPushMode o) _ _); [|done..].
  by destruct (unless_empty (QdbDeduplicationMode o) _ _).
Qed.

Lemma getter_initialized {A} (field : OptionsObject -> A) o : initialized o = true -> getter field o = (field o, o).
Proof. intros I. unfold getter, ensureInitialized. by rewrite I. Qed.

(** The getters of options that parse, called one after the other as the sink
    and the source do, return the typed options, whether or not Initialize was
    called before; the object then does not change any more. *)
Theorem providers_exact o sink src :
  parseAndSetFields zero_comp zero_dedup o = Ok (sink, src) ->
  exists obj, (Initialize (fresh_object zero_comp zero_dedup o)) = (None, obj) /\
    sink_provider (fresh_object zero_comp zero_dedup o) = (sink, obj) /\ source_provider (fresh_object zero_comp zero_dedup o) = (src, obj) /\
    sink_provider obj = (sink, obj) /\ source_provider obj = (src, obj) /\
    (get_ConsumerName obj).1 = NatsConsumerName o /\ GetWorkers obj = Workers o.
Proof.
  intros P. pose proof (Initialize_fresh o) as I. rewrite P in I.
  set (obj := {| raw := o; parsedSink := sink |}) in I. exists obj.
  assert (S : sink_provider obj = (sink, obj)).
  { unfold sink_provider, get_ClusterUri, get_ClusterPublicKeyFile, get_UserSecurityFile, get_Encryption, get_Compression,
      get_DeduplicationMode, get_PushMode, get_ClientMaxParallelism, get_ClientMaxInBufSize, get_Timeout.
    rewrite !getter_initialized by done. by destruct sink. }
  assert (T : source_provider obj = (src, obj)).
  { unfold source_provider, get_URL, get_StreamName, get_CredsFile, get_TLSCAFile, get_BatchSize, get_BatchTimeout, get_FetchTimeout.
    rewrite !getter_initialized by done. by destruct src. }
  assert (F : forall A (field : OptionsObject -> A), getter field (fresh_object zero_comp zero_dedup o) = getter field obj).
  { intros A field. rewrite (getter_initialized field obj) by done. unfold getter, ensureInitialized. change (initialized (fresh_object _ _ o)) with false.
    cbn iota. by rewrite I. }
  split_and!; [done| | |done|done|done|done].
  - rewrite <- S. unfold sink_provider, get_ClusterUri. by rewrite F.
  - rewrite <- T. unfold source_provider, get_URL. by rewrite F.
Qed.

(** A value that does not parse is not reported by the getters, and what comes
    after it keeps its zero value: with a compression that does not parse, the
    push mode is the transactional one whatever the flags say, the default
    included, and the encryption and the client limits are dropped. *)
Theorem bad_compression_drops_options o e :
  unless_empty (QdbCompression o) parseCompression zero_comp = Err e ->
  (get_PushMode (fresh_object zero_comp zero_dedup o)).1 = WriterPushModeTransactional /\
  (get_Encryption (fresh_object zero_comp zero_dedup o)).1 = None /\
  (get_ClientMaxParallelism (fresh_object zero_comp zero_dedup o)).1 = None /\
  (get_ClusterUri (fresh_object zero_comp zero_dedup o)).1 = QdbClusterUri o.
Proof.
  intros E.
  assert (I : Initialize (fresh_object zero_comp zero_dedup o) = (Some e, set_plain (fresh_object zero_comp zero_dedup o))).
  { unfold Initialize. change (unless_empty (QdbCompression _) _ _) with (unless_empty (QdbCompression o) parseCompression zero_comp).
    by rewrite E. }
  unfold get_PushMode, get_Encryption, get_ClientMaxParallelism, get_ClusterUri, getter, ensureInitialized.
  change (initialized (fresh_object _ _ o)) with false. cbn iota. by rewrite I.
Qed.
End object_laws.
