(* ===== verification/Flags.v ===== *)
(** * Flags: from the command line and the environment to the options
    (connector/options.go: LoadConfig)

    The flag table of LoadConfig, the parsing of an argument list, the lookup
    of a setting (command line, then environment, then default) and its
    decoding into Options.  Parsing follows pflag and the lookup follows viper
    as they are vendored; no key contains a dot, so viper's nested keys do not
    arise.  [LookupEnv] is os.LookupEnv and [Duration_String] is
    time.Duration.String.  mapstructure would also convert a float into a number
    of another kind or a text; the only float settings are the defaults of the
    two bucket factors, which are decoded as floats. *)
From S2P Require Import Prelude GoInt GoStr GoParse GoFloat GoTime Values Convert SinkOptions Breaker Options.
From Stdlib Require Import Ascii.

(** ** Flags (pflag) *)

Inductive flag_value : Type :=
  | FString (s : string) | FInt (z : Z) | FUint (z : Z) | FBool (b : bool) | FDuration (d : Z) | FFloat (f : float64).

Record Flag : Type := { Name : string; Shorthand : option ascii; DefValue : flag_value }.

(** A bool flag may be given without a value. *)
Definition NoOptDefVal (f : Flag) : option string := match DefValue f with FBool _ => Some "true" | _ => None end.

Definition flag (name : string) (v : flag_value) : Flag := {| Name := name; Shorthand := None; DefValue := v |}.
Definition flagP (name : string) (c : ascii) (v : flag_value) : Flag := {| Name := name; Shorthand := Some c; DefValue := v |}.

Definition DefaultURL : string := "nats://127.0.0.1:4222".
Definition two : float64 := f64_of_Z 2.

(** The flags, in the order in which LoadConfig defines them. *)
Definition flag_table : list Flag := [
  flagP "help" "h" (FBool false);
  flagP "nats" "n" (FString DefaultURL);
  flag "stream" (FString EmptyString);
  flag "consumer" (FString "qdb-connector");
  flag "nats-creds-file" (FString EmptyString);
  flag "nats-ca-file" (FString EmptyString);
  flagP "workers" "w" (FInt 4);
  flag "batch-size" (FInt 100);
  flag "batch-timeout" (FDuration Second);
  flag "fetch-timeout" (FDuration (5 * Second));
  flag "max-retries" (FInt 3);
  flagP "pid" "P" (FString EmptyString);
  flag "qdb" (FString EmptyString);
  flag "qdb-pubkey-file" (FString EmptyString);
  flag "qdb-user-sec-file" (FString EmptyString);
  flag "qdb-compression" (FString EmptyString);
  flag "qdb-encryption" (FString EmptyString);
  flag "qdb-push-mode" (FString EmptyString);
  flag "qdb-deduplication-mode" (FString EmptyString);
  flag "qdb-client-max-parallelism" (FUint 0);
  flag "qdb-client-inbuf-size" (FUint 0);
  flag "circuit-breaker-failure-threshold" (FInt 5);
  flag "circuit-breaker-success-threshold" (FInt 2);
  flag "circuit-breaker-timeout" (FDuration (30 * Second));
  flag "circuit-breaker-shared" (FBool true);
  flag "circuit-breaker-jitter-max" (FDuration (100 * Millisecond));
  flag "circuit-breaker-half-open-base" (FInt 1);
  flag "circuit-breaker-half-open-max" (FInt 32);
  flag "health-stuck-threshold" (FDuration (5 * Minute));
  flag "http-addr" (FString ":9100");
  flag "stats-interval" (FDuration Minute);
  flag "metrics-lag-bucket-start" (FDuration Millisecond);
  flag "metrics-lag-bucket-factor" (FFloat two);
  flag "metrics-lag-bucket-count" (FInt 20);
  flag "metrics-write-bucket-start" (FDuration Millisecond);
  flag "metrics-write-bucket-factor" (FFloat two);
  flag "metrics-write-bucket-count" (FInt 20);
  flag "parser" (FString "noop");
  flag "parser-config" (FString EmptyString);
  flag "parse-error-action" (FString "drop")].

(** The formal flags, by name and by shorthand. *)
Definition Lookup (name : string) : option Flag := List.find (fun f => String.eqb (Name f) name) flag_table.
Definition ShorthandLookup (c : ascii) : option Flag :=
  List.find (fun f => match Shorthand f with Some d => Ascii.eqb c d | None => false end) flag_table.

(** ** Parsing the arguments *)

(** The flags given so far with their values, and the other arguments. *)
Record FlagSet : Type := { actual : gmap string flag_value; args : list string }.

Definition NewFlagSet : FlagSet := {| actual := ∅; args := [] |}.

Inductive usage_error : Type :=
  | InvalidSyntax (arg : string)
  | NotExist (name : string)
  | ValueRequired (name : string)
  | InvalidValue (name value : string).

Definition from_num (r : res num_error Z) : option Z := match r with Ok z => Some z | _ => None end.

Section flags.
Context `{GoLib}.

(** Value.Set, for a value of the kind of [v]. *)
Definition Value_Set (v : flag_value) (s : string) : option flag_value :=
  match v with
  | FString _ => Some (FString s)
  | FInt _ => FInt <$> from_num (ParseInt0 s)
  | FUint _ => FUint <$> from_num (ParseUint0 s)
  | FBool _ => match ParseBool s with Ok b => Some (FBool b) | _ => None end
  | FDuration _ => FDuration <$> ParseDuration s
  | FFloat _ => match ParseFloat s with Ok f => Some (FFloat f) | _ => None end
  end.

Definition Set_flag (f : Flag) (value : string) (fs : FlagSet) : usage_error + FlagSet :=
  match Value_Set (DefValue f) value with
  | Some v => inr {| actual := <[Name f := v]> (actual fs); args := args fs |}
  | None => inl (InvalidValue (Name f) value)
  end.

(** Whether the next argument was consumed. *)
Definition consumed (b : bool) (r : usage_error + FlagSet) : usage_error + (FlagSet * bool) :=
  match r with inl e => inl e | inr fs => inr (fs, b) end.

(** The text before the first [=], and the text after it. *)
Fixpoint cut_equals (s : string) : string * option string :=
  match s with
  | EmptyString => (EmptyString, None)
  | String c s =>
      if Ascii.eqb c "=" then (EmptyString, Some s)
      else let '(name, value) := cut_equals s in (String c name, value)
  end.

Definition starts_with (c : ascii) (s : string) : bool := match s with String d _ => Ascii.eqb c d | EmptyString => false end.

(** [name] is the argument without its two dashes and [next] is the argument
    that follows; the result tells whether that was consumed. *)
Definition parseLongArg (name : string) (next : option string) (fs : FlagSet) : usage_error + (FlagSet * bool) :=
  if String.eqb name EmptyString || starts_with "-" name || starts_with "=" name then inl (InvalidSyntax ("--" +:+ name))
  else
    let '(name, value) := cut_equals name in
    match Lookup name with
    | None => inl (NotExist name)
    | Some f =>
        match value, NoOptDefVal f, next with
        | Some value, _, _ | None, Some value, _ => consumed false (Set_flag f value fs)
        | None, None, Some value => consumed true (Set_flag f value fs)
        | None, None, None => inl (ValueRequired name)
        end
    end.

(** The value of a flag given by its letter, [rest] being the letters after it:
    the value, whether more letters follow, whether the next argument was
    consumed. *)
Definition short_value (f : Flag) (rest : string) (next : option string) : option (string * bool * bool) :=
  match rest with
  | String "=" (String _ _ as value) => Some (value, false, false)
  | _ =>
      match NoOptDefVal f with
      | Some value => Some (value, true, false)
      | None =>
          match rest, next with
          | String _ _, _ => Some (rest, false, false)
          | EmptyString, Some value => Some (value, false, true)
          | EmptyString, None => None
          end
      end
  end.

(** The letters after one dash: flags without a value, then perhaps one with a
    value.  What starts with "test." is skipped by pflag. *)
Fixpoint parseShortArg (shorthands : string) (next : option string) (fs : FlagSet) : usage_error + (FlagSet * bool) :=
  match shorthands with
  | EmptyString => inr (fs, false)
  | String c rest =>
      if HasPrefix shorthands "test." then inr (fs, false)
      else match ShorthandLookup c with
      | None => inl (NotExist (String c EmptyString))
      | Some f =>
          match short_value f rest next with
          | None => inl (ValueRequired (String c EmptyString))
          | Some (value, more, used) =>
              match Set_flag f value fs with
              | inl e => inl e
              | inr fs => if more then parseShortArg rest next fs else inr (fs, used)
              end
          end
      end
  end.

Definition add_args (more : list string) (fs : FlagSet) : FlagSet := {| actual := actual fs; args := args fs ++ more |}.

(** One argument, [next] being the one after it; [None] for the two dashes
    that terminate the flags. *)
Definition parseArg (s : string) (next : option string) (fs : FlagSet) : option (usage_error + (FlagSet * bool)) :=
  match s with
  | String "-" (String c t) =>
      if Ascii.eqb c "-" then if String.eqb t EmptyString then None else Some (parseLongArg t next fs)
      else Some (parseShortArg (String c t) next fs)
  | _ => Some (inr (add_args [s] fs, false))
  end.

Fixpoint parseArgs (arguments : list string) (fs : FlagSet) : usage_error + FlagSet :=
  match arguments with
  | [] => inr fs
  | s :: rest =>
      match parseArg s (head rest) fs with
      | None => inr (add_args rest fs)
      | Some (inl e) => inl e
      | Some (inr (fs, false)) => parseArgs rest fs
      | Some (inr (fs, true)) => match rest with _ :: rest => parseArgs rest fs | [] => inr fs end
      end
  end.
End flags.

(** ** Settings (viper) *)

Inductive setting : Type := SString (s : string) | SInt (z : Z) | SBool (b : bool) | SDuration (d : Z) | SFloat (f : float64).

(** The calls of SetDefault. *)
Definition defaults : list (string * setting) := [
  ("nats", SString DefaultURL);
  ("consumer", SString "qdb-connector");
  ("nats-creds-file", SString EmptyString);
  ("nats-ca-file", SString EmptyString);
  ("workers", SInt 4);
  ("batch-size", SInt 100);
  ("batch-timeout", SDuration Second);
  ("fetch-timeout", SDuration (5 * Second));
  ("max-retries", SInt 3);
  ("qdb-compression", SString "none");
  ("qdb-encryption", SString "none");
  ("qdb-push-mode", SString "async");
  ("qdb-deduplication-mode", SString "drop");
  ("circuit-breaker-failure-threshold", SInt 5);
  ("circuit-breaker-success-threshold", SInt 2);
  ("circuit-breaker-timeout", SDuration (30 * Second));
  ("circuit-breaker-shared", SBool true);
  ("circuit-breaker-jitter-max", SDuration (100 * Millisecond));
  ("circuit-breaker-half-open-base", SInt 1);
  ("circuit-breaker-half-open-max", SInt 32);
  ("health-stuck-threshold", SDuration (5 * Minute));
  ("http-addr", SString ":9100");
  ("stats-interval", SDuration Minute);
  ("metrics-lag-bucket-start", SDuration Millisecond);
  ("metrics-lag-bucket-factor", SFloat two);
  ("metrics-lag-bucket-count", SInt 20);
  ("metrics-write-bucket-start", SDuration Millisecond);
  ("metrics-write-bucket-factor", SFloat two);
  ("metrics-write-bucket-count", SInt 20);
  ("parser", SString "noop");
  ("parser-config", SString EmptyString);
  ("parse-error-action", SString "drop")].

Definition SetDefault (key : string) : option setting := snd <$> List.find (fun d => String.eqb d.1 key) defaults.

(** SetEnvPrefix and SetEnvKeyReplacer. *)
Definition env_key (key : string) : string :=
  map_string (fun c => if Ascii.eqb c "-" then "_"%char else c) (ToUpper ("QDB_NATS" +:+ "_" +:+ key)).

(** cast.ToInt and cast.ToBool of a text. *)
Definition ToInt (s : string) : Z := default 0 (from_num (ParseInt0 s)).
Definition ToBool (s : string) : bool := match ParseBool s with Ok b => b | _ => false end.

Definition views : Type := SinkOpts.OptionsProvider * SourceOpts.OptionsProvider.

(** How LoadConfig ends without an error: pflag ends the process itself on a
    usage error, and the help is printed by a function that exits with 0. *)
Inductive loaded : Type := Exited (code : Z) | HelpShown | Loaded (o : Options) (v : views).

(** The environment of the process and its file system. *)
Class Process : Type := {
  LookupEnv : string -> option string;
  Duration_String : Z -> string;
  Stat : string -> option bool;
  SplitHostPort : string -> bool
}.

Section load.
Context `{GoLib, Process}.

(** getEnv: an empty variable counts as unset. *)
Definition getEnv (key : string) : option string :=
  match LookupEnv key with Some (String _ _ as v) => Some v | _ => None end.

(** What find returns for a bound flag: the text of its value, converted back
    for an int or a bool. *)
Definition flag_setting (v : flag_value) : setting :=
  match v with
  | FString s => SString s
  | FInt z => SInt (ToInt (FormatInt z))
  | FUint z => SString (FormatInt z)
  | FBool b => SBool (ToBool (FormatBool b))
  | FDuration d => SString (Duration_String d)
  | FFloat f => SString (FormatFloat_g f)
  end.

(** find: a flag that was given, the environment, the default, the default of
    the flag. *)
Definition find_setting (fs : FlagSet) (key : string) : option setting :=
  match actual fs !! key with
  | Some v => Some (flag_setting v)
  | None =>
      match getEnv (env_key key) with
      | Some s => Some (SString s)
      | None =>
          match SetDefault key with
          | Some v => Some v
          | None => flag_setting ∘ DefValue <$> Lookup key
          end
      end
  end.

(** *** Decoding (mapstructure, weakly typed) *)

Definition or_zero (s : string) : string := if String.eqb s EmptyString then "0" else s.

Definition decodeString (v : setting) : option string :=
  match v with
  | SString s => Some s
  | SBool b => Some (if b then "1" else "0")
  | SInt z | SDuration z => Some (FormatInt z)
  | SFloat _ => None
  end.

Definition decodeInt (v : setting) : option Z :=
  match v with
  | SInt z | SDuration z => Some z
  | SBool b => Some (if b then 1 else 0)
  | SString s => from_num (ParseInt0 (or_zero s))
  | SFloat _ => None
  end.

Definition decodeUint (v : setting) : option Z :=
  match v with
  | SInt z | SDuration z => Some (wrapu64 z)
  | SBool b => Some (if b then 1 else 0)
  | SString s => from_num (ParseUint0 (or_zero s))
  | SFloat _ => None
  end.

Definition decodeBool (v : setting) : option bool :=
  match v with
  | SBool b => Some b
  | SInt z | SDuration z => Some (negb (z =? 0))
  | SString s => match ParseBool s with Ok b => Some b | _ => if String.eqb s EmptyString then Some false else None end
  | SFloat _ => None
  end.

Definition decodeFloat (v : setting) : option float64 :=
  match v with
  | SFloat f => Some f
  | SInt z | SDuration z => Some (f64_of_Z z)
  | SBool b => Some (f64_of_Z (if b then 1 else 0))
  | SString s => match ParseFloat (or_zero s) with Ok f => Some f | _ => None end
  end.

(** StringToTimeDurationHookFunc comes first. *)
Definition decodeDuration (v : setting) : option Z :=
  match v with SString s => ParseDuration s | v => decodeInt v end.

(** A field keeps its zero value when its key has no setting. *)
Definition field {A} (decode : setting -> option A) (zero : A) (v : option setting) : option A :=
  match v with Some v => decode v | None => Some zero end.

(** Unmarshal into Options; all the errors are joined, [None] is any of them. *)
Definition Unmarshal (get : string -> option setting) : option Options :=
  let str key := field decodeString EmptyString (get key) in
  let int key := field decodeInt 0 (get key) in
  let uint key := field decodeUint 0 (get key) in
  let dur key := field decodeDuration 0 (get key) in
  let flt key := field decodeFloat (f64_of_Z 0) (get key) in
  pid ← str "pid"; nats ← str "nats"; stream ← str "stream"; consumer ← str "consumer"; creds ← str "nats-creds-file";
  ca ← str "nats-ca-file"; size ← int "batch-size"; wait ← dur "batch-timeout"; total ← dur "fetch-timeout"; workers ← int "workers";
  qdb ← str "qdb"; key ← str "qdb-pubkey-file"; sec ← str "qdb-user-sec-file"; comp ← str "qdb-compression";
  enc ← str "qdb-encryption"; push ← str "qdb-push-mode"; dedup ← str "qdb-deduplication-mode";
  par ← uint "qdb-client-max-parallelism"; inbuf ← uint "qdb-client-inbuf-size"; retries ← int "max-retries";
  failures ← int "circuit-breaker-failure-threshold"; successes ← int "circuit-breaker-success-threshold";
  timeout ← dur "circuit-breaker-timeout"; shared ← field decodeBool false (get "circuit-breaker-shared");
  jitter ← dur "circuit-breaker-jitter-max"; base ← int "circuit-breaker-half-open-base"; max ← int "circuit-breaker-half-open-max";
  stuck ← dur "health-stuck-threshold"; addr ← str "http-addr"; stats ← dur "stats-interval";
  lag0 ← dur "metrics-lag-bucket-start"; lagf ← flt "metrics-lag-bucket-factor"; lagn ← int "metrics-lag-bucket-count";
  write0 ← dur "metrics-write-bucket-start"; writef ← flt "metrics-write-bucket-factor"; writen ← int "metrics-write-bucket-count";
  parser ← str "parser"; config ← str "parser-config"; action ← str "parse-error-action";
  Some {| PidFile := pid; NatsEndpoint := nats; NatsStreamName := stream; NatsConsumerName := consumer; NatsCredsFile := creds;
          NatsCAFile := ca; NatsBatchSize := size; NatsBatchTimeout := wait; NatsFetchTimeout := total; Workers := workers;
          QdbClusterUri := qdb; QdbClusterPublicKeyFile := key; QdbUserSecurityFile := sec; QdbCompression := comp;
          QdbEncryption := enc; QdbPushMode := push; QdbDeduplicationMode := dedup; QdbClientMaxParallelism := par;
          QdbClientMaxInBufSize := inbuf; MaxRetries := retries; CircuitBreakerFailureThreshold := failures;
          CircuitBreakerSuccessThreshold := successes; CircuitBreakerTimeout := timeout; CircuitBreakerShared := shared;
          CircuitBreakerJitterMax := jitter; CircuitBreakerHalfOpenBase := base; CircuitBreakerHalfOpenMax := max;
          HealthStuckThreshold := stuck; HTTPAddr := addr; StatsInterval := stats; MetricsLagBucketStart := lag0;
          MetricsLagBucketFactor := lagf; MetricsLagBucketCount := lagn; MetricsWriteBucketStart := write0;
          MetricsWriteBucketFactor := writef; MetricsWriteBucketCount := writen; ParserType := parser; ParserConfig := config;
          ParseErrorAction := action |}.

(** ** LoadConfig *)

Definition BindPFlag (name fmt : string) : result unit :=
  match Lookup name with
  | Some _ => Ok tt
  | None => Err (Wrapf fmt [] (Errorf "flag for %q is nil" [AS name]))
  end.

Definition showHelp (fs : FlagSet) : bool := match actual fs !! "help" with Some (FBool b) => b | _ => false end.

Context (zero_comp : Compression) (zero_dedup : WriterDeduplicationMode).

Definition LoadConfig (arguments : list string) : result loaded :=
  match parseArgs arguments NewFlagSet with
  | inl _ => Ok (Exited 2)
  | inr fs =>
      if showHelp fs then Ok HelpShown
      else
        _ ← BindPFlag "parser" "error binding parser flag: %w";
        _ ← BindPFlag "parser-config" "error binding parser-config flag: %w";
        _ ← BindPFlag "parse-error-action" "error binding parse-error-action flag: %w";
        opts ← of_option (Unmarshal (find_setting fs)) (Wrapf "error unmarshaling config: %w" [] (LibError "mapstructure"));
        v ← parseAndSetFields zero_comp zero_dedup opts;
        match validateOptions Stat SplitHostPort opts with
        | Some err => Err err
        | None => Ok (Loaded opts v)
        end
  end.

(** LoadConfig ends the process only on a usage error. *)
Lemma LoadConfig_exited arguments code :
  LoadConfig arguments = Ok (Exited code) -> code = 2 /\ exists e, parseArgs arguments NewFlagSet = inl e.
Proof.
  unfold LoadConfig. destruct (parseArgs arguments NewFlagSet) as [e|fs]; [intros [= <-]; by split; [|exists e]|].
  destruct (showHelp fs); [done|]. intros E. do 5 apply res_bind_ok in E as (? & _ & E).
  destruct (validateOptions _ _ _); [done|]. done.
Qed.
End load.
