(* ===== verification/FlagLaws.v ===== *)
(** * FlagLaws: what LoadConfig computes

    The chosen value of every flag - the one given, else the environment, else
    the default - reaches its field of the options; arguments parse back from
    every form in which a flag can be written; the environment and the command
    line are interchangeable; and the smallest command line is a valid one. *)
From S2P Require Import Prelude GoInt GoStr GoParse GoFloat GoTime Values Convert SinkOptions Breaker Options Flags.
From Stdlib Require Import Ascii.

(** What the theorems rely on of the text of durations and floats: what
    String and FormatFloat print reads back as the same value, and a duration
    is an int64. *)
Class TextLaws `{GoLib, Process} : Prop := {
  ParseDuration_String d : in_int64 d -> ParseDuration (Duration_String d) = Some d;
  ParseDuration_range s d : ParseDuration s = Some d -> in_int64 d;
  ParseFloat_Format s f : ParseFloat s = Ok f -> ParseFloat (FormatFloat_g f) = Ok f;
  FormatFloat_nonempty f : FormatFloat_g f <> EmptyString
}.

(** The fields of the options, as values of their flags. *)
Definition option_fields (o : Options) : list (string * flag_value) := [
  ("pid", FString (PidFile o)); ("nats", FString (NatsEndpoint o)); ("stream", FString (NatsStreamName o));
  ("consumer", FString (NatsConsumerName o)); ("nats-creds-file", FString (NatsCredsFile o)); ("nats-ca-file", FString (NatsCAFile o));
  ("batch-size", FInt (NatsBatchSize o)); ("batch-timeout", FDuration (NatsBatchTimeout o));
  ("fetch-timeout", FDuration (NatsFetchTimeout o)); ("workers", FInt (Workers o)); ("qdb", FString (QdbClusterUri o));
  ("qdb-pubkey-file", FString (QdbClusterPublicKeyFile o)); ("qdb-user-sec-file", FString (QdbUserSecurityFile o));
  ("qdb-compression", FString (QdbCompression o)); ("qdb-encryption", FString (QdbEncryption o));
  ("qdb-push-mode", FString (QdbPushMode o)); ("qdb-deduplication-mode", FString (QdbDeduplicationMode o));
  ("qdb-client-max-parallelism", FUint (QdbClientMaxParallelism o)); ("qdb-client-inbuf-size", FUint (QdbClientMaxInBufSize o));
  ("max-retries", FInt (MaxRetries o)); ("circuit-breaker-failure-threshold", FInt (CircuitBreakerFailureThreshold o));
  ("circuit-breaker-success-threshold", FInt (CircuitBreakerSuccessThreshold o));
  ("circuit-breaker-timeout", FDuration (CircuitBreakerTimeout o)); ("circuit-breaker-shared", FBool (CircuitBreakerShared o));
  ("circuit-breaker-jitter-max", FDuration (CircuitBreakerJitterMax o)); ("circuit-breaker-half-open-base", FInt (CircuitBreakerHalfOpenBase o));
  ("circuit-breaker-half-open-max", FInt (CircuitBreakerHalfOpenMax o)); ("health-stuck-threshold", FDuration (HealthStuckThreshold o));
  ("http-addr", FString (HTTPAddr o)); ("stats-interval", FDuration (StatsInterval o));
  ("metrics-lag-bucket-start", FDuration (MetricsLagBucketStart o)); ("metrics-lag-bucket-factor", FFloat (MetricsLagBucketFactor o));
  ("metrics-lag-bucket-count", FInt (MetricsLagBucketCount o)); ("metrics-write-bucket-start", FDuration (MetricsWriteBucketStart o));
  ("metrics-write-bucket-factor", FFloat (MetricsWriteBucketFactor o)); ("metrics-write-bucket-count", FInt (MetricsWriteBucketCount o));
  ("parser", FString (ParserType o)); ("parser-config", FString (ParserConfig o)); ("parse-error-action", FString (ParseErrorAction o))].

Definition field_of (o : Options) (key : string) : option flag_value := snd <$> List.find (fun d => String.eqb d.1 key) (option_fields o).

(** The default a user sees: that of SetDefault, else that of the flag. *)
Definition default_value (f : Flag) : flag_value :=
  match SetDefault (Name f) with
  | Some (SString s) => FString s
  | Some (SInt z) => FInt z
  | Some (SBool b) => FBool b
  | Some (SDuration d) => FDuration d
  | Some (SFloat x) => FFloat x
  | None => DefValue f
  end.

Section laws.
Context `{GoLib, Process} `{!TextLaws}.

(** The value a flag should have: the one given, else the one in the
    environment, else the default. *)
Definition chosen (fs : FlagSet) (f : Flag) : option flag_value :=
  match actual fs !! Name f with
  | Some v => Some v
  | None => match getEnv (env_key (Name f)) with Some s => Value_Set (DefValue f) s | None => Some (default_value f) end
  end.

(** Every value given was read from a text, for its own flag. *)
Definition flags_ok (fs : FlagSet) : Prop :=
  forall name v, actual fs !! name = Some v -> exists f s, Lookup name = Some f /\ Value_Set (DefValue f) s = Some v.

Definition decode_as (k : flag_value) (v : setting) : option flag_value :=
  match k with
  | FString _ => FString <$> decodeString v
  | FInt _ => FInt <$> decodeInt v
  | FUint _ => FUint <$> decodeUint v
  | FBool _ => FBool <$> decodeBool v
  | FDuration _ => FDuration <$> decodeDuration v
  | FFloat _ => FFloat <$> decodeFloat v
  end.

Lemma from_num_ok r z : from_num r = Some z <-> r = Ok z.
Proof. destruct r; cbn; naive_solver. Qed.

Lemma ParseInt0_range s z : ParseInt0 s = Ok z -> in_int64 z.
Proof.
  unfold ParseInt0. destruct (ParseUint0 _) as [n| |] eqn:U; [|done..]. pose proof (ParseUint0_range _ _ U) as [U0 _].
  destruct (match s with EmptyString => _ | _ => _ end); cbn; case_match; try done; intros [= <-]; bools; unfold_range; lia.
Qed.

(** A value given on the command line is decoded back to itself. *)
Lemma decode_given k s v : Value_Set k s = Some v -> decode_as k (flag_setting v) = Some v.
Proof.
  destruct k; cbn; intros E.
  - by injection E as <-.
  - apply fmap_Some in E as (n & E & ->). apply from_num_ok in E. cbn. unfold ToInt. rewrite ParseInt0_FormatInt by by eapply ParseInt0_range. done.
  - apply fmap_Some in E as (n & E & ->). apply from_num_ok in E. cbn. destruct (ParseUint0_range _ _ E).
    assert (or_zero (FormatInt n) = FormatInt n) as ->.
    { unfold or_zero. destruct (String.eqb_spec (FormatInt n) EmptyString) as [X|]; [|done].
      pose proof (ParseUint0_FormatInt n ltac:(lia)) as P. by rewrite X in P. }
    by rewrite ParseUint0_FormatInt by lia.
  - destruct (ParseBool s) as [b'| |]; [|done..]. injection E as <-. by destruct b'.
  - apply fmap_Some in E as (n & E & ->). cbn. rewrite ParseDuration_String by by eapply ParseDuration_range. done.
  - destruct (ParseFloat s) as [x| |] eqn:P; [|done..]. injection E as <-. cbn.
    assert (or_zero (FormatFloat_g x) = FormatFloat_g x) as ->; [|by erewrite ParseFloat_Format].
    unfold or_zero. destruct (String.eqb_spec (FormatFloat_g x) EmptyString) as [X|]; [|done]. by apply FormatFloat_nonempty in X.
Qed.

(** So is a text of the environment, which is not empty. *)
Lemma decode_env k s : s <> EmptyString -> decode_as k (SString s) = Value_Set k s.
Proof.
  intros N. apply String.eqb_neq in N. destruct k; cbn; unfold or_zero; rewrite ?N; try done.
  - by destruct (ParseBool s).
  - by destruct (ParseFloat s).
Qed.

Lemma decode_defaults :
  Forall (fun f => exists v, match SetDefault (Name f) with Some v => Some v | None => flag_setting ∘ DefValue <$> Lookup (Name f) end = Some v /\
    decode_as (DefValue f) v = Some (default_value f)) flag_table.
Proof. repeat (constructor; [eexists; split; reflexivity|]). constructor. Qed.

Lemma Lookup_table : Forall (fun f => Lookup (Name f) = Some f) flag_table.
Proof. repeat (constructor; [reflexivity|]). constructor. Qed.

(** The plumbing of viper and mapstructure computes the chosen value. *)
Lemma decode_setting fs f :
  flags_ok fs -> f ∈ flag_table -> exists v, find_setting fs (Name f) = Some v /\ decode_as (DefValue f) v = chosen fs f.
Proof.
  intros F T. unfold find_setting, chosen. destruct (actual fs !! Name f) as [v|] eqn:A.
  { destruct (F _ _ A) as (g & s & L & V). eexists. split; [done|].
    pose proof (proj1 (Forall_forall _ _) Lookup_table f T) as L'. cbv beta in L'. rewrite L in L'. injection L' as ->. by eapply decode_given. }
  unfold getEnv. destruct (LookupEnv (env_key (Name f))) as [[|c s]|].
  2: { eexists. split; [done|]. by rewrite decode_env. }
  all: by apply (proj1 (Forall_forall _ _) decode_defaults f T).
Qed.

Lemma Forall_flags (P : Flag -> Prop) : (forall f, f ∈ flag_table -> P f) -> Forall P flag_table.
Proof. apply Forall_forall. Qed.

(** A decoded field holds what was chosen for its flag. *)
Lemma field_chosen {A} (decode : setting -> option A) (zero : A) (inj : A -> flag_value) fs f :
  flags_ok fs -> f ∈ flag_table -> (forall v, decode_as (DefValue f) v = inj <$> decode v) ->
  inj <$> field decode zero (find_setting fs (Name f)) = chosen fs f.
Proof. intros F T K. destruct (decode_setting fs f F T) as (v & -> & <-). cbn. by rewrite K. Qed.

(** *** The options *)

(** The field of a flag, decoded by its kind. *)
Definition decode_field (get : string -> option setting) (f : Flag) : option flag_value :=
  match DefValue f with
  | FString _ => FString <$> field decodeString EmptyString (get (Name f))
  | FInt _ => FInt <$> field decodeInt 0 (get (Name f))
  | FUint _ => FUint <$> field decodeUint 0 (get (Name f))
  | FBool _ => FBool <$> field decodeBool false (get (Name f))
  | FDuration _ => FDuration <$> field decodeDuration 0 (get (Name f))
  | FFloat _ => FFloat <$> field decodeFloat (f64_of_Z 0) (get (Name f))
  end.

Ltac decode_failed E :=
  repeat first [apply Exists_cons_hd; split; [discriminate|cbn -[field f64_of_Z]; rewrite E; reflexivity]|apply Exists_cons_tl].

Ltac decode_next get :=
  match goal with
  | |- context [@mbind option _ _ _ _ (field ?d ?z (get ?k))] =>
      let E := fresh "E" in destruct (field d z (get k)) eqn:E; cbn [mbind option_bind]; [|decode_failed E]
  end.

(** Unmarshal fills every field with its decoded setting, or fails because one
    of them does not decode. *)
Lemma Unmarshal_spec get :
  match Unmarshal get with
  | Some o => Forall (fun f => Name f = "help" \/ decode_field get f = field_of o (Name f)) flag_table
  | None => Exists (fun f => Name f <> "help" /\ decode_field get f = None) flag_table
  end.
Proof.
  unfold Unmarshal. cbv zeta beta. repeat decode_next get.
  repeat (constructor; [first [left; reflexivity|right; cbn -[field f64_of_Z];
    match goal with E : ?x = Some _ |- context [?x] => rewrite E; reflexivity end]|]).
  constructor.
Qed.

Lemma decode_chosen fs f : flags_ok fs -> f ∈ flag_table -> decode_field (find_setting fs) f = chosen fs f.
Proof.
  intros F T. unfold decode_field. destruct (DefValue f) eqn:K; apply field_chosen; try done; intros v; by rewrite K.
Qed.

(** *** Parsing *)

Lemma Set_flag_ok f s fs fs' : Lookup (Name f) = Some f -> flags_ok fs -> Set_flag f s fs = inr fs' -> flags_ok fs'.
Proof.
  intros L F. unfold Set_flag. destruct (Value_Set (DefValue f) s) as [v|] eqn:V; [|done]. intros [= <-] name w. cbn.
  intros [[<- <-]|[_ A]]%lookup_insert_Some; [by exists f, s|by apply F].
Qed.

Lemma find_table (p : Flag -> bool) f : List.find p flag_table = Some f -> f ∈ flag_table /\ Lookup (Name f) = Some f.
Proof.
  intros [T _]%List.find_some. apply list_elem_of_In in T. split; [done|]. by apply (proj1 (Forall_forall _ _) Lookup_table).
Qed.

Lemma consumed_inr b r q : consumed b r = inr q -> r = inr q.1 /\ q.2 = b.
Proof. destruct r; [done|]. by intros [= <-]. Qed.

Lemma parseLongArg_ok name next fs q : flags_ok fs -> parseLongArg name next fs = inr q -> flags_ok q.1.
Proof.
  intros F. unfold parseLongArg. case_match; [done|]. destruct (cut_equals name) as [n value].
  destruct (Lookup n) as [f|] eqn:L; [|done]. apply find_table in L as [_ L].
  repeat case_match; try done; intros [E _]%consumed_inr; by eapply Set_flag_ok.
Qed.

Lemma parseShortArg_ok sh next fs q : flags_ok fs -> parseShortArg sh next fs = inr q -> flags_ok q.1.
Proof.
  revert fs. induction sh as [|c rest IH]; intros fs F; cbn [parseShortArg]; [by intros [= <-]|]. case_match; [by intros [= <-]|].
  destruct (ShorthandLookup c) as [f|] eqn:L; [|done]. apply find_table in L as [_ L].
  destruct (short_value f rest next) as [[[value []] used]|]; [..|done]; destruct (Set_flag f value fs) as [e|fs0] eqn:E; try done.
  - apply IH. by eapply Set_flag_ok.
  - intros [= <-]. by eapply Set_flag_ok.
Qed.

Lemma parseArg_ok s next fs q : flags_ok fs -> parseArg s next fs = Some (inr q) -> flags_ok q.1.
Proof.
  intros F. unfold parseArg. repeat case_match; try done; intros E; apply (inj Some) in E.
  all: first [exact (parseLongArg_ok _ _ _ _ F E)|exact (parseShortArg_ok _ _ _ _ F E)|apply (inj inr) in E; subst q; exact F].
Qed.

(** Induction on the arguments, which are taken one or two at a time. *)
Lemma args_ind (P : list string -> Prop) :
  P [] -> (forall s, P [s]) -> (forall s r rest, P rest -> P (r :: rest) -> P (s :: r :: rest)) -> forall l, P l.
Proof.
  intros P0 P1 P2. assert (forall l, P l /\ forall s, P (s :: l)) as Q; [|intros l; apply Q].
  induction l as [|r rest [IH1 IH2]]; [by split|]. split; [apply IH2|]. intros s. by apply P2.
Qed.

(** What the parser does after one argument. *)
Definition parse_rest (rest : list string) (q : FlagSet * bool) : usage_error + FlagSet :=
  match q with
  | (fs, false) => parseArgs rest fs
  | (fs, true) => match rest with _ :: rest => parseArgs rest fs | [] => inr fs end
  end.

Lemma parseArgs_cons s rest fs :
  parseArgs (s :: rest) fs =
  match parseArg s (head rest) fs with
  | None => inr (add_args rest fs)
  | Some (inl e) => inl e
  | Some (inr q) => parse_rest rest q
  end.
Proof. cbn [parseArgs]. by destruct (parseArg s (head rest) fs) as [[|[? []]]|]. Qed.

Lemma parseArgs_ok arguments fs fs' : flags_ok fs -> parseArgs arguments fs = inr fs' -> flags_ok fs'.
Proof.
  revert fs. induction arguments as [|s|s r rest IH1 IH2] using args_ind; intros fs F; [by intros [= <-]|..];
    rewrite parseArgs_cons; destruct (parseArg _ _ fs) as [[e|[fs0 []]]|] eqn:E; try done; cbn [parse_rest];
    try (pose proof (parseArg_ok _ _ _ _ F E) as F0; cbn [fst] in F0); try (by intros [= <-]); eauto.
Qed.

Lemma field_of_known o f : f ∈ flag_table -> Name f <> "help" -> is_Some (field_of o (Name f)).
Proof.
  assert (Forall (fun f => Name f <> "help" -> is_Some (field_of o (Name f))) flag_table) as A; [|rewrite Forall_forall in A; apply A].
  constructor; [done|]. repeat (constructor; [by eexists|]). constructor.
Qed.

Lemma new_flags_ok : flags_ok NewFlagSet.
Proof. intros name v E. cbn in E. by rewrite lookup_empty in E. Qed.

Context (zero_comp : Compression) (zero_dedup : WriterDeduplicationMode).

(** What follows the decoding. *)
Definition checked (o : Options) : result loaded :=
  v ← parseAndSetFields zero_comp zero_dedup o;
  match validateOptions Stat SplitHostPort o with Some err => Err err | None => Ok (Loaded o v) end.

(** C30. LoadConfig on any argument list.  A usage error ends the process with 2 and
    the help flag shows the help; otherwise every field of the options holds
    the value chosen for its flag - given, else in the environment variable
    [env_key] of the flag's name, else the default of the code - and the
    options are parsed and validated; or the text of such a variable is not a
    value of its flag, and loading fails.  That is the precedence the README
    states; the variables, the worker default and the error-ttl flag it lists
    are not the code's ([readme_configuration_differs]). *)
Theorem configuration_exact arguments :
  match parseArgs arguments NewFlagSet with
  | inl _ => LoadConfig zero_comp zero_dedup arguments = Ok (Exited 2)
  | inr fs =>
      if showHelp fs then LoadConfig zero_comp zero_dedup arguments = Ok HelpShown
      else
        (exists o, LoadConfig zero_comp zero_dedup arguments = checked o /\
           forall f, f ∈ flag_table -> Name f <> "help" -> is_Some (chosen fs f) /\ field_of o (Name f) = chosen fs f) \/
        (exists f s e, LoadConfig zero_comp zero_dedup arguments = Err e /\ f ∈ flag_table /\ Name f <> "help" /\
           actual fs !! Name f = None /\ getEnv (env_key (Name f)) = Some s /\ Value_Set (DefValue f) s = None)
  end.
Proof.
  unfold LoadConfig. destruct (parseArgs arguments NewFlagSet) as [e|fs] eqn:P; [done|].
  pose proof (parseArgs_ok _ _ _ new_flags_ok P) as F. destruct (showHelp fs); [done|].
  pose proof (Unmarshal_spec (find_setting fs)) as U. destruct (Unmarshal (find_setting fs)) as [o|].
  - left. exists o. split; [done|]. intros f T N. rewrite Forall_forall in U. destruct (U f T) as [|E]; [done|].
    rewrite decode_chosen in E by done. rewrite E. split; [|done]. by apply field_of_known.
  - right. apply Exists_exists in U as (f & T & N & E). rewrite decode_chosen in E by done. unfold chosen in E.
    destruct (actual fs !! Name f) eqn:A; [done|]. destruct (getEnv (env_key (Name f))) as [s|] eqn:G; [|done].
    exists f, s. eexists. by split_and!.
Qed.

(** Where the README and the code differ: no flag reads one of the three
    variables it exports (the code reads QDB_NATS_NATS, QDB_NATS_STREAM and
    QDB_NATS_QDB), the default of workers is 4 and not 1, and --error-ttl is a
    usage error. *)
Lemma readme_configuration_differs :
  Forall (fun f => env_key (Name f) ∉ ["QDB_NATS_NATS_ENDPOINT"; "QDB_NATS_NATS_STREAM"; "QDB_NATS_QDB_CLUSTER_URI"]) flag_table /\
  env_key <$> ["nats"; "stream"; "qdb"] = ["QDB_NATS_NATS"; "QDB_NATS_STREAM"; "QDB_NATS_QDB"] /\
  DefValue <$> Flags.Lookup "workers" = Some (FInt 4) /\
  LoadConfig zero_comp zero_dedup ["--error-ttl"; "1h"] = Ok (Exited 2).
Proof. split_and!; [apply (bool_decide_unpack _); by vm_compute|by vm_compute..]. Qed.
End laws.

(** ** Every form of an argument *)

Section forms.
Context `{GoLib}.

(** The ways to write a flag and its value. *)
Inductive form : Type := Equals | Separate | ShortEquals | ShortJoined | ShortSeparate.

(** [None] where a form cannot express the value: a bool flag takes no separate
    value, a flag may have no letter, and a joined value is not empty and does
    not start with an equals sign. *)
Definition render (f : Flag) (how : form) (value : string) : option (list string) :=
  match how, Shorthand f, NoOptDefVal f with
  | Equals, _, _ => Some ["--" +:+ Name f +:+ "=" +:+ value]
  | Separate, _, None => Some ["--" +:+ Name f; value]
  | ShortEquals, Some c, _ =>
      if String.eqb value EmptyString then None else Some [String "-" (String c (String "=" value))]
  | ShortJoined, Some c, None =>
      if String.eqb value EmptyString || starts_with "=" value then None else Some [String "-" (String c value)]
  | ShortSeparate, Some c, None => Some [String "-" (String c EmptyString); value]
  | _, _, _ => None
  end.

(** How the parser reads one rendered flag. *)
Definition reads (f : Flag) : Prop :=
  forall how value l, render f how value = Some l ->
    match l with
    | [s] => forall next fs, parseArg s next fs = Some (consumed false (Set_flag f value fs))
    | [s; v] => v = value /\ forall fs, parseArg s (Some v) fs = Some (consumed true (Set_flag f value fs))
    | _ => False
    end.

Ltac read_form :=
  let how := fresh in let value := fresh "value" in let E := fresh in
  intros how value ? E; destruct how; cbn in E; try discriminate E;
  try (destruct value as [|? value]; cbn in E; [discriminate E|]);
  try (match type of E with (if ?b then _ else _) = _ => destruct b eqn:? end; [discriminate E|]);
  injection E as <-; try reflexivity; try (split; reflexivity).

Lemma short_value_joined f s next :
  s <> EmptyString -> starts_with "=" s = false -> NoOptDefVal f = None -> short_value f s next = Some (s, false, false).
Proof.
  intros N E B. unfold short_value. rewrite B. destruct s as [|a s]; [done|]. by destruct a as [[] [] [] [] [] [] [] []].
Qed.

Lemma table_reads : Forall reads flag_table.
Proof.
  unfold flag_table. repeat (constructor; [read_form|]); [..|constructor].
  all: intros next fs; cbn -[short_value Set_flag]; by rewrite short_value_joined.
Qed.

(** An argument list, flag by flag. *)
Inductive item : Type := Given (f : Flag) (how : form) (value : string) | Plain (s : string).

Definition item_args (it : item) : list string :=
  match it with Given f how value => default [] (render f how value) | Plain s => [s] end.

Definition item_ok (it : item) : Prop :=
  match it with
  | Given f how value => f ∈ flag_table /\ is_Some (render f how value) /\ is_Some (Value_Set (DefValue f) value)
  | Plain s => starts_with "-" s = false \/ s = "-"
  end.

Definition apply_item (fs : FlagSet) (it : item) : FlagSet :=
  match it with
  | Given f _ value => {| actual := <[Name f := default (DefValue f) (Value_Set (DefValue f) value)]> (actual fs); args := args fs |}
  | Plain s => add_args [s] fs
  end.

Lemma parse_item it rest fs : item_ok it -> parseArgs (item_args it ++ rest) fs = parseArgs rest (apply_item fs it).
Proof.
  destruct it as [f how value|s].
  - intros (T & [l R] & [v V]). pose proof (proj1 (Forall_forall _ _) table_reads f T how value l R) as Rd.
    assert (Set_flag f value fs = inr (apply_item fs (Given f how value))) as E by (unfold Set_flag; cbn; by rewrite V).
    cbn [item_args]. rewrite R. destruct l as [|s [|v' [|]]]; try done.
    + change (default [] (Some [s]) ++ rest) with (s :: rest). by rewrite parseArgs_cons, Rd, E.
    + destruct Rd as [-> Rd]. change (default [] (Some [s; value]) ++ rest) with (s :: value :: rest). by rewrite parseArgs_cons, Rd, E.
  - intros P. cbn [item_args app]. rewrite parseArgs_cons.
    assert (parseArg s (head rest) fs = Some (inr (add_args [s] fs, false))) as ->; [|done].
    destruct P as [P| ->]; [|done]. destruct s as [|c s]; [done|]. by destruct c as [[] [] [] [] [] [] [] []].
Qed.

(** C32. Arguments read back: whatever forms the flags are written in, and wherever
    other arguments stand between them, the parser sets exactly the flags given,
    the last occurrence of each winning, and keeps the other arguments in order;
    after two dashes everything is another argument. *)
Theorem arguments_read_back items more :
  Forall item_ok items ->
  parseArgs (concat (item_args <$> items)) NewFlagSet = inr (foldl apply_item NewFlagSet items) /\
  parseArgs (concat (item_args <$> items) ++ "--" :: more) NewFlagSet = inr (add_args more (foldl apply_item NewFlagSet items)).
Proof.
  intros Oks. assert (forall rest fs, parseArgs (concat (item_args <$> items) ++ rest) fs = parseArgs rest (foldl apply_item fs items)) as A.
  { induction Oks as [|it items Ok Oks IH]; intros rest fs; [done|]. cbn. by rewrite <- app_assoc, parse_item, IH. }
  split; [|by rewrite A]. by rewrite <- (app_nil_r (concat _)), A.
Qed.
End forms.

(** ** The environment and the command line *)

(** The process with one more environment variable. *)
Definition with_env (P : Process) (name value : string) : Process := {|
  LookupEnv n := if String.eqb n name then Some value else LookupEnv n;
  Duration_String := Duration_String; Stat := Stat; SplitHostPort := SplitHostPort
|}.

Section interchange.
Context `{GoLib}.

(** What was given earlier, below what is given later. *)
Definition over (before fs : FlagSet) : FlagSet := {| actual := actual fs ∪ actual before; args := args before ++ args fs |}.

Definition over_result (before : FlagSet) {A} (r : usage_error + (FlagSet * A)) : usage_error + (FlagSet * A) :=
  match r with inl e => inl e | inr (fs, a) => inr (over before fs, a) end.

Lemma Set_flag_over before f s fs :
  Set_flag f s (over before fs) = match Set_flag f s fs with inl e => inl e | inr fs => inr (over before fs) end.
Proof. unfold Set_flag. destruct (Value_Set _ _); [|done]. unfold over. cbn. by rewrite insert_union_l. Qed.

Lemma consumed_over before b r :
  consumed b (match r with inl e => inl e | inr fs => inr (over before fs) end) = over_result before (consumed b r).
Proof. by destruct r. Qed.

Lemma parseLongArg_over before name next fs : parseLongArg name next (over before fs) = over_result before (parseLongArg name next fs).
Proof.
  unfold parseLongArg. case_match; [done|]. destruct (cut_equals name) as [n v]. destruct (Lookup n) as [f|]; [|done].
  destruct v as [v|]; [by rewrite Set_flag_over, consumed_over|]. destruct (NoOptDefVal f); [by rewrite Set_flag_over, consumed_over|].
  destruct next; [by rewrite Set_flag_over, consumed_over|done].
Qed.

Lemma parseShortArg_over before sh next fs : parseShortArg sh next (over before fs) = over_result before (parseShortArg sh next fs).
Proof.
  revert fs. induction sh as [|c rest IH]; intros fs; cbn [parseShortArg]; [done|]. case_match; [done|].
  destruct (ShorthandLookup c) as [f|]; [|done]. destruct (short_value f rest next) as [[[v more] used]|]; [|done].
  rewrite Set_flag_over. destruct (Set_flag f v fs) as [e|fs0]; [done|]. destruct more; [apply IH|done].
Qed.

Lemma parseArg_over before s next fs : parseArg s next (over before fs) = over_result before <$> parseArg s next fs.
Proof.
  assert (Some (inr (add_args [s] (over before fs), false)) = over_result before <$> Some (inr (A:=usage_error) (add_args [s] fs, false))) as P.
  { unfold add_args. cbn. unfold over. cbn. by rewrite app_assoc. }
  unfold parseArg. repeat case_match; try done; cbn [fmap option_fmap option_map]; f_equal; [apply parseLongArg_over|apply parseShortArg_over].
Qed.

(** Parsing depends on what was given before only by adding to it. *)
Lemma parseArgs_over before arguments fs :
  parseArgs arguments (over before fs) = match parseArgs arguments fs with inl e => inl e | inr fs => inr (over before fs) end.
Proof.
  revert fs. induction arguments as [|s|s r rest IH1 IH2] using args_ind; intros fs; [done|..];
    rewrite !parseArgs_cons, parseArg_over; destruct (parseArg _ _ fs) as [[e|[fs0 []]]|]; cbn -[parseArgs add_args];
    try done; try apply IH1; try apply IH2.
  all: unfold add_args, over; cbn; by rewrite app_assoc.
Qed.

Ltac same_field A :=
  match type of A with
  | Forall _ (_ :: _) => let E := fresh in apply Forall_cons in A as [[E|E] A]; [discriminate E|cbn in E; injection E as E]
  end.

(** The fields determine the options. *)
Lemma field_of_inj o o' :
  Forall (fun f => Name f = "help" \/ field_of o (Name f) = field_of o' (Name f)) flag_table -> o = o'.
Proof.
  intros A. destruct o, o'. unfold flag_table in A. apply Forall_cons in A as [_ A]. repeat same_field A. by subst.
Qed.

Lemma Unmarshal_ext get get' :
  (forall f, f ∈ flag_table -> Name f <> "help" -> decode_field get f = decode_field get' f) -> Unmarshal get = Unmarshal get'.
Proof.
  intros E. pose proof (Unmarshal_spec get) as U. pose proof (Unmarshal_spec get') as U'.
  destruct (Unmarshal get) as [o|], (Unmarshal get') as [o'|]; [| | |reflexivity].
  - f_equal. apply field_of_inj. rewrite Forall_forall in U, U' |- *. intros f T.
    specialize (U f T). specialize (U' f T). specialize (E f T).
    destruct (decide (Name f = "help")) as [|N]; [left; assumption|right]. specialize (E N).
    destruct U as [X|X]; [contradiction|]. destruct U' as [X'|X']; [contradiction|]. congruence.
  - exfalso. apply Exists_exists in U' as (f & T & N & D). rewrite Forall_forall in U. specialize (U f T). specialize (E f T N).
    destruct U as [X|X]; [contradiction|]. destruct (field_of_known o f T N) as [w W]. congruence.
  - exfalso. apply Exists_exists in U as (f & T & N & D). rewrite Forall_forall in U'. specialize (U' f T). specialize (E f T N).
    destruct U' as [X|X]; [contradiction|]. destruct (field_of_known o' f T N) as [w W]. congruence.
Qed.

Lemma env_keys_distinct f g : f ∈ flag_table -> g ∈ flag_table -> env_key (Name f) = env_key (Name g) -> f = g.
Proof.
  assert (NoDup ((env_key ∘ Name) <$> flag_table)) as ND by (apply (bool_decide_unpack _); by vm_compute).
  intros [i Li]%list_elem_of_lookup [j Lj]%list_elem_of_lookup E.
  assert (i = j) as ->; [|by rewrite Li in Lj; injection Lj].
  eapply (NoDup_lookup _ _ _ (env_key (Name f)) ND); rewrite list_lookup_fmap; [by rewrite Li|by rewrite Lj, E].
Qed.

Context {P : Process} {Laws : TextLaws} (zero_comp : Compression) (zero_dedup : WriterDeduplicationMode).

#[local] Instance with_env_laws name value : @TextLaws _ (with_env P name value).
Proof. by destruct Laws. Qed.

Lemma chosen_interchange f s v d g :
  f ∈ flag_table -> g ∈ flag_table -> s <> EmptyString -> Value_Set (DefValue f) s = Some v -> actual d !! Name f = None ->
  @chosen _ (with_env P (env_key (Name f)) s) d g = chosen (over {| actual := {[Name f := v]}; args := [] |} d) g.
Proof.
  intros Tf Tg N V A. unfold chosen, over. cbn [actual]. destruct (decide (Name g = Name f)) as [E|Ne].
  - pose proof (proj1 (Forall_forall _ _) Lookup_table) as L. pose proof (L g Tg) as Lg. pose proof (L f Tf) as Lf. cbv beta in Lg, Lf.
    rewrite E, Lf in Lg. injection Lg as <-. clear E.
    rewrite lookup_union_r, lookup_singleton_eq, A by done. unfold getEnv. cbn. rewrite String.eqb_refl. by destruct s.
  - assert (env_key (Name g) <> env_key (Name f)) as Ek by (intros E; apply Ne; by rewrite (env_keys_distinct g f)).
    assert ((actual d ∪ {[Name f := v]}) !! Name g = actual d !! Name g) as ->.
    { destruct (actual d !! Name g) eqn:L; [by erewrite lookup_union_Some_l|]. by rewrite lookup_union_r, lookup_singleton_ne. }
    destruct (actual d !! Name g); [done|]. unfold getEnv. cbn. by rewrite (proj2 (String.eqb_neq _ _) Ek).
Qed.

(** C31. A variable of the environment and an argument of the command line are
    interchangeable: for a flag the arguments do not give, setting its variable,
    [env_key] of the name of the flag, to a text is the same as giving the text
    as the value of the flag. *)
Theorem environment_equals_command_line f s v arguments :
  f ∈ flag_table -> Name f <> "help" -> s <> EmptyString -> Value_Set (DefValue f) s = Some v ->
  (forall fs, parseArgs arguments NewFlagSet = inr fs -> actual fs !! Name f = None) ->
  @LoadConfig _ (with_env P (env_key (Name f)) s) zero_comp zero_dedup arguments =
  LoadConfig zero_comp zero_dedup (("--" +:+ Name f +:+ "=" +:+ s) :: arguments).
Proof.
  intros T N Ns V Free. set (before := {| actual := {[Name f := v]}; args := [] |}).
  assert (parseArgs (("--" +:+ Name f +:+ "=" +:+ s) :: arguments) NewFlagSet =
    match parseArgs arguments NewFlagSet with inl e => inl e | inr fs => inr (over before fs) end) as Pa.
  { rewrite <- parseArgs_over. pose proof (parse_item (Given f Equals s) arguments NewFlagSet) as I. cbn [item_args render default app] in I.
    etrans; [apply I; split_and!; [done|by eexists|by eexists]|]. f_equal. unfold over, before, apply_item. cbn. rewrite V.
    by rewrite (left_id_L ∅ (∪)), insert_empty. }
  unfold LoadConfig. rewrite Pa. destruct (parseArgs arguments NewFlagSet) as [e|d] eqn:Pd; [done|]. specialize (Free d eq_refl).
  pose proof (parseArgs_ok _ _ _ new_flags_ok Pd) as F.
  assert (flags_ok (over before d)) as Fo.
  { intros name w. unfold over. cbn. intros [L|[_ L]]%lookup_union_Some_raw; [by apply F|].
    apply lookup_singleton_Some in L as [<- <-]. exists f, s. split; [|done]. by apply (proj1 (Forall_forall _ _) Lookup_table). }
  assert (showHelp (over before d) = showHelp d) as ->.
  { unfold showHelp, over. cbn [actual]. destruct (actual d !! "help") eqn:L; [by erewrite lookup_union_Some_l|].
    rewrite lookup_union_r by exact L. unfold before. cbn [actual]. by rewrite lookup_singleton_ne. }
  destruct (showHelp d); [done|].
  erewrite (Unmarshal_ext (@find_setting _ (with_env P (env_key (Name f)) s) d) (find_setting (over before d))); [done|].
  intros g Tg Ng. rewrite (decode_chosen (over before d) g Fo Tg).
  rewrite (@decode_chosen _ (with_env P (env_key (Name f)) s) (with_env_laws _ _) d g F Tg). by apply chosen_interchange.
Qed.
End interchange.

(** ** The smallest command line *)

(** The documented defaults. *)
Definition default_options (stream : string) : Options := {|
  PidFile := EmptyString; NatsEndpoint := "nats://127.0.0.1:4222"; NatsStreamName := stream; NatsConsumerName := "qdb-connector";
  NatsCredsFile := EmptyString; NatsCAFile := EmptyString; NatsBatchSize := 100; NatsBatchTimeout := Second;
  NatsFetchTimeout := 5 * Second; Workers := 4; QdbClusterUri := EmptyString; QdbClusterPublicKeyFile := EmptyString;
  QdbUserSecurityFile := EmptyString; QdbCompression := "none"; QdbEncryption := "none"; QdbPushMode := "async";
  QdbDeduplicationMode := "drop"; QdbClientMaxParallelism := 0; QdbClientMaxInBufSize := 0; MaxRetries := 3;
  CircuitBreakerFailureThreshold := 5; CircuitBreakerSuccessThreshold := 2; CircuitBreakerTimeout := 30 * Second;
  CircuitBreakerShared := true; CircuitBreakerJitterMax := 100 * Millisecond; CircuitBreakerHalfOpenBase := 1;
  CircuitBreakerHalfOpenMax := 32; HealthStuckThreshold := 5 * Minute; HTTPAddr := ":9100"; StatsInterval := Minute;
  MetricsLagBucketStart := Millisecond; MetricsLagBucketFactor := two; MetricsLagBucketCount := 20;
  MetricsWriteBucketStart := Millisecond; MetricsWriteBucketFactor := two; MetricsWriteBucketCount := 20;
  ParserType := "noop"; ParserConfig := EmptyString; Options.ParseErrorAction := "drop" |}.

Section minimal.
Context `{GoLib, Process} (zero_comp : Compression) (zero_dedup : WriterDeduplicationMode).

Lemma Unmarshal_minimal stream :
  (forall name, LookupEnv name = None) ->
  Unmarshal (find_setting {| actual := {["stream" := FString stream]}; args := [] |}) = Some (default_options stream).
Proof.
  intros NoEnv.
  rewrite (Unmarshal_ext _ (fun key => if String.eqb key "stream" then Some (SString stream)
    else match SetDefault key with Some v => Some v | None =>
      match Lookup key with Some f => Some (match DefValue f with FUint z => SString (FormatInt z) | _ => SString EmptyString end) | None => None end end)).
  { reflexivity. }
  assert (forall name, getEnv name = None) as G by (intros name; unfold getEnv; by rewrite NoEnv).
  assert (Forall (fun f => Name f <> "help" ->
    find_setting {| actual := {["stream" := FString stream]}; args := [] |} (Name f) =
    (if String.eqb (Name f) "stream" then Some (SString stream)
    else match SetDefault (Name f) with Some v => Some v | None =>
      match Lookup (Name f) with Some f => Some (match DefValue f with FUint z => SString (FormatInt z) | _ => SString EmptyString end) | None => None end end)) flag_table) as A.
  { constructor; [done|]. repeat (constructor; [intros _; unfold find_setting; rewrite G; reflexivity|]). constructor. }
  rewrite Forall_forall in A. intros f T N. unfold decode_field. by rewrite (A f T N).
Qed.

(** With nothing but the name of the stream on the command line, and no
    variable in the environment, the options are the documented defaults, they
    are valid, and they are parsed as documented: no encryption, no
    compression, the async push mode and the drop deduplication mode. *)
Theorem minimal_configuration stream :
  (forall name, LookupEnv name = None) -> stream <> EmptyString -> SplitHostPort ":9100" = true ->
  exists sink src, LoadConfig zero_comp zero_dedup ["--stream"; stream] = Ok (Loaded (default_options stream) (sink, src)) /\
    SinkOpts.p_Compression sink = CompNone /\ SinkOpts.p_Encryption sink = Some EncryptNone /\
    SinkOpts.p_PushMode sink = WriterPushModeAsync /\ SinkOpts.p_DeduplicationMode sink = WriterDeduplicationModeDrop /\
    SinkOpts.p_ClientMaxParallelism sink = None /\ SourceOpts.p_StreamName src = stream /\ SourceOpts.p_BatchSize src = 100.
Proof.
  intros NoEnv Ns Split. do 2 eexists. split.
  - unfold LoadConfig.
    assert (parseArgs ["--stream"; stream] NewFlagSet = inr {| actual := {["stream" := FString stream]}; args := [] |}) as -> by reflexivity.
    change (showHelp _) with false. cbn iota. rewrite Unmarshal_minimal by done. cbn [of_option mbind res_bind].
    assert (validateOptions Stat SplitHostPort (default_options stream) = None) as V.
    { unfold validateOptions. cbn [default_options NatsStreamName HTTPAddr]. rewrite Split, (proj2 (String.eqb_neq _ _) Ns). reflexivity. }
    rewrite V. reflexivity.
  - by split_and!.
Qed.
End minimal.
