(* ===== verification/Factory.v ===== *)
(** * Parser factory and configuration loading (factory.go, yaml.go)

    The operating system enters through [ReadFile], the YAML library through
    [yaml_Unmarshal].  Paths are those of a Unix filepath package. *)
From S2P Require Import Prelude GoInt GoStr GoFloat GoTime Values Qdb FieldPath Convert Steps Compute Subject.
From S2P Require Import MapEntry Unpack Proto Schema Explode Filter Parser Yaml.
From Stdlib Require Import Ascii.

(** ** filepath *)

Definition slash : string := "/".
Definition IsAbs (path : string) : bool := HasPrefix path slash.

Fixpoint join_with (sep : string) (l : list string) : string :=
  match l with [] => EmptyString | [s] => s | s :: l => s +:+ sep +:+ join_with sep l end.

(** One component of Clean onto the reversed output. *)
Definition clean_step (rooted : bool) (out : list string) (c : string) : list string :=
  if String.eqb c EmptyString || String.eqb c "." then out
  else if String.eqb c ".." then
    match out with
    | [] => if rooted then [] else [".."]
    | top :: rest => if String.eqb top ".." then ".." :: out else rest
    end
  else c :: out.

Definition Clean (path : string) : string :=
  if String.eqb path EmptyString then "."
  else
    let rooted := IsAbs path in
    let out := reverse (foldl (clean_step rooted) [] (Split path slash)) in
    match out with
    | [] => if rooted then slash else "."
    | _ => (if rooted then slash else EmptyString) +:+ join_with slash out
    end.

(** Join of two elements: empty ones are ignored. *)
Definition path_Join (a b : string) : string :=
  match filter (fun s => s <> EmptyString) [a; b] with
  | [] => EmptyString
  | l => Clean (join_with slash l)
  end.

(** Dir: all but the last element. *)
Definition Dir (path : string) : string :=
  match reverse (Split path slash) with
  | [] => "."
  | _ :: rest =>
      let prefix := join_with slash (reverse rest) in
      Clean (match rest with [] => EmptyString | _ => prefix +:+ slash end)
  end.

Section factory.
Context `{GoLib, MapIter, ProtoLib}.
Context (ReadFile : string -> error + list Byte.byte) (yaml_Unmarshal : list Byte.byte -> error + YAMLConfig).

(** The inner loop body of resolveDescriptorPaths. *)
Definition resolve_key (baseDir : string) (config : fields) (key : string) : fields :=
  match as_string (config !! key) with
  | Some path =>
      if String.eqb path EmptyString || IsAbs path then config
      else <[key := VString (path_Join baseDir path)]> config
  | None => config
  end.

Definition resolve_spec (baseDir : string) (spec : TransformSpec) : TransformSpec :=
  if String.eqb (GetStepName spec) "parse_protobuf" then
    match Config spec with
    | None => spec
    | Some config =>
        {| Step := Step spec; Block := Block spec;
           Config := Some (foldl (resolve_key baseDir) config ["descriptor_file"; "proto_file"]) |}
    end
  else spec.

Definition resolveDescriptorPaths (config : YAMLConfig) (baseDir : string) : YAMLConfig :=
  {| Compression := Compression config; Columns := Columns config;
     Transformations := resolve_spec baseDir <$> Transformations config; Filters := Filters config |}.

Definition loadYAMLConfig (configPath : string) : result YAMLConfig :=
  match ReadFile configPath with
  | inl err => Err (NewInvalidConfigError "yaml_parser" "failed to read config file: %v" [AE err])
  | inr data =>
      match yaml_Unmarshal data with
      | inl err => Err (NewInvalidConfigError "yaml_parser" "failed to parse YAML config: %v" [AE err])
      | inr config => Ok (resolveDescriptorPaths config (Dir configPath))
      end
  end.

Definition NewParser (parserType ConfigPath : string) : result (Parser * option RowFilter) :=
  if String.eqb parserType "yaml" then
    guard_err (String.eqb ConfigPath EmptyString)
      (NewInvalidConfigError "parser" "yaml parser requires --parser-config flag pointing to a YAML configuration file" []);;
    config ← loadYAMLConfig ConfigPath;
    p ← NewYAMLParserFromConfig config;
    Ok (Parse p, rowFilter p)
  else if String.eqb parserType "noop" then Ok (NoopParse, None)
  else Err (NewInvalidConfigError "parser" "unknown parser: %s (valid options: yaml, noop)" [AS parserType]).

Definition NewParserWithOptions (parserType ConfigPath : string) : result (Parser * option RowFilter) :=
  NewParser parserType ConfigPath.

(** Whatever the configuration file holds, a parser the factory returns is
    lawful, in a deployment without a google.protobuf.Timestamp of its own: the
    interface the worker relies on. *)
Lemma NewParser_lawful `{!GoLibLaws} `{!ProtoLibLaws} `{!StandardTimestamps} t path p f :
  NewParser t path = Ok (p, f) -> exists cols, LawfulParser p cols.
Proof.
  unfold NewParser. destruct (String.eqb t "yaml").
  - intros E. apply res_bind_ok in E as (_ & _ & E). apply res_bind_ok in E as (c & _ & E).
    apply res_bind_ok in E as (yp & Y & E). injection E as <- <-. exists (columns yp).
    eapply Parse_lawful; [|exact Y]. apply Forall_true. intros spec _. apply StandardTimestamps_schema.
  - destruct (String.eqb t "noop"); [|done]. intros [= <- <-]. exists []. apply _.
Qed.
End factory.

(** Clean and Join on the cases resolveDescriptorPaths meets. *)
Example join_sibling : path_Join (Dir "/etc/conn/parser.yaml") "x.desc" = "/etc/conn/x.desc".
Proof. reflexivity. Qed.
Example join_parent : path_Join (Dir "conf/parser.yaml") "../schemas//x.proto" = "schemas/x.proto".
Proof. reflexivity. Qed.
Example join_cwd : path_Join (Dir "parser.yaml") "x.desc" = "x.desc".
Proof. reflexivity. Qed.

(** A configured path after resolution. *)
Definition resolved (dir : string) (v : option value) : option value :=
  match v with
  | Some (VString path) =>
      if String.eqb path EmptyString || IsAbs path then Some (VString path)
      else Some (VString (path_Join dir path))
  | v => v
  end.

Lemma resolve_key_lookup dir c key k :
  resolve_key dir c key !! k = if decide (k = key) then resolved dir (c !! k) else c !! k.
Proof.
  unfold resolve_key, resolved. destruct (c !! key) as [v|] eqn:E; cbn.
  - destruct v; cbn; try (case_decide; subst; by rewrite ?E).
    destruct (String.eqb s EmptyString || IsAbs s) eqn:B; case_decide; subst;
      rewrite ?E, ?B, ?lookup_insert_eq, ?lookup_insert_ne; done.
  - case_decide; subst; by rewrite ?E.
Qed.

(** Relative descriptor paths are resolved against the directory of the
    configuration file, and nothing else of the configuration changes: every
    step keeps its name, every step but parse_protobuf its configuration, and
    in a parse_protobuf step only the two schema paths change, when they are
    non-empty relative strings. *)
Theorem resolve_paths_exact config dir i spec :
  Transformations config !! i = Some spec ->
  exists spec', Transformations (resolveDescriptorPaths config dir) !! i = Some spec' /\
    GetStepName spec' = GetStepName spec /\ Columns (resolveDescriptorPaths config dir) = Columns config /\
    (GetStepName spec <> "parse_protobuf" -> spec' = spec) /\
    (Config spec = None -> Config spec' = None) /\
    forall c, GetStepName spec = "parse_protobuf" -> Config spec = Some c ->
      exists c', Config spec' = Some c' /\ forall k,
        c' !! k = (if bool_decide (k ∈ ["descriptor_file"; "proto_file"]) then resolved dir (c !! k) else c !! k).
Proof.
  intros I. cbn. rewrite list_lookup_fmap, I. cbn. eexists. split; [done|].
  unfold resolve_spec. destruct (String.eqb_spec (GetStepName spec) "parse_protobuf") as [E|E].
  2: { by split_and!. }
  destruct (Config spec) as [c0|] eqn:C; [|by split_and!].
  split_and!; try done. intros c _ [= <-]. eexists. split; [done|]. intros k.
  cbn [foldl]. rewrite !resolve_key_lookup. case_bool_decide as D.
  - rewrite !elem_of_cons in D. destruct D as [->|[->|D]]; [done|done|by apply elem_of_nil in D].
  - rewrite !elem_of_cons in D. rewrite !decide_False by (intros ->; apply D; auto). done.
Qed.
