(* ===== verification/System.v ===== *)
(** * Putting the worker together (connector/worker.go, connector/connector.go)

    NewWorker builds a worker from validated flags, and Run drives it; the
    theorems discharge the assumptions of the worker's properties from the
    constructors of its parts. *)
From S2P Require Import Prelude GoInt GoStr GoFloat GoTime Values Qdb FieldPath Convert Steps Compute Subject.
From S2P Require Import MapEntry Unpack Proto Schema Explode Filter Parser Yaml Backoff Breaker SinkOptions.
From S2P Require Import Sink Hooks Manager Source Stats Liveness Worker Options Factory.

(** ** Batch after batch *)

(** What a batch leaves alone: everything but the counters and the state of the
    breaker. *)
Definition same_setup (a b : Worker) : Prop :=
  parser b = parser a /\ rowFilter b = rowFilter a /\ sink b = sink a /\ closing b = closing a /\
  Worker.parseErrorAction b = Worker.parseErrorAction a /\ same_cfg (circuitBreaker a) (circuitBreaker b).

Lemma same_setup_counters w c : same_setup w (with_counters w c).
Proof. by split_and!. Qed.

Lemma same_setup_trans a b c : same_setup a b -> same_setup b c -> same_setup a c.
Proof.
  intros (A1 & A2 & A3 & A4 & A5 & A6) (B1 & B2 & B3 & B4 & B5 & B6).
  split_and!; try congruence. by etrans.
Qed.

Lemma write_tables_setup `{MapIter} env w tables tw w' ev err :
  breaker_total (circuitBreaker w) -> write_tables env w tables tw = Ok (w', ev, err) -> same_setup w w'.
Proof.
  intros B E. unfold write_tables in E. destruct (Write _ _ _) as [e tr].
  destruct (Execute_total (be_rnd env) (circuitBreaker w) (be_start env) (be_end env) (e, tr) B)
    as (cb & r & X & G & _).
  rewrite X in E. cbn [mbind res_bind] in E. destruct r as [[e'|] ev'];
    cbn [fst snd] in E; injection E as <- <- <-; by split_and!.
Qed.

Lemma process_setup `{MapIter} env w batch w' tr err :
  breaker_total (circuitBreaker w) -> processBatchFromChannel env w batch = Ok (w', tr, err) -> same_setup w w'.
Proof.
  intros B E. unfold processBatchFromChannel in E. destruct (closing w) eqn:C; [by injection E as <- <- <-|].
  destruct batch as [batch|]; [|done].
  destruct (length (Messages batch) =? 0)%nat; [by injection E as <- <- <-|].
  apply res_bind_ok in E as ([[vt f] c] & _ & E).
  destruct (if (0 <? _)%nat then _ else _) as [tables|e|]; [|by injection E as <- <- <-|done].
  destruct (nack_failed_eq env (with_counters w c) (Messages batch) f) as (c1 & N & _). rewrite N in E.
  set (w2 := count _ _ _) in E. assert (S2 : same_setup w w2) by by split_and!. clearbody w2.
  apply res_bind_ok in E as ([[w3 wev] werr] & W & E).
  assert (S3 : same_setup w w3).
  { destruct (0 <? length tables)%nat; [|by injection W as <- <- <-].
    eapply same_setup_trans; [exact S2|]. eapply write_tables_setup; [|exact W].
    destruct S2 as (_ & _ & _ & _ & _ & S2). by eapply same_cfg_total. }
  destruct (settle_eq env w3 (Messages batch) (valid_sequences (Messages batch) f) werr) as (c4 & X & _).
  rewrite X in E. injection E as <- <- <-. eapply same_setup_trans; [exact S3|]. by split_and!.
Qed.

Section system.
Context `{GoLib, MapIter, ProtoLib}.
Context (ReadFile : string -> error + list Byte.byte) (yaml_Unmarshal : list Byte.byte -> error + YAMLConfig)
  (connect : HandleOptions -> option error).

(** NewWorker.  [provider] is what the sink getters of the options return,
    [tableWrites] whether a per-table callback is set; a shared breaker is
    read from the manager's heap. *)
Definition NewWorker (now id : Z) (o : Options.Options) (provider : SinkOpts.OptionsProvider) (tableWrites : bool)
    (manager : option Manager) : result (option Manager * Worker) :=
  '(messageParser, filter) ← NewParserWithOptions ReadFile yaml_Unmarshal (ParserType o) (ParserConfig o);
  let '(manager, breaker) :=
    match manager with
    | Some m => let '(m, p) := ForResource now m "qdb-cluster" in (Some m, heap m !! p)
    | None => (None, Some (worker_breaker o now))
    end in
  let sinkOpts := SinkOpts.WithOnRetryProgress true (SinkOpts.FromOptionsProvider provider) in
  qdbSink ← NewSink connect sinkOpts;
  match breaker with
  | Some breaker =>
      Ok (manager,
          {| id := id; workerID := "worker-" +:+ FormatInt id; parser := messageParser; rowFilter := filter;
             sink := qdbSink; circuitBreaker := breaker; onTableWrites := tableWrites;
             Worker.parseErrorAction := ParseErrorAction o; closing := false; counters := zero_counters |})
  | None => Panic   (* a dangling address *)
  end.

(** What the worker's properties assume of it. *)
Definition worker_ready (cols : list WriterColumn) (w : Worker) : Prop :=
  LawfulParser (parser w) cols /\ closing w = false /\ breaker_total (circuitBreaker w) /\
  0 < SinkOpts.RetryAttempts (Sink.Options_ (sink w)).

(** The manager NewConnector builds from the flags. *)
Definition connector_manager (o : Options.Options) : Manager :=
  NewManager [Manager.WithDefaults (CircuitBreakerFailureThreshold o) (CircuitBreakerSuccessThreshold o)
                (CircuitBreakerTimeout o);
              WithDefaultJitter (CircuitBreakerJitterMax o);
              WithDefaultHalfOpen (CircuitBreakerHalfOpenBase o) (CircuitBreakerHalfOpenMax o);
              WithHookRegistry true].

(** A worker built by NewWorker is ready, whatever its configuration file
    holds, with its own breaker or with the shared one the manager creates:
    for a timeout of at least 10 ns or no jitter, everything its properties
    assume holds, and it applies the action on parse errors of the flags. *)
Theorem new_worker_ready `{!GoLibLaws} `{!ProtoLibLaws} `{!StandardTimestamps} now i o provider tw shared m w :
  NewWorker now i o provider tw (if (shared : bool) then Some (connector_manager o) else None) = Ok (m, w) ->
  CircuitBreakerJitterMax o <= 0 \/ 10 <= CircuitBreakerTimeout o ->
  (exists cols, worker_ready cols w) /\ Worker.parseErrorAction w = ParseErrorAction o /\
  GetStats w = snapshot zero_counters.
Proof.
  intros E J. unfold NewWorker in E. apply res_bind_ok in E as ([mp f] & P & E).
  apply (NewParser_lawful _ _) in P as [cols L].
  assert (B : exists m' cb, match (if shared then Some (connector_manager o) else None) with
    | Some m => let '(m, p) := ForResource now m "qdb-cluster" in (Some m, heap m !! p)
    | None => (None, Some (worker_breaker o now)) end = (m', Some cb) /\ breaker_total cb).
  { destruct shared; [|do 2 eexists; split; [done|exact J]]. do 2 eexists. split; [cbn; done|exact J]. }
  destruct B as (m' & cb & Eb & B). rewrite Eb in E. apply res_bind_ok in E as (s & S & E).
  injection E as <- <-. split; [|split; [done|done]]. exists cols. split; [exact L|]. split; [done|]. split; [exact B|]. cbn.
  unfold NewSink in S. apply res_bind_ok in S as (_ & _ & S). apply res_bind_ok in S as (h & _ & S).
  destruct (connect h); [done|]. injection S as <-. cbn. rewrite SinkOpts.FromOptionsProvider_fields. done.
Qed.

(** *** Run *)

Lemma worker_ready_setup cols w w' : worker_ready cols w -> same_setup w w' -> worker_ready cols w'.
Proof.
  intros (L & C & B & R) (S1 & S2 & S3 & S4 & S5 & S6). split; [by rewrite S1|]. split; [congruence|].
  split; [by eapply same_cfg_total|by rewrite S3].
Qed.

(** A well-formed reception: a non-empty batch of distinct sequences. *)
Definition good_batch (r : received) : Prop :=
  match r with
  | RecvBatch _ (Some b) => Messages b <> [] /\ NoDup (Source.Sequence <$> Messages b)
  | _ => False
  end.

Definition sequences_of (r : received) : list Z :=
  match r with RecvBatch _ (Some b) => Source.Sequence <$> Messages b | _ => [] end.

(** One batch, as the streams below use it. *)
Lemma batch_settled cols env w b :
  worker_ready cols w -> Messages b <> [] ->
  exists w' tr err, processBatchFromChannel env w (Some b) = Ok (w', tr, err) /\
    worker_ready cols w' /\ same_setup w w' /\
    (NoDup (Source.Sequence <$> Messages b) -> concat (calls tr).*2 ≡ₚ Source.Sequence <$> Messages b).
Proof.
  intros R Ne. destruct R as (L & C & B & A).
  destruct (process_outcome cols env w b C Ne B)
    as (rs & tables & w1 & tr & err & P & _ & _ & _ & _ & E & (wev & T & D) & _).
  assert (S : same_setup w w1) by (by eapply process_setup).
  exists w1, tr, err. split_and!; [done|eapply worker_ready_setup; [by split|done]|done|]. intros Nd.
  rewrite T, !calls_app, calls_nack, calls_settle.
  assert (calls wev = []) as -> by (destruct D as [(_ & -> & _)|(_ & r & cb & _ & _ & _ & ->)]; [done|apply calls_write]).
  rewrite <- (failed_valid_perm w (Messages b) rs Nd).
  set (f := failed_of w (Messages b) rs). set (v := valid_sequences (Messages b) f).
  cbn [calls omap list_omap app]. rewrite fmap_app, concat_app. apply Permutation_app.
  - destruct f; cbn; by rewrite ?app_nil_r.
  - destruct err; [cbn; by rewrite app_nil_r|]. destruct v; cbn; by rewrite ?app_nil_r.
Qed.

(** C4. Settlement of every message of every batch.  A ready worker runs through
    any stream of batches without panicking or stopping, whatever the parser
    meets in the messages, the cluster returns and the breaker decides, and
    the sequences of its ACK and NACK calls are, batch after batch, exactly
    the sequences of the messages it received, each settled once. *)
Theorem run_settles_everything cols input w :
  worker_ready cols w -> Forall good_batch input ->
  exists w' tr, Run w input = Ok (w', tr, None) /\ worker_ready cols w' /\
    concat (calls tr).*2 ≡ₚ concat (sequences_of <$> input).
Proof.
  revert w. induction input as [|r input IH]; intros w R F; [by exists w, []|].
  apply Forall_cons in F as [F0 F]. destruct r as [| |env [b|]]; try done. destruct F0 as [Ne Nd].
  destruct (batch_settled cols env w b R Ne) as (w1 & tr & err & E & R1 & _ & S).
  destruct (IH w1 R1 F) as (w' & trs & E' & R' & S'). exists w', (tr ++ trs). cbn [Run].
  rewrite E. cbn [mbind res_bind]. rewrite E'. split; [done|]. split; [done|].
  rewrite calls_app, fmap_app, concat_app, S'. cbn [fmap list_fmap concat sequences_of]. by rewrite S.
Qed.
End system.
