(* ===== verification/Orchestrator.v ===== *)
(** * Orchestrator: the goroutines of RunWithContext (connector/connector.go)

    RunWithContext runs the fetch loop, one goroutine per worker and the
    health monitor around two channels: [workCh] (capacity: twice the number
    of workers) and [errCh] (capacity: one more than the workers).  The model
    is a step relation on the local states of the goroutines and the shared
    channels: one rule per blocking point, per look at the context and per
    return of an external call, so that every interleaving of the goroutines
    is a run.  What the code computes between two such points is the functions
    of the files Connector (fetch loop) and Worker (processing of a batch). *)
From stdpp Require Import relations.
From S2P Require Import Prelude GoInt GoStr GoFloat GoTime Values Qdb FieldPath Convert Steps Filter Parser.
From S2P Require Import Backoff Breaker SinkOptions Sink Source Stats Liveness Worker Health Connector System.

(** ** Shared state *)

Record channels : Type := {
  workCh : list MessageBatch;      (* buffered batches, oldest first *)
  workCh_closed : bool;
  errCh : list error
}.

Definition with_work (ch : channels) (q : list MessageBatch) : channels :=
  {| workCh := q; workCh_closed := workCh_closed ch; errCh := errCh ch |}.
Definition with_err (ch : channels) (q : list error) : channels :=
  {| workCh := workCh ch; workCh_closed := workCh_closed ch; errCh := q |}.
Definition close_work (ch : channels) : channels :=
  {| workCh := workCh ch; workCh_closed := true; errCh := errCh ch |}.

(** Capacities, from the number of workers. *)
Definition workCh_cap (n : nat) : nat := n * 2.
Definition errCh_cap (n : nat) : nat := n + 1.

(** ** The fetch goroutine *)

(** Where fetchLoop is, with its local variables. *)
Inductive fetcher : Type :=
  | FLoop (c : Connector) (backoff : Backoff)                       (* loop head *)
  | FFetch (c : Connector) (backoff : Backoff)                      (* in FetchBatch *)
  | FDispatch (c : Connector) (backoff : Backoff) (b : MessageBatch) (* the select of dispatch *)
  | FRecover (c : Connector) (backoff : Backoff) (err : error)      (* recoverFetch *)
  | FBackoff (c : Connector) (backoff : Backoff) (d : Z)            (* asleep for d *)
  | FRebind (c : Connector) (backoff rb : Backoff) (i : nat)        (* attempt i *)
  | FRebindFailed (c : Connector) (backoff rb : Backoff) (i : nat)
  | FRebindWait (c : Connector) (backoff rb : Backoff) (i : nat) (d : Z)
  | FFatal (c : Connector) (err : error)                            (* sending on errCh *)
  | FClosing (c : Connector)                                        (* the deferred close *)
  | FDone (c : Connector).

(** What one successful fetch does before dispatch's select. *)
Definition fetched (fi : fetch_input) (c : Connector) (b : MessageBatch) : Connector :=
  let c := with_health c (recordFetchSuccess (fi_now fi) (health c)) in
  let c := add_stats c (Z.of_nat (length (Messages b))) 0 0 0 in
  if (length (Messages b) =? 0)%nat then c else with_probe c (Begin (fi_now fi) "dispatch").

(** Leaving dispatch: its deferred End. *)
Definition dispatched (c : Connector) (b : MessageBatch) : Connector :=
  if (length (Messages b) =? 0)%nat then c else with_probe c End_.

Definition rebound (now : Z) (s : Source) (c : Connector) : Connector :=
  let c := with_source (add_stats c 0 0 0 1) s in
  with_health c (clear condRebinding (recordFetchSuccess now (health c))).

(** One step of the fetch goroutine among [n] workers under the context error
    [ctx]; the label is what it did to the outside. *)
Inductive fetch_step (n : nat) (ctx : option error) : channels -> fetcher -> list loop_event -> channels -> fetcher -> Prop :=
  | fs_check ch c bo : ctx = None -> fetch_step n ctx ch (FLoop c bo) [] ch (FFetch c bo)
  | fs_stop ch c bo : ctx <> None -> fetch_step n ctx ch (FLoop c bo) [] ch (FClosing c)
  | fs_fetched ch c bo fi c1 b :
      fetchOnce fi c = (c1, inl b) ->
      fetch_step n ctx ch (FFetch c bo) [] ch (FDispatch (fetched fi c1 b) (Reset bo) b)
  | fs_failed ch c bo fi c1 err :
      fetchOnce fi c = (c1, inr err) -> fetch_step n ctx ch (FFetch c bo) [] ch (FRecover c1 bo err)
  | fs_idle ch c bo b :
      Messages b = [] -> fetch_step n ctx ch (FDispatch c bo b) [Idle] ch (FLoop (dispatched c b) bo)
  | fs_send ch c bo b :
      Messages b <> [] -> (length (workCh ch) < workCh_cap n)%nat ->
      fetch_step n ctx ch (FDispatch c bo b) [Sent b] (with_work ch (workCh ch ++ [b])) (FLoop (dispatched c b) bo)
  | fs_dispatch_cancelled ch c bo b :
      ctx <> None -> fetch_step n ctx ch (FDispatch c bo b) [] ch (FClosing (dispatched c b))
  | fs_recover_cancelled ch c bo err :
      ctx <> None -> fetch_step n ctx ch (FRecover c bo err) [] ch (FClosing c)
  | fs_rebind_start ch c bo err now :
      ctx = None -> isSubscriptionFailed err = true ->
      fetch_step n ctx ch (FRecover c bo err) []
        ch (FRebind (with_health (add_stats c 0 0 1 0) (set_cond now condRebinding (health c))) bo
              (NewBackoff (rebindBase c) (rebindMax c)) 1)
  | fs_transient ch c bo err :
      ctx = None -> isSubscriptionFailed err = false ->
      fetch_step n ctx ch (FRecover c bo err) [] ch (FBackoff (add_stats c 0 1 0 0) (Next bo).2 (Next bo).1)
  | fs_backoff_over ch c bo d : fetch_step n ctx ch (FBackoff c bo d) [Waited d] ch (FLoop c bo)
  | fs_backoff_cancelled ch c bo d : ctx <> None -> fetch_step n ctx ch (FBackoff c bo d) [] ch (FClosing c)
  | fs_exhausted ch c bo rb i :
      rebindAttempts c < Z.of_nat i ->
      fetch_step n ctx ch (FRebind c bo rb i) [] ch (FFatal c (NewMaxRetriesExceededError "source" (rebindAttempts c)))
  | fs_rebound ch c bo rb i env cancelled s now :
      Z.of_nat i <= rebindAttempts c -> Rebind env cancelled (source c) = (s, None) ->
      fetch_step n ctx ch (FRebind c bo rb i) [Rebound] ch (FLoop (rebound now s c) bo)
  | fs_rebind_failed ch c bo rb i env cancelled s err :
      Z.of_nat i <= rebindAttempts c -> Rebind env cancelled (source c) = (s, Some err) ->
      fetch_step n ctx ch (FRebind c bo rb i) [] ch (FRebindFailed (with_source (add_stats c 0 0 0 1) s) bo rb i)
  | fs_rebind_cancelled ch c bo rb i :
      ctx <> None -> fetch_step n ctx ch (FRebindFailed c bo rb i) [] ch (FClosing c)
  | fs_rebind_sleep ch c bo rb i :
      ctx = None -> Z.of_nat i < rebindAttempts c ->
      fetch_step n ctx ch (FRebindFailed c bo rb i) [] ch (FRebindWait c bo (Next rb).2 i (Next rb).1)
  | fs_rebind_last ch c bo rb i :
      ctx = None -> rebindAttempts c <= Z.of_nat i ->
      fetch_step n ctx ch (FRebindFailed c bo rb i) [] ch (FRebind c bo rb (S i))
  | fs_rebind_wait_over ch c bo rb i d :
      fetch_step n ctx ch (FRebindWait c bo rb i d) [Waited d] ch (FRebind c bo rb (S i))
  | fs_rebind_wait_cancelled ch c bo rb i d :
      ctx <> None -> fetch_step n ctx ch (FRebindWait c bo rb i d) [] ch (FClosing c)
  | fs_fatal ch c err :
      (length (errCh ch) < errCh_cap n)%nat ->
      fetch_step n ctx ch (FFatal c err) [Fatal err] (with_err ch (errCh ch ++ [err])) (FClosing c)
  | fs_close ch c : fetch_step n ctx ch (FClosing c) [Closed_workCh] (close_work ch) (FDone c).

(** ** A worker goroutine *)

(** Where Worker.Run, and the function literal around it, is. *)
Inductive worker_pc : Type :=
  | WConnect (w : Worker)                              (* in sink.Connect *)
  | WSelect (w : Worker)                               (* the select of Run *)
  | WBusy (w : Worker) (env : BatchEnv) (b : MessageBatch)  (* in processBatchFromChannel *)
  | WReport (w : Worker) (err : error)                 (* sending on errCh *)
  | WExit (w : Worker)                                 (* wg.Done *)
  | WPanic (b : MessageBatch).                          (* the process has panicked *)

(** [errors.Is]-free comparison [err != context.Canceled] of an error of Run. *)
Definition is_canceled (err : error) : bool := match err with Canceled => true | _ => false end.

(** Run has returned [err]: what the literal does next. *)
Definition run_returned (w : Worker) (err : error) : worker_pc :=
  if is_canceled err then WExit w else WReport w err.

Section worker.
Context `{MapIter}.

(** One step of a worker goroutine; the label is the batch it finished, with
    the trace of its processing.  [ws_breaker]: another holder of a shared
    breaker moved it. *)
Inductive worker_step (n : nat) (ctx : option error)
    : channels -> worker_pc -> list (MessageBatch * list worker_event) -> channels -> worker_pc -> Prop :=
  | ws_connected ch w : Sink.Connect (sink w) = None -> worker_step n ctx ch (WConnect w) [] ch (WSelect w)
  | ws_connect_failed ch w err :
      Sink.Connect (sink w) = Some err -> worker_step n ctx ch (WConnect w) [] ch (run_returned w err)
  | ws_done ch w err :
      ctx = Some err -> worker_step n ctx ch (WSelect w) [] ch (run_returned (close_sink w) err)
  | ws_closed ch w :
      workCh ch = [] -> workCh_closed ch = true ->
      worker_step n ctx ch (WSelect w) [] ch (WExit (close_sink w))
  | ws_take ch w env b q :
      workCh ch = b :: q -> worker_step n ctx ch (WSelect w) [] (with_work ch q) (WBusy w env b)
  | ws_processed ch w env b w' tr err :
      processBatchFromChannel env w (Some b) = Ok (w', tr, err) ->
      worker_step n ctx ch (WBusy w env b) [(b, tr)] ch (WSelect w')
  | ws_panicked ch w env b :
      processBatchFromChannel env w (Some b) = Panic -> worker_step n ctx ch (WBusy w env b) [] ch (WPanic b)
  | ws_report ch w err :
      (length (errCh ch) < errCh_cap n)%nat ->
      worker_step n ctx ch (WReport w err) [] (with_err ch (errCh ch ++ [err])) (WExit w).
End worker.

(** ** RunWithContext and Close *)

(** The goroutine that called RunWithContext. *)
Inductive main_pc : Type :=
  | MSelect                              (* the final select *)
  | MWait (r : option error)             (* wg.Wait, then return r *)
  | MReturned (r : option error) (drained : bool).  (* the source's Close drained its connection *)

(** A goroutine calling Close. *)
Inductive closer_pc : Type :=
  | CIdle
  | CWait                                (* cancelled, in wg.Wait *)
  | CClosed.                             (* workers shut down *)

Record run_state : Type := {
  ctx : option error;                    (* ctx.Err() *)
  chans : channels;
  fetch : fetcher;
  pool : list worker_pc;
  monitor_done : bool;
  main : main_pc;
  closer : closer_pc;
  signalled : bool;                      (* a signal is buffered in sigCh *)
  events : list loop_event;              (* of the fetch goroutine *)
  processed : list (MessageBatch * list worker_event)
}.

Definition set_ctx (s : run_state) (e : option error) : run_state :=
  {| ctx := e; chans := chans s; fetch := fetch s; pool := pool s; monitor_done := monitor_done s;
     main := main s; closer := closer s; signalled := signalled s; events := events s; processed := processed s |}.
Definition set_main (s : run_state) (ch : channels) (m : main_pc) : run_state :=
  {| ctx := ctx s; chans := ch; fetch := fetch s; pool := pool s; monitor_done := monitor_done s;
     main := m; closer := closer s; signalled := signalled s; events := events s; processed := processed s |}.
Definition set_closer (s : run_state) (ws : list worker_pc) (k : closer_pc) : run_state :=
  {| ctx := ctx s; chans := chans s; fetch := fetch s; pool := ws; monitor_done := monitor_done s;
     main := main s; closer := k; signalled := signalled s; events := events s; processed := processed s |}.
Definition set_monitor (s : run_state) : run_state :=
  {| ctx := ctx s; chans := chans s; fetch := fetch s; pool := pool s; monitor_done := true;
     main := main s; closer := closer s; signalled := signalled s; events := events s; processed := processed s |}.
Definition set_fetch (s : run_state) (ch : channels) (f : fetcher) (l : list loop_event) : run_state :=
  {| ctx := ctx s; chans := ch; fetch := f; pool := pool s; monitor_done := monitor_done s;
     main := main s; closer := closer s; signalled := signalled s; events := events s ++ l; processed := processed s |}.
Definition set_worker (s : run_state) (ch : channels) (i : nat) (p : worker_pc)
    (l : list (MessageBatch * list worker_event)) : run_state :=
  {| ctx := ctx s; chans := ch; fetch := fetch s; pool := <[i := p]> (pool s); monitor_done := monitor_done s;
     main := main s; closer := closer s; signalled := signalled s; events := events s; processed := processed s ++ l |}.

(** SIGINT or SIGTERM arrives: sigCh holds one, further ones are dropped. *)
Definition set_signal (s : run_state) : run_state :=
  {| ctx := ctx s; chans := chans s; fetch := fetch s; pool := pool s; monitor_done := monitor_done s;
     main := main s; closer := closer s; signalled := true; events := events s; processed := processed s |}.

(** cancel(): the first error of a context stays. *)
Definition cancel (s : run_state) : run_state :=
  set_ctx s (match ctx s with None => Some Canceled | e => e end).

(** wg.Wait returns: every goroutine has called wg.Done. *)
Definition worker_exited (p : worker_pc) : bool := match p with WExit _ => true | _ => false end.
Definition wg_zero (s : run_state) : bool :=
  match fetch s with FDone _ => true | _ => false end && forallb worker_exited (pool s) && monitor_done s.

(** worker.shutdown() on a worker whose goroutine has ended. *)
Definition shutdown_pc (p : worker_pc) : worker_pc :=
  match p with WExit w => WExit (shutdown w) | p => p end.

Definition fetch_connector (f : fetcher) : Connector :=
  match f with
  | FLoop c _ | FFetch c _ | FDispatch c _ _ | FRecover c _ _ | FBackoff c _ _ | FRebind c _ _ _
  | FRebindFailed c _ _ _ | FRebindWait c _ _ _ _ | FFatal c _ | FClosing c | FDone c => c
  end.

Section run.
Context `{MapIter}.

(** A step of the connector's own goroutines. *)
Inductive own_step : run_state -> run_state -> Prop :=
  | os_fetch s l ch f :
      fetch_step (length (pool s)) (ctx s) (chans s) (fetch s) l ch f -> own_step s (set_fetch s ch f l)
  | os_worker s i p l ch p' :
      pool s !! i = Some p -> worker_step (length (pool s)) (ctx s) (chans s) p l ch p' ->
      own_step s (set_worker s ch i p' l)
  | os_monitor s : ctx s <> None -> monitor_done s = false -> own_step s (set_monitor s)
  | os_error s e q :
      main s = MSelect -> errCh (chans s) = e :: q ->
      own_step s (set_main (cancel s) (with_err (chans s) q) (MWait (Some e)))
  | os_signal s :
      main s = MSelect -> signalled s = true -> own_step s (set_main (cancel s) (chans s) (MWait None))
  | os_done s e :
      main s = MSelect -> ctx s = Some e -> own_step s (set_main s (chans s) (MWait (Some e)))
  | os_return s r :
      main s = MWait r -> wg_zero s = true ->
      own_step s (set_main (cancel s) (chans s) (MReturned r (Close (source (fetch_connector (fetch s))))))
  | os_closed s :
      closer s = CWait -> wg_zero s = true -> own_step s (set_closer s (shutdown_pc <$> pool s) CClosed).

(** What happens to it: its parent context ends (cancelled, or its deadline),
    a signal arrives, somebody calls Close, another holder of a
    shared breaker moves it. *)
Inductive outside_step : run_state -> run_state -> Prop :=
  | out_ctx s e : ctx s = None -> outside_step s (set_ctx s (Some e))
  | out_signal s : outside_step s (set_signal s)
  | out_close s : closer s = CIdle -> outside_step s (set_closer (cancel s) (pool s) CWait)
  | out_breaker s i w cb :
      pool s !! i = Some (WSelect w) -> same_cfg (circuitBreaker w) cb ->
      outside_step s (set_worker s (chans s) i (WSelect (with_breaker w cb)) []).

Definition run_step (s s' : run_state) : Prop := own_step s s' \/ outside_step s s'.

(** Fetch liveness is armed before the first fetch. *)
Definition armed (now : Z) (c : Connector) : Connector := with_health c (recordFetchSuccess now (health c)).

(** RunWithContext once the source is connected and the goroutines are
    launched; [c] is the connector, [ws] its workers. *)
Definition launch (now : Z) (c : Connector) (ws : list Worker) (ctx : option error) : run_state :=
  {| ctx := ctx; chans := {| workCh := []; workCh_closed := false; errCh := [] |};
     fetch := FLoop (armed now c) (NewBackoff fetchBackoffBase fetchBackoffMax);
     pool := WConnect <$> ws; monitor_done := false; main := MSelect; closer := CIdle; signalled := false;
     events := []; processed := [] |}.

(** RunWithContext from its call: the error of a failed Connect, or the
    running state. *)
Definition RunWithContext (env : NatsEnv) (now : Z) (c : Connector) (ws : list Worker) (ctx : option error)
    : run_state + error :=
  let '(src, err) := Connect env (source c) in
  match err with
  | Some err => inr err
  | None => inl (launch now (with_source c src) ws ctx)
  end.

Definition running (env : NatsEnv) (now : Z) (c : Connector) (ws : list Worker) (ctx : option error)
    (s : run_state) : Prop :=
  exists s0, RunWithContext env now c ws ctx = inl s0 /\ rtc run_step s0 s.
End run.
