(* ===== verification/FetchThread.v ===== *)
(** * FetchThread: the fetch goroutine refines fetchLoop

    In any interleaving, what the goroutine of Orchestrator.v has done is what
    fetchLoop of Connector.v computes on some sequence of inputs: the inputs
    are built along the run from what the source returned and from when the
    goroutine found its context cancelled.  The theorems of Connector.v so
    hold in every interleaving. *)
From S2P Require Import Prelude GoInt GoStr GoFloat GoTime Values Qdb FieldPath Convert Steps Filter Parser.
From S2P Require Import Backoff Breaker SinkOptions Sink Source Stats Liveness Worker Health Connector System Orchestrator.

(** ** Inputs fixed step by step *)

Definition with_dispatch (cancelled : bool) (fi : fetch_input) : fetch_input :=
  {| fi_cancelled := false; fi_start := fi_start fi; fi_now := fi_now fi; fi_fetched := fi_fetched fi;
     fi_valid := fi_valid fi; fi_recover_cancelled := fi_recover_cancelled fi;
     fi_wait_cancelled := fi_wait_cancelled fi; fi_rebind := fi_rebind fi;
     fi_dispatch_cancelled := cancelled; fi_error_text := fi_error_text fi |}.

Definition with_recovery (recover wait : bool) (ri : rebind_input) (fi : fetch_input) : fetch_input :=
  {| fi_cancelled := false; fi_start := fi_start fi; fi_now := fi_now fi; fi_fetched := fi_fetched fi;
     fi_valid := fi_valid fi; fi_recover_cancelled := recover; fi_wait_cancelled := wait; fi_rebind := ri;
     fi_dispatch_cancelled := fi_dispatch_cancelled fi; fi_error_text := fi_error_text fi |}.

(** [ri] with attempt [i] chosen. *)
Definition upd {A} (f : nat -> A) (i : nat) (a : A) : nat -> A := fun j => if (j =? i)%nat then a else f j.

Lemma upd_same {A} (f : nat -> A) i a : upd f i a i = a.
Proof. unfold upd. by rewrite Nat.eqb_refl. Qed.

Lemma upd_below {A} (f : nat -> A) i a j : (j < i)%nat -> upd f i a j = f j.
Proof. intros L. unfold upd. by rewrite (proj2 (Nat.eqb_neq j i)) by lia. Qed.

Definition choose_attempt (ri : rebind_input) (i : nat) (env : NatsEnv) (cx : option error) (now : Z)
    (failed_cancelled wait_cancelled : bool) : rebind_input :=
  {| rb_start := rb_start ri; rb_env := upd (rb_env ri) i env; rb_ctx := upd (rb_ctx ri) i cx;
     rb_cancelled := upd (rb_cancelled ri) i failed_cancelled;
     rb_wait_cancelled := upd (rb_wait_cancelled ri) i wait_cancelled; rb_now := upd (rb_now ri) i now |}.

(** Two re-bind inputs that agree on the attempts before [i]. *)
Definition agree (i : nat) (a b : rebind_input) : Prop :=
  rb_start b = rb_start a /\
  forall j, (j < i)%nat ->
    rb_env b j = rb_env a j /\ rb_ctx b j = rb_ctx a j /\ rb_cancelled b j = rb_cancelled a j /\
    rb_wait_cancelled b j = rb_wait_cancelled a j /\ rb_now b j = rb_now a j.

Lemma agree_refl i a : agree i a a.
Proof. by split. Qed.

Lemma agree_trans i a b c : agree i a b -> agree i b c -> agree i a c.
Proof.
  intros [S1 A1] [S2 A2]. split; [congruence|]. intros j J.
  destruct (A1 j J) as (?&?&?&?&?), (A2 j J) as (?&?&?&?&?). split_and!; congruence.
Qed.

Lemma agree_weaken i a b : agree (S i) a b -> agree i a b.
Proof. intros [S A]. split; [done|]. intros j J. apply A. lia. Qed.

Lemma agree_choose i a env cx now f w : agree i a (choose_attempt a i env cx now f w).
Proof. split; [done|]. intros j J. cbn. by rewrite !upd_below. Qed.

(** ** Rounds *)

Definition prepend (ev : list loop_event) (r : bool * Connector * list loop_event) : bool * Connector * list loop_event :=
  let '(stopped, c, evs) := r in (stopped, c, ev ++ evs).

Section refine.
Variables (c0 : Connector) (bo0 : Backoff).

(** Some inputs lead fetchLoop, not stopped, to [c] and [bo] with the events
    [evs]; it has returned. *)
Definition loops (evs : list loop_event) (c : Connector) (bo : Backoff) : Prop :=
  exists ins, forall rest, fetch_rounds (ins ++ rest) bo0 c0 = prepend evs (fetch_rounds rest bo c).
Definition stops (evs : list loop_event) (c : Connector) : Prop :=
  exists ins, fetch_rounds ins bo0 c0 = (true, c, evs).

Lemma loops_nil : loops [] c0 bo0.
Proof. exists []. intros rest. cbn. by destruct (fetch_rounds _ _ _) as [[? ?] ?]. Qed.

Lemma loops_round evs c bo fi c' bo' ev :
  loops evs c bo -> fi_cancelled fi = false -> fetch_round fi bo c = (true, c', bo', ev) -> loops (evs ++ ev) c' bo'.
Proof.
  intros [ins L] C R. exists (ins ++ [fi]). intros rest. rewrite <- app_assoc, L. cbn. rewrite C, R.
  destruct (fetch_rounds rest bo' c') as [[? ?] ?]. cbn. by rewrite app_assoc.
Qed.

Lemma stops_round evs c bo fi c' bo' ev :
  loops evs c bo -> fi_cancelled fi = false -> fetch_round fi bo c = (false, c', bo', ev) ->
  stops ((evs ++ ev) ++ [Closed_workCh]) c'.
Proof.
  intros [ins L] C R. exists (ins ++ [fi]). rewrite L. cbn. rewrite C, R. cbn. by rewrite app_assoc.
Qed.

(** Any round input, cancelled at the head. *)
Definition cancelled_input (env : NatsEnv) : fetch_input :=
  {| fi_cancelled := true; fi_start := 0; fi_now := 0; fi_fetched := inl []; fi_valid := true;
     fi_recover_cancelled := false; fi_wait_cancelled := false;
     fi_rebind := {| rb_start := 0; rb_env := fun _ => env; rb_ctx := fun _ => None; rb_cancelled := fun _ => false;
                     rb_wait_cancelled := fun _ => false; rb_now := fun _ => 0 |};
     fi_dispatch_cancelled := false; fi_error_text := fun _ => EmptyString |}.

Lemma stops_cancelled (env : NatsEnv) evs c bo : loops evs c bo -> stops (evs ++ [Closed_workCh]) c.
Proof. intros [ins L]. exists (ins ++ [cancelled_input env]). by rewrite L. Qed.

(** ** The correspondence, place by place *)

(** What attempt [i] does once it has failed. *)
Definition after_failed (ri : rebind_input) (i : nat) (rb : Backoff) (c : Connector) : bool * Connector * list loop_event :=
  if rb_cancelled ri i then (false, c, [])
  else
    let fuel := Z.to_nat (rebindAttempts c - Z.of_nat i) in
    if Z.of_nat i <? rebindAttempts c then
      if rb_wait_cancelled ri i then (false, c, [])
      else prepend [Waited (Next rb).1] (rebind_loop ri fuel (S i) (Next rb).2 c)
    else rebind_loop ri fuel (S i) rb c.

Lemma rebind_loop_failed ri i rb c s err :
  Z.of_nat i <= rebindAttempts c -> Rebind (rb_env ri i) (rb_ctx ri i) (source c) = (s, Some err) ->
  rebind_loop ri (Z.to_nat (rebindAttempts c + 1 - Z.of_nat i)) i rb c =
  after_failed ri i rb (with_source (add_stats c 0 0 0 1) s).
Proof.
  intros Le E. replace (Z.to_nat (rebindAttempts c + 1 - Z.of_nat i)) with (S (Z.to_nat (rebindAttempts c - Z.of_nat i))) by lia.
  cbn [rebind_loop add_stats source]. rewrite E. unfold after_failed. cbn [with_source add_stats rebindAttempts].
  destruct (rb_cancelled ri i); [done|]. destruct (Z.of_nat i <? rebindAttempts c); [|done].
  rewrite Wait_eq. by destruct (rb_wait_cancelled ri i).
Qed.

(** The round in progress behaves, for every choice of what is still open, as
    the rest of the code from the goroutine's place. *)
Definition in_rebind (evs : list loop_event) (bo : Backoff) (i : nat) (fixed : rebind_input -> rebind_input -> Prop)
    (rest : rebind_input -> bool * Connector * list loop_event) : Prop :=
  exists c1 bo1 fi ri before w, evs = before ++ w /\ loops before c1 bo1 /\
    forall ri', agree i ri ri' -> fixed ri ri' ->
      fetch_round (with_recovery false false ri' fi) bo1 c1 =
      (let '(go, c', ev) := prepend w (rest ri') in (go, c', bo, ev)).

Definition same_call (i : nat) (a b : rebind_input) : Prop :=
  rb_env b i = rb_env a i /\ rb_ctx b i = rb_ctx a i.

Definition corresponds (evs : list loop_event) (f : fetcher) : Prop :=
  match f with
  | FLoop c bo | FFetch c bo => loops evs c bo
  | FDispatch c bo b =>
      exists c1 bo1 fi, loops evs c1 bo1 /\
        forall x, fetch_round (with_dispatch x fi) bo1 c1 =
          (negb x, dispatched c b, bo,
           if x then [] else if (length (Messages b) =? 0)%nat then [Idle] else [Sent b])
  | FRecover c bo err =>
      exists c1 bo1 fi, loops evs c1 bo1 /\
        forall r x ri, fetch_round (with_recovery r x ri fi) bo1 c1 = recoverFetch (with_recovery r x ri fi) err bo c
  | FBackoff c bo d =>
      exists c1 bo1 fi ri, loops evs c1 bo1 /\
        forall x, fetch_round (with_recovery false x ri fi) bo1 c1 = (negb x, c, bo, if x then [] else [Waited d])
  | FRebind c bo rb i =>
      in_rebind evs bo i (fun _ _ => True)
        (fun ri => rebind_loop ri (Z.to_nat (rebindAttempts c + 1 - Z.of_nat i)) i rb c)
  | FRebindFailed c bo rb i => in_rebind evs bo i (same_call i) (fun ri => after_failed ri i rb c)
  | FRebindWait c bo rb i d =>
      in_rebind evs bo i (fun a b => same_call i a b /\ rb_cancelled b i = false)
        (fun ri => if rb_wait_cancelled ri i then (false, c, [])
                   else prepend [Waited d] (rebind_loop ri (Z.to_nat (rebindAttempts c - Z.of_nat i)) (S i) rb c))
  | FFatal c err => stops ((evs ++ [Fatal err]) ++ [Closed_workCh]) c
  | FClosing c => stops (evs ++ [Closed_workCh]) c
  | FDone c => stops evs c
  end.

(** ** Steps *)

Lemma corresponds_fetched evs c bo fi c1 b :
  loops evs c bo -> fetchOnce fi c = (c1, inl b) ->
  corresponds evs (FDispatch (fetched fi c1 b) (Reset bo) b).
Proof.
  intros L E. exists c, bo, fi. split; [done|]. intros x. unfold fetch_round.
  change (fetchOnce (with_dispatch x fi) c) with (fetchOnce fi c). rewrite E.
  unfold dispatch, fetched, dispatched. cbn. by destruct (length (Messages b) =? 0)%nat, x.
Qed.

Lemma corresponds_failed evs c bo fi c1 err :
  loops evs c bo -> fetchOnce fi c = (c1, inr err) -> corresponds evs (FRecover c1 bo err).
Proof.
  intros L E. exists c, bo, fi. split; [done|]. intros r x ri. unfold fetch_round.
  change (fetchOnce (with_recovery r x ri fi) c) with (fetchOnce fi c). by rewrite E.
Qed.

Lemma corresponds_dispatch evs c bo b x :
  corresponds evs (FDispatch c bo b) ->
  if x : bool then corresponds evs (FClosing (dispatched c b))
  else corresponds (evs ++ if (length (Messages b) =? 0)%nat then [Idle] else [Sent b]) (FLoop (dispatched c b) bo).
Proof.
  intros (c1 & bo1 & fi & L & R). specialize (R x). destruct x; cbn in R.
  - rewrite <- (app_nil_r evs). eapply stops_round; [exact L| |exact R]; done.
  - eapply loops_round; [exact L| |exact R]; done.
Qed.

Lemma corresponds_backoff evs c bo d x :
  corresponds evs (FBackoff c bo d) ->
  if x : bool then corresponds evs (FClosing c) else corresponds (evs ++ [Waited d]) (FLoop c bo).
Proof.
  intros (c1 & bo1 & fi & ri & L & R). specialize (R x). destruct x; cbn in R.
  - rewrite <- (app_nil_r evs). eapply stops_round; [exact L| |exact R]; done.
  - eapply loops_round; [exact L| |exact R]; done.
Qed.

Lemma corresponds_recover (env : NatsEnv) evs c bo err now :
  corresponds evs (FRecover c bo err) ->
  corresponds evs (FClosing c) /\
  (isSubscriptionFailed err = true ->
     corresponds evs (FRebind (with_health (add_stats c 0 0 1 0) (set_cond now condRebinding (health c))) bo
                        (NewBackoff (rebindBase c) (rebindMax c)) 1)) /\
  (isSubscriptionFailed err = false -> corresponds evs (FBackoff (add_stats c 0 1 0 0) (Next bo).2 (Next bo).1)).
Proof.
  intros (c1 & bo1 & fi & L & R).
  set (ri := {| rb_start := now; rb_env := fun _ => env; rb_ctx := fun _ => None; rb_cancelled := fun _ => false;
                rb_wait_cancelled := fun _ => false; rb_now := fun _ => 0 |}).
  split; [|split].
  - rewrite <- (app_nil_r evs). eapply stops_round; [exact L| |exact (R true false ri)]; done.
  - intros S. exists c1, bo1, fi, ri, evs, []. split; [by rewrite app_nil_r|]. split; [done|]. intros ri' [St _] _.
    rewrite R. unfold recoverFetch. cbn [with_recovery fi_recover_cancelled fi_rebind]. rewrite S.
    unfold rebindSubscription. rewrite St. cbn [rb_start ri add_stats with_health health rebindAttempts rebindBase rebindMax].
    replace (Z.to_nat (rebindAttempts c + 1 - Z.of_nat 1)) with (Z.to_nat (rebindAttempts c)) by lia.
    by destruct (rebind_loop _ _ _ _ _) as [[? ?] ?].
  - intros S. exists c1, bo1, fi, ri. split; [done|]. intros x. rewrite R. unfold recoverFetch.
    cbn [with_recovery fi_recover_cancelled fi_wait_cancelled]. rewrite S, Wait_eq. by destruct x.
Qed.

(** A re-bind that ends here, or goes on with one more attempt. *)
Lemma in_rebind_end evs bo i fixed rest ri' go c ev :
  in_rebind evs bo i fixed rest ->
  (forall ri, agree i ri (ri' ri) /\ fixed ri (ri' ri) /\ rest (ri' ri) = (go, c, ev)) ->
  if go : bool then loops (evs ++ ev) c bo else stops ((evs ++ ev) ++ [Closed_workCh]) c.
Proof.
  intros (c1 & bo1 & fi & ri & before & w & -> & L & R) E. destruct (E ri) as (A & F & X).
  specialize (R _ A F). rewrite X in R. cbn in R. rewrite <- (app_assoc before).
  destruct go; [eapply loops_round; [exact L| |exact R]; done|eapply stops_round; [exact L| |exact R]; done].
Qed.

Lemma in_rebind_next evs bo i j fixed fixed' rest rest' ev ri1 :
  (i <= j)%nat -> in_rebind evs bo i fixed rest ->
  (forall ri ri', agree i ri (ri1 ri) /\
     (agree j (ri1 ri) ri' -> fixed' (ri1 ri) ri' -> fixed ri ri' /\ rest ri' = prepend ev (rest' ri'))) ->
  in_rebind (evs ++ ev) bo j fixed' rest'.
Proof.
  intros Ij (c1 & bo1 & fi & ri & before & w & -> & L & R) E.
  exists c1, bo1, fi, (ri1 ri), before, (w ++ ev). split; [by rewrite app_assoc|]. split; [done|]. intros ri' A F.
  destruct (E ri ri') as [A1 E']. destruct (E' A F) as [F' X].
  assert (Ai : agree i (ri1 ri) ri') by (split; [apply A|intros k K; apply A; lia]).
  rewrite (R ri' (agree_trans _ _ _ _ A1 Ai) F'), X. destruct (rest' ri') as [[go c'] ev']. cbn. by rewrite app_assoc.
Qed.

Lemma choose_call ri i env cx now f w :
  agree i ri (choose_attempt ri i env cx now f w) /\
  rb_env (choose_attempt ri i env cx now f w) i = env /\ rb_ctx (choose_attempt ri i env cx now f w) i = cx /\
  rb_cancelled (choose_attempt ri i env cx now f w) i = f /\
  rb_wait_cancelled (choose_attempt ri i env cx now f w) i = w /\ rb_now (choose_attempt ri i env cx now f w) i = now.
Proof. split; [apply agree_choose|]. cbn. by rewrite !upd_same. Qed.

(** Attempt [i] itself. *)
Lemma corresponds_attempt evs c bo rb i env cx now :
  corresponds evs (FRebind c bo rb i) -> Z.of_nat i <= rebindAttempts c ->
  match Rebind env cx (source c) with
  | (s, None) => loops (evs ++ [Rebound]) (rebound now s c) bo
  | (s, Some _) => corresponds evs (FRebindFailed (with_source (add_stats c 0 0 0 1) s) bo rb i)
  end.
Proof.
  intros R Le. destruct (Rebind env cx (source c)) as [s [err|]] eqn:E.
  - rewrite <- (app_nil_r evs). cbn in R |- *.
    eapply (in_rebind_next _ _ i i _ _ _ _ _ (fun ri => choose_attempt ri i env cx 0 false false)); [done|exact R|].
    intros ri ri'. destruct (choose_call ri i env cx 0 false false) as (A & Ce & Cx & _). split; [done|].
    intros _ [F1 F2]. rewrite Ce in F1. rewrite Cx in F2. split; [done|].
    rewrite (rebind_loop_failed ri' i rb c s err Le) by by rewrite F1, F2.
    by destruct (after_failed _ _ _ _) as [[? ?] ?].
  - apply (in_rebind_end _ _ _ _ _ (fun ri => choose_attempt ri i env cx now false false) true _ [Rebound] R).
    intros ri. destruct (choose_call ri i env cx now false false) as (A & Ce & Cx & _ & _ & Cn). split; [done|]. split; [done|].
    replace (Z.to_nat (rebindAttempts c + 1 - Z.of_nat i)) with (S (Z.to_nat (rebindAttempts c - Z.of_nat i))) by lia.
    cbn [rebind_loop]. rewrite Ce, Cx, Cn. cbn [add_stats source]. by rewrite E.
Qed.

Lemma corresponds_exhausted evs c bo rb i :
  corresponds evs (FRebind c bo rb i) -> rebindAttempts c < Z.of_nat i ->
  corresponds evs (FFatal c (NewMaxRetriesExceededError "source" (rebindAttempts c))).
Proof.
  intros R Lt. apply (in_rebind_end _ _ _ _ _ (fun ri => ri) false _ _ R).
  intros ri. split; [apply agree_refl|]. split; [done|].
  by replace (Z.to_nat (rebindAttempts c + 1 - Z.of_nat i)) with O by lia.
Qed.

(** After the failed call: cancelled, the last attempt, or asleep. *)
Lemma corresponds_after evs c bo rb i :
  corresponds evs (FRebindFailed c bo rb i) ->
  corresponds evs (FClosing c) /\
  (rebindAttempts c <= Z.of_nat i -> corresponds evs (FRebind c bo rb (S i))) /\
  (Z.of_nat i < rebindAttempts c -> corresponds evs (FRebindWait c bo (Next rb).2 i (Next rb).1)).
Proof.
  intros R.
  assert (Call : forall ri f w, same_call i ri (choose_attempt ri i (rb_env ri i) (rb_ctx ri i) 0 f w)).
  { intros ri f w. split; cbn; by rewrite upd_same. }
  split; [|split].
  - rewrite <- (app_nil_r evs).
    apply (in_rebind_end _ _ _ _ _ (fun ri => choose_attempt ri i (rb_env ri i) (rb_ctx ri i) 0 true false) false _ _ R).
    intros ri. destruct (choose_call ri i (rb_env ri i) (rb_ctx ri i) 0 true false) as (A & _ & _ & Cc & _).
    split; [done|]. split; [apply Call|]. unfold after_failed. by rewrite Cc.
  - intros Le. rewrite <- (app_nil_r evs). cbn.
    eapply (in_rebind_next _ _ i (S i) _ _ _ _ _ (fun ri => choose_attempt ri i (rb_env ri i) (rb_ctx ri i) 0 false false)); [lia|exact R|].
    intros ri ri'. destruct (choose_call ri i (rb_env ri i) (rb_ctx ri i) 0 false false) as (A & Ce & Cx & Cc & _). split; [done|].
    intros [_ A'] _. destruct (A' i ltac:(lia)) as (E1 & E2 & E3 & _). split; [split; congruence|].
    unfold after_failed. rewrite E3, Cc. rewrite (proj2 (Z.ltb_ge _ _)) by lia.
    replace (Z.to_nat (rebindAttempts c - Z.of_nat i)) with O by lia.
    replace (Z.to_nat (rebindAttempts c + 1 - Z.of_nat (S i))) with O by lia. done.
  - intros Lt. rewrite <- (app_nil_r evs). cbn.
    eapply (in_rebind_next _ _ i i _ _ _ _ _ (fun ri => ri)); [done|exact R|].
    intros ri ri'. split; [apply agree_refl|]. intros _ [F1 F2]. split; [done|].
    unfold after_failed. rewrite F2. rewrite (proj2 (Z.ltb_lt _ _)) by lia.
    by destruct (if rb_wait_cancelled ri' i then _ else _) as [[? ?] ?].
Qed.

Lemma corresponds_wait evs c bo rb i d :
  corresponds evs (FRebindWait c bo rb i d) ->
  corresponds evs (FClosing c) /\ corresponds (evs ++ [Waited d]) (FRebind c bo rb (S i)).
Proof.
  intros R. split.
  - rewrite <- (app_nil_r evs).
    apply (in_rebind_end _ _ _ _ _ (fun ri => choose_attempt ri i (rb_env ri i) (rb_ctx ri i) 0 false true) false _ _ R).
    intros ri. destruct (choose_call ri i (rb_env ri i) (rb_ctx ri i) 0 false true) as (A & Ce & Cx & Cc & Cw & _).
    split; [done|]. split; [by split; [split|]|]. by rewrite Cw.
  - cbn.
    eapply (in_rebind_next _ _ i (S i) _ _ _ _ _ (fun ri => choose_attempt ri i (rb_env ri i) (rb_ctx ri i) 0 false false)); [lia|exact R|].
    intros ri ri'. destruct (choose_call ri i (rb_env ri i) (rb_ctx ri i) 0 false false) as (A & Ce & Cx & Cc & Cw & _). split; [done|].
    intros [_ A'] _. destruct (A' i ltac:(lia)) as (E1 & E2 & E3 & E4 & _). split; [split; [split; congruence|congruence]|].
    rewrite E4, Cw. by replace (Z.to_nat (rebindAttempts c + 1 - Z.of_nat (S i))) with (Z.to_nat (rebindAttempts c - Z.of_nat i)) by lia.
Qed.

(** Every step keeps the correspondence. *)
Lemma corresponds_step (env0 : NatsEnv) n ctx ch f l ch' f' evs :
  corresponds evs f -> fetch_step n ctx ch f l ch' f' -> corresponds (evs ++ l) f'.
Proof.
  intros R S. destruct S as
    [|ch c bo|ch c bo fi c1 b E|ch c bo fi c1 err E|ch c bo b E|ch c bo b E _|ch c bo b|ch c bo err|ch c bo err now _ F
    |ch c bo err _ F|ch c bo d|ch c bo d|ch c bo rb i Lt|ch c bo rb i env cx s now Le E|ch c bo rb i env cx s err Le E
    |ch c bo rb i|ch c bo rb i _ Lt|ch c bo rb i _ Le|ch c bo rb i d|ch c bo rb i d| |]; rewrite ?app_nil_r; try exact R.
  - by eapply stops_cancelled.
  - by eapply corresponds_fetched.
  - by eapply corresponds_failed.
  - pose proof (corresponds_dispatch _ _ _ _ false R) as X. by rewrite E in X.
  - pose proof (corresponds_dispatch _ _ _ _ false R) as X. by destruct (Messages b).
  - exact (corresponds_dispatch _ _ _ _ true R).
  - by apply (corresponds_recover env0 _ _ _ _ 0 R).
  - by apply (corresponds_recover env0 _ _ _ _ now R).
  - by apply (corresponds_recover env0 _ _ _ _ 0 R).
  - exact (corresponds_backoff _ _ _ _ false R).
  - exact (corresponds_backoff _ _ _ _ true R).
  - by eapply corresponds_exhausted.
  - pose proof (corresponds_attempt _ _ _ _ _ env cx now R Le) as X. by rewrite E in X.
  - pose proof (corresponds_attempt _ _ _ _ _ env cx 0 R Le) as X. by rewrite E in X.
  - by apply (corresponds_after _ _ _ _ _ R).
  - by apply (corresponds_after _ _ _ _ _ R).
  - by apply (corresponds_after _ _ _ _ _ R).
  - by apply (corresponds_wait _ _ _ _ _ _ R).
  - by apply (corresponds_wait _ _ _ _ _ _ R).
Qed.

End refine.
