(* ===== verification/Schedule.v ===== *)
(** * Schedule: the pace of the fetch goroutine

    What the fetch goroutine may do, as a language of events with every pause in
    closed form, and the proof that each step of the goroutine of Orchestrator
    stays in it: transient failures back off by doubling, a fetch that succeeds
    starts the sequence again, a dead subscription climbs a ladder of its own
    and nothing follows the end. *)
From S2P Require Import Prelude GoInt GoStr GoFloat GoTime Values Qdb FieldPath Convert Steps Filter Parser.
From S2P Require Import Backoff Breaker SinkOptions Sink Source Stats Liveness Worker Health Connector System Orchestrator.

(** ** Backoffs in closed form *)

(** The delay after [k] doublings, and the backoff that gives it next. *)
Definition doubled (base_ max_ : Z) (k : nat) : Z := Z.min max_ (base_ * 2 ^ Z.of_nat k).
Definition after (base_ max_ : Z) (k : nat) : Backoff := {| base := base_; max := max_; next := doubled base_ max_ k |}.

Lemma after_0 b m : b <= m -> NewBackoff b m = after b m 0.
Proof. intros L. unfold NewBackoff, after, doubled. f_equal. lia. Qed.

Lemma Reset_after b m k : b <= m -> Reset (after b m k) = after b m 0.
Proof. intros L. rewrite <- after_0 by done. done. Qed.

Lemma Next_after b m k : 0 < b <= m -> m <= max_int64 / 2 -> Next (after b m k) = (doubled b m k, after b m (S k)).
Proof.
  intros B M. assert (P : 1 <= 2 ^ Z.of_nat k) by (apply (Z.pow_le_mono_r 2 0); lia).
  assert (I : backoff_inv (after b m k)) by (unfold backoff_inv, after, doubled; cbn; nia).
  pose proof (Next_inv _ I) as (_ & N & Bs & Mx). destruct (Next (after b m k)) as [d bo] eqn:E. cbn [snd] in *.
  assert (d = doubled b m k) as -> by (unfold Next in E; by injection E). f_equal.
  destruct bo as [b' m' n']. cbn in *. subst. unfold after, doubled in *. f_equal.
  rewrite Nat2Z.inj_succ, Z.pow_succ_r by lia. nia.
Qed.

(** ** The schedule *)

(** How many transient failures in a row were waited for; in a re-bind, also how
    many of its pauses are over. *)
Inductive pace : Type :=
  | Fetching (failures : nat)
  | Rebinding (failures pauses : nat)
  | Stopping
  | Stopped.

Definition fetch_pause (k : nat) : Z := doubled (100 * Millisecond) (5 * Second) k.

Definition fetch_after : nat -> Backoff := after (100 * Millisecond) (5 * Second).

(** The events of a goroutine with the re-bind bounds [rb] and [rm] and a budget
    of [attempts], and where they leave it. *)
Inductive schedule (rb rm : Z) (attempts : nat) : list loop_event -> pace -> Prop :=
  | sch_start : schedule rb rm attempts [] (Fetching 0)
  | sch_sent evs k b : schedule rb rm attempts evs (Fetching k) -> Messages b <> [] ->
      schedule rb rm attempts (evs ++ [Sent b]) (Fetching 0)
  | sch_idle evs k : schedule rb rm attempts evs (Fetching k) -> schedule rb rm attempts (evs ++ [Idle]) (Fetching 0)
  | sch_transient evs k : schedule rb rm attempts evs (Fetching k) ->
      schedule rb rm attempts (evs ++ [Waited (fetch_pause k)]) (Fetching (S k))
  | sch_dead evs k : schedule rb rm attempts evs (Fetching k) -> schedule rb rm attempts evs (Rebinding k 0)
  | sch_pause evs k i : schedule rb rm attempts evs (Rebinding k i) -> (S i < attempts)%nat ->
      schedule rb rm attempts (evs ++ [Waited (doubled rb rm i)]) (Rebinding k (S i))
  | sch_rebound evs k i : schedule rb rm attempts evs (Rebinding k i) -> (i < attempts)%nat ->
      schedule rb rm attempts (evs ++ [Rebound]) (Fetching k)
  | sch_exhausted evs k : schedule rb rm attempts evs (Rebinding k (pred attempts)) ->
      schedule rb rm attempts (evs ++ [Fatal (NewMaxRetriesExceededError "source" (Z.of_nat attempts))]) Stopping
  | sch_cancelled evs p : schedule rb rm attempts evs p -> p <> Stopped -> schedule rb rm attempts evs Stopping
  | sch_closed evs : schedule rb rm attempts evs Stopping -> schedule rb rm attempts (evs ++ [Closed_workCh]) Stopped.

(** ** The goroutine keeps it *)

Section keeps.
Context (rb rm : Z) (attempts : nat).
Context (Rb : 0 < rb <= rm) (Rm : rm <= max_int64 / 2).

(** The place of the goroutine in the schedule, with its backoffs. *)
Definition at_pace (f : fetcher) (p : pace) : Prop :=
  match f with
  | FLoop _ bo | FFetch _ bo | FRecover _ bo _ => exists k, p = Fetching k /\ bo = fetch_after k
  | FDispatch _ bo _ => bo = fetch_after 0 /\ exists k, p = Fetching k
  | FBackoff _ bo d => exists k, p = Fetching k /\ d = fetch_pause k /\ bo = fetch_after (S k)
  | FRebind _ bo r i =>
      exists k, p = Rebinding k (Nat.min (pred i) (pred attempts)) /\ bo = fetch_after k /\
        r = after rb rm (Nat.min (pred i) (pred attempts)) /\ (1 <= i <= S attempts)%nat
  | FRebindFailed _ bo r i =>
      exists k, p = Rebinding k (pred i) /\ bo = fetch_after k /\ r = after rb rm (pred i) /\ (1 <= i <= attempts)%nat
  | FRebindWait _ bo r i d =>
      exists k, p = Rebinding k (pred i) /\ bo = fetch_after k /\ d = doubled rb rm (pred i) /\ r = after rb rm i /\
        (1 <= i < attempts)%nat
  | FFatal _ err =>
      err = NewMaxRetriesExceededError "source" (Z.of_nat attempts) /\ exists k, p = Rebinding k (pred attempts)
  | FClosing _ => p = Stopping
  | FDone _ => p = Stopped
  end.

Definition configured (c : Connector) : Prop :=
  rebindBase c = rb /\ rebindMax c = rm /\ rebindAttempts c = Z.of_nat attempts.

Definition on_schedule (evs : list loop_event) (f : fetcher) : Prop :=
  configured (fetch_connector f) /\ exists p, schedule rb rm attempts evs p /\ at_pace f p.

Lemma fetchOnce_configured fi c c1 r : fetchOnce fi c = (c1, r) -> configured c -> configured c1.
Proof. unfold fetchOnce. destruct (FetchBatch _ _ _ _ _). by intros [= <- _]. Qed.

Lemma cancelled_on_schedule evs f c :
  on_schedule evs f -> (forall c', f <> FDone c') -> configured c -> on_schedule evs (FClosing c).
Proof.
  intros (_ & p & S & A) D C. split; [done|]. exists Stopping. split; [|done]. eapply sch_cancelled; [exact S|].
  intros ->. destruct f; cbn in A; try (destruct A as (k & A & _); discriminate A); try (destruct A as (_ & k & A); discriminate A);
    [discriminate A|by eapply D].
Qed.

Lemma step_on_schedule n ctx ch f l ch' f' evs :
  on_schedule evs f -> fetch_step n ctx ch f l ch' f' -> on_schedule (evs ++ l) f'.
Proof.
  assert (Fb : 0 < 100 * Millisecond <= 5 * Second) by done.
  assert (Fm : 5 * Second <= max_int64 / 2) by by vm_compute.
  intros O St. assert (O' := O). destruct O' as (C & p & Sc & A).
  destruct St as
    [|ch c bo|ch c bo fi c1 b E|ch c bo fi c1 err E|ch c bo b E|ch c bo b E _|ch c bo b|ch c bo err|ch c bo err now _ F
    |ch c bo err _ F|ch c bo d|ch c bo d|ch c bo r i Lt|ch c bo r i env cx s now Le E|ch c bo r i env cx s err Le E
    |ch c bo r i|ch c bo r i _ Lt|ch c bo r i _ Le|ch c bo r i d|ch c bo r i d| |]; rewrite ?app_nil_r;
    cbn [at_pace fetch_connector] in A, C; try (by eapply cancelled_on_schedule; [exact O|..]).
  - exact O.
  - destruct A as (k & -> & ->). split.
    { cbn. apply (fetchOnce_configured _ _ _ _ E) in C. unfold fetched. by case_match. }
    exists (Fetching k). split; [done|]. split; [|by eexists]. by apply Reset_after.
  - split; [by eapply fetchOnce_configured|]. by exists p.
  - destruct A as (-> & k & ->). split; [unfold dispatched; cbn; by case_match|]. exists (Fetching 0). split; [by eapply sch_idle|by eexists].
  - destruct A as (-> & k & ->). split; [unfold dispatched; cbn; by case_match|]. exists (Fetching 0). split; [by eapply sch_sent|by eexists].
  - eapply cancelled_on_schedule; [exact O|done|]. unfold dispatched. by case_match.
  - destruct A as (k & -> & ->). split; [done|]. destruct C as (-> & -> & _). exists (Rebinding k 0). split; [by apply sch_dead|].
    exists k. split_and!; [done|done| |lia|lia]. apply after_0; lia.
  - destruct A as (k & -> & ->). split; [done|]. exists (Fetching k). split; [done|]. exists k. unfold fetch_after. by rewrite Next_after.
  - destruct A as (k & -> & -> & ->). split; [done|]. exists (Fetching (S k)). split; [by apply sch_transient|by exists (S k)].
  - destruct A as (k & -> & -> & -> & I). split; [done|]. destruct C as (_ & _ & Ca). rewrite Ca in *.
    replace (Nat.min (pred i) (pred attempts)) with (pred attempts) in Sc by lia. eexists. split; [exact Sc|]. split; [done|by exists k].
  - destruct A as (k & -> & -> & -> & I). destruct C as (Cb & Cm & Ca). split; [done|].
    exists (Fetching k). split; [eapply sch_rebound; [exact Sc|lia]|by exists k].
  - destruct A as (k & -> & -> & -> & I). destruct C as (Cb & Cm & Ca). split; [done|].
    replace (Nat.min (pred i) (pred attempts)) with (pred i) in * by lia.
    eexists. split; [exact Sc|]. exists k. split_and!; [done..|lia|lia].
  - destruct A as (k & -> & -> & -> & I). assert (Ca := C). destruct Ca as (_ & _ & Ca). split; [done|].
    eexists. split; [exact Sc|]. exists k. rewrite Next_after by done. replace (S (pred i)) with i by lia. split_and!; [done..|lia|lia].
  - destruct A as (k & -> & -> & -> & I). assert (Ca := C). destruct Ca as (_ & _ & Ca). split; [done|].
    eexists. split; [exact Sc|]. exists k. replace (Nat.min (pred (S i)) (pred attempts)) with (pred i) by lia. split_and!; [done..|lia|lia].
  - destruct A as (k & -> & -> & -> & -> & I). split; [done|]. exists (Rebinding k i). split.
    + replace i with (S (pred i)) at 2 by lia. apply sch_pause; [done|lia].
    + exists k. replace (Nat.min (pred (S i)) (pred attempts)) with i by lia. split_and!; [done..|lia|lia].
  - destruct A as (-> & k & ->). split; [done|]. exists Stopping. split; [by eapply sch_exhausted|done].
  - cbn in A. subst p. split; [done|]. exists Stopped. split; [by apply sch_closed|done].
Qed.

Lemma launch_on_schedule c : configured c -> on_schedule [] (FLoop c (NewBackoff fetchBackoffBase fetchBackoffMax)).
Proof. intros C. split; [done|]. exists (Fetching 0). split; [constructor|]. exists 0%nat. split; [done|]. by apply after_0. Qed.
End keeps.
