(* ===== verification/Lifecycle.v ===== *)
(** * Lifecycle: what every run of the connector guarantees

    Invariants of the runs of Orchestrator.v, by induction on the run: the
    conservation and settlement of the batches, the capacity of the error
    channel, the refinement of the sequential fetch loop of Connector.v, the
    absence of deadlock, the end of every run whose context is cancelled and
    the state in which RunWithContext returns. *)
From stdpp Require Import relations.
From S2P Require Import Prelude GoInt GoStr GoFloat GoTime Values Qdb FieldPath Convert Steps Filter Parser.
From S2P Require Import Backoff Breaker SinkOptions Sink Source Stats Liveness Worker Health Connector System Orchestrator FetchThread Schedule.

(** ** The batches *)

(** The batch a worker holds. *)
Definition held (p : worker_pc) : list MessageBatch :=
  match p with WBusy _ _ b | WPanic b => [b] | _ => [] end.

(** A batch that was settled: each of its messages once. *)
Definition settled (p : MessageBatch * list worker_event) : Prop :=
  NoDup (Source.Sequence <$> Messages p.1) -> concat (calls p.2).*2 ≡ₚ Source.Sequence <$> Messages p.1.

(** A worker that can go on, or whose goroutine has ended with its sink closed. *)
Definition worker_ok (cols : list WriterColumn) (p : worker_pc) : Prop :=
  match p with
  | WConnect w | WSelect w => worker_ready cols w /\ closed (sink w) = false
  | WBusy w _ b => worker_ready cols w /\ closed (sink w) = false /\ Messages b <> []
  | WReport w _ | WExit w => closed (sink w) = true
  | WPanic _ => False
  end.

Definition nonempty (b : MessageBatch) : Prop := Messages b <> [].

Lemma fetch_step_work n ctx ch f l ch' f' :
  fetch_step n ctx ch f l ch' f' ->
  workCh ch' = workCh ch ++ sent l /\ Forall nonempty (sent l) /\
  ((length (workCh ch) <= workCh_cap n)%nat -> (length (workCh ch') <= workCh_cap n)%nat).
Proof.
  destruct 1; cbn; rewrite ?app_nil_r; try by split_and!.
  split_and!; [done|by constructor|]. intros _. rewrite length_app. cbn. lia.
Qed.

Section run.
Context `{MapIter} (cols : list WriterColumn).

Lemma worker_step_work n ctx ch p l ch' p' :
  worker_step n ctx ch p l ch' p' ->
  exists taken, workCh ch = taken ++ workCh ch' /\ l.*1 ++ held p' ≡ₚ held p ++ taken.
Proof.
  destruct 1; cbn; try by exists [].
  all: try (unfold run_returned; case_match; by exists []).
  - exists [b]. by split; [done|].
Qed.

Lemma worker_step_ok n ctx ch p l ch' p' :
  Forall nonempty (workCh ch) -> worker_ok cols p -> worker_step n ctx ch p l ch' p' ->
  worker_ok cols p' /\ Forall settled l.
Proof.
  intros F Ok. destruct 1 as [| |? w err|? w| ? w env b q Q|? w env b w' tr err E|? w env b E|]; cbn in *; try done.
  - unfold run_returned. by case_match.
  - destruct Ok. rewrite Q in F. apply Forall_cons in F as [F _]. by split_and!.
  - destruct Ok as (R & C & Ne). destruct (batch_settled cols env w b R Ne) as (w1 & tr1 & err1 & E1 & R1 & S & P).
    rewrite E1 in E. injection E as -> -> ->. destruct S as (_ & _ & S & _). rewrite S.
    split; [done|]. by constructor.
  - destruct Ok as (R & C & Ne). destruct (batch_settled cols env w b R Ne) as (w1 & tr1 & err1 & E1 & _). congruence.
Qed.

Record batches_inv (n : nat) (s : run_state) : Prop := {
  bi_size : length (pool s) = n;
  bi_cap : (length (workCh (chans s)) <= workCh_cap n)%nat;
  bi_sent : sent (events s) ≡ₚ (processed s).*1 ++ concat (held <$> pool s) ++ workCh (chans s);
  bi_nonempty : Forall nonempty (sent (events s));
  bi_workers : Forall (worker_ok cols) (pool s);
  bi_settled : Forall settled (processed s)
}.

Lemma batches_fetch n s l ch f :
  batches_inv n s -> fetch_step (length (pool s)) (ctx s) (chans s) (fetch s) l ch f ->
  batches_inv n (set_fetch s ch f l).
Proof.
  intros [<- C S N W P] F. apply fetch_step_work in F as (Q & Nl & Cl). split; cbn; try done.
  - by apply Cl.
  - by rewrite Q, sent_app, S, !app_assoc.
  - rewrite sent_app. by apply Forall_app.
Qed.

Lemma batches_worker n s i p l ch p' :
  batches_inv n s -> pool s !! i = Some p -> worker_step (length (pool s)) (ctx s) (chans s) p l ch p' ->
  batches_inv n (set_worker s ch i p' l).
Proof.
  intros [<- C S N W P] L F.
  assert (Nq : Forall nonempty (workCh (chans s))) by (rewrite S, !Forall_app in N; tauto).
  pose proof (Forall_lookup_1 _ _ _ _ W L) as Ok.
  destruct (worker_step_ok _ _ _ _ _ _ _ Nq Ok F) as [Ok' Sl].
  destruct (worker_step_work _ _ _ _ _ _ _ F) as (taken & Q & Hp).
  pose proof (concat_insert held (pool s) i p p' L) as Hi. split; cbn; try done.
  - apply length_insert.
  - rewrite Q, length_app in C. lia.
  - rewrite S, Q, fmap_app. apply (inj (.++ held p)).
    transitivity (((processed s).*1 ++ l.*1) ++ (concat (held <$> <[i:=p']> (pool s)) ++ held p) ++ workCh ch);
      [|solve_Permutation].
    rewrite Hi. transitivity ((processed s).*1 ++ concat (held <$> pool s) ++ (l.*1 ++ held p') ++ workCh ch);
      [|solve_Permutation].
    rewrite Hp. solve_Permutation.
  - by apply Forall_insert_weak.
  - by apply Forall_app.
Qed.

Lemma shutdown_pc_ok p : worker_ok cols p -> worker_ok cols (shutdown_pc p).
Proof. by destruct p. Qed.

Lemma shutdown_pc_held (ws : list worker_pc) : held <$> (shutdown_pc <$> ws) = held <$> ws.
Proof. rewrite <- list_fmap_compose. apply list_fmap_ext. by intros _ [] _. Qed.

Lemma batches_step n s s' : batches_inv n s -> run_step s s' -> batches_inv n s'.
Proof.
  intros I [O|O].
  - destruct O; try (destruct I; by split); [by eapply batches_fetch|by eapply batches_worker|].
    destruct I as [B1 B2 B3 B4 B5 B6]. split; cbn; try done.
    + by rewrite length_fmap.
    + by rewrite shutdown_pc_held.
    + apply Forall_fmap. eapply Forall_impl; [exact B5|apply shutdown_pc_ok].
  - destruct O as [| | |s i w cb L S]; try (destruct I; by split).
    destruct I as [B1 B2 B3 B4 B5 B6]. split; cbn; try done; rewrite ?app_nil_r; try done.
    + by rewrite length_insert.
    + rewrite B3. pose proof (concat_insert held (pool s) i _ (WSelect (with_breaker w cb)) L) as Hi.
      cbn in Hi. rewrite !app_nil_r in Hi. by rewrite Hi.
    + apply Forall_insert_weak; [done|]. pose proof (Forall_lookup_1 _ _ _ _ B5 L) as [(R1 & R2 & R3 & R4) C].
      split; [|done]. split; [done|]. split; [done|]. split; [by eapply same_cfg_total|done].
Qed.

Definition launched (ws : list Worker) : Prop := Forall (fun w => worker_ready cols w /\ closed (sink w) = false) ws.

Lemma batches_launch now c ws e : launched ws -> batches_inv (length ws) (launch now c ws e).
Proof.
  intros L. split; cbn; try done.
  - by rewrite length_fmap.
  - unfold workCh_cap. lia.
  - rewrite app_nil_r. clear L. induction ws as [|w ws IH]; [done|exact IH].
  - by apply Forall_fmap.
Qed.

(** ** Errors, ends and results *)

(** One send on the error channel that a goroutine may still make. *)
Definition fetch_owes (f : fetcher) : nat := match f with FClosing _ | FDone _ => 0 | _ => 1 end.
Definition worker_owes (p : worker_pc) : nat := match p with WExit _ | WPanic _ => 0 | _ => 1 end.

Definition fetch_done (f : fetcher) : bool := match f with FDone _ => true | _ => false end.

(** An error somebody may see: a fatal one of the fetch loop, or the context's. *)
Definition reported (s : run_state) (e : error) : Prop := Fatal e ∈ events s \/ ctx s = Some e.

Definition result_ok (s : run_state) : Prop :=
  match main s with
  | MSelect => True
  | MWait r | MReturned r _ => ctx s <> None /\ forall e, r = Some e -> reported s e
  end.

Definition waited_for (s : run_state) : bool :=
  match main s with MReturned _ _ => true | _ => false end || match closer s with CClosed => true | _ => false end.

Record control_inv (n : nat) (s : run_state) : Prop := {
  ci_size : length (pool s) = n;
  ci_budget : (length (errCh (chans s)) + fetch_owes (fetch s) + sum_list (worker_owes <$> pool s) <= errCh_cap n)%nat;
  ci_closed : workCh_closed (chans s) = fetch_done (fetch s);
  ci_fetch_end : fetch_owes (fetch s) = 0%nat -> ctx s <> None \/ errCh (chans s) <> [];
  ci_exit : Forall (fun p => worker_exited p = true -> ctx s <> None \/ workCh_closed (chans s) = true) (pool s);
  ci_report : Forall (fun p => forall w e, p = WReport w e -> ctx s = Some e) (pool s);
  ci_errs : Forall (reported s) (errCh (chans s));
  ci_result : result_ok s;
  ci_wg : waited_for s = true -> wg_zero s = true;
  ci_closer : closer s <> CIdle -> ctx s <> None
}.

Lemma fetch_step_control n ctx ch f l ch' f' :
  fetch_step n ctx ch f l ch' f' ->
  fetch_done f = false /\
  workCh_closed ch' = (workCh_closed ch || fetch_done f') /\
  (length (errCh ch') + fetch_owes f' <= length (errCh ch) + fetch_owes f)%nat /\
  (fetch_owes f' = 0%nat -> fetch_owes f = 0%nat \/ ctx <> None \/ errCh ch' <> []) /\
  exists es, errCh ch' = errCh ch ++ es /\ Forall (fun e => Fatal e ∈ l) es.
Proof.
  destruct 1; cbn; rewrite ?orb_false_r, ?orb_true_r; (split; [done|]); (split; [done|]); (split; [rewrite ?length_app; cbn; lia|]);
    (split; [first [by intros; done|by intros; auto
                   |intros; right; right; by destruct (errCh ch)]|]).
  all: try (exists []; by rewrite app_nil_r).
  eexists. split; [done|]. apply Forall_singleton. left.
Qed.

Lemma run_returned_control w e :
  (worker_owes (run_returned w e) <= 1)%nat /\ (forall w' e', run_returned w e = WReport w' e' -> e' = e).
Proof. unfold run_returned. case_match; split; cbn; try done; try lia. by intros w' e' [= _ <-]. Qed.

Lemma worker_step_control n ctx ch p l ch' p' :
  (forall w e, p = WReport w e -> ctx = Some e) -> worker_step n ctx ch p l ch' p' ->
  worker_exited p = false /\ workCh_closed ch' = workCh_closed ch /\
  (length (errCh ch') + worker_owes p' <= length (errCh ch) + worker_owes p)%nat /\
  (worker_exited p' = true -> ctx <> None \/ workCh_closed ch = true) /\
  (forall w e, p' = WReport w e -> ctx = Some e) /\
  exists es, errCh ch' = errCh ch ++ es /\ Forall (fun e => ctx = Some e) es.
Proof.
  intros Rp. destruct 1 as [| |? w err D| | | | |? w err]; cbn; try done.
  all: (split; [done|]); (split; [done|]).
  all: try (split; [cbn; lia|]; split; [auto|]; split; [done|]; exists []; by rewrite app_nil_r).
  - destruct (run_returned_control (close_sink w) err) as [O R]. split; [lia|]. split; [left; congruence|].
    split; [intros w' e' E; by rewrite (R _ _ E)|]. exists []. by rewrite app_nil_r.
  - rewrite length_app. cbn. split; [lia|]. specialize (Rp _ _ eq_refl). split; [left; congruence|]. split; [done|].
    eexists. split; [done|]. by apply Forall_singleton.
Qed.

(** What a step never takes back. *)
Definition extends (s s' : run_state) : Prop :=
  events s `prefix_of` events s' /\ (ctx s <> None -> ctx s' = ctx s).

Lemma extends_reported s s' e : extends s s' -> reported s e -> reported s' e.
Proof.
  intros [[l E] C] [F|F]; [left; rewrite E; by apply elem_of_app; left|right]. rewrite C; congruence.
Qed.

Lemma extends_stop s s' : extends s s' -> ctx s <> None -> ctx s' <> None.
Proof. intros [_ C] X. by rewrite C. Qed.

Lemma extends_result s s' : extends s s' -> main s' = main s -> result_ok s -> result_ok s'.
Proof.
  intros E M. unfold result_ok. rewrite M.
  destruct (main s) as [|r|r ?]; [done| |]; (intros [C R]; split; [by eapply extends_stop|]);
    intros e X; eapply extends_reported; eauto.
Qed.

Lemma extends_refl s : extends s s.
Proof. by split. Qed.

Lemma cancel_extends s : extends s (cancel s).
Proof. split; [done|]. cbn. by destruct (ctx s). Qed.

Lemma set_ctx_extends s e : ctx s = None -> extends s (set_ctx s e).
Proof. intros E. split; [done|]. by rewrite E. Qed.

Lemma cancel_stops s : ctx (cancel s) <> None.
Proof. cbn. by destruct (ctx s). Qed.

Lemma set_fetch_extends s ch f l : extends s (set_fetch s ch f l).
Proof. split; [by eexists|done]. Qed.

Lemma set_worker_extends s ch i p l : extends s (set_worker s ch i p l).
Proof. by split. Qed.

(** Each kind of step keeps the invariant. *)
Lemma control_fetch n s l ch f :
  control_inv n s -> fetch_step (length (pool s)) (ctx s) (chans s) (fetch s) l ch f ->
  control_inv n (set_fetch s ch f l).
Proof.
  intros [<- B Cl Fe Ex Rp Er Rs Wg Cc] F.
  pose proof (set_fetch_extends s ch f l) as X.
  apply fetch_step_control in F as (Nd & Cl' & B' & Fe' & es & Es & Ef).
  split; cbn; try done.
  - lia.
  - rewrite Cl', Cl, Nd. done.
  - intros Z. destruct (Fe' Z) as [Z'|[?|?]]; [|by left|by right].
    destruct (Fe Z') as [?|Q]; [by left|right]. rewrite Es. by destruct (errCh (chans s)).
  - eapply Forall_impl; [exact Ex|]. intros p Hp Q. rewrite Cl'. destruct (Hp Q) as [?| ->]; [by left|by right].
  - rewrite Es. apply Forall_app. split.
    + eapply Forall_impl; [exact Er|]. intros e. by apply extends_reported.
    + eapply Forall_impl; [exact Ef|]. intros e Q. left. by apply elem_of_app; right.
  - by eapply extends_result.
  - intros W. specialize (Wg W). unfold wg_zero in Wg. apply andb_prop in Wg as [Wg _]. apply andb_prop in Wg as [Wg _].
    by destruct (fetch s).
Qed.

Lemma forallb_insert {A} (g : A -> bool) (l : list A) i x : forallb g l = true -> g x = true -> forallb g (<[i:=x]> l) = true.
Proof. rewrite !forallb_Forall_true. intros. by apply Forall_insert_weak. Qed.

Lemma control_worker n s i p l ch p' :
  control_inv n s -> pool s !! i = Some p -> worker_step (length (pool s)) (ctx s) (chans s) p l ch p' ->
  control_inv n (set_worker s ch i p' l).
Proof.
  intros [<- B Cl Fe Ex Rp Er Rs Wg Cc] L F.
  pose proof (set_worker_extends s ch i p' l) as X.
  apply worker_step_control in F as (Ne & Cl' & B' & Ex' & Rp' & es & Es & Ef);
    [|exact (Forall_lookup_1 _ _ _ _ Rp L)].
  pose proof (sum_list_insert worker_owes (pool s) i p p' L) as Hs.
  split; cbn; try done.
  - by rewrite length_insert.
  - lia.
  - by rewrite Cl'.
  - intros Z. destruct (Fe Z) as [?|Q]; [by left|right]. rewrite Es. by destruct (errCh (chans s)).
  - rewrite Cl'. by apply Forall_insert_weak.
  - by apply Forall_insert_weak.
  - rewrite Es. apply Forall_app. split; [done|]. eapply Forall_impl; [exact Ef|]. intros e Q. by right.
  - intros W. specialize (Wg W). unfold wg_zero in Wg. apply andb_prop in Wg as [Wg _]. apply andb_prop in Wg as [_ Wg].
    apply forallb_Forall_true in Wg. pose proof (Forall_lookup_1 _ _ _ _ Wg L). congruence.
Qed.

(** A step that leaves the goroutines alone. *)
Lemma control_main n s s' :
  control_inv n s -> extends s s' -> fetch s' = fetch s -> pool s' = pool s -> workCh_closed (chans s') = workCh_closed (chans s) ->
  (exists q, errCh (chans s) = q ++ errCh (chans s') /\ (q = [] \/ ctx s' <> None)) ->
  result_ok s' -> (waited_for s' = true -> wg_zero s' = true) -> (closer s' <> CIdle -> ctx s' <> None) ->
  control_inv n s'.
Proof.
  intros [<- B Cl Fe Ex Rp Er Rs Wg Cc] X F P W (q & Q & Qs) Rs' Wg' Cc'.
  split; rewrite ?F, ?P, ?W; try done.
  - rewrite Q, length_app in B. lia.
  - intros Z. destruct (Fe Z) as [C|C]; [left; by eapply extends_stop|].
    destruct Qs as [-> |]; [|by left]. rewrite Q in C. by right.
  - eapply Forall_impl; [exact Ex|]. intros p Hp E. destruct (Hp E); [left; by eapply extends_stop|by right].
  - eapply Forall_impl; [exact Rp|]. intros p Hp w e E. specialize (Hp w e E).
    destruct X as [_ X]. rewrite X; congruence.
  - rewrite Q in Er. apply Forall_app in Er as [_ Er]. eapply Forall_impl; [exact Er|].
    intros e. by apply extends_reported.
Qed.

Lemma wg_shutdown s k : wg_zero s = true -> wg_zero (set_closer s (shutdown_pc <$> pool s) k) = true.
Proof.
  unfold wg_zero. cbn. intros W. apply andb_prop in W as [W ->]. apply andb_prop in W as [-> W].
  rewrite andb_true_r. apply forallb_Forall_true, Forall_fmap. apply forallb_Forall_true in W.
  eapply Forall_impl; [exact W|]. by intros [].
Qed.

Lemma control_own n s s' : control_inv n s -> own_step s s' -> control_inv n s'.
Proof.
  intros I O. destruct O as [s1 l ch f F|s1 i p l ch p'|s1 C M|s1 e q M Q|s1 M _|s1 e M C|s1 r M W|s1 K W].
  - by eapply control_fetch.
  - by eapply control_worker.
  - destruct I as [B1 B2 B3 B4 B5 B6 B7 B8 B9 B10]. split; try done. cbn. intros X. specialize (B9 X).
    unfold wg_zero in *. by rewrite M, andb_false_r in B9.
  - assert (X : extends s1 (set_main (cancel s1) (with_err (chans s1) q) (MWait (Some e)))) by apply cancel_extends.
    eapply control_main; [exact I|exact X|done..| | | |].
    + exists [e]. split; [done|right; apply cancel_stops].
    + split; [apply cancel_stops|]. intros e' [= ->]. eapply extends_reported; [exact X|].
      pose proof (ci_errs _ _ I) as Er. rewrite Q in Er. by apply Forall_cons in Er as [Er _].
    + intros Z. apply (ci_wg _ _ I). revert Z. unfold waited_for. cbn. by rewrite M.
    + intros _. apply cancel_stops.
  - eapply control_main; [exact I|apply cancel_extends|done..| | | |].
    + by exists []; split; [|left].
    + split; [apply cancel_stops|done].
    + intros Z. apply (ci_wg _ _ I). revert Z. unfold waited_for. cbn. by rewrite M.
    + intros _. apply cancel_stops.
  - eapply control_main; [exact I|by split|done..| | | |].
    + by exists []; split; [|left].
    + cbn. unfold result_ok. cbn. split; [congruence|]. intros e' [= ->]. by right.
    + intros Z. apply (ci_wg _ _ I). revert Z. unfold waited_for. cbn. by rewrite M.
    + apply (ci_closer _ _ I).
  - eapply control_main; [exact I|apply cancel_extends|done..| | | |].
    + by exists []; split; [|left].
    + pose proof (ci_result _ _ I) as Rs. unfold result_ok in *. rewrite M in Rs. cbn. destruct Rs as [_ Rs].
      split; [apply cancel_stops|]. intros e E. eapply extends_reported; [apply cancel_extends|by apply Rs].
    + intros _. exact W.
    + intros _. apply cancel_stops.
  - destruct I as [B1 B2 B3 B4 B5 B6 B7 B8 B9 B10]. split; cbn; try done.
    + by rewrite length_fmap.
    + rewrite <- list_fmap_compose. erewrite list_fmap_ext; [exact B2|]. by intros _ [] _.
    + apply Forall_fmap. eapply Forall_impl; [exact B5|]. by intros [].
    + apply Forall_fmap. eapply Forall_impl; [exact B6|]. intros p Hp w e E. apply (Hp w e). by destruct p.
    + intros _. apply wg_shutdown, W.
    + intros _. apply B10. by rewrite K.
Qed.

Lemma control_outside n s s' : control_inv n s -> outside_step s s' -> control_inv n s'.
Proof.
  intros I O. destruct O as [s1 e C|s1|s1 K|s1 i w cb L S].
  - eapply control_main; [exact I|by apply set_ctx_extends|done..| | | |].
    + by exists []; split; [|left].
    + eapply extends_result; [by apply set_ctx_extends|done|apply I].
    + apply (ci_wg _ _ I).
    + done.
  - destruct I. by split.
  - eapply control_main; [exact I|apply cancel_extends|done..| | | |].
    + by exists []; split; [|left].
    + eapply extends_result; [apply cancel_extends|done|apply I].
    + intros Z. apply (ci_wg _ _ I). revert Z. unfold waited_for. cbn. by rewrite K, !orb_false_r.
    + intros _. apply cancel_stops.
  - destruct I as [B1 B2 B3 B4 B5 B6 B7 B8 B9 B10].
    pose proof (sum_list_insert worker_owes (pool s1) i _ (WSelect (with_breaker w cb)) L) as Hs. cbn in Hs.
    split; cbn; rewrite ?app_nil_r; try done.
    + by rewrite length_insert.
    + lia.
    + by apply Forall_insert_weak.
    + by apply Forall_insert_weak.
    + intros W. specialize (B9 W). unfold wg_zero in B9. apply andb_prop in B9 as [B9 _]. apply andb_prop in B9 as [_ B9].
      apply forallb_Forall_true in B9. pose proof (Forall_lookup_1 _ _ _ _ B9 L). done.
Qed.

Lemma control_launch now c ws e : control_inv (length ws) (launch now c ws e).
Proof.
  split; cbn; try done.
  - by rewrite length_fmap.
  - unfold errCh_cap. assert (sum_list (worker_owes <$> (WConnect <$> ws)) = length ws) as ->; [|lia].
    induction ws as [|w ws IH]; [done|]. rewrite !fmap_cons. cbn in *. lia.
  - by apply Forall_fmap, Forall_true.
  - by apply Forall_fmap, Forall_true.
Qed.

(** ** Progress *)

Lemma fetch_once_input (env : NatsEnv) c : exists fi c1 r, fetchOnce fi c = (c1, r).
Proof. exists (cancelled_input env). destruct (fetchOnce _ _) as [c1 r]. by exists c1, r. Qed.

(** The fetch goroutine only ever waits for room in a channel. *)
Lemma fetch_progress (env : NatsEnv) n e ch f :
  fetch_done f = false -> (fetch_owes f = 1%nat -> (length (errCh ch) < errCh_cap n)%nat) ->
  (exists l ch' f', fetch_step n e ch f l ch' f') \/
  (e = None /\ (workCh_cap n <= length (workCh ch))%nat).
Proof.
  intros D Room. destruct f as [c bo|c bo|c bo b|c bo err|c bo d|c bo rb i|c bo rb i|c bo rb i d|c err|c|c]; try done.
  - left. destruct (decide (e = None)); do 3 eexists; [by apply fs_check|by apply fs_stop].
  - left. destruct (fetch_once_input env c) as (fi & c1 & [b|err] & E); do 3 eexists; [by eapply fs_fetched|by eapply fs_failed].
  - destruct (decide (Messages b = [])) as [Z|Z]; [left; do 3 eexists; by apply fs_idle|].
    destruct (decide (length (workCh ch) < workCh_cap n)%nat); [left; do 3 eexists; by apply fs_send|].
    destruct (decide (e = None)); [right; split; [done|lia]|left; do 3 eexists; by apply fs_dispatch_cancelled].
  - left. destruct (decide (e = None)); [|do 3 eexists; by apply fs_recover_cancelled].
    destruct (isSubscriptionFailed err) eqn:S; do 3 eexists; [by apply (fs_rebind_start _ _ _ _ _ _ 0)|by apply fs_transient].
  - left. do 3 eexists. by apply fs_backoff_over.
  - left. destruct (decide (rebindAttempts c < Z.of_nat i)); do 3 eexists; [by apply fs_exhausted|].
    apply (fs_rebind_failed _ _ _ _ _ _ _ env (Some Canceled) (source c) Canceled); [lia|done].
  - left. destruct (decide (e = None)); [|do 3 eexists; by apply fs_rebind_cancelled].
    destruct (decide (rebindAttempts c <= Z.of_nat i)); do 3 eexists; [by apply fs_rebind_last|apply fs_rebind_sleep; [done|lia]].
  - left. do 3 eexists. by apply fs_rebind_wait_over.
  - left. do 3 eexists. apply fs_fatal. by apply Room.
  - left. do 3 eexists. by apply fs_close.
Qed.

(** A worker only ever waits for a batch, the end of the channel or the context. *)
Lemma worker_progress (env : BatchEnv) n e ch p :
  worker_ok cols p -> worker_exited p = false ->
  (worker_owes p = 1%nat -> (length (errCh ch) < errCh_cap n)%nat) ->
  workCh ch <> [] \/ workCh_closed ch = true ->
  exists l ch' p', worker_step n e ch p l ch' p'.
Proof.
  intros Ok Ex Room Q. destruct p as [w|w|w be b|w err|w|b]; try done.
  - do 3 eexists. by apply ws_connected.
  - destruct (workCh ch) as [|b q] eqn:E; [|do 3 eexists; by apply (ws_take _ _ _ _ env)].
    destruct Q; [done|]. do 3 eexists. by apply ws_closed.
  - destruct Ok as (R & _ & Ne). destruct (batch_settled cols be w b R Ne) as (w1 & tr & err & E & _).
    do 3 eexists. by eapply ws_processed.
  - do 3 eexists. apply ws_report. by apply Room.
Qed.

Definition finished (s : run_state) : Prop :=
  match main s with MReturned _ _ => closer s <> CWait | _ => False end.

Lemma own_progress (nenv : NatsEnv) (benv : BatchEnv) n s :
  (0 < n)%nat -> batches_inv n s -> control_inv n s -> ~ finished s -> exists s', own_step s s'.
Proof.
  intros N [Sz Cap _ _ Wk _] [_ Bud Cl Fe Ex _ _ Rs Wg _] NF.
  assert (Room : forall i p, pool s !! i = Some p -> worker_owes p = 1%nat -> (length (errCh (chans s)) < errCh_cap n)%nat).
  { intros i p L O. pose proof (sum_list_lookup worker_owes _ _ _ L). lia. }
  assert (Step : forall i p, pool s !! i = Some p -> worker_exited p = false ->
            workCh (chans s) <> [] \/ workCh_closed (chans s) = true -> exists s', own_step s s').
  { intros i p L X Q. destruct (worker_progress benv (length (pool s)) (ctx s) (chans s) p) as (l & ch' & p' & St); try done.
    - by eapply Forall_lookup_1.
    - rewrite Sz. by eapply Room.
    - eexists. by eapply os_worker. }
  destruct (fetch_done (fetch s)) eqn:D.
  - destruct (forallb worker_exited (pool s)) eqn:W.
    + destruct (decide (ctx s = None)) as [C|C].
      * assert (M : main s = MSelect). { unfold result_ok in Rs. destruct (main s); tauto. }
        destruct (Fe ltac:(by destruct (fetch s))) as [?|E]; [done|].
        destruct (errCh (chans s)) as [|e q] eqn:Q; [done|]. eexists. by eapply os_error.
      * destruct (monitor_done s) eqn:Mo; [|eexists; by apply os_monitor].
        assert (G : wg_zero s = true) by (unfold wg_zero; rewrite W, Mo; by destruct (fetch s)).
        unfold finished in NF. destruct (main s) as [|r|r d] eqn:M.
        -- destruct (ctx s) as [e|] eqn:E; [|done]. eexists. by eapply os_done.
        -- eexists. by eapply os_return.
        -- eexists. eapply os_closed; [|done]. destruct (closer s); [exfalso; by apply NF|done|exfalso; by apply NF].
    + apply not_true_iff_false in W. rewrite forallb_Forall_true in W.
      assert (W' : Exists (fun p => worker_exited p <> true) (pool s)).
      { apply not_Forall_Exists; [|exact W]. intros p. apply _. }
      apply Exists_exists in W' as (p & I & X). apply list_elem_of_lookup in I as [i L].
      apply (Step i p L); [by apply not_true_is_false|]. right. by rewrite Cl.
  - destruct (fetch_progress nenv (length (pool s)) (ctx s) (chans s) (fetch s) D) as [(l & ch' & f' & St)|[C Full]].
    + rewrite Sz. lia.
    + eexists. by eapply os_fetch.
    + destruct (pool s) as [|p ps] eqn:P; [cbn in Sz; lia|]. apply (Step 0%nat p); [done| |].
      * apply Forall_cons in Ex as [Ex _]. destruct (worker_exited p); [|done].
        destruct (Ex eq_refl) as [?|K]; [done|]. rewrite Cl in K. done.
      * left. intros E. rewrite E in Full. unfold workCh_cap in Full. cbn in Full. lia.
Qed.

(** ** The end of a cancelled run *)

(** How far each goroutine is from its end once the context is cancelled. *)
Definition fetch_rank (f : fetcher) : nat :=
  match f with
  | FLoop _ _ | FFatal _ _ | FRebindFailed _ _ _ _ => 2
  | FFetch _ _ => 5
  | FDispatch _ _ _ | FBackoff _ _ _ | FRebind _ _ _ _ => 3
  | FRecover _ _ _ | FRebindWait _ _ _ _ _ => 4
  | FClosing _ => 1
  | FDone _ => 0
  end.

Definition worker_rank (p : worker_pc) : nat :=
  match p with WConnect _ => 3 | WSelect _ => 2 | WBusy _ _ _ => 4 | WReport _ _ => 1 | WExit _ | WPanic _ => 0 end.

Definition rank (s : run_state) : nat :=
  4 * fetch_rank (fetch s) + 3 * length (workCh (chans s)) + sum_list (worker_rank <$> pool s) +
  (if monitor_done s then 0 else 1) +
  match main s with MSelect => 2 | MWait _ => 1 | MReturned _ _ => 0 end +
  match closer s with CIdle => 2 | CWait => 1 | CClosed => 0 end.

Lemma fetch_step_rank n e ch f l ch' f' :
  e <> None -> fetch_step n e ch f l ch' f' ->
  (4 * fetch_rank f' + 3 * length (workCh ch') < 4 * fetch_rank f + 3 * length (workCh ch))%nat.
Proof. intros C. destruct 1; cbn; rewrite ?length_app; cbn; first [lia|done]. Qed.

Lemma worker_step_rank n e ch p l ch' p' :
  worker_step n e ch p l ch' p' ->
  (worker_rank p' + 3 * length (workCh ch') < worker_rank p + 3 * length (workCh ch))%nat.
Proof.
  destruct 1 as [| | | |? ? ? ? ? Q| | |]; cbn; try lia.
  - unfold run_returned. case_match; cbn; lia.
  - unfold run_returned. case_match; cbn; lia.
  - rewrite Q. cbn. lia.
Qed.

Lemma own_step_rank s s' : ctx s <> None -> own_step s s' -> (rank s' < rank s)%nat.
Proof.
  intros C O. destruct O as [s l ch f F|s i p l ch p' L F|s _ M|s e q M Q|s M _|s e M _|s r M W|s K W]; unfold rank; cbn.
  - apply fetch_step_rank in F; [lia|done].
  - apply worker_step_rank in F. pose proof (sum_list_insert worker_rank (pool s) i p p' L). lia.
  - rewrite M. lia.
  - rewrite M. cbn. lia.
  - rewrite M. lia.
  - rewrite M. lia.
  - rewrite M. lia.
  - rewrite K. enough ((sum_list (worker_rank <$> (shutdown_pc <$> pool s)) <= sum_list (worker_rank <$> pool s))%nat) by lia.
    clear. induction (pool s) as [|p ps IH]; [done|]. rewrite !fmap_cons. destruct p; cbn in *; lia.
Qed.

Lemma outside_step_rank s s' : outside_step s s' -> (rank s' <= rank s)%nat.
Proof.
  destruct 1 as [s e C|s|s K|s i w cb L S]; unfold rank; cbn; rewrite ?K; try lia.
  pose proof (sum_list_insert worker_rank (pool s) i _ (WSelect (with_breaker w cb)) L) as E. cbn in E. lia.
Qed.

(** Runs that count the connector's own steps. *)
Inductive run_of : nat -> run_state -> run_state -> Prop :=
  | run_here s : run_of 0 s s
  | run_own k s s1 s' : own_step s s1 -> run_of k s1 s' -> run_of (S k) s s'
  | run_outside k s s1 s' : outside_step s s1 -> run_of k s1 s' -> run_of k s s'.

Lemma run_of_rtc k s s' : run_of k s s' -> rtc run_step s s'.
Proof. induction 1; [done| |]; (eapply rtc_l; [|done]); [by left|by right]. Qed.

Lemma ctx_stays s s' : ctx s <> None -> run_step s s' -> ctx s' <> None.
Proof. intros C [O|O]; destruct O; cbn; try done; by destruct (ctx _). Qed.

Lemma run_of_rank k s s' : ctx s <> None -> run_of k s s' -> (k + rank s' <= rank s)%nat.
Proof.
  intros C R. induction R as [s|k s s1 s' O R IH|k s s1 s' O R IH]; [lia| |].
  - pose proof (own_step_rank _ _ C O). specialize (IH (ctx_stays _ _ C (or_introl O))). lia.
  - pose proof (outside_step_rank _ _ O). specialize (IH (ctx_stays _ _ C (or_intror O))). lia.
Qed.

(** ** The source's connection *)

Lemma FetchBatch_conn text now msgs valid s : NatsConn (FetchBatch text now msgs valid s).1 = NatsConn s.
Proof. unfold FetchBatch, toMessageInfos. by repeat (case_match; cbn in *; simplify_eq). Qed.

Lemma Rebind_conn env e s : NatsConn (Rebind env e s).1 = NatsConn s.
Proof. unfold Rebind. by repeat case_match. Qed.

Lemma fetch_step_conn n e ch f l ch' f' :
  NatsConn (source (fetch_connector f)) = true -> fetch_step n e ch f l ch' f' ->
  NatsConn (source (fetch_connector f')) = true.
Proof.
  intros C. destruct 1 as
    [|ch c bo|ch c bo fi c1 b E|ch c bo fi c1 err E|ch c bo b E|ch c bo b E _|ch c bo b|ch c bo err|ch c bo err now _ F
    |ch c bo err _ F|ch c bo d|ch c bo d|ch c bo rb i Lt|ch c bo rb i env cx s now Le E|ch c bo rb i env cx s err Le E
    |ch c bo rb i|ch c bo rb i _ Lt|ch c bo rb i _ Le|ch c bo rb i d|ch c bo rb i d| |]; cbn in *; try exact C.
  1-2: unfold fetchOnce in E; cbn in E;
    pose proof (FetchBatch_conn (fi_error_text fi) (fi_now fi) (fi_fetched fi) (fi_valid fi) (source c)) as K;
    destruct (FetchBatch _ _ _ _ _) as [s r]; injection E as <- ->; cbn in K.
  6-7: pose proof (Rebind_conn env cx (source c)) as K; rewrite E in K; cbn in K; congruence.
  - unfold fetched. destruct (length _ =? 0)%nat; cbn; congruence.
  - cbn. congruence.
  - unfold dispatched. by destruct (length _ =? 0)%nat.
  - unfold dispatched. by destruct (length _ =? 0)%nat.
  - unfold dispatched. by destruct (length _ =? 0)%nat.
Qed.

(** ** The properties *)

Lemma Connect_conn env s s' : Connect env s = (s', None) -> NatsConn s' = true.
Proof. unfold Connect. repeat case_match; intros [= <-]; done. Qed.

Record run_inv (env : NatsEnv) (c : Connector) (n : nat) (s : run_state) : Prop := {
  ri_batches : batches_inv n s;
  ri_control : control_inv n s;
  ri_refines : corresponds c (NewBackoff fetchBackoffBase fetchBackoffMax) (events s) (fetch s);
  ri_conn : NatsConn (source (fetch_connector (fetch s))) = true;
  ri_drained : forall r d, main s = MReturned r d -> d = true
}.

Lemma run_inv_step env c n s s' : run_inv env c n s -> run_step s s' -> run_inv env c n s'.
Proof.
  intros [B C R N D] S. split.
  - by eapply batches_step.
  - destruct S; [by eapply control_own|by eapply control_outside].
  - destruct S as [O|O]; destruct O; cbn; rewrite ?app_nil_r; try exact R. by eapply corresponds_step.
  - destruct S as [O|O]; destruct O; cbn; try exact N. by eapply fetch_step_conn.
  - destruct S as [O|O]; destruct O; cbn; try exact D; try done. by intros r' d [= _ <-].
Qed.

Lemma running_inv env now c ws e s :
  launched ws -> running env now c ws e s ->
  exists src, Connect env (source c) = (src, None) /\ run_inv env (armed now (with_source c src)) (length ws) s.
Proof.
  intros L (s0 & St & R). unfold RunWithContext in St. destruct (Connect env (source c)) as [src [err|]] eqn:E; [done|].
  injection St as <-. exists src. split; [done|].
  assert (I : run_inv env (armed now (with_source c src)) (length ws) (launch now (with_source c src) ws e)).
  { split; [by apply batches_launch|apply control_launch|apply loops_nil|by eapply Connect_conn|done]. }
  clear - R I. induction R as [s|s s1 s' S R IH]; [done|]. apply IH. by eapply run_inv_step.
Qed.

(** C2. Between the fetch and the acknowledgment no batch is lost, duplicated or
    invented.  In every interleaving, the batches the fetch loop has sent are
    those the workers have processed, those they hold and those buffered,
    within the channel's capacity; each processed batch had each of its
    messages settled exactly once; and no worker still running has panicked,
    is closing or has a closed sink, so that none drops the batch it holds. *)
Theorem batches_conserved env now c ws e s :
  launched ws -> running env now c ws e s ->
  sent (events s) ≡ₚ (processed s).*1 ++ concat (held <$> pool s) ++ workCh (chans s) /\
  (length (workCh (chans s)) <= workCh_cap (length ws))%nat /\
  Forall settled (processed s) /\ Forall (worker_ok cols) (pool s).
Proof. intros L R. destruct (running_inv _ _ _ _ _ _ L R) as (src & _ & [[] _ _ _ _]). by split_and!. Qed.

(** No goroutine ever blocks on the error channel: whoever is about to send on
    it finds room. *)
Theorem error_channel_never_blocks env now c ws e s :
  launched ws -> running env now c ws e s ->
  (forall c' err, fetch s = FFatal c' err -> (length (errCh (chans s)) < errCh_cap (length ws))%nat) /\
  (forall i w err, pool s !! i = Some (WReport w err) -> (length (errCh (chans s)) < errCh_cap (length ws))%nat).
Proof.
  intros L R. destruct (running_inv _ _ _ _ _ _ L R) as (src & _ & [_ C _ _ _]). pose proof (ci_budget _ _ C) as B. split.
  - intros c' err E. rewrite E in B. cbn in B. lia.
  - intros i w err E. pose proof (sum_list_lookup worker_owes _ _ _ E). cbn in *. lia.
Qed.

(** The events of a run keep the schedule. *)
Lemma running_on_schedule env now c ws e s :
  0 < rebindBase c <= rebindMax c -> rebindMax c <= max_int64 / 2 -> 0 <= rebindAttempts c ->
  running env now c ws e s ->
  on_schedule (rebindBase c) (rebindMax c) (Z.to_nat (rebindAttempts c)) (events s) (fetch s).
Proof.
  intros B M A (s0 & St & R). unfold RunWithContext in St. destruct (Connect env (source c)) as [src [err|]]; [done|].
  injection St as <-.
  set (P s := on_schedule (rebindBase c) (rebindMax c) (Z.to_nat (rebindAttempts c)) (events s) (fetch s)).
  assert (P (launch now (with_source c src) ws e)) as Q.
  { apply launch_on_schedule. split_and!; cbn; [done|done|lia]. }
  fold (P s). induction R as [s|s s1 s' S R IH]; [done|]. apply IH. clear IH R. revert Q. unfold P.
  destruct S as [O|O]; destruct O; cbn; try done. intros Q. by eapply step_on_schedule.
Qed.


(** What the last three properties share. *)
Lemma running_progress (benv : BatchEnv) env now c ws e s :
  launched ws -> ws <> [] -> running env now c ws e s -> ~ finished s -> exists s', own_step s s'.
Proof.
  intros L Ne R NF. destruct (running_inv _ _ _ _ _ _ L R) as (src & _ & [B C _ _ _]).
  apply (own_progress env benv (length ws) s); try done. destruct ws; [done|]. cbn. lia.
Qed.

(** C5. The connector never deadlocks.  With at least one worker, as long as
    RunWithContext has not returned, or a Close waits, one of the connector's
    own goroutines can take a step, whatever the others wait for. *)
Theorem connector_never_deadlocks (benv : BatchEnv) env now c ws e s :
  launched ws -> ws <> [] -> running env now c ws e s -> ~ finished s -> exists s', own_step s s'.
Proof. by apply running_progress. Qed.

(** C6. A cancelled connector stops.  Once the context has an error, whether from
    outside, from a signal, from Close or after a fatal error, every run makes
    at most [rank s] further steps of its own, and can only stop making them
    when RunWithContext has returned (and Close, if called, too). *)
Theorem shutdown_terminates (benv : BatchEnv) env now c ws e s k s' :
  launched ws -> ws <> [] -> running env now c ws e s -> ctx s <> None -> run_of k s s' ->
  (k <= rank s)%nat /\ (~ finished s' -> exists s'', own_step s' s'').
Proof.
  intros L Ne R C K. split; [pose proof (run_of_rank _ _ _ C K); lia|].
  apply (running_progress benv env now c ws e s'); try done.
  destruct R as (s0 & E & R). exists s0. split; [done|]. etrans; [done|by eapply run_of_rtc].
Qed.

(** What the select of RunWithContext found when it ended with [r]: a signal; the
    error of the context; or the first error reported on the error channel. *)
Definition select_found (s : run_state) (r : option error) : Prop :=
  main s = MSelect /\
  match r with
  | None => signalled s = true
  | Some err => ctx s = Some err \/ exists q, errCh (chans s) = err :: q
  end.

(** A result comes from one step of the select, and stays. *)
Lemma decided env now c ws e s r :
  running env now c ws e s -> main s = MWait r \/ (exists d, main s = MReturned r d) ->
  exists s1 s2, running env now c ws e s1 /\ own_step s1 s2 /\ rtc run_step s2 s /\
    select_found s1 r /\ main s2 = MWait r /\ ctx s2 <> None.
Proof.
  intros (s0 & St & R). revert s R r. refine (rtc_ind_r _ s0 _ _); [intros r M|intros s s' R S IH r M].
  { unfold RunWithContext in St. destruct (Connect env (source c)) as [src [err|]]; [done|]. injection St as <-.
    destruct M as [M|[d M]]; discriminate M. }
  assert (Old : main s = MWait r \/ (exists d, main s = MReturned r d) -> exists s1 s2, running env now c ws e s1 /\
    own_step s1 s2 /\ rtc run_step s2 s' /\ select_found s1 r /\ main s2 = MWait r /\ ctx s2 <> None).
  { intros O. destruct (IH r O) as (s1 & s2 & R1 & O1 & R2 & F). exists s1, s2. split; [done|]. split; [done|].
    split; [by eapply rtc_r|done]. }
  assert (New : own_step s s' -> main s' = MWait r -> ctx s' <> None -> select_found s r -> exists s1 s2,
    running env now c ws e s1 /\ own_step s1 s2 /\ rtc run_step s2 s' /\ select_found s1 r /\ main s2 = MWait r /\ ctx s2 <> None).
  { intros O Mw C F. exists s, s'. by split; [exists s0|]. }
  destruct S as [O|O]; [assert (O' := O); destruct O as [| | |s1 e1 q Ms Q|s1 Ms Sg|s1 e1 Ms C|s1 r1 Ms W|]|destruct O];
    cbn in M; try (by apply Old).
  - destruct M as [[= <-]|[d [=]]]. apply (New O' eq_refl (cancel_stops _)). split; [done|]. right. by exists q.
  - destruct M as [[= <-]|[d [=]]]. apply (New O' eq_refl (cancel_stops _)). by split.
  - destruct M as [[= <-]|[d [=]]]. apply (New O' eq_refl); [cbn; congruence|]. split; [done|by left].
  - destruct M as [[=]|[d [= <- <-]]]. apply Old. by left.
Qed.

(** C17. The state RunWithContext returns in, and where its result comes from.
    The context is cancelled, every goroutine has ended, the work channel is
    closed, every sink is closed and the source's connection was drained; the
    batches sent are those processed and those left in the channel, which nobody
    settles, so that the server redelivers them.  The result was decided by one
    look of the select at an earlier state of the run: nil if a signal had
    arrived, and otherwise the error the context had, or the first error waiting
    on the error channel, which is a fatal one of the fetch loop. *)
Theorem returned_state env now c ws e s r d :
  launched ws -> running env now c ws e s -> main s = MReturned r d ->
  ctx s <> None /\ wg_zero s = true /\ workCh_closed (chans s) = true /\ d = true /\
  Forall (fun p => exists w, p = WExit w /\ closed (sink w) = true) (pool s) /\
  sent (events s) ≡ₚ (processed s).*1 ++ workCh (chans s) /\
  exists s1 s2, running env now c ws e s1 /\ main s1 = MSelect /\ own_step s1 s2 /\ main s2 = MWait r /\
    rtc run_step s2 s /\ ctx s2 <> None /\
    match r with
    | None => signalled s1 = true
    | Some err => ctx s1 = Some err \/ Fatal err ∈ events s1 /\ exists q, errCh (chans s1) = err :: q
    end.
Proof.
  intros L R M. destruct (running_inv _ _ _ _ _ _ L R) as (src & _ & [B C _ _ D]).
  pose proof (ci_result _ _ C) as Rs. unfold result_ok in Rs. rewrite M in Rs. destruct Rs as [Cx _].
  assert (W : wg_zero s = true) by (apply (ci_wg _ _ C); unfold waited_for; by rewrite M).
  assert (W' := W). unfold wg_zero in W'. apply andb_prop in W' as [W' _]. apply andb_prop in W' as [Fd We].
  apply forallb_Forall_true in We.
  assert (P : Forall (fun p => exists w, p = WExit w /\ closed (sink w) = true) (pool s)).
  { pose proof (bi_workers _ _ B) as K. eapply Forall_impl; [apply Forall_and; split; [exact We|exact K]|].
    intros p [X Y]. destruct p as [| | | |w|]; try done. by exists w. }
  split; [done|]. split; [done|]. split; [rewrite (ci_closed _ _ C); by destruct (fetch s)|]. split; [by eapply D|]. split; [done|]. split.
  { rewrite (bi_sent _ _ B). f_equiv. enough (concat (held <$> pool s) = []) as -> by done.
    clear - P. induction P as [|p ps (w & -> & _) _ IH]; [done|]. exact IH. }
  destruct (decided _ _ _ _ _ _ r R) as (s1 & s2 & R1 & O & R2 & (M1 & F) & M2 & C2); [right; by exists d|].
  exists s1, s2. split_and!; try done. destruct r as [err|]; [|done]. destruct F as [F|[q Q]]; [by left|].
  destruct (running_inv _ _ _ _ _ _ L R1) as (src1 & _ & [_ C1 _ _ _]). pose proof (ci_errs _ _ C1) as Er.
  rewrite Q in Er. apply Forall_cons in Er as [[Er|Er] _]; [right; split; [done|by exists q]|by left].
Qed.
End run.
