(* ===== verification/Boot.v ===== *)
(** * Boot: from the command line to the running process
    (connector/options.go MetricsConfig, connector/connector.go NewConnector,
    cmd/qdb-nats-connector/main.go and sdnotify.go)

    NewConnector builds the source, the breaker manager and the workers, and
    undoes what it built when a worker fails.  runMain loads the options, wires
    telemetry around the connector, runs it and stops everything.  What the
    third-party flag, metrics and systemd libraries answer is a parameter. *)
From S2P Require Import Prelude GoInt GoStr GoFloat GoTime Values Qdb FieldPath Convert Steps Compute Subject.
From S2P Require Import MapEntry Unpack Proto Schema Explode Filter Parser Yaml Backoff Breaker SinkOptions.
From S2P Require Import Sink Hooks Manager Source Stats Liveness Worker Health Connector Window Lag Telemetry.
From S2P Require Import Options Flags Factory System Orchestrator FetchThread Lifecycle.

(** MetricsConfig. *)
Definition MetricsConfig (o : Options.Options) : Config :=
  {| LagBuckets := {| Start := MetricsLagBucketStart o; Factor := MetricsLagBucketFactor o; BCount := MetricsLagBucketCount o |};
     WriteBuckets := {| Start := MetricsWriteBucketStart o; Factor := MetricsWriteBucketFactor o;
                        BCount := MetricsWriteBucketCount o |} |}.

(** ** NewConnector *)

Section boot.
Context `{GoLib, MapIter, ProtoLib}.
Context (ReadFile : string -> error + list Byte.byte) (yaml_Unmarshal : list Byte.byte -> error + YAMLConfig)
  (connect : HandleOptions -> option error).
Context (Stat : string -> option bool) (SplitHostPort : string -> bool).

(** The workers created, or the error of one and the others shut down. *)
Inductive created : Type :=
  | Created (m : option Manager) (ws : list Worker)
  | CreateFailed (err : error) (shut : list Worker).

Fixpoint create_workers (now : Z) (o : Options.Options) (sinkView : SinkOpts.OptionsProvider) (tableWrites : bool)
    (count : nat) (i : Z) (m : option Manager) (made : list Worker) : result created :=
  match count with
  | O => Ok (Created m made)
  | S count =>
      match NewWorker ReadFile yaml_Unmarshal connect now i o sinkView tableWrites m with
      | Ok (m, w) => create_workers now o sinkView tableWrites count (i + 1) m (made ++ [w])
      | Err err => Ok (CreateFailed err (shutdown <$> made))
      | Panic => Panic
      end
  end.

(** The source options: those of the getters, the consumer and the metrics. *)
Definition source_options (o : Options.Options) (srcView : SourceOpts.OptionsProvider) (metrics : bool) : SourceOpts.Options :=
  let s := SourceOpts.FromOptionsProvider srcView in
  {| SourceOpts.Endpoint := SourceOpts.Endpoint s; SourceOpts.StreamName := SourceOpts.StreamName s;
     SourceOpts.ConsumerName := NatsConsumerName o; SourceOpts.CredsFile := SourceOpts.CredsFile s;
     SourceOpts.TLSCAFile := SourceOpts.TLSCAFile s; SourceOpts.BatchSize := SourceOpts.BatchSize s;
     SourceOpts.BatchTimeout := SourceOpts.BatchTimeout s; SourceOpts.FetchTimeout := SourceOpts.FetchTimeout s;
     SourceOpts.Metrics := metrics |}.

Inductive construction : Type :=
  | Constructed (c : Connector) (ws : list Worker) (m : option Manager)
  | Refused (err : error) (shut : list Worker).

Definition NewConnector (now : Z) (o : Options.Options) (v : views) (metrics tableWrites : bool) : result construction :=
  match validateOptions Stat SplitHostPort o with
  | Some err => Ok (Refused err [])
  | None =>
      let manager := if CircuitBreakerShared o then Some (connector_manager o) else None in
      match NewSource (source_options o v.2 metrics) with
      | Err err => Ok (Refused err [])
      | Panic => Panic
      | Ok src =>
          r ← create_workers now o v.1 tableWrites (Z.to_nat (Workers o)) 0 manager [];
          match r with
          | Created m ws => Ok (Constructed (Connector.NewConnector src) ws m)
          | CreateFailed err shut => Ok (Refused err shut)   (* and the source closed *)
          end
      end
  end.
End boot.

(** ** Accessors of the running connector (connector/stats.go, health.go) *)

Definition WorkChannelDepth (ch : channels) : Z := Z.of_nat (length (workCh ch)).

(** [ready] is natsReady. *)
Definition ConsumerPending (ready : bool) (now : Z) (info : error + Z) (s : Source) : Source * Z * option error :=
  if ready then PendingMessages now (10 * Second) info s
  else (s, 0, Some (NewConnectionFailedError "connector" "consumer-info" (Some (NatsError NatsInvalidConnection)))).

(** [connected] is IsConnected of the connection. *)
Definition NatsConnected (ready connected : bool) (s : Source) : bool := ready && NatsConn s && connected.

Definition Healthy_ `{MapIter} (h : healthState) (workers : list (string * CircuitBreaker)) : bool :=
  Healthy (Health h workers).

(** healthMonitor.run: one evaluation at once and one per tick. *)
Definition monitor_run (m : healthMonitor) (start : Z) (ticks : list Z) (h : healthState) : healthState :=
  foldl (fun h now => evaluate m now h) (evaluate m start h) ticks.

(** ** The systemd watchdog *)

(** newWatchdogPetter: the interval, when SdWatchdogEnabled asks for one. *)
Definition newWatchdogPetter (enabled : error + Z) : option Z :=
  match enabled with
  | inl _ => None
  | inr timeout => if timeout <=? 0 then None else Some (go_div timeout 2)
  end.

(** pet: whether WATCHDOG=1 was sent. *)
Definition pet (last : option Z) (health : HealthSummary) (now : Z) : bool := (Alive last health now).1.

(** ** runMain *)

(** What happens around the process, and what it does, in order. *)
Record main_env : Type := {
  me_args : list string;
  me_metrics : option error;               (* metrics.New *)
  me_build_info : option error;            (* RegisterBuildInfo *)
  me_now : Z;
  me_collector : option error;             (* Register of the collector *)
  me_listen : option error;                (* net.Listen *)
  me_watchdog : error + Z;                 (* SdWatchdogEnabled *)
  me_run : option error;                   (* what RunWithContext returns *)
  me_shutdown : option error
}.

Inductive main_event : Type :=
  | VersionShown
  | ServerStarted | ServerStopped
  | StatsStarted | StatsStopped
  | WatchdogStarted (interval : Z) | WatchdogStopped
  | Ran
  | ConnectorClosed.

Section main.
Context `{GoLib, MapIter, ProtoLib, Process}.
Context (ReadFile : string -> error + list Byte.byte) (yaml_Unmarshal : list Byte.byte -> error + YAMLConfig)
  (connect : HandleOptions -> option error).
Context (zero_comp : Compression) (zero_dedup : WriterDeduplicationMode).

(** buildMetrics: whether there is a registry. *)
Definition buildMetrics (env : main_env) (o : Options.Options) : error + bool :=
  if String.eqb (HTTPAddr o) EmptyString && (StatsInterval o <=? 0) then inr false
  else match me_metrics env with
       | Some err => inl err
       | None => match me_build_info env with Some err => inl err | None => inr true end
       end.

(** startTelemetry: whether a server runs. *)
Definition startTelemetry (env : main_env) (addr : string) (reg : bool) : error + bool :=
  if String.eqb addr EmptyString then inr false
  else match (if reg then me_collector env else None) with
       | Some err => inl err
       | None => match me_listen env with Some err => inl err | None => inr true end
       end.

(** buildStats: whether a logger is built. *)
Definition buildStats (o : Options.Options) : bool := negb (StatsInterval o <=? 0).

Definition when (b : bool) (e : main_event) : list main_event := if b then [e] else [].

(** Starting and stopping what may not be there; a failing stop is logged. *)
Definition startStats (sl : bool) : list main_event := when sl StatsStarted.
Definition stopStats (sl : bool) : list main_event := when sl StatsStopped.
Definition startWatchdog (wd : option Z) : list main_event := match wd with Some i => [WatchdogStarted i] | None => [] end.
Definition stopWatchdog (wd : option Z) : list main_event := match wd with Some _ => [WatchdogStopped] | None => [] end.
Definition stopTelemetry (srv : bool) : list main_event := when srv ServerStopped.

(** The part of runMain that follows a constructed connector, its deferred
    Close last. *)
Definition run_connector (env : main_env) (o : Options.Options) (reg : bool) : Z * list main_event :=
  match startTelemetry env (HTTPAddr o) reg with
  | inl _ => (1, [ConnectorClosed])
  | inr tel =>
      let stats := buildStats o in
      let wd := newWatchdogPetter (me_watchdog env) in
      let code := match me_run env with
                  | Some err => if is_canceled err then 0 else 1
                  | None => 0
                  end in
      (code,
       when tel ServerStarted ++ startStats stats ++ startWatchdog wd ++ [Ran] ++
       stopWatchdog wd ++ stopStats stats ++ stopTelemetry tel ++ [ConnectorClosed])
  end.

Definition is_version (arg : string) : bool := String.eqb arg "--version" || String.eqb arg "-v".

(** The exit code and the events; a panic of NewConnector ends the process
    ([None]).  The help flag makes usage exit with 0. *)
Definition runMain (env : main_env) : option (Z * list main_event) :=
  if existsb is_version (me_args env) then Some (0, [VersionShown])
  else match LoadConfig zero_comp zero_dedup (me_args env) with
  | Ok (Exited code) => Some (code, [])
  | Ok HelpShown => Some (0, [])
  | Err _ => Some (1, [])
  | Panic => None
  | Ok (Loaded o v) =>
      match buildMetrics env o with
      | inl _ => Some (1, [])
      | inr reg =>
          match NewConnector ReadFile yaml_Unmarshal connect Stat SplitHostPort (me_now env) o v reg (buildStats o) with
          | Ok (Constructed _ _ _) => Some (run_connector env o reg)
          | Ok (Refused _ _) => Some (1, [])
          | Err _ | Panic => None
          end
      end
  end.
End main.

(** ** Laws *)

Section construct.
Context `{GoLib, MapIter, ProtoLib}.
Context (ReadFile : string -> error + list Byte.byte) (yaml_Unmarshal : list Byte.byte -> error + YAMLConfig)
  (connect : HandleOptions -> option error).

(** A manager whose breaker for the cluster is, or will be, usable. *)
Definition manager_ok (m : Manager) : Prop :=
  (breakers m !! "qdb-cluster" = None /\ (defaultJitterMax m <= 0 \/ 10 <= defaultTimeout m)) \/
  exists p cb, breakers m !! "qdb-cluster" = Some p /\ heap m !! p = Some cb /\ breaker_total cb.

Lemma ForResource_ok now m m' p :
  manager_ok m -> ForResource now m "qdb-cluster" = (m', p) ->
  manager_ok m' /\ exists cb, heap m' !! p = Some cb /\ breaker_total cb.
Proof.
  unfold ForResource, lookup_breaker, create_breaker. intros [[N J]|(q & cb & N & Hq & T)]; rewrite !N.
  - intros [= <- <-]. set (cb := NewCircuitBreaker _ _ _ _ _ _ _ _ _).
    assert (T : breaker_total cb) by exact J.
    assert (L : (heap m ++ [cb]) !! length (heap m) = Some cb) by by rewrite lookup_app_r, Nat.sub_diag.
    split; [|by exists cb]. right. exists (length (heap m)), cb. split_and!; try done. apply lookup_insert_eq.
  - intros [= <- <-]. split; [right; by exists q, cb|by exists cb].
Qed.

Lemma new_worker_parts now i o sinkView tw m m' w mp f :
  (if m is Some m then manager_ok m else CircuitBreakerJitterMax o <= 0 \/ 10 <= CircuitBreakerTimeout o) ->
  NewParserWithOptions ReadFile yaml_Unmarshal (ParserType o) (ParserConfig o) = Ok (mp, f) ->
  NewWorker ReadFile yaml_Unmarshal connect now i o sinkView tw m = Ok (m', w) ->
  (if m is Some _ then exists m1, m' = Some m1 /\ manager_ok m1 else m' = None) /\
  parser w = mp /\ workerID w = "worker-" +:+ FormatInt i /\ closing w = false /\ closed (sink w) = false /\
  breaker_total (circuitBreaker w) /\ 0 < SinkOpts.RetryAttempts (Sink.Options_ (sink w)).
Proof.
  intros J P E. unfold NewWorker in E. rewrite P in E. cbn [mbind res_bind] in E.
  assert (B : exists m1 cb, match m with
      | Some m => let '(m, p) := ForResource now m "qdb-cluster" in (Some m, heap m !! p)
      | None => (None, Some (worker_breaker o now)) end = (m1, Some cb) /\ breaker_total cb /\
      (if m is Some _ then exists m2, m1 = Some m2 /\ manager_ok m2 else m1 = None)).
  { destruct m as [m|]; [|do 2 eexists; by split].
    destruct (ForResource now m "qdb-cluster") as [m1 p] eqn:Fr.
    destruct (ForResource_ok _ _ _ _ J Fr) as (Ok1 & cb & L & T). exists (Some m1), cb. rewrite L.
    split; [done|]. split; [done|]. by exists m1. }
  destruct B as (m1 & cb & Eb & T & M). rewrite Eb in E. apply res_bind_ok in E as (s & S & E).
  injection E as <- <-. unfold NewSink in S. apply res_bind_ok in S as (_ & _ & S). apply res_bind_ok in S as (h & _ & S).
  destruct (connect h); [done|]. injection S as <-. cbn. rewrite SinkOpts.FromOptionsProvider_fields. by split_and!.
Qed.

Lemma create_workers_shape now o sinkView tw cols mp f :
  LawfulParser mp cols -> NewParserWithOptions ReadFile yaml_Unmarshal (ParserType o) (ParserConfig o) = Ok (mp, f) ->
  CircuitBreakerJitterMax o <= 0 \/ 10 <= CircuitBreakerTimeout o ->
  forall count i m made m' ws,
    (if m is Some m then manager_ok m else True) ->
    create_workers ReadFile yaml_Unmarshal connect now o sinkView tw count i m made = Ok (Created m' ws) ->
    exists new, ws = made ++ new /\ launched cols new /\
      workerID <$> new = (fun k => "worker-" +:+ FormatInt (i + Z.of_nat k)) <$> seq 0 count.
Proof.
  intros L P J. induction count as [|count IH]; intros i m made m' ws M E; cbn [create_workers] in E.
  { injection E as <- <-. exists []. split; [by rewrite app_nil_r|]. by split; [constructor|]. }
  destruct (NewWorker _ _ _ now i o sinkView tw m) as [[m1 w]|e|] eqn:W; [|done..].
  assert (M0 : if m is Some m then manager_ok m else CircuitBreakerJitterMax o <= 0 \/ 10 <= CircuitBreakerTimeout o)
    by by destruct m.
  destruct (new_worker_parts _ _ _ _ _ _ _ _ _ _ M0 P W) as (M1 & Pw & Id & Cw & Sw & Bw & Rw).
  assert (M2 : if m1 is Some m then manager_ok m else True)
    by (destruct m; [destruct M1 as (m2 & -> & ?)|rewrite M1]; done).
  destruct (IH _ _ _ _ _ M2 E) as (new & -> & Ln & In). exists (w :: new).
  split; [by rewrite <- app_assoc|]. split.
  - constructor; [|done]. split; [|done]. split; [by rewrite Pw|]. done.
  - rewrite fmap_cons, Id, In. cbn [seq fmap list_fmap]. rewrite Z.add_0_r. f_equal.
    rewrite <- fmap_S_seq, <- list_fmap_compose. apply list_fmap_ext. intros k j _. cbn. do 2 f_equal. lia.
Qed.
End construct.

Lemma NewSource_options opts s : NewSource opts = Ok s -> Source.Options_ s = opts.
Proof. unfold NewSource. intros E. inv_res. by subst. Qed.

Lemma worker_names_distinct n :
  Z.of_nat n <= max_int64 -> NoDup ((fun k => "worker-" +:+ FormatInt (0 + Z.of_nat k)) <$> seq 0 n).
Proof.
  intros M. apply NoDup_fmap_2_strong; [|apply NoDup_seq].
  intros a b A%elem_of_seq B%elem_of_seq F. apply (inj (String.append "worker-")) in F.
  apply FormatInt_inj in F; [lia|unfold in_int64, min_int64, max_int64 in *; lia..].
Qed.

Lemma construct_shape `{GoLib, MapIter, ProtoLib, !GoLibLaws, !ProtoLibLaws, !StandardTimestamps}
    ReadFile yaml_Unmarshal connect Stat Split now o v metrics tw c ws m :
  NewConnector ReadFile yaml_Unmarshal connect Stat Split now o v metrics tw = Ok (Constructed c ws m) ->
  CircuitBreakerJitterMax o <= 0 \/ 10 <= CircuitBreakerTimeout o -> in_int64 (Workers o) ->
  length ws = Z.to_nat (Workers o) /\ ws <> [] /\ NoDup (workerID <$> ws) /\ (exists cols, launched cols ws) /\
  Source.Options_ (source c) = source_options o v.2 metrics /\ rebindAttempts c = rebindMaxAttempts.
Proof.
  intros E J I. unfold NewConnector in E. destruct (validateOptions Stat Split o) eqn:V; [done|].
  apply validateOptions_ok in V as (W & _).
  destruct (NewSource (source_options o v.2 metrics)) as [src|e|] eqn:S; [|done..].
  apply res_bind_ok in E as (r & R & E). destruct r as [m1 ws1|e shut]; [|done]. injection E as <- -> ->.
  assert (P : exists mp f, NewParserWithOptions ReadFile yaml_Unmarshal (ParserType o) (ParserConfig o) = Ok (mp, f)).
  { destruct (Z.to_nat (Workers o)) eqn:N; [lia|]. cbn [create_workers] in R.
    destruct (NewWorker _ _ _ _ _ _ _ _ _) as [[m2 w]|e|] eqn:X; [|done..]. unfold NewWorker in X.
    apply res_bind_ok in X as ([mp f] & X & _). by exists mp, f. }
  destruct P as (mp & f & P). pose proof P as P'. apply NewParser_lawful in P' as [cols L].
  assert (M0 : if (if CircuitBreakerShared o then Some (connector_manager o) else None) is Some m then manager_ok m else True)
    by (destruct (CircuitBreakerShared o); [unfold manager_ok; left; by split|done]).
  destruct (create_workers_shape _ _ _ _ _ _ _ cols mp f L P J _ _ _ _ _ _ M0 R)
    as (new & -> & Ln & Names). cbn [app] in *.
  assert (Len : length new = Z.to_nat (Workers o)).
  { rewrite <- (length_fmap workerID), Names. by rewrite length_fmap, length_seq. }
  split_and!; try done.
  - intros ->. cbn in Len. lia.
  - rewrite Names. apply worker_names_distinct. destruct I. lia.
  - by exists cols.
  - by apply NewSource_options.
  - apply _.
  - apply _.
  - apply _.
Qed.

(** A connector NewConnector returns is ready to run.  It has one worker per
    configured worker, at least one, with distinct names; all of them can run
    (their breakers, the shared one or their own, do not panic, their parsers
    are lawful for one schema, their sinks are open); and its source carries
    the endpoint, stream and consumer of the flags. *)
Theorem constructed_connector_ready `{GoLib, MapIter, ProtoLib, !GoLibLaws, !ProtoLibLaws, !StandardTimestamps}
    ReadFile yaml_Unmarshal connect Stat Split now o v metrics tw c ws m :
  NewConnector ReadFile yaml_Unmarshal connect Stat Split now o v metrics tw = Ok (Constructed c ws m) ->
  CircuitBreakerJitterMax o <= 0 \/ 10 <= CircuitBreakerTimeout o -> in_int64 (Workers o) ->
  length ws = Z.to_nat (Workers o) /\ ws <> [] /\ NoDup (workerID <$> ws) /\ (exists cols, launched cols ws) /\
  Source.Options_ (source c) = source_options o v.2 metrics /\ rebindAttempts c = rebindMaxAttempts.
Proof. by apply construct_shape. Qed.


Definition stop_of (e : main_event) : main_event :=
  match e with
  | ServerStarted => ServerStopped
  | StatsStarted => StatsStopped
  | WatchdogStarted _ => WatchdogStopped
  | e => e
  end.

Definition is_start (e : main_event) : Prop :=
  match e with ServerStarted | StatsStarted | WatchdogStarted _ => True | _ => False end.

Section process.
Context `{GoLib, MapIter, ProtoLib, Process}.
Context (ReadFile : string -> error + list Byte.byte) (yaml_Unmarshal : list Byte.byte -> error + YAMLConfig)
  (connect : HandleOptions -> option error).
Context (zero_comp : Compression) (zero_dedup : WriterDeduplicationMode).

Lemma run_connector_cases env o reg code ev :
  run_connector env o reg = (code, ev) ->
  (code = 1 /\ ev = [ConnectorClosed]) \/
  exists up, Forall is_start up /\ ev = up ++ [Ran] ++ (stop_of <$> reverse up) ++ [ConnectorClosed] /\
    (code = 0 <-> me_run env = None \/ me_run env = Some Canceled).
Proof.
  unfold run_connector. destruct (startTelemetry _ _ _) as [err|tel]; [intros [= <- <-]; by left|].
  intros [= <- <-]. right.
  exists (when tel ServerStarted ++ when (buildStats o) StatsStarted ++
          match newWatchdogPetter (me_watchdog env) with Some i => [WatchdogStarted i] | None => [] end).
  split; [|split].
  - by destruct tel, (buildStats o), (newWatchdogPetter _); repeat constructor.
  - by destruct tel, (buildStats o), (newWatchdogPetter _).
  - destruct (me_run env) as [err|]; [|split; [by left|done]].
    unfold is_canceled. destruct err; split; try done; try (by right); intros [?|?]; done.
Qed.

(** C33. The process cleans up after itself and reports the truth.  Whatever the
    parts answer, once the connector has run every service that was started
    (probe server, statistics, watchdog) is stopped, in the reverse order, and
    the connector is closed last, with exit code 0 exactly when the run
    ended without an error or was cancelled; and when it never ran, nothing
    is left behind but a closed connector, and the exit code is 1 unless only
    the version or the help was asked for, or 2 when the arguments do not
    parse. *)
Theorem process_cleans_up env code ev :
  runMain ReadFile yaml_Unmarshal connect zero_comp zero_dedup env = Some (code, ev) ->
  (Ran ∈ ev ->
     exists up, Forall is_start up /\ ev = up ++ [Ran] ++ (stop_of <$> reverse up) ++ [ConnectorClosed] /\
       (code = 0 <-> me_run env = None \/ me_run env = Some Canceled)) /\
  (Ran ∉ ev ->
     (ev = [] \/ ev = [VersionShown] \/ ev = [ConnectorClosed]) /\
     (code = 1 \/ code = 0 /\ (existsb is_version (me_args env) = true \/
        LoadConfig zero_comp zero_dedup (me_args env) = Ok HelpShown) \/
      code = 2 /\ exists e, parseArgs (me_args env) NewFlagSet = inl e)).
Proof.
  unfold runMain. destruct (existsb is_version (me_args env)) eqn:V.
  { intros [= <- <-]. split; [by intros ?%list_elem_of_singleton|]. intros _. split; [auto|right; left; auto]. }
  destruct (LoadConfig _ _ (me_args env)) as [[k| |o v]|e|] eqn:Lo; [| | | |done].
  { intros [= <- <-]. split; [by intros ?%elem_of_nil|]. intros _. split; [auto|do 2 right]. by apply LoadConfig_exited in Lo. }
  { intros [= <- <-]. split; [by intros ?%elem_of_nil|]. intros _. split; [auto|]. right. left. auto. }
  2: intros [= <- <-]; split; [by intros ?%elem_of_nil|]; intros _; split; auto.
  destruct (buildMetrics env o) as [e|reg]; [intros [= <- <-]; split; [by intros ?%elem_of_nil|]; intros _; split; auto|].
  destruct (NewConnector _ _ _ _ _ _ _ _ _ _) as [[c ws m|e shut]|e|]; [| |done..].
  2: intros [= <- <-]; split; [by intros ?%elem_of_nil|]; intros _; split; auto.
  intros [= E]. apply run_connector_cases in E as [[-> ->]|(up & U & -> & C)].
  - split; [by intros ?%list_elem_of_singleton|]. intros _. split; auto.
  - split; [intros _; by exists up|]. intros N. exfalso. apply N. set_solver.
Qed.
End process.

(** The watchdog is fed exactly on the verdict of the liveness probe: a pet is
    sent when and only when /livez answers 200 at that instant. *)
Theorem pet_iff_livez last health now : pet last health now = true <-> (handleLivez last health now).1 = 200.
Proof.
  unfold pet, Alive, handleLivez, probeStatus. cbn. by destruct (Alive_ _).
Qed.
