(* ===== verification/Server.v ===== *)
(** * Server: logging, the HTTP surface and the watchdog loop
    (internal/logging/logging.go, internal/telemetry/server.go and probes.go,
    cmd/qdb-nats-connector/sdnotify.go)

    The handler of the log is chosen by three environment variables.  The probe
    server routes a path to a handler that answers with a status and a JSON
    text.  The watchdog loop turns ticks into pets.  Sockets, the log output
    and the text of a timestamp are parameters; texts are ASCII. *)
From S2P Require Import Prelude GoInt GoStr GoParse GoUtf8 GoFloat GoTime Values GoJson Breaker Health Flags Boot.
From Stdlib Require Import Ascii.

(** ** Logging *)

Section logging.
Context `{Process}.

(** os.Getenv. *)
Definition Getenv (name : string) : string := default EmptyString (LookupEnv name).

Inductive Level : Type := LevelDebug | LevelInfo | LevelWarn | LevelError.

Definition getLogLevel : Level :=
  let l := ToUpper (Getenv "LOG_LEVEL") in
  if String.eqb l "DEBUG" then LevelDebug
  else if String.eqb l "WARN" then LevelWarn
  else if String.eqb l "ERROR" then LevelError
  else LevelInfo.

Definition getLogFormat : string :=
  let format := Getenv "LOG_FORMAT" in
  if String.eqb format EmptyString then "json" else ToLower format.

Definition isDevelopment : bool :=
  let env := ToLower (Getenv "ENVIRONMENT") in
  String.eqb env "development" || String.eqb env "dev" || String.eqb env EmptyString.

Inductive log_handler : Type := TextHandler | JSONHandler.

Record Logger : Type := { handler : log_handler; level : Level; AddSource : bool; attrs : list (string * string) }.

Definition Setup : Logger := {|
  handler := if String.eqb getLogFormat "text" then TextHandler else JSONHandler;
  level := getLogLevel; AddSource := isDevelopment; attrs := [] |}.

Definition SetupDefault (version instanceID : string) : Logger :=
  let logger := Setup in
  {| handler := handler logger; level := level logger; AddSource := AddSource logger;
     attrs := [("service", "qdb-nats-connector"); ("version", version); ("instance_id", instanceID)] |}.
End logging.

(** ** JSON *)

(** A member of a struct, and a string. *)
Definition member (name : string) (j : Json.jvalue) : list Byte.byte * Json.jvalue := (bytes_of_string name, j).
Definition text (s : string) : Json.jvalue := Json.JString (bytes_of_string s).

(** ** The probe server *)

Inductive route : Type := Livez | Readyz | MetricsRoute.

(** [listener] is whether the socket is bound, [served] whether it answers. *)
Record Server : Type := { routes : list (string * route); listening : bool; served : bool }.

(** What the handlers read when a request arrives. *)
Record HealthSource : Type := { src_health : HealthSummary; src_heartbeat : option Z; src_connected : bool }.

Record response : Type := { status : Z; content_type : string; body : string }.

Section server.
Context (time_text : option Z -> string) (exposition : response).

(** [listened] is the answer of net.Listen. *)
Definition NewServer (addr : string) (listened : option error) (gatherer : bool) : result Server :=
  match listened with
  | Some err => Err (NewConnectionFailedError "telemetry" addr (Some err))
  | None =>
      Ok {| routes := [("/livez", Livez); ("/readyz", Readyz)] ++ (if gatherer then [("/metrics", MetricsRoute)] else []);
            listening := true; served := false |}
  end.

Definition Start (s : Server) : Server := {| routes := routes s; listening := listening s; served := listening s |}.

(** [stopped] is the answer of the HTTP server's Shutdown, which closes the
    listener first. *)
Definition Shutdown (s : Server) (stopped : option error) : Server * option error :=
  ({| routes := routes s; listening := false; served := false |},
   match stopped with
   | Some err => Some (NewUnexpectedError "telemetry" "http server shutdown failed" (Some err))
   | None => None
   end).

(** The error Serve ends with is logged unless it is that of a Shutdown. *)
Definition serve_logged (ended : option error) (closed : bool) : option error := if closed then None else ended.

Definition livez_json (v : liveness) : Json.jvalue :=
  Json.JObject ([member "alive" (Json.JBool (Alive_ v))] ++
    (if String.eqb (Reason v) EmptyString then [] else [member "reason" (text (Reason v))]) ++
    (match LConditions v with [] => [] | cs => [member "conditions" (Json.JArray (text <$> cs))] end)).

(** A map is encoded in the order of its keys. *)
Definition health_json (h : HealthSummary) : Json.jvalue :=
  Json.JObject [
    member "healthy" (Json.JBool (Healthy h)); member "fetch_healthy" (Json.JBool (FetchHealthy h));
    member "conditions" (Json.JArray (text <$> Conditions h));
    member "last_fetch_success" (text (time_text (LastFetchSuccess h))); member "breaker_open" (Json.JBool (BreakerOpen h));
    member "breaker_states" (Json.JObject ((fun kv => member kv.1 (text kv.2)) <$>
       merge_sort (fun a b => string_le a.1 b.1) (map_to_list (BreakerStates_of h))))].

Definition readyz_json (v : readiness) : Json.jvalue :=
  Json.JObject [member "ready" (Json.JBool (Ready v)); member "nats_connected" (Json.JBool (NatsConnected_ v));
    member "health" (health_json (RHealth v))].

(** writeJSON: the encoder ends the text with a newline. *)
Definition newline : string := String (ascii_of_nat 10) EmptyString.
Definition writeJSON (status : Z) (body_ : Json.jvalue) : response :=
  {| status := status; content_type := "application/json"; body := string_of_bytes (Json.print body_) +:+ newline |}.

Definition serve_livez (src : HealthSource) (now : Z) : response :=
  let '(status, verdict) := handleLivez (src_heartbeat src) (src_health src) now in writeJSON status (livez_json verdict).

Definition serve_readyz (src : HealthSource) : response :=
  let '(status, verdict) := handleReadyz (src_connected src) (src_health src) in writeJSON status (readyz_json verdict).

Definition not_found : response :=
  {| status := 404; content_type := "text/plain; charset=utf-8"; body := "404 page not found" +:+ newline |}.

(** The mux, for a path in canonical form (the library redirects any other): the
    patterns have no trailing slash and match whole paths. *)
Definition handle (s : Server) (src : HealthSource) (now : Z) (path : string) : option response :=
  if negb (served s) then None
  else Some match snd <$> List.find (fun r => String.eqb r.1 path) (routes s) with
            | Some Livez => serve_livez src now
            | Some Readyz => serve_readyz src
            | Some MetricsRoute => exposition
            | None => not_found
            end.
End server.

(** ** The watchdog loop *)

(** What the select of run receives. *)
Inductive watchdog_event : Type := Tick (last : option Z) (health : HealthSummary) (now : Z) | Stopped.

(** The pets of a run: one per tick with a good verdict, until it is stopped. *)
Fixpoint watchdog_run (events : list watchdog_event) : list bool :=
  match events with
  | [] | Stopped :: _ => []
  | Tick last health now :: events => pet last health now :: watchdog_run events
  end.

(** sdNotifyReady: whether READY=1 was acknowledged; a failure is only logged. *)
Definition sdNotifyReady (answer : error + bool) : bool := match answer with inr acked => acked | inl _ => false end.

(** ** Laws *)

Section laws.
Context (time_text : option Z -> string) (exposition : response).

(** The text that writeJSON sends for a document without numbers and with few
    levels is JSON, and reads back as the document. *)
Lemma writeJSON_reads n j :
  Json.numbers_ok j = true -> Json.jdepth j <= Json.maxNestingDepth ->
  exists line, body (writeJSON n j) = string_of_bytes line +:+ newline /\ Json.parse line = Some (Json.norm j).
Proof. intros N D. exists (Json.print j). split; [done|]. by apply Json.parse_print. Qed.

Lemma texts_ok {A} (f : A -> Json.jvalue) l :
  (forall x, Json.numbers_ok (f x) = true /\ Json.jdepth (f x) = 0) ->
  forallb Json.numbers_ok (f <$> l) = true /\ foldr (fun j d => Z.max (Json.jdepth j) d) 0 (f <$> l) = 0.
Proof. intros F. induction l as [|x l [N D]]; [done|]. destruct (F x) as [Nx Dx]. cbn. by rewrite Nx, Dx, D. Qed.

Lemma members_ok {A} (f : A -> list Byte.byte * Json.jvalue) l :
  (forall x, Json.numbers_ok (f x).2 = true /\ Json.jdepth (f x).2 = 0) ->
  forallb (fun m => Json.numbers_ok m.2) (f <$> l) = true /\ foldr (fun m d => Z.max (Json.jdepth m.2) d) 0 (f <$> l) = 0.
Proof. intros F. induction l as [|x l [N D]]; [done|]. destruct (F x) as [Nx Dx]. cbn. by rewrite Nx, Dx, D. Qed.

(** Both verdicts do. *)
Lemma livez_is_json v : Json.parse (Json.print (livez_json v)) = Some (Json.norm (livez_json v)).
Proof.
  destruct (texts_ok text (LConditions v)) as [N D]; [done|]. apply Json.parse_print; unfold livez_json;
    destruct (String.eqb _ _), (LConditions v); cbn in *; rewrite ?N, ?D; done.
Qed.

Lemma readyz_is_json v : Json.parse (Json.print (readyz_json time_text v)) = Some (Json.norm (readyz_json time_text v)).
Proof.
  destruct (texts_ok text (Conditions (RHealth v))) as [N D]; [done|].
  destruct (members_ok (fun kv => member kv.1 (text kv.2))
    (merge_sort (fun a b => string_le a.1 b.1) (map_to_list (BreakerStates_of (RHealth v))))) as [N' D']; [done|].
  apply Json.parse_print; unfold readyz_json, health_json; cbn -[fmap]; rewrite ?N, ?D, ?N', ?D'; done.
Qed.

(** A document as its reader sees it: what is under a path of names, the last
    member of a name counting, and the text of a string. *)
Fixpoint lookup_path (path : list string) (j : Json.jvalue) : option Json.jvalue :=
  match path, j with
  | [], _ => Some j
  | k :: path, Json.JObject l => m ← List.find (fun m => bool_decide (m.1 = bytes_of_string k)) (reverse l); lookup_path path m.2
  | _ :: _, _ => None
  end.

Definition read_text (s : string) : Json.jvalue := Json.JString (Utf8.ToValidUTF8 (bytes_of_string s)).

(** The answer [r] is JSON and its reader sees [document]. *)
Definition json_answer (r : response) (code : Z) (document : Json.jvalue) : Prop :=
  status r = code /\ content_type r = "application/json" /\
  exists line, body r = string_of_bytes line +:+ newline /\ Json.parse line = Some document.

Definition has (document : Json.jvalue) (path : list string) (j : Json.jvalue) : Prop := lookup_path path document = Some j.

Lemma norm_texts l : map Json.norm (text <$> l) = read_text <$> l.
Proof. induction l as [|s l IH]; [done|]. by rewrite fmap_cons; cbn [map]; rewrite IH. Qed.

(** The two verdicts, as read. *)
Lemma livez_read last h now :
  let stale := match last with Some t => 90 * Second <? duration_sub now t | None => false end in
  let stuck := existsb (fun c => HasPrefix c "stage-stuck:") (Conditions h) in
  exists document, json_answer (serve_livez {| src_health := h; src_heartbeat := last; src_connected := true |} now)
      (if stale || stuck then 503 else 200) document /\
    has document ["alive"] (Json.JBool (negb (stale || stuck))) /\
    lookup_path ["reason"] document =
      (if stale then Some (read_text "heartbeat-stale") else if stuck then Some (read_text "stage-stuck") else None) /\
    lookup_path ["conditions"] document =
      (if negb stale && stuck then Some (Json.JArray (read_text <$> Conditions h)) else None).
Proof.
  intros stale stuck. unfold serve_livez, handleLivez, evaluateLiveness, StageStuck. cbn [src_health src_heartbeat].
  change (match last with Some t => heartbeatStaleAfter <? duration_sub now t | None => false end) with stale.
  change (existsb (fun c => HasPrefix c condStuckPrefix) (Conditions h)) with stuck.
  set (v := if stale then _ else _). exists (Json.norm (livez_json v)). split.
  { split; [by subst v; destruct stale, stuck|]. split; [done|]. by eexists; split; [|apply livez_is_json]. }
  subst v. destruct stale; [done|]. destruct stuck eqn:K; [|done]. unfold stuck in K.
  destruct (Conditions h) as [|c cs]; [done|]. split_and!; [done..|]. cbn. by rewrite norm_texts.
Qed.

Lemma readyz_read connected h :
  let ready := connected && FetchHealthy h && negb (BreakerOpen h) in
  exists document states, json_answer (serve_readyz time_text {| src_health := h; src_heartbeat := None; src_connected := connected |})
      (if ready then 200 else 503) document /\
    has document ["ready"] (Json.JBool ready) /\ has document ["nats_connected"] (Json.JBool connected) /\
    has document ["health"; "healthy"] (Json.JBool (Healthy h)) /\
    has document ["health"; "fetch_healthy"] (Json.JBool (FetchHealthy h)) /\
    has document ["health"; "conditions"] (Json.JArray (read_text <$> Conditions h)) /\
    has document ["health"; "last_fetch_success"] (read_text (time_text (LastFetchSuccess h))) /\
    has document ["health"; "breaker_open"] (Json.JBool (BreakerOpen h)) /\
    has document ["health"; "breaker_states"] (Json.JObject states) /\
    states ≡ₚ (fun kv => (Utf8.ToValidUTF8 (bytes_of_string kv.1), read_text kv.2)) <$> map_to_list (BreakerStates_of h).
Proof.
  intros ready. unfold serve_readyz, handleReadyz, evaluateReadiness. cbn [src_health src_connected].
  set (v := {| Ready := _ |}). eexists (Json.norm (readyz_json time_text v)), _. split.
  { split; [done|]. split; [done|]. by eexists; split; [|apply readyz_is_json]. }
  split_and!; try reflexivity.
  - unfold has. by rewrite <- norm_texts.
  - rewrite <- (merge_sort_Permutation (fun a b => string_le a.1 b.1) (map_to_list (BreakerStates_of h))).
    cbn [RHealth v]. induction (merge_sort _ _) as [|[k w] l IH]; [done|]. by constructor.
Qed.

(** C25. The server answers as documented.  Nothing is answered before Start and
    after Shutdown.  In between exactly the three documented paths are routed,
    /metrics only when there is something to gather, and every other path is
    not found.  /livez answers 200, or 503 when the heartbeat is older than 90 s
    or a stage is stuck, and its document says which; /readyz answers 200
    exactly when NATS is connected, fetching is healthy and no breaker is open,
    and its document holds each of these inputs under its documented name, with
    the state of every breaker. *)
Theorem server_answers addr gatherer s src now :
  NewServer addr None gatherer = Ok s ->
  let answer s := handle time_text exposition s src now in
  let h := src_health src in
  let stale := match src_heartbeat src with Some t => 90 * Second <? duration_sub now t | None => false end in
  let stuck := existsb (fun c => HasPrefix c "stage-stuck:") (Conditions h) in
  let ready := src_connected src && FetchHealthy h && negb (BreakerOpen h) in
  (forall path, answer s path = None) /\
  (forall stopped path, answer (Shutdown (Start s) stopped).1 path = None) /\
  (forall path, path <> "/livez" -> path <> "/readyz" -> gatherer = false \/ path <> "/metrics" ->
     answer (Start s) path = Some not_found) /\
  (gatherer = true -> answer (Start s) "/metrics" = Some exposition) /\
  (exists r document, answer (Start s) "/livez" = Some r /\ json_answer r (if stale || stuck then 503 else 200) document /\
     has document ["alive"] (Json.JBool (negb (stale || stuck))) /\
     lookup_path ["reason"] document =
       (if stale then Some (read_text "heartbeat-stale") else if stuck then Some (read_text "stage-stuck") else None) /\
     lookup_path ["conditions"] document =
       (if negb stale && stuck then Some (Json.JArray (read_text <$> Conditions h)) else None)) /\
  exists r document states, answer (Start s) "/readyz" = Some r /\ json_answer r (if ready then 200 else 503) document /\
    has document ["ready"] (Json.JBool ready) /\ has document ["nats_connected"] (Json.JBool (src_connected src)) /\
    has document ["health"; "healthy"] (Json.JBool (Healthy h)) /\
    has document ["health"; "fetch_healthy"] (Json.JBool (FetchHealthy h)) /\
    has document ["health"; "conditions"] (Json.JArray (read_text <$> Conditions h)) /\
    has document ["health"; "last_fetch_success"] (read_text (time_text (LastFetchSuccess h))) /\
    has document ["health"; "breaker_open"] (Json.JBool (BreakerOpen h)) /\
    has document ["health"; "breaker_states"] (Json.JObject states) /\
    states ≡ₚ (fun kv => (Utf8.ToValidUTF8 (bytes_of_string kv.1), read_text kv.2)) <$> map_to_list (BreakerStates_of h).
Proof.
  intros [= <-] answer h stale stuck ready. split; [done|]. split; [done|]. split.
  { intros path L R M. unfold answer, handle. cbn [served Start listening negb routes app List.find fst].
    rewrite !(proj2 (String.eqb_neq _ path)) by congruence.
    destruct gatherer; cbn [List.find fst]; [|done]. destruct M as [M|M]; [done|]. by rewrite (proj2 (String.eqb_neq _ path)) by congruence. }
  split; [by intros ->|]. split.
  - destruct (livez_read (src_heartbeat src) h now) as (d & J & A). by exists (serve_livez src now), d.
  - destruct (readyz_read (src_connected src) h) as (d & st & J & A). by exists (serve_readyz time_text src), d, st.
Qed.

(** The watchdog and the liveness probe never disagree: of the ticks before
    the stop, those that pet are those at which a request for /livez would be
    answered with 200. *)
Theorem watchdog_agrees addr gatherer s connected ticks rest :
  NewServer addr None gatherer = Ok s ->
  watchdog_run (((fun '(last, health, now) => Tick last health now) <$> ticks) ++ Stopped :: rest) =
  (fun '(last, health, now) =>
     match handle time_text exposition (Start s) {| src_health := health; src_heartbeat := last; src_connected := connected |} now "/livez" with
     | Some r => status r =? 200
     | None => false
     end) <$> ticks.
Proof.
  intros [= <-]. induction ticks as [|[[last health] now] ticks IH]; [done|]. cbn [fmap list_fmap app watchdog_run]. f_equal; [|exact IH].
  unfold handle. cbn [served Start listening negb routes]. change (List.find _ _) with (Some ("/livez", Livez)). cbn [fmap option_fmap option_map snd].
  unfold pet, serve_livez, handleLivez, Alive. cbn. by destruct (Alive_ _).
Qed.
End laws.

(** The level and the format accept any case, and what they do not know is INFO
    and JSON. *)
Lemma logging_defaults `{Process} :
  (forall name, LookupEnv name = None) ->
  Setup = {| handler := JSONHandler; level := LevelInfo; AddSource := true; attrs := [] |}.
Proof. intros N. unfold Setup, getLogFormat, getLogLevel, isDevelopment, Getenv. by rewrite !N. Qed.
