(* ===== verification/Loader.v ===== *)
(** * Loader: the batching pipeline of the loader tool
    (tools/loader/internal/batch, detector, parser and publisher)

    Lines are parsed into messages, messages are grouped into batches by size
    and by time, and publisher workers send the batches to NATS.  A goroutine
    with a select loop is a function over the events its select receives.  A
    send that finds no room for five seconds panics: [room i] tells whether
    the i-th send of a batcher finds room. *)
From S2P Require Import Prelude GoInt GoStr GoFloat GoTime Values Telemetry.

Abbreviation bytes := (list Byte.byte).

Inductive MessageType : Set := MessageTypeData | MessageTypeTombstone.

Definition FormatJSONLines : Z := 0.
Definition FormatParquet : Z := 1.
Definition FormatGzipJSON : Z := 2.
Definition FormatBase64 : Z := 3.

Record Message : Type := { Data : bytes; Format : Z; MType : MessageType }.

(** ** Metrics (batch/metrics.go) *)

Record MetricsCollector : Type := { messagesProcessed : Z; batchesCreated : Z; startTime : Z; currentBatchSize : Z }.

Record LoaderMetrics : Type := {
  MessagesProcessed : Z; BatchesCreated : Z; AverageBatchSize : float64; Throughput : float64; CurrentBatchSize : Z }.

Definition NewMetricsCollector (now : Z) : MetricsCollector :=
  {| messagesProcessed := 0; batchesCreated := 0; startTime := now; currentBatchSize := 0 |}.

(** The counters are int64. *)
Definition IncrementMessages (m : MetricsCollector) : MetricsCollector :=
  {| messagesProcessed := wrap64 (messagesProcessed m + 1); batchesCreated := batchesCreated m;
     startTime := startTime m; currentBatchSize := currentBatchSize m |}.
Definition IncrementBatches (m : MetricsCollector) : MetricsCollector :=
  {| messagesProcessed := messagesProcessed m; batchesCreated := wrap64 (batchesCreated m + 1);
     startTime := startTime m; currentBatchSize := currentBatchSize m |}.
Definition SetCurrentBatchSize (size : Z) (m : MetricsCollector) : MetricsCollector :=
  {| messagesProcessed := messagesProcessed m; batchesCreated := batchesCreated m;
     startTime := startTime m; currentBatchSize := size |}.

Definition GetMetrics (now : Z) (m : MetricsCollector) : LoaderMetrics :=
  let messages := f64_of_Z (messagesProcessed m) in
  let elapsed := Seconds (duration_sub now (startTime m)) in
  {| MessagesProcessed := messagesProcessed m; BatchesCreated := batchesCreated m;
     AverageBatchSize := if 0 <? batchesCreated m then f64_div messages (f64_of_Z (batchesCreated m)) else f64_of_Z 0;
     Throughput := if f64_gt elapsed (f64_of_Z 0) then f64_div messages elapsed else f64_of_Z 0;
     CurrentBatchSize := currentBatchSize m |}.

(** ** Batcher (batch/batcher.go) *)

Record Batch : Type := { Messages : list bytes; Size : Z; IsTombstone : bool }.

Record Batcher : Type := {
  size : Z;
  timeout : Z;
  messages : list bytes;
  timer : bool;                     (* a timer is armed *)
  output : list Batch;              (* what was sent, in order *)
  output_closed : bool;
  metrics : MetricsCollector
}.

Definition NewBatcher (now size timeout : Z) : Batcher :=
  let size := if size <=? 0 then 500 else size in
  {| size := size; timeout := if timeout <=? 0 then 100 * Millisecond else timeout; messages := []; timer := false;
     output := []; output_closed := false; metrics := SetCurrentBatchSize size (NewMetricsCollector now) |}.

(** Field updates. *)
Definition set_buffer (b : Batcher) (ms : list bytes) (t : bool) : Batcher :=
  {| size := size b; timeout := timeout b; messages := ms; timer := t; output := output b;
     output_closed := output_closed b; metrics := metrics b |}.
Definition set_metrics (b : Batcher) (m : MetricsCollector) : Batcher :=
  {| size := size b; timeout := timeout b; messages := messages b; timer := timer b; output := output b;
     output_closed := output_closed b; metrics := m |}.

Section batcher.
Context (room : nat -> bool).

(** The select of every send: the channel, or the five seconds. *)
Definition send (b : Batcher) (batch : Batch) : result Batcher :=
  if room (length (output b)) then
    Ok {| size := size b; timeout := timeout b; messages := messages b; timer := timer b;
          output := output b ++ [batch]; output_closed := output_closed b; metrics := metrics b |}
  else Panic.

Definition resetTimer (b : Batcher) : Batcher := set_buffer b (messages b) true.
Definition stopTimer (b : Batcher) : Batcher := set_buffer b (messages b) false.

Definition data_batch (ms : list bytes) : Batch :=
  {| Messages := ms; Size := Z.of_nat (length ms); IsTombstone := false |}.
Definition tombstone_batch : Batch := {| Messages := []; Size := -1; IsTombstone := true |}.

Definition sendBatch (b : Batcher) : result Batcher :=
  if (length (messages b) =? 0)%nat then Ok b
  else
    let b := set_metrics b (IncrementBatches (metrics b)) in
    b ← send b (data_batch (messages b));
    Ok (stopTimer (set_buffer b [] (timer b))).

Definition sendFinalBatch (b : Batcher) : result Batcher :=
  if (0 <? length (messages b))%nat then sendBatch b else Ok b.

Definition sendTombstoneBatch (b : Batcher) : result Batcher := send b tombstone_batch.

Definition cleanup (b : Batcher) : Batcher :=
  let b := stopTimer b in
  {| size := size b; timeout := timeout b; messages := messages b; timer := timer b; output := output b;
     output_closed := true; metrics := metrics b |}.

(** What the select of the loop receives.  The timer's channel is nil when
    no timer is armed: then [EvTimer] does not happen. *)
Inductive batch_event : Type :=
  | EvDone
  | EvClosed
  | EvMessage (m : Message)
  | EvTimer.

(** A data message joins the buffer; the first one arms the timer. *)
Definition add_message (b : Batcher) (data : bytes) : Batcher :=
  let b := set_metrics b (IncrementMessages (metrics b)) in
  let b := set_buffer b (messages b ++ [data]) (timer b) in
  if (length (messages b) =? 1)%nat then resetTimer b else b.

(** One round of the loop; [limit] is the size limit in force, and the
    boolean whether the goroutine returned. *)
Definition batch_step (limit : Z) (b : Batcher) (e : batch_event) : result (Batcher * bool) :=
  match e with
  | EvDone => b ← sendFinalBatch b; b ← sendTombstoneBatch b; Ok (b, true)
  | EvClosed => b ← sendFinalBatch b; Ok (b, true)
  | EvMessage m =>
      match MType m with
      | MessageTypeTombstone => b ← sendFinalBatch b; b ← sendTombstoneBatch b; Ok (b, true)
      | MessageTypeData =>
          let b := add_message b (Data m) in
          if limit <=? Z.of_nat (length (messages b)) then b ← sendBatch b; Ok (b, false) else Ok (b, false)
      end
  | EvTimer =>
      if timer b && (0 <? length (messages b))%nat then b ← sendBatch b; Ok (b, false) else Ok (b, false)
  end.

(** The goroutine of Start over the events so far. *)
Fixpoint batch_run (b : Batcher) (evs : list batch_event) : result (Batcher * bool) :=
  match evs with
  | [] => Ok (b, false)
  | e :: evs =>
      '(b, stopped) ← batch_step (size b) b e;
      if (stopped : bool) then Ok (cleanup b, true) else batch_run b evs
  end.
End batcher.

(** ** Adaptive batcher (batch/adaptive.go) *)

Record AdaptiveBatcher : Type := {
  base : Batcher;                   (* the embedded batcher, whose own collector stays unused *)
  minSize : Z; maxSize : Z; targetRate : Z;
  adjust_window : Z; lastAdjust : Z;
  ab_metrics : MetricsCollector;
  currentSize : Z
}.

Definition NewAdaptiveBatcher (now minSize maxSize targetRate timeout : Z) : AdaptiveBatcher :=
  let minSize := if minSize <=? 0 then 10 else minSize in
  let maxSize := if maxSize <=? 0 then 1000 else maxSize in
  let targetRate := if targetRate <=? 0 then 10000 else targetRate in
  let minSize := if maxSize <? minSize then maxSize else minSize in
  let initialSize := minSize + go_div (maxSize - minSize) 4 in
  {| base := NewBatcher now initialSize timeout; minSize := minSize; maxSize := maxSize; targetRate := targetRate;
     adjust_window := 10 * Second; lastAdjust := now;
     ab_metrics := SetCurrentBatchSize initialSize (NewMetricsCollector now); currentSize := initialSize |}.

(** [math.Min] and [math.Max] of finite floats, and the methods min and max. *)
Definition float_min (x y : float64) : float64 := if f64_lt x y then x else y.
Definition float_max (x y : float64) : float64 := if f64_gt x y then x else y.

Section adaptive.
Context `{GoLib} (room : nat -> bool).

Definition to_int (f : float64) : Z := f64_to_int64 float_out_of_range f.
Definition ab_min (a b : Z) : Z := to_int (float_min (f64_of_Z a) (f64_of_Z b)).
Definition ab_max (a b : Z) : Z := to_int (float_max (f64_of_Z a) (f64_of_Z b)).

Definition f_1_5 : float64 := f64_div (f64_of_Z 3) (f64_of_Z 2).
Definition f_0_75 : float64 := f64_div (f64_of_Z 3) (f64_of_Z 4).
Definition f_0_9 : float64 := f64_div (f64_of_Z 9) (f64_of_Z 10).
Definition f_1_1 : float64 := f64_div (f64_of_Z 11) (f64_of_Z 10).

Definition grow (ab : AdaptiveBatcher) : Z := ab_min (to_int (f64_mul (f64_of_Z (currentSize ab)) f_1_5)) (maxSize ab).
Definition shrink (ab : AdaptiveBatcher) : Z := ab_max (to_int (f64_mul (f64_of_Z (currentSize ab)) f_0_75)) (minSize ab).

Definition adjustBatchSize (now : Z) (ab : AdaptiveBatcher) : AdaptiveBatcher :=
  if duration_sub now (lastAdjust ab) <? adjust_window ab then ab
  else
    let currentRate := Throughput (GetMetrics now (ab_metrics ab)) in
    let target := f64_of_Z (targetRate ab) in
    let newSize :=
      if f64_lt currentRate (f64_mul target f_0_9) then grow ab
      else if f64_gt currentRate (f64_mul target f_1_1) then shrink ab
      else currentSize ab in
    if newSize =? currentSize ab then ab
    else
      {| base := base ab; minSize := minSize ab; maxSize := maxSize ab; targetRate := targetRate ab;
         adjust_window := adjust_window ab; lastAdjust := now;
         ab_metrics := SetCurrentBatchSize newSize (ab_metrics ab); currentSize := newSize |}.

(** runBatchingLoop's round: that of the batcher, with the adaptive limit
    and the adaptive collector. *)
Definition adaptive_step (ab : AdaptiveBatcher) (e : batch_event) : result (AdaptiveBatcher * bool) :=
  '(b, stopped) ← batch_step room (currentSize ab) (set_metrics (base ab) (ab_metrics ab)) e;
  Ok ({| base := set_metrics b (metrics (base ab)); minSize := minSize ab; maxSize := maxSize ab;
         targetRate := targetRate ab; adjust_window := adjust_window ab; lastAdjust := lastAdjust ab;
         ab_metrics := metrics b; currentSize := currentSize ab |}, stopped).

(** The batch sent by the adaptive batcher, its own collector counting it. *)
Definition on_base (send : Batcher -> result Batcher) (ab : AdaptiveBatcher) : result AdaptiveBatcher :=
  b ← send (set_metrics (base ab) (ab_metrics ab));
  Ok {| base := set_metrics b (metrics (base ab)); minSize := minSize ab; maxSize := maxSize ab; targetRate := targetRate ab;
        adjust_window := adjust_window ab; lastAdjust := lastAdjust ab; ab_metrics := metrics b; currentSize := currentSize ab |}.

Definition sendAdaptiveBatch : AdaptiveBatcher -> result AdaptiveBatcher := on_base (sendBatch room).
Definition sendAdaptiveFinalBatch (ab : AdaptiveBatcher) : result AdaptiveBatcher :=
  if (0 <? length (messages (base ab)))%nat then sendAdaptiveBatch ab else Ok ab.
Definition sendAdaptiveTombstoneBatch : AdaptiveBatcher -> result AdaptiveBatcher := on_base (sendTombstoneBatch room).

(** The two goroutines of Start, as they interleave. *)
Inductive adaptive_event : Type :=
  | EvBatch (e : batch_event)
  | EvAdjust (now : Z).

Fixpoint adaptive_run (ab : AdaptiveBatcher) (evs : list adaptive_event) : result (AdaptiveBatcher * bool) :=
  match evs with
  | [] => Ok (ab, false)
  | EvAdjust now :: evs => adaptive_run (adjustBatchSize now ab) evs
  | EvBatch e :: evs =>
      '(ab, stopped) ← adaptive_step ab e;
      if (stopped : bool) then
        Ok ({| base := cleanup (base ab); minSize := minSize ab; maxSize := maxSize ab; targetRate := targetRate ab;
               adjust_window := adjust_window ab; lastAdjust := lastAdjust ab; ab_metrics := ab_metrics ab;
               currentSize := currentSize ab |}, true)
      else adaptive_run ab evs
  end.
End adaptive.

(** ** Buffer pool (batch/pool.go): a buffer is its capacity and its contents *)

Record buffer : Type := { capacity : Z; contents : bytes }.
Record BufferManager : Type := { buffers : list buffer; pool_cap : Z; buffer_size : Z }.

Definition NewBufferManager (poolSize bufferSize : Z) : BufferManager :=
  {| buffers := []; pool_cap := if poolSize <=? 0 then 10 else poolSize;
     buffer_size := if bufferSize <=? 0 then 1024 else bufferSize |}.

Definition pool_Get (bm : BufferManager) : BufferManager * buffer :=
  match buffers bm with
  | buf :: rest => ({| buffers := rest; pool_cap := pool_cap bm; buffer_size := buffer_size bm |}, buf)
  | [] => (bm, {| capacity := buffer_size bm; contents := [] |})
  end.

(** [None] is the nil buffer. *)
Definition pool_Put (bm : BufferManager) (buf : option buffer) : BufferManager :=
  match buf with
  | None => bm
  | Some buf =>
      let buf := {| capacity := capacity buf; contents := [] |} in
      if (capacity buf =? buffer_size bm) && (Z.of_nat (length (buffers bm)) <? pool_cap bm)
      then {| buffers := buffers bm ++ [buf]; pool_cap := pool_cap bm; buffer_size := buffer_size bm |}
      else bm
  end.

(** ** Laws *)

(** *** Batching *)

Definition data_ok (M : Z) (batch : Batch) : Prop :=
  IsTombstone batch = false /\ Size batch = Z.of_nat (length (Messages batch)) /\
  1 <= Z.of_nat (length (Messages batch)) <= M.

(** A running batcher that has taken [taken] and whose limits are at most [M]. *)
Record batcher_inv (M : Z) (b : Batcher) (taken : list bytes) : Prop := {
  bi_taken : concat (Messages <$> output b) ++ messages b = taken;
  bi_batches : Forall (data_ok M) (output b);
  bi_buffer : Z.of_nat (length (messages b)) < M;
  bi_timer : timer b = negb (length (messages b) =? 0)%nat;
  bi_count : messagesProcessed (metrics b) = wrap64 (Z.of_nat (length taken));
  bi_created : batchesCreated (metrics b) = wrap64 (Z.of_nat (length (output b)))
}.

(** What an event gives to the batcher, and whether it ends it (with a
    tombstone or without). *)
Definition taken_of (e : batch_event) : list bytes :=
  match e with
  | EvMessage m => match MType m with MessageTypeData => [Data m] | MessageTypeTombstone => [] end
  | _ => []
  end.
Definition end_of (e : batch_event) : option bool :=
  match e with
  | EvDone => Some true
  | EvClosed => Some false
  | EvMessage m => match MType m with MessageTypeData => None | MessageTypeTombstone => Some true end
  | EvTimer => None
  end.

(** The batcher after it returned. *)
Record batcher_end (M : Z) (b : Batcher) (taken : list bytes) (tombstone : bool) : Prop := {
  be_output : exists data, output b = data ++ (if tombstone then [tombstone_batch] else []) /\
    Forall (data_ok M) data /\ concat (Messages <$> data) = taken /\
    batchesCreated (metrics b) = wrap64 (Z.of_nat (length data));
  be_buffer : messages b = [];
  be_count : messagesProcessed (metrics b) = wrap64 (Z.of_nat (length taken))
}.

(** What a batcher holds while it sends its buffer, which may be full. *)
Record batcher_full (M : Z) (b : Batcher) (taken : list bytes) : Prop := {
  bf_taken : concat (Messages <$> output b) ++ messages b = taken;
  bf_batches : Forall (data_ok M) (output b);
  bf_buffer : Z.of_nat (length (messages b)) <= M;
  bf_timer : messages b = [] -> timer b = false;
  bf_count : messagesProcessed (metrics b) = wrap64 (Z.of_nat (length taken));
  bf_created : batchesCreated (metrics b) = wrap64 (Z.of_nat (length (output b)))
}.

Lemma batcher_inv_full M b taken : batcher_inv M b taken -> batcher_full M b taken.
Proof. intros []. split; try done; [lia|]. intros E. by rewrite E in *. Qed.

Section batching.
Context (room : nat -> bool).

(** A send that found no room. *)
Definition blocked {A} (r : result A) : Prop := r = Panic /\ exists i, room i = false.

Definition settles {A} (P : A -> Prop) (r : result A) : Prop := blocked r \/ exists a, r = Ok a /\ P a.

Lemma settles_bind {A B} (P : A -> Prop) (Q : B -> Prop) (r : result A) (f : A -> result B) :
  settles P r -> (forall a, P a -> settles Q (f a)) -> settles Q (r ≫= f).
Proof.
  intros [[-> R]|(a & -> & H)] K; [by left; split|]. by apply K.
Qed.

Lemma settles_ok {A} (P : A -> Prop) (a : A) : P a -> settles P (Ok a).
Proof. right. by exists a. Qed.

Lemma send_settles b batch :
  settles (fun b' => b' = {| size := size b; timeout := timeout b; messages := messages b; timer := timer b;
    output := output b ++ [batch]; output_closed := output_closed b; metrics := metrics b |}) (send room b batch).
Proof.
  unfold send. destruct (room _) eqn:E; [by apply settles_ok|]. left. split; [done|]. by eexists.
Qed.

(** Sending the buffer. *)
Lemma sendBatch_settles M b taken :
  batcher_full M b taken -> 0 < M ->
  settles (fun b' => batcher_inv M b' taken /\ messages b' = [] /\ size b' = size b) (sendBatch room b).
Proof.
  intros [T F L Ti C Cr] P. unfold sendBatch. destruct (messages b) as [|m ms] eqn:E; cbn [length Nat.eqb].
  - apply settles_ok. split_and!; try done. split; rewrite ?E; try done. by apply Ti.
  - eapply settles_bind; [apply send_settles|]. intros b' ->. apply settles_ok. split_and!; try done.
    split; cbn -[length app]; try done.
    + by rewrite fmap_app, concat_app, app_nil_r; cbn; rewrite app_nil_r, E.
    + apply Forall_app; split; [done|]. constructor; [|done].
      unfold data_ok, data_batch. cbn -[length]. rewrite E. cbn [length] in *. split_and!; lia.
    + rewrite Cr, length_app. cbn [length]. rewrite wrap64_add_l. f_equal. lia.
Qed.

Lemma sendFinalBatch_settles M b taken :
  batcher_inv M b taken -> 0 < M ->
  settles (fun b' => batcher_inv M b' taken /\ messages b' = [] /\ size b' = size b) (sendFinalBatch room b).
Proof.
  intros I P. unfold sendFinalBatch. destruct (0 <? _)%nat eqn:E.
  - by apply sendBatch_settles; [apply batcher_inv_full|].
  - apply settles_ok. split_and!; try done. by destruct (messages b).
Qed.

(** The whole of a stop with a tombstone. *)
Lemma tombstone_settles M b taken :
  batcher_inv M b taken -> 0 < M ->
  settles (fun '(b', stopped) => stopped = true /\ batcher_end M b' taken true)
    (b ← sendFinalBatch room b; b ← sendTombstoneBatch room b; Ok (b, true)).
Proof.
  intros I P. eapply settles_bind; [by apply sendFinalBatch_settles|]. intros b1 (I1 & E1 & _).
  eapply settles_bind; [apply send_settles|]. intros b2 ->. apply settles_ok. split; [done|].
  destruct I1 as [T F _ _ C Cr]. rewrite E1, app_nil_r in T. split; cbn; try done. by exists (output b1).
Qed.

Lemma add_message_full M b data taken :
  batcher_inv M b taken ->
  batcher_full M (add_message b data) (taken ++ [data]) /\ messages (add_message b data) = messages b ++ [data] /\
  size (add_message b data) = size b /\ timer (add_message b data) = true.
Proof.
  intros [T F B Ti C Cr]. set (b1 := add_message b data).
  assert (messages b1 = messages b ++ [data] /\ size b1 = size b /\ output b1 = output b /\
    metrics b1 = IncrementMessages (metrics b)) as (Eb & Es & Eo & Em)
    by (unfold b1, add_message; by destruct (_ =? 1)%nat).
  split_and!; try done.
  - split; rewrite ?Eb, ?Eo, ?Em; cbn -[wrap64]; try done.
    + by rewrite app_assoc, T.
    + rewrite length_app. cbn. lia.
    + by destruct (messages b).
    + rewrite C, length_app, wrap64_add_l. f_equal. cbn. lia.
  - unfold b1, add_message. cbn -[length]. rewrite length_app. cbn. destruct (messages b); cbn in *; [done|].
    by rewrite Nat.add_1_r.
Qed.

(** One round. *)
Lemma batch_step_settles M limit b e taken :
  batcher_inv M b taken -> 1 <= limit <= M ->
  settles (fun '(b', stopped) =>
    match end_of e with
    | Some tombstone => stopped = true /\ batcher_end M b' taken tombstone
    | None => stopped = false /\ batcher_inv M b' (taken ++ taken_of e) /\ size b' = size b
    end) (batch_step room limit b e).
Proof.
  intros I L. assert (0 < M) as P by lia. destruct e as [| |m|]; cbn [batch_step end_of taken_of].
  - by apply tombstone_settles.
  - eapply settles_bind; [by apply sendFinalBatch_settles|]. intros b1 (I1 & E1 & _).
    apply settles_ok. split; [done|].
    destruct I1 as [T F _ _ C Cr]. rewrite E1, app_nil_r in T. split; try done.
    exists (output b1). by rewrite app_nil_r.
  - destruct (MType m) eqn:Em; [|by apply tombstone_settles].
    pose proof (add_message_full M b (Data m) taken I) as (I1 & E1 & S1 & T1). cbn zeta.
    destruct (limit <=? _) eqn:El.
    + eapply settles_bind; [by apply (sendBatch_settles M)|]. intros b2 (I2 & _ & S2).
      apply settles_ok. split_and!; try done. congruence.
    + apply settles_ok. split_and!; try done. destruct I1 as [T F B Ti C Cr]. split; try done; [lia|].
      rewrite T1, E1, length_app. cbn. by destruct (messages b).
  - destruct (timer b && _) eqn:E.
    + eapply settles_bind; [apply (sendBatch_settles M); [by apply batcher_inv_full|done]|].
      intros b2 (I2 & _ & S2). apply settles_ok. rewrite app_nil_r. by split_and!.
    + apply settles_ok. rewrite app_nil_r. by split_and!.
Qed.
End batching.

(** What a run receives before it ends, and how it ends. *)
Fixpoint received (evs : list batch_event) : list bytes :=
  match evs with
  | [] => []
  | e :: evs => taken_of e ++ match end_of e with Some _ => [] | None => received evs end
  end.
Fixpoint ended (evs : list batch_event) : option bool :=
  match evs with
  | [] => None
  | e :: evs => match end_of e with Some t => Some t | None => ended evs end
  end.

(** *** The adaptive size *)

Definition size_ok (ab : AdaptiveBatcher) : Prop :=
  1 <= minSize ab <= currentSize ab /\ currentSize ab <= maxSize ab < 2 ^ 51.

Section resizing.
Context `{GoLib}.

Lemma to_int_trunc f z : f64_trunc f = Some z -> in_int64 z -> to_int f = z.
Proof. apply f64_to_int64_in_range. Qed.

Lemma ab_min_exact a b : 0 <= a < 2 ^ 53 -> 0 <= b < 2 ^ 53 -> ab_min a b = Z.min a b.
Proof.
  intros A B. unfold ab_min, float_min. rewrite f64_lt_of_Z by done.
  destruct (Z.ltb_spec a b); (erewrite to_int_trunc; [|by apply f64_trunc_of_Z|unfold_ints; lia]); lia.
Qed.

Lemma ab_max_exact a b : 0 <= a < 2 ^ 53 -> 0 <= b < 2 ^ 53 -> ab_max a b = Z.max a b.
Proof.
  intros A B. unfold ab_max, float_max. change (f64_gt (f64_of_Z a) (f64_of_Z b)) with (f64_lt (f64_of_Z b) (f64_of_Z a)).
  rewrite f64_lt_of_Z by done.
  destruct (Z.ltb_spec b a); (erewrite to_int_trunc; [|by apply f64_trunc_of_Z|unfold_ints; lia]); lia.
Qed.

Lemma three_halves c : 0 < c < 2 ^ 51 -> to_int (f64_mul (f64_of_Z c) f_1_5) = c * 3 / 2.
Proof.
  intros C. apply to_int_trunc.
  - change f_1_5 with (SpecFloat.S754_finite false 6755399441055744 (- (52))). by apply (f64_mul_ratio c 3 1); try lia.
  - unfold_ints. Z.to_euclidean_division_equations. lia.
Qed.

Lemma three_quarters c : 0 < c < 2 ^ 51 -> to_int (f64_mul (f64_of_Z c) f_0_75) = c * 3 / 4.
Proof.
  intros C. apply to_int_trunc.
  - change f_0_75 with (SpecFloat.S754_finite false 6755399441055744 (- (53))). by apply (f64_mul_ratio c 3 2); try lia.
  - unfold_ints. Z.to_euclidean_division_equations. lia.
Qed.

Lemma grow_exact ab : size_ok ab -> grow ab = Z.min (currentSize ab * 3 / 2) (maxSize ab).
Proof.
  intros [? ?]. unfold grow. rewrite three_halves by lia.
  apply ab_min_exact; Z.to_euclidean_division_equations; lia.
Qed.

Lemma shrink_exact ab : size_ok ab -> shrink ab = Z.max (currentSize ab * 3 / 4) (minSize ab).
Proof.
  intros [? ?]. unfold shrink. rewrite three_quarters by lia.
  apply ab_max_exact; Z.to_euclidean_division_equations; lia.
Qed.

(** An adjustment changes the size and its bookkeeping only, and keeps it in
    its bounds. *)
Lemma adjust_ok now ab :
  size_ok ab ->
  size_ok (adjustBatchSize now ab) /\ base (adjustBatchSize now ab) = base ab /\
  maxSize (adjustBatchSize now ab) = maxSize ab /\ minSize (adjustBatchSize now ab) = minSize ab /\
  messagesProcessed (ab_metrics (adjustBatchSize now ab)) = messagesProcessed (ab_metrics ab) /\
  batchesCreated (ab_metrics (adjustBatchSize now ab)) = batchesCreated (ab_metrics ab).
Proof.
  intros O. unfold adjustBatchSize. rewrite grow_exact, shrink_exact by done. cbv zeta.
  case_match; [done|]. case_match; [done|]. split_and!; try done. unfold size_ok in *.
  cbn [minSize maxSize currentSize]. repeat case_match; Z.to_euclidean_division_equations; lia.
Qed.
End resizing.

Section runs.
Context `{GoLib} (room : nat -> bool).

Lemma taken_of_end e : is_Some (end_of e) -> taken_of e = [].
Proof. intros [t E]. by destruct e as [| |m|]; cbn in *; [..|destruct (MType m)|]. Qed.

Definition has_ended (evs : list batch_event) : bool := match ended evs with Some _ => true | None => false end.

Lemma cleanup_end M b taken t : batcher_end M b taken t -> batcher_end M (cleanup b) taken t.
Proof. intros []. by split. Qed.

Lemma batch_run_settles M evs b taken :
  batcher_inv M b taken -> 1 <= size b <= M ->
  settles room (fun '(b', stopped) => stopped = has_ended evs /\
    match ended evs with
    | None => batcher_inv M b' (taken ++ received evs)
    | Some t => batcher_end M b' (taken ++ received evs) t /\ output_closed b' = true /\ timer b' = false
    end) (batch_run room b evs).
Proof.
  revert b taken. unfold has_ended. induction evs as [|e evs IH]; intros b taken I S; cbn [batch_run ended received].
  { apply settles_ok. by rewrite app_nil_r. }
  eapply settles_bind; [by eapply batch_step_settles|]. intros [b1 stopped]. destruct (end_of e) as [t|] eqn:E.
  - intros [-> B]. apply settles_ok. split_and!; try done. apply cleanup_end.
    rewrite (taken_of_end e) by done. by rewrite !app_nil_r.
  - intros (-> & I1 & S1). rewrite app_assoc. apply IH; [done|by rewrite S1].
Qed.

(** The adaptive batcher as a batcher with the adaptive collector. *)
Definition viewed (ab : AdaptiveBatcher) : Batcher := set_metrics (base ab) (ab_metrics ab).

Definition batch_events (evs : list adaptive_event) : list batch_event :=
  omap (fun e => match e with EvBatch e => Some e | EvAdjust _ => None end) evs.

Lemma inv_metrics M b m m' taken :
  messagesProcessed m' = messagesProcessed m -> batchesCreated m' = batchesCreated m ->
  batcher_inv M (set_metrics b m) taken -> batcher_inv M (set_metrics b m') taken.
Proof. intros E1 E2 []. split; try done; cbn in *; congruence. Qed.

(** The end of the adaptive loop is made of the adaptive sends. *)
Lemma adaptive_done_sends ab :
  adaptive_step room ab EvDone =
  (ab ← sendAdaptiveFinalBatch room ab; ab ← sendAdaptiveTombstoneBatch room ab; Ok (ab, true)).
Proof.
  destruct ab as [[sz tm ms t out oc m] mn mx tr aw la am cs].
  unfold adaptive_step, sendAdaptiveFinalBatch, sendAdaptiveBatch, sendAdaptiveTombstoneBatch, on_base. cbn [batch_step base messages].
  unfold sendFinalBatch. cbn [set_metrics messages Loader.base ab_metrics].
  destruct (0 <? length ms)%nat; [|cbn; unfold sendTombstoneBatch, send; cbn; by destruct (room _)].
  unfold sendBatch. cbn [set_metrics messages]. destruct (length ms =? 0)%nat; [cbn; unfold sendTombstoneBatch, send; cbn; by destruct (room _)|].
  unfold send. cbn [set_metrics output metrics]. destruct (room (length out)); [|done]. cbn. unfold sendTombstoneBatch, send. cbn. by destruct (room _).
Qed.

Lemma adaptive_step_settles ab e taken :
  batcher_inv (maxSize ab) (viewed ab) taken -> size_ok ab ->
  settles room (fun '(ab', stopped) => size_ok ab' /\ maxSize ab' = maxSize ab /\ minSize ab' = minSize ab /\
    match end_of e with
    | Some t => stopped = true /\ batcher_end (maxSize ab) (viewed ab') (taken ++ taken_of e) t
    | None => stopped = false /\ batcher_inv (maxSize ab) (viewed ab') (taken ++ taken_of e)
    end) (adaptive_step room ab e).
Proof.
  intros I S. unfold adaptive_step.
  eapply settles_bind; [eapply (batch_step_settles _ (maxSize ab)); [exact I|by destruct S; lia]|].
  intros [b1 stopped] B. apply settles_ok. split_and!; try done. destruct (end_of e) eqn:E.
  - rewrite (taken_of_end e) by done. rewrite app_nil_r. destruct B as [-> [(d&?&?&?&?) ? ?]].
    split; [done|]. split; try done. by exists d.
  - destruct B as (-> & [] & _). split; [done|]. by split.
Qed.

Lemma adaptive_run_settles evs ab taken :
  batcher_inv (maxSize ab) (viewed ab) taken -> size_ok ab ->
  settles room (fun '(ab', stopped) => stopped = has_ended (batch_events evs) /\ size_ok ab' /\
    maxSize ab' = maxSize ab /\ minSize ab' = minSize ab /\
    match ended (batch_events evs) with
    | None => batcher_inv (maxSize ab) (viewed ab') (taken ++ received (batch_events evs))
    | Some t => batcher_end (maxSize ab) (viewed ab') (taken ++ received (batch_events evs)) t /\
        output_closed (viewed ab') = true /\ timer (viewed ab') = false
    end) (adaptive_run room ab evs).
Proof.
  revert ab taken. unfold has_ended. induction evs as [|[e|now] evs IH]; intros ab taken I S; cbn [adaptive_run].
  { apply settles_ok. by rewrite app_nil_r. }
  - change (batch_events (EvBatch e :: evs)) with (e :: batch_events evs). cbn [ended received].
    eapply settles_bind; [by eapply adaptive_step_settles|].
    intros [ab1 stopped] (S1 & Ex & En & B). destruct (end_of e) as [t|] eqn:E; destruct B as [-> B].
    + apply settles_ok. split_and!; try done. rewrite app_nil_r. by apply (cleanup_end _ (viewed ab1)).
    + rewrite app_assoc, <- Ex, <- En. by apply IH; [rewrite Ex|].
  - pose proof (adjust_ok now ab S) as (S' & Eb & Ex & En & E1 & E2).
    change (batch_events (EvAdjust now :: evs)) with (batch_events evs).
    rewrite <- Ex, <- En. apply IH; [|done]. unfold viewed in *. rewrite Eb, Ex. by eapply inv_metrics.
Qed.
End runs.

(** The two constructors give batchers that have taken nothing. *)
Lemma new_batcher_inv M now sz to : 0 < M -> batcher_inv M (NewBatcher now sz to) [].
Proof. intros P. by split. Qed.

Lemma new_adaptive_size now mn mx tr to : mx < 2 ^ 51 -> size_ok (NewAdaptiveBatcher now mn mx tr to).
Proof.
  intros L. unfold size_ok, NewAdaptiveBatcher, go_div. cbn [minSize maxSize currentSize].
  assert (forall d, 0 <= d -> 0 <= Z.quot d 4 <= d) as Q.
  { intros d D. rewrite Z.quot_div_nonneg by lia. Z.to_euclidean_division_equations. lia. }
  assert (forall a b, 1 <= a -> 1 <= b < 2 ^ 51 ->
    (1 <= (if b <? a then b else a) <= (if b <? a then b else a) + Z.quot (b - (if b <? a then b else a)) 4) /\
    (if b <? a then b else a) + Z.quot (b - (if b <? a then b else a)) 4 <= b < 2 ^ 51) as A.
  { intros a b ? ?. destruct (Z.ltb_spec b a); [pose proof (Q (b - b))|pose proof (Q (b - a))]; lia. }
  apply A; repeat case_match; lia.
Qed.

(** The fixed-size batcher loses, repeats and reorders nothing: unless a send found its channel full for five
    seconds (the code panics), the messages of the batches sent, followed by the buffer, are the data messages
    received, in order; no batch is empty or larger than the configured size, the buffer never reaches it, the timer
    runs exactly while something waits in the buffer, and when the input ends - cancelled, at a tombstone or closed -
    the buffer is sent, a tombstone batch follows exactly in the first two cases, and the output is closed. *)
Theorem batcher_lossless (room : nat -> bool) (now sz to : Z) (evs : list batch_event) :
  let M := size (NewBatcher now sz to) in
  blocked room (batch_run room (NewBatcher now sz to) evs) \/
  exists b stopped, batch_run room (NewBatcher now sz to) evs = Ok (b, stopped) /\ stopped = has_ended evs /\
    match ended evs with
    | None => batcher_inv M b (received evs)
    | Some t => batcher_end M b (received evs) t /\ output_closed b = true /\ timer b = false
    end.
Proof.
  cbv zeta. assert (1 <= size (NewBatcher now sz to)) as P by (cbn; case_match; lia).
  destruct (batch_run_settles room (size (NewBatcher now sz to)) evs (NewBatcher now sz to) []) as [B|([b stopped] & E & H)].
  - apply new_batcher_inv. lia.
  - lia.
  - by left.
  - right. by exists b, stopped.
Qed.

(** C27. The adaptive batcher keeps the same promise while a second goroutine resizes its batches, in any interleaving
    of the two, for a configured maximum below 2^51: either it panics on a send that stayed blocked for five seconds, or
    nothing is lost, repeated or reordered, the size in force stays between the configured minimum and maximum, and no
    batch exceeds the maximum. *)
Theorem adaptive_lossless `{GoLib} (room : nat -> bool) (now mn mx tr to : Z) (evs : list adaptive_event) :
  mx < 2 ^ 51 ->
  let ab0 := NewAdaptiveBatcher now mn mx tr to in
  let M := maxSize ab0 in
  blocked room (adaptive_run room ab0 evs) \/
  exists ab stopped, adaptive_run room ab0 evs = Ok (ab, stopped) /\ stopped = has_ended (batch_events evs) /\
    minSize ab0 <= currentSize ab <= M /\
    match ended (batch_events evs) with
    | None => batcher_inv M (viewed ab) (received (batch_events evs))
    | Some t => batcher_end M (viewed ab) (received (batch_events evs)) t /\
        output_closed (viewed ab) = true /\ timer (viewed ab) = false
    end.
Proof.
  intros L. pose proof (new_adaptive_size now mn mx tr to L) as S. cbv zeta.
  set (ab0 := NewAdaptiveBatcher now mn mx tr to) in *.
  destruct (adaptive_run_settles room evs ab0 []) as [B|([ab stopped] & E & -> & [S1 S2] & Ex & En & R)].
  - split; try done. destruct S. change (messages (viewed ab0)) with (@nil bytes). change (Z.of_nat 0 < maxSize ab0). lia.
  - done.
  - by left.
  - right. eexists _, _. split; [done|]. split; [done|]. split; [lia|done].
Qed.

(** The size one never grows: a configured minimum of one lets the batcher fall to it for good. *)
Lemma one_never_grows `{GoLib} (now : Z) (ab : AdaptiveBatcher) :
  size_ok ab -> currentSize ab = 1 -> currentSize (adjustBatchSize now ab) = 1.
Proof.
  intros S E. unfold adjustBatchSize. rewrite grow_exact, shrink_exact by done. cbv zeta. rewrite E.
  destruct S as [S1 S2]. change (1 * 3 / 2) with 1. change (1 * 3 / 4) with 0.
  case_match; [done|]. replace (1 `min` maxSize ab) with 1 by lia. replace (0 `max` minSize ab) with 1 by lia.
  case_match; [done|]. repeat case_match; lia.
Qed.
