(* ===== verification/Batching.v ===== *)
(** * Batching: the batcher as its clients use it
    (tools/loader/internal/batch)

    The interface both batchers keep, over the rounds of their loop, with its
    laws; the fixed and the adaptive batcher as instances; and what one round
    sends.  In runLoader this is the interface variable batcherInterface. *)
From S2P Require Import Prelude GoInt GoStr GoFloat GoTime Values Loader.

(** ** The interface *)

(** [b_view] is its buffer, timer and output; [b_limit] the size in force;
    [b_adjust] a turn of the resizing goroutine. *)
Class Batching (B : Type) : Type := {
  b_view : B -> Batcher;
  b_put : B -> Batcher -> B;
  b_limit : B -> Z;
  b_adjust : Z -> B -> B
}.

(** A round of the batching loop whose sends find room. *)
Definition always : nat -> bool := fun _ => true.
Definition b_step `{Batching B} (b : B) (e : batch_event) : result (B * bool) :=
  '(v, stopped) ← batch_step always (b_limit b) (b_view b) e; Ok (b_put b v, stopped).

(** What a batcher promises: [ok] bounds its sizes by [M]. *)
Class BatchingLaws (B : Type) `{Batching B} (M : Z) (ok : B -> Prop) : Prop := {
  view_put b v : b_view (b_put b v) = v;
  ok_limit b : ok b -> 1 <= b_limit b <= M;
  ok_put b v : ok b -> size v = size (b_view b) -> ok (b_put b v);
  ok_adjust now b : ok b -> ok (b_adjust now b);
  adjust_inv now b taken : ok b -> batcher_inv M (b_view b) taken -> batcher_inv M (b_view (b_adjust now b)) taken;
  adjust_end now b taken t : ok b -> batcher_end M (b_view b) taken t -> batcher_end M (b_view (b_adjust now b)) taken t;
  adjust_output now b : ok b -> output (b_view (b_adjust now b)) = output (b_view b);
  adjust_messages now b : ok b -> messages (b_view (b_adjust now b)) = messages (b_view b)
}.

(** The fixed batcher is one; nothing resizes it. *)
#[export] Instance fixed_batching : Batching Batcher := {|
  b_view b := b; b_put _ v := v; b_limit := size; b_adjust _ b := b |}.

Lemma fixed_step b e : b_step b e = batch_step always (size b) b e.
Proof. unfold b_step. cbn. by destruct (batch_step _ _ _ _) as [[]| |]. Qed.

#[export] Instance fixed_laws M : BatchingLaws Batcher M (fun b => 1 <= size b <= M).
Proof. split; try done. cbn. by intros b v L ->. Qed.

(** The adaptive batcher is one, seen with its own collector. *)
#[export] Instance adaptive_batching `{GoLib} : Batching AdaptiveBatcher := {|
  b_view := viewed;
  b_put ab v := {| base := set_metrics v (metrics (base ab)); minSize := minSize ab; maxSize := maxSize ab; targetRate := targetRate ab;
                   adjust_window := adjust_window ab; lastAdjust := lastAdjust ab; ab_metrics := metrics v; currentSize := currentSize ab |};
  b_limit := currentSize; b_adjust := adjustBatchSize |}.

Lemma adaptive_is_step `{GoLib} ab e : b_step ab e = adaptive_step always ab e.
Proof. done. Qed.

#[export] Instance adaptive_laws `{GoLib} M : BatchingLaws AdaptiveBatcher M (fun ab => size_ok ab /\ maxSize ab = M).
Proof.
  split; cbn.
  - by intros ab [].
  - intros ab [[? ?] <-]. lia.
  - by intros ab v [S <-] _.
  - intros now ab [S <-]. destruct (adjust_ok now ab S) as (S' & _ & E & _). by rewrite E.
  - intros now ab taken [S <-] I. destruct (adjust_ok now ab S) as (_ & Eb & Em & _ & E1 & E2).
    unfold viewed in *. rewrite Eb. by eapply inv_metrics.
  - intros now ab taken t [S <-] I. destruct (adjust_ok now ab S) as (_ & Eb & Em & _ & E1 & E2).
    unfold viewed in *. rewrite Eb. destruct I as [(d & Eo & F & C & Cr) Bu Cn]. cbn in *.
    split; cbn; [exists d; split_and!; congruence|done|congruence].
  - intros now ab [S _]. destruct (adjust_ok now ab S) as (_ & Eb & _). unfold viewed. by rewrite Eb.
  - intros now ab [S _]. destruct (adjust_ok now ab S) as (_ & Eb & _). unfold viewed. by rewrite Eb.
Qed.

(** *** What a round sends *)

Definition flush (ms : list bytes) : list Batch := match ms with [] => [] | _ => [data_batch ms] end.

(** The batches a round sends, and the buffer it leaves. *)
Definition emitted (limit : Z) (b : Batcher) (e : batch_event) : list Batch * list bytes :=
  match e with
  | EvDone => (flush (messages b) ++ [tombstone_batch], [])
  | EvClosed => (flush (messages b), [])
  | EvMessage m =>
      match MType m with
      | MessageTypeTombstone => (flush (messages b) ++ [tombstone_batch], [])
      | MessageTypeData =>
          let ms := messages b ++ [Data m] in
          if limit <=? Z.of_nat (length ms) then ([data_batch ms], []) else ([], ms)
      end
  | EvTimer => if timer b then (flush (messages b), []) else ([], messages b)
  end.

Definition ends (e : batch_event) : bool := match end_of e with Some _ => true | None => false end.

Lemma sendBatch_always b :
  exists b', sendBatch always b = Ok b' /\ output b' = output b ++ flush (messages b) /\ messages b' = [] /\ size b' = size b.
Proof.
  unfold sendBatch. destruct (messages b) as [|m ms] eqn:E; cbn [length Nat.eqb flush].
  - exists b. by rewrite app_nil_r.
  - unfold send, always. cbn [mbind res_bind output set_metrics messages]. rewrite E. eexists. by split_and!.
Qed.

Lemma sendFinalBatch_always b :
  exists b', sendFinalBatch always b = Ok b' /\ output b' = output b ++ flush (messages b) /\ messages b' = [] /\ size b' = size b.
Proof.
  unfold sendFinalBatch. destruct (0 <? length (messages b))%nat eqn:E; [apply sendBatch_always|].
  exists b. destruct (messages b) eqn:M; [|done]. by rewrite app_nil_r.
Qed.

(** A round with room sends exactly [emitted]. *)
Lemma batch_step_emits limit b e taken M :
  batcher_inv M b taken ->
  exists b', batch_step always limit b e = Ok (b', ends e) /\ output b' = output b ++ (emitted limit b e).1 /\
    messages b' = (emitted limit b e).2 /\ size b' = size b.
Proof.
  intros I. assert (exists b', (b ← sendFinalBatch always b; b ← sendTombstoneBatch always b; Ok (b, true)) = Ok (b', true) /\
    output b' = output b ++ flush (messages b) ++ [tombstone_batch] /\ messages b' = [] /\ size b' = size b) as T.
  { destruct (sendFinalBatch_always b) as (b1 & -> & O & Ms & S). eexists. split; [done|]. cbn. by rewrite O, <- app_assoc. }
  unfold ends. destruct e as [| |m|]; cbn [batch_step emitted end_of].
  - exact T.
  - destruct (sendFinalBatch_always b) as (b1 & -> & O & Ms & S). by exists b1.
  - destruct (MType m); [|exact T].
    destruct (add_message_full M b (Data m) taken I) as (_ & Em & Es & _). cbn zeta. rewrite Em.
    assert (output (add_message b (Data m)) = output b) as Eo by (unfold add_message; by destruct (_ =? 1)%nat).
    destruct (limit <=? _).
    + destruct (sendBatch_always (add_message b (Data m))) as (b1 & -> & O & Ms & S). exists b1.
      rewrite O, Em, Eo, Ms, S, Es. by destruct (messages b).
    + exists (add_message b (Data m)). by rewrite Em, Eo, Es, app_nil_r.
  - pose proof (bi_timer _ _ _ I) as Ti. rewrite Ti. destruct (messages b) as [|x ms] eqn:Ms; cbn [length Nat.eqb negb andb Nat.ltb Nat.leb].
    + exists b. by rewrite app_nil_r.
    + destruct (sendBatch_always b) as (b1 & -> & O & M1 & S). exists b1. by rewrite O, Ms, M1.
Qed.

(** One round of any batcher with these laws. *)
Section step.
Context {B : Type} `{BatchingLaws B M ok}.

Lemma b_step_exact b e taken :
  ok b -> batcher_inv M (b_view b) taken ->
  exists b', b_step b e = Ok (b', ends e) /\
    output (b_view b') = output (b_view b) ++ (emitted (b_limit b) (b_view b) e).1 /\
    messages (b_view b') = (emitted (b_limit b) (b_view b) e).2 /\ ok b' /\
    match end_of e with
    | Some t => batcher_end M (b_view b') taken t
    | None => batcher_inv M (b_view b') (taken ++ taken_of e)
    end.
Proof.
  intros O I. destruct (batch_step_emits (b_limit b) (b_view b) e taken M I) as (v & E & Ou & Ms & Sz).
  pose proof (batch_step_settles always M (b_limit b) (b_view b) e taken I (ok_limit b O)) as S. rewrite E in S.
  exists (b_put b v). unfold b_step. rewrite E. cbn [mbind res_bind]. rewrite view_put. split_and!; try done; [by apply ok_put|].
  destruct S as [[? ?]|([v' s] & Ev & S)]; [done|]. injection Ev as <- <-. destruct (end_of e); [by destruct S|by destruct S as (_ & S & _)].
Qed.
End step.
