(* ===== verification/Feed.v ===== *)
(** * Feed: from the input file to messages
    (tools/loader/internal/detector and parser)

    The format of the input is detected from its first bytes by detectors in
    priority order; a parser then reads it line by line and streams one message
    per accepted line, errors for the others, and a tombstone at the end.  The
    two channels of a parser are one sequence of events here, in the order of
    the sends. *)
From S2P Require Import Prelude GoInt GoStr GoFloat GoTime Values GoUtf8 GoJson Telemetry Loader.
From Stdlib.Strings Require Import Byte.

(** NewParsingFailedError with a nil error. *)
Definition parsing_failed_nil (component : string) : error :=
  ConnectorError ErrCodeParsingFailed component "failed to parse message" [] None [].

(** ** Detection (detector/magic.go, registry.go, detector.go) *)

Definition maxPeekSize : nat := 512.

Definition checkMagicBytes (header magic : bytes) : bool :=
  if (length header <? length magic)%nat then false
  else bool_decide (take (length magic) header = magic).

Fixpoint isJSONContent (header : bytes) : bool :=
  match header with
  | [] => false
  | b :: rest =>
      match b with
      | x20 | x09 | x0a | x0d => isJSONContent rest
      | x7b | x5b => true
      | _ => false
      end
  end.

Record DetectorEntry : Type := { Priority : Z; Detector : bytes -> option Z }.

(** [sort.Slice], which is not stable: some sorted permutation. *)
Class SortSlice := {
  sort_entries : list DetectorEntry -> list DetectorEntry;
  sort_entries_perm l : sort_entries l ≡ₚ l;
  sort_entries_sorted l : StronglySorted (fun a b => Priority a <= Priority b) (sort_entries l)
}.

Definition DetectorRegistry : Type := list DetectorEntry.

Section detector.
Context `{SortSlice, MapIter}.

Definition Register_detector (r : DetectorRegistry) (priority : Z) (detector : bytes -> option Z) : DetectorRegistry :=
  sort_entries (r ++ [{| Priority := priority; Detector := detector |}]).

Fixpoint registry_Detect (r : DetectorRegistry) (header : bytes) : result Z :=
  match r with
  | [] => Err (parsing_failed_nil "detector-registry")
  | entry :: rest =>
      match Detector entry header with
      | Some format => Ok format
      | None => registry_Detect rest header
      end
  end.

Definition PAR1 : bytes := [x50; x41; x52; x31].
Definition gzip_magic : bytes := [x1f; x8b].

Definition detect_magic (header : bytes) : option Z :=
  if checkMagicBytes header PAR1 then Some FormatParquet
  else if checkMagicBytes header gzip_magic then Some FormatGzipJSON
  else None.
Definition detect_json (header : bytes) : option Z := if isJSONContent header then Some FormatJSONLines else None.

(** The package's init. *)
Definition defaultDetectorRegistry : DetectorRegistry :=
  Register_detector (Register_detector [] 10 detect_magic) 20 detect_json.

Definition DetectFormat (header : bytes) : result Z := registry_Detect defaultDetectorRegistry header.

Definition magicBytes : list (Z * bytes) := [(FormatParquet, PAR1); (FormatGzipJSON, gzip_magic)].

(** DefaultDetector.Detect; [peeked] is what Peek answers: an error other than
    EOF, or the header. *)
Definition Detect (peeked : error + bytes) : result Z :=
  match peeked with
  | inl err => Err (NewParsingFailedError "detector" err)
  | inr header =>
      match DetectFormat header with
      | Ok format => Ok format
      | _ =>
          match list_find (fun e => checkMagicBytes header e.2 = true) (iter magicBytes) with
          | Some (_, (format, _)) => Ok format
          | None => if isJSONContent header then Ok FormatJSONLines else Err (parsing_failed_nil "detector")
          end
      end
  end.
End detector.

(** ** Lines: bufio.Scanner with ScanLines *)

Definition MaxScanTokenSize : nat := 64 * 1024.

(** The pieces before each newline, and what follows the last one. *)
Fixpoint split_nl (data cur : bytes) : list bytes * bytes :=
  match data with
  | [] => ([], cur)
  | x0a :: data => let '(ls, rest) := split_nl data [] in (cur :: ls, rest)
  | b :: data => split_nl data (cur ++ [b])
  end.

Definition dropCR (l : bytes) : bytes :=
  match last l with
  | Some x0d => take (length l - 1) l
  | _ => l
  end.

(** The tokens up to the first that does not fit the buffer, and whether one
    did not. *)
Fixpoint fitting (ls : list bytes) : list bytes * bool :=
  match ls with
  | [] => ([], false)
  | l :: ls =>
      if (MaxScanTokenSize <=? length l)%nat then ([], true)
      else let '(ts, long) := fitting ls in (dropCR l :: ts, long)
  end.

Definition scan (data : bytes) : list bytes * bool :=
  let '(ls, rest) := split_nl data [] in
  fitting (ls ++ if (length rest =? 0)%nat then [] else [rest]).

(** What the reader gives: its bytes, and the error it ends with unless EOF. *)
Record source_file : Type := { file_data : bytes; file_err : option error }.

Definition ErrTooLong : error := LibError "bufio.Scanner: token too long".

Definition scanner_err (f : source_file) : option error :=
  if (scan (file_data f)).2 then Some ErrTooLong else file_err f.

(** ** Parsers (parser/jsonlines.go, base64.go) *)

Inductive parse_event : Type :=
  | PMessage (m : Message)
  | PError (err : error).

Definition data_message (format : Z) (data : bytes) : parse_event :=
  PMessage {| Data := data; Loader.Format := format; MType := MessageTypeData |}.
Definition tombstone_message (format : Z) : Message := {| Data := []; Loader.Format := format; MType := MessageTypeTombstone |}.

(** The goroutine of a Parse: [accept] judges a non-empty line. *)
Definition parse_lines (component : string) (format : Z) (accept : bytes -> error + bytes) (f : source_file)
    : list parse_event :=
  concat ((fun line =>
    if (length line =? 0)%nat then []
    else match accept line with
         | inl err => [PError (NewParsingFailedError component err)]
         | inr data => [data_message format data]
         end) <$> (scan (file_data f)).1) ++
  [PMessage (tombstone_message format)] ++
  match scanner_err f with Some err => [PError (NewParsingFailedError component err)] | None => [] end.

Definition accept_json (line : bytes) : error + bytes :=
  if Json.Valid line then inr line else inl (NewInvalidConfigError "json" "invalid JSON" []).

Definition accept_base64 (line : bytes) : error + bytes :=
  match Base64.DecodeString line with Some data => inr data | None => inl (LibError "illegal base64 data") end.

Definition JSONLines_Parse (f : source_file) : list parse_event := parse_lines "jsonlines" FormatJSONLines accept_json f.

Definition Base64_Parse (originalFormat : Z) (f : source_file) : list parse_event :=
  parse_lines "base64" originalFormat accept_base64 f.

(** ** Parser registry (parser/registry.go, factory.go) *)

Definition Parser : Type := source_file -> list parse_event.
Definition ParserRegistry : Type := gmap Z Parser.

Definition Register_parser (r : ParserRegistry) (format : Z) (p : Parser) : ParserRegistry := <[format := p]> r.

Definition registry_GetParser (r : ParserRegistry) (format : Z) : result Parser :=
  match r !! format with
  | Some p => Ok p
  | None => Err (NewInvalidConfigError "registry" "Format not registered" [])
  end.

(** The package's init. *)
Definition defaultRegistry : ParserRegistry :=
  Register_parser (Register_parser ∅ FormatJSONLines JSONLines_Parse) FormatBase64 (Base64_Parse FormatJSONLines).

Definition SupportedFormats `{MapIter} (r : ParserRegistry) : list Z := (iter (map_to_list r)).*1.

Definition GetParser (format : Z) : result Parser :=
  match registry_GetParser defaultRegistry format with
  | Ok p => Ok p
  | _ =>
      if format =? FormatGzipJSON then Err (NewInvalidConfigError "factory" "Gzip format not yet implemented" [])
      else if format =? FormatParquet then Err (NewInvalidConfigError "factory" "Parquet format not yet implemented" [])
      else Err (NewInvalidConfigError "factory" "Unknown data format" [])
  end.

(** ** Laws *)

(** *** Detection *)

Section detection.
Context `{SortSlice, MapIter}.

Lemma sort_one e : sort_entries [e] = [e].
Proof. apply Permutation_singleton_r, sort_entries_perm. Qed.

Lemma sort_two a b : Priority a < Priority b -> sort_entries [a; b] = [a; b].
Proof.
  intros L. pose proof (sort_entries_perm [a; b]) as P. pose proof (sort_entries_sorted [a; b]) as S.
  destruct (sort_entries [a; b]) as [|x [|y [|z l]]]; try by apply Permutation_length in P.
  apply Permutation_length_2_inv in P as [[= -> ->]|[= -> ->]]; [done|].
  apply StronglySorted_inv in S as [_ S]. inversion S. subst. lia.
Qed.

Lemma default_registry_shape :
  defaultDetectorRegistry =
    [{| Priority := 10; Detector := detect_magic |}; {| Priority := 20; Detector := detect_json |}].
Proof. unfold defaultDetectorRegistry, Register_detector. cbn [app]. rewrite sort_one. by apply sort_two. Qed.

(** What the header says. *)
Definition format_of (header : bytes) : option Z :=
  if bool_decide (PAR1 `prefix_of` header) then Some FormatParquet
  else if bool_decide (gzip_magic `prefix_of` header) then Some FormatGzipJSON
  else if isJSONContent header then Some FormatJSONLines
  else None.

Lemma checkMagicBytes_prefix header magic : checkMagicBytes header magic = bool_decide (magic `prefix_of` header).
Proof.
  unfold checkMagicBytes. destruct (Nat.ltb_spec (length header) (length magic)) as [L|L].
  - symmetry. apply bool_decide_false. intros P%prefix_length. lia.
  - apply bool_decide_ext. split; [intros <-; apply prefix_take|]. intros [k ->]. by rewrite take_app_length.
Qed.

Lemma DetectFormat_exact header :
  DetectFormat header = match format_of header with Some f => Ok f | None => Err (parsing_failed_nil "detector-registry") end.
Proof.
  unfold DetectFormat. rewrite default_registry_shape. cbn [registry_Detect Detector]. unfold detect_magic, detect_json, format_of.
  rewrite !checkMagicBytes_prefix. by repeat case_bool_decide; try case_match.
Qed.

(** Detection depends on the header only: not on the order in which detectors
    of one priority are kept, nor on that in which the map of magic bytes is
    read, since the loop over it can only confirm what the registry refused. *)
Theorem detect_exact header :
  Detect (inr header) = match format_of header with Some f => Ok f | None => Err (parsing_failed_nil "detector") end.
Proof.
  unfold Detect. rewrite DetectFormat_exact. unfold format_of.
  case_bool_decide as P; [done|]. case_bool_decide as G; [done|]. destruct (isJSONContent header) eqn:J; [done|].
  destruct (list_find _ _) as [[i [f m]]|] eqn:E; [|done]. exfalso.
  apply list_find_Some in E as (L & C & _). apply list_elem_of_lookup_2 in L. rewrite iter_perm in L.
  rewrite checkMagicBytes_prefix, bool_decide_eq_true in C. unfold magicBytes in L.
  apply elem_of_cons in L as [[= -> ->]|L]; [done|]. apply list_elem_of_singleton in L as [= -> ->]. done.
Qed.
End detection.

(** *** Lines *)

(** A line a text file can hold and the scanner gives back unchanged. *)
Definition line_ok (l : bytes) : Prop := x0a ∉ l /\ (length l < MaxScanTokenSize)%nat /\ last l <> Some x0d.

Definition with_newlines (ls : list bytes) : bytes := concat ((fun l => l ++ [x0a]) <$> ls).

Lemma split_nl_app l data cur :
  x0a ∉ l -> split_nl (l ++ x0a :: data) cur = (let '(ls, rest) := split_nl data [] in ((cur ++ l) :: ls, rest)).
Proof.
  revert cur. induction l as [|b l IH]; intros cur N; cbn [app].
  - cbn [split_nl]. destruct (split_nl data []). by rewrite app_nil_r.
  - apply not_elem_of_cons in N as [Nb N].
    assert (split_nl (b :: l ++ x0a :: data) cur = split_nl (l ++ x0a :: data) (cur ++ [b])) as -> by by destruct b.
    rewrite IH by done. destruct (split_nl data []). by rewrite <- app_assoc.
Qed.

Lemma split_nl_rest l cur : x0a ∉ l -> split_nl l cur = ([], cur ++ l).
Proof.
  revert cur. induction l as [|b l IH]; intros cur N; [by rewrite app_nil_r|].
  apply not_elem_of_cons in N as [Nb N].
  assert (split_nl (b :: l) cur = split_nl l (cur ++ [b])) as -> by by destruct b.
  rewrite IH by done. by rewrite <- app_assoc.
Qed.

Lemma split_nl_lines ls last_line :
  Forall (fun l => x0a ∉ l) ls -> x0a ∉ last_line -> split_nl (with_newlines ls ++ last_line) [] = (ls, last_line).
Proof.
  intros F N. induction F as [|l ls Nl F IH]; [by apply split_nl_rest|].
  change (with_newlines (l :: ls)) with ((l ++ [x0a]) ++ with_newlines ls). rewrite <- !app_assoc. cbn [app].
  rewrite split_nl_app by done. by rewrite IH.
Qed.

Lemma dropCR_id l : last l <> Some x0d -> dropCR l = l.
Proof. unfold dropCR. destruct (last l) as [[]|]; done. Qed.

Lemma fitting_ok ls : Forall line_ok ls -> fitting ls = (ls, false).
Proof.
  induction 1 as [|l ls (N & L & C) F IH]; [done|]. cbn [fitting].
  destruct (Nat.leb_spec MaxScanTokenSize (length l)); [lia|]. by rewrite IH, dropCR_id.
Qed.

(** Writing lines and scanning them back, with or without a last newline. *)
Lemma scan_lines ls : Forall line_ok ls -> scan (with_newlines ls) = (ls, false).
Proof.
  intros F. unfold scan. rewrite <- (app_nil_r (with_newlines ls)), split_nl_lines.
  - cbn [length Nat.eqb]. rewrite app_nil_r. by apply fitting_ok.
  - eapply Forall_impl; [exact F|]. by intros l [? _].
  - apply not_elem_of_nil.
Qed.

(** *** Parsing *)

(** The data messages of a list of events, and the errors. *)
Definition messages_of (evs : list parse_event) : list Message :=
  omap (fun e => match e with PMessage m => Some m | PError _ => None end) evs.

Definition is_data (m : Message) : Prop := MType m = MessageTypeData.

(** Every parser ends its messages with its only tombstone. *)
Lemma parse_lines_shape component format accept f :
  exists ms, messages_of (parse_lines component format accept f) = ms ++ [tombstone_message format] /\ Forall is_data ms /\
    Data <$> ms = omap (fun line => if (length line =? 0)%nat then None else match accept line with inr d => Some d | inl _ => None end)
                       (scan (file_data f)).1.
Proof.
  unfold parse_lines, messages_of. rewrite !omap_app.
  set (tail := match scanner_err f with Some _ => _ | None => _ end).
  assert (omap (fun e => match e with PMessage m => Some m | PError _ => None end) tail = []) as ->
    by (unfold tail; by case_match).
  rewrite app_nil_r. eexists. split; [done|].
  induction (scan (file_data f)).1 as [|l ls [IH1 IH2]]; [done|]. rewrite fmap_cons. cbn [concat omap list_omap].
  rewrite omap_app. destruct (length l =? 0)%nat; [done|]. destruct (accept l) as [e|d]; [done|].
  cbn [omap list_omap app data_message]. split; [by constructor|]. rewrite fmap_cons. by rewrite IH2.
Qed.
