(* ===== verification/Publish.v ===== *)
(** * Publish: the publisher workers of the loader
    (tools/loader/internal/publisher)

    A pool of workers takes batches from the batcher's channel; a worker
    publishes the messages of a batch one by one and flushes once at the end.
    The model is a step relation: one rule per select, per look at the context
    and per return of the connection.  [published] and [abandoned] record what
    reached the server and what a worker gave up, [refusals] the errors. *)
From stdpp Require Import relations.
From S2P Require Import Prelude GoInt GoStr GoFloat GoTime Values Telemetry Loader.

(** ** Workers *)

Inductive pub_pc : Type :=
  | PIdle                                            (* the select of Run *)
  | PAcquire (b : Batch)                             (* the select on the semaphore *)
  | PSend (b : Batch) (rest : list bytes)            (* the head of the loop of publishBatch *)
  | PPublish (b : Batch) (m : bytes) (rest : list bytes)  (* in Publish *)
  | PFlush (b : Batch)                               (* in Flush *)
  | PDone.

Record pub_worker : Type := { pc : pub_pc; messagesHandled : Z; batchesHandled : Z }.

Definition at_pc (w : pub_worker) (p : pub_pc) : pub_worker :=
  {| pc := p; messagesHandled := messagesHandled w; batchesHandled := batchesHandled w |}.

(** processBatch after a successful publishBatch. *)
Definition handled (w : pub_worker) (b : Batch) : pub_worker :=
  {| pc := PIdle; messagesHandled := wrap64 (messagesHandled w + Size b); batchesHandled := wrap64 (batchesHandled w + 1) |}.

(** ** What the workers share *)

Record shared : Type := {
  input : list Batch;
  input_closed : bool;
  pub_ctx : option error;
  semaphore : nat;
  messagesPublished : Z; batchesProcessed : Z; publishErrors : Z; workersCompleted : Z;
  published : list bytes;
  abandoned : list bytes;
  refusals : list error
}.

Definition set_input (s : shared) (q : list Batch) (closed : bool) : shared :=
  {| input := q; input_closed := closed; pub_ctx := pub_ctx s; semaphore := semaphore s;
     messagesPublished := messagesPublished s; batchesProcessed := batchesProcessed s; publishErrors := publishErrors s;
     workersCompleted := workersCompleted s; published := published s; abandoned := abandoned s; refusals := refusals s |}.
Definition set_semaphore (s : shared) (n : nat) : shared :=
  {| input := input s; input_closed := input_closed s; pub_ctx := pub_ctx s; semaphore := n;
     messagesPublished := messagesPublished s; batchesProcessed := batchesProcessed s; publishErrors := publishErrors s;
     workersCompleted := workersCompleted s; published := published s; abandoned := abandoned s; refusals := refusals s |}.
Definition abandon (s : shared) (ms : list bytes) : shared :=
  {| input := input s; input_closed := input_closed s; pub_ctx := pub_ctx s; semaphore := semaphore s;
     messagesPublished := messagesPublished s; batchesProcessed := batchesProcessed s; publishErrors := publishErrors s;
     workersCompleted := workersCompleted s; published := published s; abandoned := abandoned s ++ ms;
     refusals := refusals s |}.
Definition set_pub_ctx (s : shared) (e : error) : shared :=
  {| input := input s; input_closed := input_closed s; pub_ctx := Some e; semaphore := semaphore s;
     messagesPublished := messagesPublished s; batchesProcessed := batchesProcessed s; publishErrors := publishErrors s;
     workersCompleted := workersCompleted s; published := published s; abandoned := abandoned s; refusals := refusals s |}.

(** The counter updates of publishBatch and OnWorkerCompleted. *)
Definition count_message (s : shared) (m : bytes) : shared :=
  {| input := input s; input_closed := input_closed s; pub_ctx := pub_ctx s; semaphore := semaphore s;
     messagesPublished := wrap64 (messagesPublished s + 1); batchesProcessed := batchesProcessed s;
     publishErrors := publishErrors s; workersCompleted := workersCompleted s; published := published s ++ [m];
     abandoned := abandoned s; refusals := refusals s |}.
Definition count_batch (s : shared) : shared :=
  {| input := input s; input_closed := input_closed s; pub_ctx := pub_ctx s; semaphore := semaphore s;
     messagesPublished := messagesPublished s; batchesProcessed := wrap64 (batchesProcessed s + 1);
     publishErrors := publishErrors s; workersCompleted := workersCompleted s; published := published s;
     abandoned := abandoned s; refusals := refusals s |}.
Definition count_error (s : shared) (e : error) : shared :=
  {| input := input s; input_closed := input_closed s; pub_ctx := pub_ctx s; semaphore := semaphore s;
     messagesPublished := messagesPublished s; batchesProcessed := batchesProcessed s;
     publishErrors := wrap64 (publishErrors s + 1); workersCompleted := workersCompleted s; published := published s;
     abandoned := abandoned s; refusals := refusals s ++ [e] |}.
Definition OnWorkerCompleted (s : shared) : shared :=
  {| input := input s; input_closed := input_closed s; pub_ctx := pub_ctx s; semaphore := semaphore s;
     messagesPublished := messagesPublished s; batchesProcessed := batchesProcessed s; publishErrors := publishErrors s;
     workersCompleted := wrap64 (workersCompleted s + 1); published := published s; abandoned := abandoned s;
     refusals := refusals s |}.

Definition release (s : shared) : shared := set_semaphore s (semaphore s - 1).

(** One step of a worker; [cap] is the capacity of the semaphore. *)
Inductive work_step (cap : nat) : shared -> pub_worker -> shared -> pub_worker -> Prop :=
  | pw_cancelled s w :
      pc w = PIdle -> pub_ctx s <> None -> work_step cap s w (OnWorkerCompleted s) (at_pc w PDone)
  | pw_input_closed s w :
      pc w = PIdle -> input s = [] -> input_closed s = true -> work_step cap s w (OnWorkerCompleted s) (at_pc w PDone)
  | pw_tombstone s w b q :
      pc w = PIdle -> input s = b :: q -> IsTombstone b = true ->
      work_step cap s w (OnWorkerCompleted (set_input s q (input_closed s))) (at_pc w PDone)
  | pw_batch s w b q :
      pc w = PIdle -> input s = b :: q -> IsTombstone b = false ->
      work_step cap s w (set_input s q (input_closed s)) (at_pc w (PAcquire b))
  | pw_acquired s w b :
      pc w = PAcquire b -> (semaphore s < cap)%nat ->
      work_step cap s w (set_semaphore s (semaphore s + 1)) (at_pc w (PSend b (Messages b)))
  | pw_not_acquired s w b :
      pc w = PAcquire b -> pub_ctx s <> None -> work_step cap s w (abandon s (Messages b)) (at_pc w PIdle)
  | pw_stopped s w b m rest :
      pc w = PSend b (m :: rest) -> pub_ctx s <> None ->
      work_step cap s w (release (abandon s (m :: rest))) (at_pc w PIdle)
  | pw_publish s w b m rest :
      pc w = PSend b (m :: rest) -> pub_ctx s = None -> work_step cap s w s (at_pc w (PPublish b m rest))
  | pw_published s w b m rest :
      pc w = PPublish b m rest -> work_step cap s w (count_message s m) (at_pc w (PSend b rest))
  | pw_refused s w b m rest e :
      pc w = PPublish b m rest -> work_step cap s w (release (count_error (abandon s (m :: rest)) e)) (at_pc w PIdle)
  | pw_flush s w b : pc w = PSend b [] -> work_step cap s w s (at_pc w (PFlush b))
  | pw_flushed s w b : pc w = PFlush b -> work_step cap s w (release (count_batch s)) (handled w b)
  | pw_flush_failed s w b e :
      pc w = PFlush b -> work_step cap s w (release (count_error s e)) (at_pc w PIdle).

(** ** The pool *)

Record pub_state : Type := {
  sh : shared;
  workers : list pub_worker;
  pending : list Batch;             (* what the batcher has still to send *)
  completed : bool                  (* completionChan is closed *)
}.

(** The capacity of the batcher's output channel. *)
Definition output_cap : nat := 10.

Definition pub_worker0 : pub_worker := {| pc := PIdle; messagesHandled := 0; batchesHandled := 0 |}.

Definition pool_size (n : Z) : nat := Z.to_nat (if n <=? 0 then 4 else n).

(** NewPublisher and Start, before a batcher that will send [batches]. *)
Definition NewPublisher (n : Z) (batches : list Batch) : pub_state :=
  {| sh := {| input := []; input_closed := false; pub_ctx := None; semaphore := 0; messagesPublished := 0;
              batchesProcessed := 0; publishErrors := 0; workersCompleted := 0; published := []; abandoned := [];
              refusals := [] |};
     workers := replicate (pool_size n) pub_worker0; pending := batches; completed := false |}.

Definition is_done (w : pub_worker) : bool := match pc w with PDone => true | _ => false end.

Inductive pub_own_step : pub_state -> pub_state -> Prop :=
  | pos_worker s i w s' w' :
      workers s !! i = Some w -> work_step (length (workers s)) (sh s) w s' w' ->
      pub_own_step s {| sh := s'; workers := <[i := w']> (workers s); pending := pending s; completed := completed s |}
  | pos_feed s b bs :
      pending s = b :: bs -> (length (input (sh s)) < output_cap)%nat ->
      pub_own_step s {| sh := set_input (sh s) (input (sh s) ++ [b]) (input_closed (sh s)); workers := workers s;
                        pending := bs; completed := completed s |}
  | pos_close s :
      pending s = [] -> input_closed (sh s) = false ->
      pub_own_step s {| sh := set_input (sh s) (input (sh s)) true; workers := workers s; pending := []; completed := completed s |}
  | pos_complete s :
      forallb is_done (workers s) = true -> completed s = false ->
      pub_own_step s {| sh := sh s; workers := workers s; pending := pending s; completed := true |}.

Inductive pub_step : pub_state -> pub_state -> Prop :=
  | ps_own s s' : pub_own_step s s' -> pub_step s s'
  | ps_cancel s e :
      pub_ctx (sh s) = None ->
      pub_step s {| sh := set_pub_ctx (sh s) e; workers := workers s; pending := pending s; completed := completed s |}.

(** ** Laws *)

(** What a worker still has of the batch it took. *)
Definition inflight (w : pub_worker) : list bytes :=
  match pc w with
  | PAcquire b => Messages b
  | PSend _ rest => rest
  | PPublish _ m rest => m :: rest
  | PIdle | PFlush _ | PDone => []
  end.

(** Whether it holds a slot of the semaphore. *)
Definition holds (w : pub_worker) : nat := match pc w with PSend _ _ | PPublish _ _ _ | PFlush _ => 1 | _ => 0 end.

Definition plain (b : Batch) : Prop := IsTombstone b = false.

(** The batches to come: none is a tombstone but possibly the last. *)
Definition stream_ok (bs : list Batch) : Prop :=
  exists d t, bs = d ++ (if (t : bool) then [tombstone_batch] else []) /\ Forall plain d.

Lemma stream_head b q :
  stream_ok (b :: q) -> stream_ok q /\ (IsTombstone b = true -> b = tombstone_batch /\ q = []).
Proof.
  intros (d & t & E & F). destruct d as [|x d].
  - destruct t; [|done]. injection E as -> ->. split; [by exists [], false|done].
  - injection E as -> ->. apply Forall_cons in F as [P F]. split; [by exists d, t|]. unfold plain in P. congruence.
Qed.

(** What one step of a worker does to the accounts. *)
Record step_effect (s : shared) (w : pub_worker) (s' : shared) (w' : pub_worker) : Prop := {
  se_flow : published s' ++ abandoned s' ++ inflight w' ++ concat (Messages <$> input s') ≡ₚ
            published s ++ abandoned s ++ inflight w ++ concat (Messages <$> input s);
  se_input : exists taken, input s = taken ++ input s' /\ (is_done w' = true -> pub_ctx s = None ->
               taken = [tombstone_batch] \/ input s = [] /\ input_closed s = true);
  se_semaphore : (holds w <= semaphore s)%nat -> (semaphore s' + holds w = semaphore s + holds w')%nat;
  se_messages : messagesPublished s = wrap64 (Z.of_nat (length (published s))) ->
                messagesPublished s' = wrap64 (Z.of_nat (length (published s')));
  se_errors : publishErrors s = wrap64 (Z.of_nat (length (refusals s))) ->
              publishErrors s' = wrap64 (Z.of_nat (length (refusals s')));
  se_done : is_done w = false /\ workersCompleted s' = (if is_done w' then wrap64 (workersCompleted s + 1) else workersCompleted s);
  se_lost : (abandoned s <> [] -> pub_ctx s <> None \/ refusals s <> []) ->
            abandoned s' <> [] -> pub_ctx s' <> None \/ refusals s' <> [];
  se_shared : pub_ctx s' = pub_ctx s /\ input_closed s' = input_closed s
}.

Lemma count_snoc {A} (c : Z) (l : list A) x : c = wrap64 (Z.of_nat (length l)) -> wrap64 (c + 1) = wrap64 (Z.of_nat (length (l ++ [x]))).
Proof. intros ->. rewrite wrap64_add_l, length_app. f_equal. cbn. lia. Qed.

Ltac at_worker w E := destruct w as [? ? ?]; cbn in E; subst.

Lemma work_step_effect cap s w s' w' rest :
  stream_ok (input s ++ rest) -> work_step cap s w s' w' -> step_effect s w s' w'.
Proof.
  intros St S. destruct S as [s w E C|s w E I C|s w b q E I T|s w b q E I T|s w b E L|s w b E C|s w b m r E C
    |s w b m r E C|s w b m r E|s w b m r e E|s w b E|s w b E|s w b e E]; at_worker w E.
  all: try (rewrite I in St; pose proof (stream_head _ _ St) as [_ Hd]).
  all: try (destruct (Hd T) as [-> _]).
  all: split; cbn -[wrap64]; rewrite ?I; try done; try lia.
  all: try (by apply count_snoc).
  all: try (by intros; right; intros ?%app_nil_inv).
  all: try (solve_Permutation).
  all: try (first [exists []; split; [done|]; naive_solver | eexists [_]; split; [done|]; naive_solver]).
  all: try (intros; by left).
  all: intros _ _; right; by intros []%app_nil.
Qed.

Definition done_count (w : pub_worker) : nat := if is_done w then 1 else 0.

Definition to_come (s : pub_state) : list Batch := input (sh s) ++ pending s.

(** The invariant of every run over batches that hold the messages [all]. *)
Record pub_inv (all : list bytes) (n : nat) (s : pub_state) : Prop := {
  pi_size : length (workers s) = n;
  pi_stream : stream_ok (to_come s);
  pi_flow : published (sh s) ++ abandoned (sh s) ++ concat (inflight <$> workers s) ++ concat (Messages <$> to_come s) ≡ₚ all;
  pi_cap : (length (input (sh s)) <= output_cap)%nat;
  pi_semaphore : semaphore (sh s) = sum_list (holds <$> workers s);
  pi_messages : messagesPublished (sh s) = wrap64 (Z.of_nat (length (published (sh s))));
  pi_errors : publishErrors (sh s) = wrap64 (Z.of_nat (length (refusals (sh s))));
  pi_completed : workersCompleted (sh s) = wrap64 (Z.of_nat (sum_list (done_count <$> workers s)));
  pi_done : forall w, w ∈ workers s -> is_done w = true -> pub_ctx (sh s) = None -> to_come s = [];
  pi_closed : input_closed (sh s) = true -> pending s = [];
  pi_lost : abandoned (sh s) <> [] -> pub_ctx (sh s) <> None \/ refusals (sh s) <> []
}.

Lemma holds_le w : (holds w <= 1)%nat.
Proof. unfold holds. case_match; lia. Qed.

Lemma stream_app_head taken rest : stream_ok (taken ++ rest) -> stream_ok rest.
Proof. induction taken as [|b taken IH]; [done|]. intros [S _]%stream_head. by apply IH. Qed.

Lemma stream_tombstone rest : stream_ok ([tombstone_batch] ++ rest) -> rest = [].
Proof. intros S%stream_head. destruct S as [_ S]. by apply S. Qed.

Lemma pub_inv_worker all n s i w s' w' :
  pub_inv all n s -> workers s !! i = Some w -> work_step (length (workers s)) (sh s) w s' w' ->
  pub_inv all n {| sh := s'; workers := <[i := w']> (workers s); pending := pending s; completed := completed s |}.
Proof.
  intros [<- St F Cp Sm Ms Er Cm Dn Cl Lo] L S.
  pose proof (work_step_effect _ _ _ _ _ (pending s) St S) as [F' (taken & I & D') Sm' Ms' Er' [Nd Cm'] Lo' [Cx Ic]].
  pose proof (sum_list_lookup holds _ _ _ L) as Hs. pose proof (sum_list_insert holds _ _ _ w' L) as Hi.
  pose proof (sum_list_insert done_count _ _ _ w' L) as Hd. pose proof (concat_insert inflight _ _ _ w' L) as Hf.
  unfold to_come in *. split; cbn [sh workers pending completed to_come]; unfold to_come; cbn [sh pending workers]; try auto.
  - apply length_insert.
  - rewrite I, <- app_assoc in St. by eapply stream_app_head.
  - rewrite <- F. rewrite !fmap_app, !concat_app in *. apply (inj (.++ inflight w)).
    transitivity (published s' ++ abandoned s' ++ (concat (inflight <$> <[i:=w']> (workers s)) ++ inflight w) ++
      concat (Messages <$> input s') ++ concat (Messages <$> pending s)); [solve_Permutation|]. rewrite Hf.
    transitivity ((published s' ++ abandoned s' ++ inflight w' ++ concat (Messages <$> input s')) ++
      concat (inflight <$> workers s) ++ concat (Messages <$> pending s)); [solve_Permutation|]. rewrite F'.
    solve_Permutation.
  - rewrite I, length_app in Cp. lia.
  - specialize (Sm' ltac:(lia)). lia.
  - rewrite Cm', Cm. unfold done_count in Hd at 2 4. rewrite Nd in Hd. destruct (is_done w'); [|f_equal; lia].
    rewrite wrap64_add_l. f_equal. lia.
  - intros v Hv Dv C. rewrite Cx in C. apply list_elem_of_lookup in Hv as [j Hv].
    assert (E : input (sh s) ++ pending s = [] \/ is_done w' = true).
    { destruct (decide (i = j)) as [<-|N].
      - rewrite list_lookup_insert_eq in Hv by (by eapply lookup_lt_Some). injection Hv as ->. by right.
      - rewrite list_lookup_insert_ne in Hv by done. left. apply (Dn v); [by eapply list_elem_of_lookup_2|done|done]. }
    destruct E as [E|E].
    + apply app_nil in E as [E1 ->]. rewrite E1 in I. symmetry in I. apply app_nil in I as [_ ->]. done.
    + destruct (D' E C) as [-> |[E1 E2]].
      * rewrite I, <- app_assoc in St. by apply stream_tombstone.
      * rewrite E1 in I. symmetry in I. apply app_nil in I as [_ ->]. by apply Cl.
  - by rewrite Ic.
Qed.

Lemma pub_inv_step all n s s' : pub_inv all n s -> pub_step s s' -> pub_inv all n s'.
Proof.
  intros I S. destruct S as [s s' O|s e C]; [destruct O as [s i w s' w' L W|s b bs P L|s P C|s D C]|].
  - by eapply pub_inv_worker.
  - destruct I as [Sz St F Cp Sm Ms Er Cm Dn Cl Lo]. unfold to_come in *. rewrite P in *. split; unfold to_come; cbn; try done.
    + by rewrite <- app_assoc.
    + by rewrite <- app_assoc.
    + rewrite length_app. cbn. lia.
    + intros w Hw Dw E. rewrite <- app_assoc. by apply (Dn w).
    + intros E. by apply Cl in E.
  - destruct I as [Sz St F Cp Sm Ms Er Cm Dn Cl Lo]. unfold to_come in *. rewrite P in *. by split.
  - destruct I. by split.
  - destruct I as [Sz St F Cp Sm Ms Er Cm Dn Cl Lo]. split; try done. cbn. by left.
Qed.

Lemma pub_inv_start n bs :
  stream_ok bs -> pub_inv (concat (Messages <$> bs)) (pool_size n) (NewPublisher n bs).
Proof.
  intros St. split; cbn; try done.
  - by rewrite length_replicate.
  - assert (concat (inflight <$> replicate (pool_size n) pub_worker0) = []) as ->; [|done].
    by induction (pool_size n).
  - unfold output_cap. lia.
  - by induction (pool_size n).
  - assert (sum_list (done_count <$> replicate (pool_size n) pub_worker0) = 0%nat) as ->; [|done]. by induction (pool_size n).
  - intros w Hw. apply elem_of_replicate in Hw as [-> _]. done.
Qed.

Definition publishing (n : Z) (bs : list Batch) (s : pub_state) : Prop := rtc pub_step (NewPublisher n bs) s.

Lemma publishing_inv n bs s : stream_ok bs -> publishing n bs s -> pub_inv (concat (Messages <$> bs)) (pool_size n) s.
Proof.
  intros St R. pose proof (pub_inv_start n bs St) as I. unfold publishing in R.
  induction R as [|s0 s1 s2 S R IH]; [done|]. apply IH. by eapply pub_inv_step.
Qed.

(** *** The end of a run *)

(** Steps still to make, at most. *)
Definition batch_rank (b : Batch) : nat := 2 * length (Messages b) + 6.
Definition worker_rank (w : pub_worker) : nat :=
  match pc w with
  | PIdle => 1
  | PAcquire b => 2 * length (Messages b) + 5
  | PSend _ rest => 2 * length rest + 4
  | PPublish _ _ rest => 2 * length rest + 5
  | PFlush _ => 3
  | PDone => 0
  end.
Definition pub_rank (s : pub_state) : nat :=
  sum_list (worker_rank <$> workers s) + sum_list (batch_rank <$> input (sh s)) +
  sum_list ((fun b => batch_rank b + 1)%nat <$> pending s) +
  (if input_closed (sh s) then 0 else 1) + (if completed s then 0 else 1).

Lemma work_step_rank cap s w s' w' :
  work_step cap s w s' w' ->
  (worker_rank w' + sum_list (batch_rank <$> input s') < worker_rank w + sum_list (batch_rank <$> input s))%nat.
Proof.
  destruct 1 as [s w E C|s w E I C|s w b q E I T|s w b q E I T|s w b E L|s w b E C|s w b m r E C
    |s w b m r E C|s w b m r E|s w b m r e E|s w b E|s w b E|s w b e E]; at_worker w E; cbn; rewrite ?I;
    rewrite ?fmap_cons; cbn [sum_list_with]; unfold batch_rank; cbn; lia.
Qed.

Lemma pub_own_rank s s' : pub_own_step s s' -> (pub_rank s' < pub_rank s)%nat.
Proof.
  destruct 1 as [s i w s' w' L W|s b bs P L|s P C|s D C]; unfold pub_rank; cbn.
  - pose proof (sum_list_insert worker_rank _ _ _ w' L) as Hi. pose proof (work_step_rank _ _ _ _ _ W).
    assert (input_closed s' = input_closed (sh s)) as -> by by destruct W. lia.
  - rewrite P, fmap_app, fmap_cons, sum_list_with_app. cbn. lia.
  - rewrite P, C. cbn. lia.
  - rewrite C. lia.
Qed.

Lemma pub_step_rank s s' : pub_step s s' -> (pub_rank s' <= pub_rank s)%nat.
Proof. destruct 1 as [s s' O|s e C]; [by apply Nat.lt_le_incl, pub_own_rank|done]. Qed.

(** [k] steps of the program and any number of cancellations. *)
Inductive pub_run : nat -> pub_state -> pub_state -> Prop :=
  | pub_here s : pub_run 0 s s
  | pub_own k s s1 s' : pub_own_step s s1 -> pub_run k s1 s' -> pub_run (S k) s s'
  | pub_outside k s s1 s' : pub_step s s1 -> pub_run k s1 s' -> pub_run k s s'.

Lemma pub_run_rank k s s' : pub_run k s s' -> (k + pub_rank s' <= pub_rank s)%nat.
Proof.
  induction 1 as [s|k s s1 s' O R IH|k s s1 s' O R IH]; [done| |].
  - apply pub_own_rank in O. lia.
  - apply pub_step_rank in O. lia.
Qed.

Lemma pub_run_rtc k s s' : pub_run k s s' -> rtc pub_step s s'.
Proof. induction 1; [done| |]; (eapply rtc_l; [|done]); [by apply ps_own|done]. Qed.

(** A worker that has not returned can move, or the batcher can. *)
Lemma pool_worker_progress all n s i w :
  pub_inv all n s -> workers s !! i = Some w -> is_done w = false -> exists s', pub_own_step s s'.
Proof.
  intros I L D.
  assert (forall s' w', work_step (length (workers s)) (sh s) w s' w' -> exists s'', pub_own_step s s'') as Go
    by (intros s' w' W; eexists; by eapply pos_worker).
  destruct w as [p mh bh] eqn:Ew. destruct p as [|b|b rest|b m rest|b|]; try done.
  - destruct (pub_ctx (sh s)) eqn:C; [eapply Go, pw_cancelled; cbn; congruence|].
    destruct (input (sh s)) as [|b q] eqn:E.
    + destruct (input_closed (sh s)) eqn:Cl; [by eapply Go, pw_input_closed|].
      destruct (pending s) as [|b bs] eqn:P; eexists; [by apply pos_close|].
      eapply pos_feed; [done|]. rewrite E. cbn. unfold output_cap. lia.
    + destruct (IsTombstone b) eqn:T; [by eapply Go, pw_tombstone|by eapply Go, pw_batch].
  - eapply Go, pw_acquired; [done|]. rewrite (pi_semaphore _ _ _ I).
    assert (sum_list (holds <$> workers s) + 1 <= length (workers s))%nat; [|lia].
    pose proof (sum_list_insert holds (workers s) i _ (at_pc w (PFlush b)) L) as Hi. subst w. cbn in Hi.
    assert (forall ws, sum_list (holds <$> ws) <= length ws)%nat as B.
    { intros ws. induction ws as [|v ws IH]; [done|]. rewrite fmap_cons. cbn. pose proof (holds_le v). lia. }
    pose proof (B (<[i:=at_pc {| pc := PAcquire b; messagesHandled := mh; batchesHandled := bh |} (PFlush b)]> (workers s))) as Hb.
    rewrite length_insert in Hb. cbn in Hb. lia.
  - destruct rest as [|m rest]; [by eapply Go, pw_flush|].
    destruct (pub_ctx (sh s)) eqn:C; [eapply Go, pw_stopped; [done|congruence]|by eapply Go, pw_publish].
  - by eapply Go, pw_published.
  - by eapply Go, pw_flushed.
Qed.

Lemma pub_progress all n s : pub_inv all n s -> completed s = false -> exists s', pub_own_step s s'.
Proof.
  intros I C. destruct (forallb is_done (workers s)) eqn:D; [eexists; by apply pos_complete|].
  assert (exists i w, workers s !! i = Some w /\ is_done w = false) as (i & w & L & N).
  { clear - D. induction (workers s) as [|w ws IH]; [done|]. cbn in D. destruct (is_done w) eqn:E.
    - destruct (IH D) as (i & v & L & N). by exists (S i), v.
    - by exists 0%nat, w. }
  by eapply pool_worker_progress.
Qed.

Lemma all_done_hold_nothing ws : forallb is_done ws = true -> concat (inflight <$> ws) = [].
Proof.
  induction ws as [|w ws IH]; [done|]. cbn [forallb]. intros [Dw D]%andb_prop. rewrite fmap_cons. cbn [concat]. rewrite IH by done.
  unfold inflight, is_done in *. by destruct (pc w).
Qed.

(** A pool whose workers have all returned without a cancellation has nothing
    to come. *)
Lemma all_done_drained all n s :
  pub_inv all n s -> (0 < n)%nat -> forallb is_done (workers s) = true -> pub_ctx (sh s) = None -> to_come s = [].
Proof.
  intros I P D C. pose proof (pi_size _ _ _ I) as Sz. destruct (workers s) as [|w ws] eqn:W; [cbn in Sz; lia|].
  cbn in D. apply andb_prop in D as [D _]. apply (pi_done _ _ _ I w); [rewrite W; left|done|done].
Qed.

Lemma pool_size_pos n : (0 < pool_size n)%nat.
Proof. unfold pool_size. case_match; lia. Qed.

(** When every worker has returned without a cancellation. *)
Lemma publishing_settled n bs s :
  stream_ok bs -> publishing n bs s -> forallb is_done (workers s) = true -> pub_ctx (sh s) = None ->
  messagesPublished (sh s) = wrap64 (Z.of_nat (length (published (sh s)))) /\
  published (sh s) ++ abandoned (sh s) ≡ₚ concat (Messages <$> bs) /\
  (refusals (sh s) = [] -> published (sh s) ≡ₚ concat (Messages <$> bs)).
Proof.
  intros St R D C. pose proof (publishing_inv n bs s St R) as I.
  pose proof (all_done_drained _ _ _ I (pool_size_pos n) D C) as E. pose proof (all_done_hold_nothing _ D) as Fl.
  destruct I as [Sz Stm F Cp Sm Ms Er Cm Dn Cl Lo].
  rewrite E, Fl in F. cbn in F. rewrite !app_nil_r in F. split_and!; try done. intros Rf.
  destruct (abandoned (sh s)) as [|m ms] eqn:A; [by rewrite app_nil_r in F|].
  destruct Lo as [Lo|Lo]; done.
Qed.

(** C36. Every message is accounted for.  At any point of any run of the publisher
    over batches the batcher sends, a message is published, given up by a
    worker, held by one, or still to come, and never in two of these places;
    the counters are those of the published messages and of the refusals; and
    once every worker has returned without a cancellation, every message was
    published or given up after a refusal of the connection. *)
Theorem publisher_accounting n bs s :
  stream_ok bs -> publishing n bs s ->
  published (sh s) ++ abandoned (sh s) ++ concat (inflight <$> workers s) ++ concat (Messages <$> to_come s)
    ≡ₚ concat (Messages <$> bs) /\
  messagesPublished (sh s) = wrap64 (Z.of_nat (length (published (sh s)))) /\
  publishErrors (sh s) = wrap64 (Z.of_nat (length (refusals (sh s)))) /\
  (forallb is_done (workers s) = true -> pub_ctx (sh s) = None ->
     published (sh s) ++ abandoned (sh s) ≡ₚ concat (Messages <$> bs) /\
     (refusals (sh s) = [] -> published (sh s) ≡ₚ concat (Messages <$> bs))).
Proof.
  intros St R. pose proof (publishing_inv n bs s St R) as []. split_and!; try done. intros D C.
  by apply (publishing_settled n bs s).
Qed.

(** A run of the publisher ends: it makes at most as many steps as its
    batches allow, whatever the connection answers, and stops only when every
    worker has returned and the completion channel is closed. *)
Theorem publisher_terminates n bs k s :
  stream_ok bs -> pub_run k (NewPublisher n bs) s ->
  (k <= pub_rank (NewPublisher n bs))%nat /\ (completed s = false -> exists s', pub_own_step s s').
Proof.
  intros St R. split; [pose proof (pub_run_rank _ _ _ R); lia|]. intros C.
  eapply pub_progress; [|done]. eapply publishing_inv; [done|by eapply pub_run_rtc].
Qed.
