(* ===== verification/LoaderRun.v ===== *)
(** * LoaderRun: one run of the loader (tools/loader/main.go and
    tools/loader/internal/nats.go)

    [Connect] with its ladder of waits, the choice of the parser, and the
    pipeline of runLoader: parser, forwarder, batcher and publisher pool, each
    reading what the one before it sends. *)
From stdpp Require Import relations.
From S2P Require Import Prelude GoInt GoStr GoFloat GoTime Values GoUtf8 GoJson Backoff Telemetry Loader Feed Publish.
From Stdlib.Strings Require Import Byte.

(** ** The connection (internal/nats.go) *)

Record Connection : Type := { url : string; maxRetries : nat; live : bool }.

Definition NewConnection (url : string) : Connection := {| url := url; maxRetries := 10; live := false |}.

(** What one attempt meets: no server, a server without JetStream, or both. *)
Inductive dial_answer : Set := Refused | NoJetStream | Connected.

Definition backoffDurations : list Z := (fun n => n * Second) <$> [1; 2; 4; 8; 16; 32].
Definition backoffDuration (attempt : nat) : Z := default (32 * Second) (backoffDurations !! attempt).

Definition set_live (c : Connection) (l : bool) : Connection := {| url := url c; maxRetries := maxRetries c; live := l |}.

(** The loop of Connect from [attempt] on, [togo] attempts before its end;
    [stop i] is the error of the context when it is cancelled during the wait
    after attempt i.  With the waits made. *)
Fixpoint connect_loop (dial : nat -> dial_answer) (stop : nat -> option error) (c : Connection) (togo attempt : nat)
    : result Connection * list Z :=
  match togo with
  | O => (Err (NewMaxRetriesExceededError "nats" (Z.of_nat (maxRetries c))), [])
  | S togo =>
      let last_attempt := (attempt =? maxRetries c - 1)%nat in
      let retry :=
        if last_attempt then (Err (NewMaxRetriesExceededError "nats" (Z.of_nat (maxRetries c))), [])
        else
          let d := backoffDuration attempt in
          match stop attempt with
          | Some err => (Err (NewConnectionFailedError "nats" (url c) (Some err)), [d])
          | None => let '(r, ds) := connect_loop dial stop c togo (attempt + 1) in (r, d :: ds)
          end in
      match dial attempt with
      | Connected => (Ok (set_live c true), [])
      | NoJetStream => if last_attempt then (Err (NewMaxRetriesExceededError "jetstream" (Z.of_nat (maxRetries c))), []) else retry
      | Refused => retry
      end
  end.

Definition Connect (dial : nat -> dial_answer) (stop : nat -> option error) (c : Connection) : result Connection * list Z :=
  connect_loop dial stop c (maxRetries c) 0.

Definition conn_Close (c : Connection) : Connection := if live c then set_live c false else c.

(** [answer] is what the library answers. *)
Definition conn_Publish (c : Connection) (answer : option error) : result unit :=
  if negb (live c) then Err (NewConnectionFailedError "jetstream" (url c) None)
  else match answer with Some err => Err (NewWriteFailedError "jetstream" err) | None => Ok tt end.
Definition conn_Flush (c : Connection) (answer : option error) : result unit :=
  if negb (live c) then Err (NewConnectionFailedError "nats" (url c) None)
  else match answer with Some err => Err (NewWriteFailedError "nats-flush" err) | None => Ok tt end.

(** ** The command (main.go) *)

Record loader_config : Type := {
  topic : string; stream : string; base64 : bool; natsURL : string; workers : Z;
  adaptive : bool; batchSize : Z; batchTimeout : Z; minBatchSize : Z; maxBatchSize : Z; targetRate : Z
}.

Definition getFormatName (format : Z) : string :=
  if format =? FormatJSONLines then "JSON Lines"
  else if format =? FormatParquet then "Parquet"
  else if format =? FormatGzipJSON then "Gzipped JSON"
  else if format =? FormatBase64 then "Base64"
  else "Unknown".

(** [Peek] of the buffered reader: its error unless that is EOF. *)
Definition peek (f : source_file) : error + bytes :=
  if (length (file_data f) <? maxPeekSize)%nat then
    match file_err f with Some err => inl err | None => inr (file_data f) end
  else inr (take maxPeekSize (file_data f)).

Section loader.
Context `{GoLib, SortSlice, MapIter}.

(** runLoader up to the start of the parser: [opened] is what os.Open gives. *)
Definition open_input (cfg : loader_config) (connected : result Connection) (opened : string + source_file)
    : result (list parse_event) :=
  match connected with
  | Panic => Panic
  | Err err => Err (NewConnectionFailedError "NATS" (natsURL cfg) (Some err))
  | Ok _ =>
      match opened with
      | inl msg => Err (NewInvalidConfigError "loader" "failed to open file: %s" [AS msg])
      | inr f =>
          format ← if base64 cfg then Ok FormatBase64 else Detect (peek f);
          dataParser ← GetParser format;
          Ok (dataParser f)
      end
  end.

(** What the forwarder gives to the batcher when nothing is cancelled: every
    message, then the closed channel. *)
Definition forwarded (events : list parse_event) : list batch_event := (EvMessage <$> messages_of events) ++ [EvClosed].

(** The batcher the flags choose, over the events of its goroutines. *)
Definition run_batcher (room : nat -> bool) (cfg : loader_config) (now : Z) (evs : list adaptive_event)
    : result (list Batch * bool) :=
  if adaptive cfg then
    '(ab, stopped) ← adaptive_run room
      (NewAdaptiveBatcher now (minBatchSize cfg) (maxBatchSize cfg) (targetRate cfg) (batchTimeout cfg)) evs;
    Ok (output (base ab), stopped)
  else
    '(b, stopped) ← batch_run room (NewBatcher now (batchSize cfg) (batchTimeout cfg)) (batch_events evs);
    Ok (output b, stopped).

(** A run of the publisher pool behind it. *)
Definition loading (cfg : loader_config) (batches : list Batch) (s : pub_state) : Prop :=
  publishing (workers cfg) batches s.
End loader.

(** What runMain does: the flags, then the exit code.  [usage] exits itself;
    an uncaught panic exits with 2. *)
Definition usage : Z := 0.
Definition showVersion : Z := 0.

Definition runMain (flag_error : bool) (showHelp showVersionFlag : bool) (cfg : loader_config) (runLoader : result unit) : Z :=
  if flag_error then 1
  else if showHelp then usage
  else if showVersionFlag then showVersion
  else if String.eqb (topic cfg) "" then usage
  else if String.eqb (stream cfg) "" then usage
  else match runLoader with Ok _ => 0 | Err _ => 1 | Panic => 2 end.

(** ** Laws *)

(** *** Connecting *)

(** Attempt [first + i] is the first to succeed, with no cancellation before. *)
Definition connects_at (dial : nat -> dial_answer) (stop : nat -> option error) (first i : nat) : Prop :=
  dial (first + i)%nat = Connected /\ forall j, (j < i)%nat -> dial (first + j)%nat <> Connected /\ stop (first + j)%nat = None.

Lemma connects_later dial stop first i :
  dial first <> Connected -> stop first = None ->
  connects_at dial stop first (S i) <-> connects_at dial stop (first + 1) i.
Proof.
  intros D St. unfold connects_at. rewrite <- Nat.add_assoc. split; intros [C N]; (split; [done|]).
  - intros j L. rewrite <- Nat.add_assoc. apply N. cbn. lia.
  - intros [|j] L; [by rewrite Nat.add_0_r|]. replace (first + S j)%nat with (first + 1 + j)%nat by lia. apply N. lia.
Qed.

(** How the loop of Connect ends, and what it waited. *)
Definition connect_outcome dial stop (c : Connection) (togo first : nat) (r : result Connection) (ds : list Z) : Prop :=
  ds `prefix_of` (backoffDuration <$> seq first (togo - 1)) /\
  match r with
  | Ok c' => c' = set_live c true /\ connects_at dial stop first (length ds)
  | Err e =>
      (forall i, (i < length ds)%nat -> dial (first + i)%nat <> Connected) /\
      (length ds = (togo - 1)%nat /\ dial (first + (togo - 1))%nat <> Connected /\
         e = NewMaxRetriesExceededError (match dial (first + (togo - 1))%nat with NoJetStream => "jetstream" | _ => "nats" end)
               (Z.of_nat (maxRetries c)) \/
       exists i err, length ds = S i /\ stop (first + i)%nat = Some err /\ e = NewConnectionFailedError "nats" (url c) (Some err))
  | Panic => False
  end.

Lemma connect_outcome_later dial stop c togo first r ds :
  dial first <> Connected -> stop first = None -> (0 < togo)%nat ->
  connect_outcome dial stop c togo (first + 1) r ds ->
  connect_outcome dial stop c (S togo) first r (backoffDuration first :: ds).
Proof.
  unfold connect_outcome. intros D St L [P R]. destruct togo as [|togo]; [lia|].
  replace (S (S togo) - 1)%nat with (S (S togo - 1)) by lia.
  assert (forall i, first + S i = first + 1 + i)%nat as Sh by lia.
  split.
  { change (seq first (S (S togo - 1))) with (first :: seq (S first) (S togo - 1)).
    rewrite fmap_cons, <- (Nat.add_1_r first). by apply prefix_cons. }
  destruct r as [c'|e|]; [| |done]; cbn [length].
  - destruct R as [-> R]. split; [done|]. by apply connects_later.
  - rewrite (Sh (S togo - 1)%nat). destruct R as [N R]. split.
    + intros [|i] Li; [by rewrite Nat.add_0_r|]. rewrite (Sh i). apply N. lia.
    + destruct R as [(E & N' & ->)|(i & err & E & Si & ->)]; [left; by rewrite E|].
      right. exists (S i), err. by rewrite E, (Sh i).
Qed.

Lemma connect_loop_exact dial stop c togo first :
  (first + togo = maxRetries c)%nat -> (0 < togo)%nat ->
  let '(r, ds) := connect_loop dial stop c togo first in connect_outcome dial stop c togo first r ds.
Proof.
  revert first. induction togo as [|togo IH]; intros first E L; [lia|]. cbn [connect_loop].
  assert (connect_outcome dial stop c (S togo) first (Ok (set_live c true)) [] <-> connects_at dial stop first 0) as Now.
  { unfold connect_outcome. split; [by intros (_ & _ & ?)|]. intros C. split; [apply prefix_nil|]. by split. }
  assert (forall d, dial first = d -> d <> Connected ->
    let '(r, ds) :=
      if (first =? maxRetries c - 1)%nat then (Err (NewMaxRetriesExceededError (match d with NoJetStream => "jetstream" | _ => "nats" end)
        (Z.of_nat (maxRetries c))), [])
      else match stop first with
           | Some err => (Err (NewConnectionFailedError "nats" (url c) (Some err)), [backoffDuration first])
           | None => let '(r, ds) := connect_loop dial stop c togo (first + 1) in (r, backoffDuration first :: ds)
           end in
    connect_outcome dial stop c (S togo) first r ds) as Retry.
  { intros d Ed Nd. destruct (Nat.eqb_spec first (maxRetries c - 1)) as [Ef|Nf].
    - assert (togo = 0)%nat as -> by lia. split; [apply prefix_nil|]. cbn. split; [lia|]. left. rewrite Nat.add_0_r, Ed. done.
    - destruct (stop first) as [err|] eqn:Es.
      + split; [destruct togo; [lia|]; cbn; by apply prefix_cons, prefix_nil|]. split.
        * intros [|i] Li; cbn in Li; [|lia]. rewrite Nat.add_0_r. congruence.
        * right. exists 0%nat, err. by rewrite Nat.add_0_r.
      + specialize (IH (first + 1)%nat ltac:(lia) ltac:(lia)). destruct (connect_loop _ _ _ _ _) as [r ds].
        apply connect_outcome_later; [congruence|done|lia|done]. }
  destruct (dial first) eqn:Ed.
  - by apply (Retry Refused).
  - specialize (Retry NoJetStream eq_refl ltac:(done)). by destruct (first =? maxRetries c - 1)%nat.
  - apply Now. split; [by rewrite Nat.add_0_r|]. intros j Lj. lia.
Qed.

(** Connecting makes at most ten attempts and waits between them as an
    exponential backoff of 1 s to 32 s does: it succeeds exactly at the first
    attempt that reaches a server with JetStream, unless a cancellation comes
    first, and gives up after the tenth. *)
Theorem loader_connect_exact dial stop u :
  let '(r, ds) := Connect dial stop (NewConnection u) in
  connect_outcome dial stop (NewConnection u) 10 0 r ds /\
  ds `prefix_of` (delays 9 (NewBackoff Second (32 * Second))).1 /\ foldr Z.add 0 ds <= 159 * Second.
Proof.
  pose proof (connect_loop_exact dial stop (NewConnection u) 10 0 eq_refl ltac:(lia)) as E. unfold Connect.
  change (maxRetries (NewConnection u)) with 10%nat. destruct (connect_loop _ _ _ _ _) as [r ds]. split; [done|].
  destruct E as [P _]. change (backoffDuration <$> seq 0 (10 - 1)) with (backoffDuration <$> seq 0 9) in P.
  assert (backoffDuration <$> seq 0 9 = (delays 9 (NewBackoff Second (32 * Second))).1) as Eq by by vm_compute.
  rewrite Eq in P. split; [done|]. destruct P as [rest P].
  assert (forall l, Forall (fun d => 0 <= d) l -> 0 <= foldr Z.add 0 l) as Nn by (induction 1; cbn; lia).
  assert (Forall (fun d => 0 <= d) (ds ++ rest) /\ foldr Z.add 0 (ds ++ rest) = 159 * Second) as [F T]
    by (rewrite <- P; split; [by apply (bool_decide_unpack _); vm_compute|by vm_compute]).
  apply Forall_app in F as [_ F]. apply Nn in F. rewrite foldr_app in T.
  assert (forall l z, foldr Z.add z l = foldr Z.add 0 l + z) as Sum by (induction l as [|x l IH]; intros z; cbn; rewrite ?(IH z); lia).
  rewrite Sum in T. lia.
Qed.

(** *** The pipeline *)

(** What the select of the batcher takes from its input channel. *)
Definition from_input (e : batch_event) : bool := match e with EvTimer => false | _ => true end.

Lemma forwarded_run ms t evs :
  Forall is_data ms -> MType t = MessageTypeTombstone ->
  List.filter from_input evs = (EvMessage <$> ms ++ [t]) ++ [EvClosed] ->
  received evs = Data <$> ms /\ ended evs = Some true.
Proof.
  intros F T. revert ms F. induction evs as [|e evs IH]; intros ms F E; [by destruct ms|].
  destruct e as [| |m|]; cbn [List.filter from_input] in E.
  1, 2: by destruct ms.
  - destruct F as [|m' ms D F]; cbn in E; injection E as -> E; cbn [received ended taken_of end_of].
    + by rewrite T.
    + unfold is_data in D. rewrite D. destruct (IH ms F E) as [-> ->]. done.
  - by apply IH.
Qed.

Lemma batcher_end_stream M b taken t :
  batcher_end M b taken t -> stream_ok (output b) /\ concat (Messages <$> output b) = taken.
Proof.
  intros [(d & -> & F & C & _) _ _]. split.
  - exists d, t. split; [done|]. eapply Forall_impl; [exact F|]. by intros x [? _].
  - rewrite fmap_app, concat_app, C. destruct t; cbn; by rewrite ?app_nil_r.
Qed.

Lemma not_blocked {A} (r : result A) : ~ blocked (fun _ => true) r.
Proof. by intros [_ [i ?]]. Qed.

(** Behind either batcher the pool finds every message of the parser. *)
Lemma run_batcher_settles `{GoLib} (room : nat -> bool) cfg now ms t evs :
  (forall i, room i = true) -> maxBatchSize cfg < 2 ^ 51 -> Forall is_data ms -> MType t = MessageTypeTombstone ->
  List.filter from_input (batch_events evs) = (EvMessage <$> ms ++ [t]) ++ [EvClosed] ->
  exists batches, run_batcher room cfg now evs = Ok (batches, true) /\ stream_ok batches /\
    concat (Messages <$> batches) = Data <$> ms.
Proof.
  intros R L F T E. destruct (forwarded_run ms t _ F T E) as [Rc En]. unfold run_batcher. destruct (adaptive cfg).
  - set (ab0 := NewAdaptiveBatcher _ _ _ _ _). assert (size_ok ab0) as S by by apply new_adaptive_size.
    destruct (adaptive_run_settles room evs ab0 []) as [[_ [i Bl]]|([ab stopped] & -> & -> & _ & _ & _ & P)].
    + split; try done. destruct S. change (Z.of_nat 0 < maxSize ab0). lia.
    + done.
    + by rewrite R in Bl.
    + rewrite En in P. destruct P as (P & _). rewrite Rc in P. apply batcher_end_stream in P as [? ?].
      exists (output (base ab)). cbn. unfold has_ended. by rewrite En.
  - set (b0 := NewBatcher _ _ _). assert (1 <= size b0) as S by (cbn; case_match; lia).
    destruct (batch_run_settles room (size b0) (batch_events evs) b0 []) as [[_ [i Bl]]|([b stopped] & -> & -> & P)].
    + apply new_batcher_inv. lia.
    + lia.
    + by rewrite R in Bl.
    + rewrite En in P. destruct P as (P & _). rewrite Rc in P. apply batcher_end_stream in P as [? ?].
      exists (output b). cbn. unfold has_ended. by rewrite En.
Qed.

Lemma completed_done n bs s : publishing n bs s -> completed s = true -> forallb is_done (Publish.workers s) = true.
Proof.
  unfold publishing. intros R.
  assert (forall s0, rtc pub_step s0 s -> (completed s0 = true -> forallb is_done (Publish.workers s0) = true) ->
    completed s = true -> forallb is_done (Publish.workers s) = true) as G; [|by apply (G _ R)].
  clear. induction 1 as [|s0 s1 s2 S R IH]; [done|]. intros D. apply IH.
  destruct S as [s s' O|s e C]; [|done]. destruct O as [s i w s' w' Lw W|s b bs P Lb|s P C|s Dn C]; try done. cbn.
  intros C. specialize (D C). exfalso. assert (is_done w = true) as Dw.
  { rewrite forallb_forall in D. apply D, list_elem_of_In. by eapply list_elem_of_lookup_2. }
  unfold is_done in Dw. destruct W; destruct w as [p ? ?]; cbn in *; by subst.
Qed.

(** The lines a parser accepts, decoded. *)
Definition accepted (accept : bytes -> error + bytes) (f : source_file) : list bytes :=
  omap (fun line => if (length line =? 0)%nat then None else match accept line with inr d => Some d | inl _ => None end)
    (scan (file_data f)).1.

(** The judge of the lines for the format in use. *)
Definition line_judge (cfg : loader_config) :=
  if base64 cfg then accept_base64 else accept_json.

Lemma GetParser_base64 : GetParser FormatBase64 = Ok (Base64_Parse FormatJSONLines).
Proof. reflexivity. Qed.
Lemma GetParser_jsonlines : GetParser FormatJSONLines = Ok JSONLines_Parse.
Proof. reflexivity. Qed.

Lemma open_input_lines `{SortSlice, MapIter} cfg connected f events :
  open_input cfg connected (inr f) = Ok events ->
  exists ms t, messages_of events = ms ++ [t] /\ Forall is_data ms /\ MType t = MessageTypeTombstone /\
    Data <$> ms = accepted (line_judge cfg) f.
Proof.
  unfold open_input, line_judge, accepted. destruct connected as [c|e|]; [|done..].
  assert (forall component format accept, exists ms t,
    messages_of (parse_lines component format accept f) = ms ++ [t] /\ Forall is_data ms /\ MType t = MessageTypeTombstone /\
    Data <$> ms = accepted accept f) as Shape.
  { intros component format accept. destruct (parse_lines_shape component format accept f) as (ms & E & F & D). by eexists ms, _. }
  destruct (base64 cfg); [cbn [mbind res_bind]; rewrite GetParser_base64; intros E; injection E as <-; apply Shape|].
  destruct (peek f) as [e|header]; [done|]. rewrite detect_exact. unfold format_of.
  case_bool_decide; [by intros E; vm_compute in E|]. case_bool_decide; [by intros E; vm_compute in E|].
  destruct (isJSONContent header); [|done]. cbn [mbind res_bind]. rewrite GetParser_jsonlines.
  intros E. injection E as <-. apply Shape.
Qed.

(** The loader publishes its input.  When a run gets past the opening of its
    input, is not cancelled, and no send and no publish fails, the batcher -
    fixed or adaptive, whatever its timers and its resizes - ends, and the
    pool, once it completes, has published exactly the lines its parser
    accepts, each once, and counted them; for a file of JSON lines, these are
    the lines of the file. *)
Theorem loader_publishes_input `{GoLib, SortSlice, MapIter} (room : nat -> bool) cfg now connected f
    events evs :
  open_input cfg connected (inr f) = Ok events ->
  List.filter from_input (batch_events evs) = forwarded events ->
  (forall i, room i = true) -> maxBatchSize cfg < 2 ^ 51 ->
  let lines := accepted (line_judge cfg) f in
  (exists batches, run_batcher room cfg now evs = Ok (batches, true) /\
    forall s, loading cfg batches s -> completed s = true -> pub_ctx (sh s) = None -> refusals (sh s) = [] ->
      published (sh s) ≡ₚ lines /\ messagesPublished (sh s) = wrap64 (Z.of_nat (length lines))) /\
  (forall ls, file_data f = with_newlines ls -> Forall line_ok ls -> Forall (fun l => l <> [] /\ Json.Valid l = true) ls ->
     base64 cfg = false -> lines = ls).
Proof.
  intros O E R L lines. split.
  - apply open_input_lines in O as (ms & t & Em & F & T & D). unfold forwarded in E. rewrite Em in E.
    destruct (run_batcher_settles room cfg now ms t evs R L F T E) as (bs & B & St & C). exists bs. split; [done|].
    intros s P Dn Cx Rf. rewrite D in C. fold lines in C.
    pose proof (completed_done _ _ _ P Dn) as Fin. apply publishing_settled in P as (Ms & _ & Pb); [|done..]. rewrite C in Pb.
    split; [by apply Pb|]. rewrite Ms. by rewrite (Permutation_length (Pb Rf)).
  - intros ls Ef Fl Fv Eb. unfold lines, accepted, line_judge. rewrite Eb, Ef, scan_lines by done. cbn [fst]. clear -Fv.
    induction Fv as [|l ls [N V] Fv IH]; [done|]. cbn [omap list_omap]. unfold accept_json at 1. rewrite V.
    destruct l; [done|]. cbn [length Nat.eqb]. by rewrite IH.
Qed.

(** A missing required flag prints the usage, which exits with the code of a
    success before the failure is returned. *)
Lemma missing_flag_succeeds cfg r : topic cfg = "" \/ stream cfg = "" -> runMain false false false cfg r = 0.
Proof. intros [E|E]; unfold runMain; rewrite E; cbn; [done|]. by destruct (String.eqb (topic cfg) ""). Qed.
