(* ===== verification/LoaderStop.v ===== *)
(** * LoaderStop: how a run of the loader ends (tools/loader/main.go,
    runLoader from the start of the parser on)

    The goroutines of runLoader as a step relation: the parser, the forwarder,
    the batcher's side of its input channel, the completion tracker, the error
    logger, the goroutine that waits for the wait group, and the caller with
    its two selects.  What the batcher sends and what the pool publishes is in
    LoaderRun and Publish; here the pool is the channel it closes at its end,
    which it can do once its batcher ended or the context is cancelled.  The
    two message channels of the parser are unbuffered.  Ticks that only log
    are left out. *)
From stdpp Require Import relations.
From S2P Require Import Prelude GoInt GoStr GoFloat GoTime Values Loader Feed Publish LoaderRun.

(** ** The goroutines *)

(** The goroutine of Parse: what it has still to send, then its two deferred
    closes, the error channel first. *)
Inductive parser_pc : Type := Parsing (events : list parse_event) | ErrorsClosed | Parsed.

Inductive forwarder_pc : Type :=
  | FwRange                   (* the range over the messages *)
  | FwCheck (m : Message)     (* the look at shutdownRequested *)
  | FwSend (m : Message)      (* the select *)
  | FwDone.

(** Why runLoader returned: everything ended, everything ended after a signal,
    or the five seconds were over. *)
Inductive ending : Set := Completed | Stopped | Forced.
Inductive main_pc : Set := Waiting | Stopping | Returned (why : ending).

Record run_state : Type := {
  parser : parser_pc;
  forwarder : forwarder_pc;
  batch_input : list Message; batch_input_closed : bool;
  batching : bool;             (* the batcher has not ended *)
  batched : list Message;      (* what it received *)
  completion : bool;           (* the pool closed its completion channel *)
  tracking : bool; logging : bool;   (* the other two goroutines of the wait group *)
  logged : list error;
  waited : bool;               (* done holds a value *)
  cancelled : bool; shutdownRequested : bool;
  caller : main_pc
}.

(** The capacity of batchInput. *)
Definition batch_input_cap : nat := 100.

Definition started (events : list parse_event) : run_state := {|
  parser := Parsing events; forwarder := FwRange; batch_input := []; batch_input_closed := false; batching := true;
  batched := []; completion := false; tracking := true; logging := true; logged := []; waited := false;
  cancelled := false; shutdownRequested := false; caller := Waiting |}.

Definition with_parser (s : run_state) (p : parser_pc) (f : forwarder_pc) (l : list error) : run_state := {|
  parser := p; forwarder := f; batch_input := batch_input s; batch_input_closed := batch_input_closed s; batching := batching s;
  batched := batched s; completion := completion s; tracking := tracking s; logging := logging s; logged := l;
  waited := waited s; cancelled := cancelled s; shutdownRequested := shutdownRequested s; caller := caller s |}.
Definition with_forwarder (s : run_state) (f : forwarder_pc) (q : list Message) (closed : bool) : run_state := {|
  parser := parser s; forwarder := f; batch_input := q; batch_input_closed := closed; batching := batching s;
  batched := batched s; completion := completion s; tracking := tracking s; logging := logging s; logged := logged s;
  waited := waited s; cancelled := cancelled s; shutdownRequested := shutdownRequested s; caller := caller s |}.
Definition with_batcher (s : run_state) (q : list Message) (on : bool) (l : list Message) (c : bool) : run_state := {|
  parser := parser s; forwarder := forwarder s; batch_input := q; batch_input_closed := batch_input_closed s; batching := on;
  batched := l; completion := c; tracking := tracking s; logging := logging s; logged := logged s;
  waited := waited s; cancelled := cancelled s; shutdownRequested := shutdownRequested s; caller := caller s |}.
Definition with_group (s : run_state) (t l w : bool) : run_state := {|
  parser := parser s; forwarder := forwarder s; batch_input := batch_input s; batch_input_closed := batch_input_closed s;
  batching := batching s; batched := batched s; completion := completion s; tracking := t; logging := l; logged := logged s;
  waited := w; cancelled := cancelled s; shutdownRequested := shutdownRequested s; caller := caller s |}.
Definition with_caller (s : run_state) (c r : bool) (m : main_pc) : run_state := {|
  parser := parser s; forwarder := forwarder s; batch_input := batch_input s; batch_input_closed := batch_input_closed s;
  batching := batching s; batched := batched s; completion := completion s; tracking := tracking s; logging := logging s;
  logged := logged s; waited := waited s; cancelled := c; shutdownRequested := r; caller := m |}.

(** Whether the batcher's loop ends with the message. *)
Definition is_tombstone (m : Message) : bool := match MType m with MessageTypeTombstone => true | MessageTypeData => false end.

Inductive goroutine_step (s : run_state) : run_state -> Prop :=
  | gs_message m es :
      parser s = Parsing (PMessage m :: es) -> forwarder s = FwRange ->
      goroutine_step s (with_parser s (Parsing es) (FwCheck m) (logged s))
  | gs_error e es :
      parser s = Parsing (PError e :: es) -> logging s = true ->
      goroutine_step s (with_parser s (Parsing es) (forwarder s) (logged s ++ [e]))
  | gs_close_errors : parser s = Parsing [] -> goroutine_step s (with_parser s ErrorsClosed (forwarder s) (logged s))
  | gs_close_messages : parser s = ErrorsClosed -> goroutine_step s (with_parser s Parsed (forwarder s) (logged s))
  | gs_range_over : parser s = Parsed -> forwarder s = FwRange -> goroutine_step s (with_forwarder s FwDone (batch_input s) true)
  | gs_break m :
      forwarder s = FwCheck m -> shutdownRequested s = true -> goroutine_step s (with_forwarder s FwDone (batch_input s) true)
  | gs_go_on m :
      forwarder s = FwCheck m -> shutdownRequested s = false ->
      goroutine_step s (with_forwarder s (FwSend m) (batch_input s) (batch_input_closed s))
  | gs_forward m :
      forwarder s = FwSend m -> (length (batch_input s) < batch_input_cap)%nat ->
      goroutine_step s (with_forwarder s FwRange (batch_input s ++ [m]) (batch_input_closed s))
  | gs_forward_cancelled m :
      forwarder s = FwSend m -> cancelled s = true -> goroutine_step s (with_forwarder s FwDone (batch_input s) true)
  | gs_batch m q :
      batching s = true -> batch_input s = m :: q ->
      goroutine_step s (with_batcher s q (negb (is_tombstone m)) (batched s ++ [m]) (completion s))
  | gs_batch_closed :
      batching s = true -> batch_input s = [] -> batch_input_closed s = true ->
      goroutine_step s (with_batcher s [] false (batched s) (completion s))
  | gs_batch_cancelled :
      batching s = true -> cancelled s = true -> goroutine_step s (with_batcher s (batch_input s) false (batched s) (completion s))
  | gs_pool_ends :
      batching s = false \/ cancelled s = true -> completion s = false ->
      goroutine_step s (with_batcher s (batch_input s) (batching s) (batched s) true)
  | gs_tracked :
      tracking s = true -> completion s = true \/ cancelled s = true \/ shutdownRequested s = true ->
      goroutine_step s (with_group s false (logging s) (waited s))
  | gs_errors_over :
      logging s = true -> parser s = ErrorsClosed \/ parser s = Parsed ->
      goroutine_step s (with_group s (tracking s) false (waited s))
  | gs_waited :
      forwarder s = FwDone -> tracking s = false -> logging s = false -> waited s = false ->
      goroutine_step s (with_group s false false true)
  | gs_completed :
      caller s = Waiting -> waited s = true ->
      goroutine_step s (with_caller s (cancelled s) (shutdownRequested s) (Returned Completed))
  | gs_stopping :
      caller s = Waiting -> cancelled s = true -> goroutine_step s (with_caller s true true Stopping)
  | gs_stopped :
      caller s = Stopping -> waited s = true -> goroutine_step s (with_caller s (cancelled s) (shutdownRequested s) (Returned Stopped))
  | gs_forced :
      caller s = Stopping -> goroutine_step s (with_caller s (cancelled s) (shutdownRequested s) (Returned Forced)).

(** When runLoader has returned the process ends. *)
Definition returned (s : run_state) : option ending := match caller s with Returned why => Some why | _ => None end.

(** [signal]: whether an interrupt may arrive. *)
Inductive run_step (signal : bool) (s : run_state) : run_state -> Prop :=
  | rs_goroutine s' : returned s = None -> goroutine_step s s' -> run_step signal s s'
  | rs_signal : signal = true -> returned s = None -> cancelled s = false ->
      run_step signal s (with_caller s true (shutdownRequested s) (caller s)).

Definition running (signal : bool) (events : list parse_event) : run_state -> Prop := rtc (run_step signal) (started events).

(** runLoader returns nil at each of its ends. *)
Definition run_result (why : ending) : result unit := match why with Completed | Stopped | Forced => Ok tt end.

(** ** Laws *)

(** What is left in each place. *)
Definition unparsed (p : parser_pc) : list parse_event := match p with Parsing es => es | ErrorsClosed | Parsed => [] end.
Definition held (f : forwarder_pc) : list Message := match f with FwCheck m | FwSend m => [m] | FwRange | FwDone => [] end.
Definition errors_of (events : list parse_event) : list error :=
  omap (fun e => match e with PError err => Some err | PMessage _ => None end) events.

(** *** Every step brings the run nearer to its end *)

Definition flag_weight (b : bool) : nat := if b then 1 else 0.

Definition parser_weight (p : parser_pc) : nat :=
  match p with Parsing es => 5 * length es + 2 | ErrorsClosed => 1 | Parsed => 0 end.
Definition forwarder_weight (f : forwarder_pc) : nat :=
  match f with FwRange => 1 | FwCheck _ => 4 | FwSend _ => 3 | FwDone => 0 end.
Definition caller_weight (m : main_pc) : nat := match m with Waiting => 2 | Stopping => 1 | Returned _ => 0 end.

Definition weight (s : run_state) : nat :=
  parser_weight (parser s) + forwarder_weight (forwarder s) + length (batch_input s) + flag_weight (batching s) +
  flag_weight (negb (completion s)) + flag_weight (tracking s) + flag_weight (logging s) + flag_weight (negb (waited s)) +
  flag_weight (negb (cancelled s)) + caller_weight (caller s).

Lemma goroutine_step_weight s s' : goroutine_step s s' -> (weight s' < weight s)%nat.
Proof.
  destruct s as [p f q qc b l c t lo lg w cx sr m]. unfold weight.
  destruct 1; cbn [parser forwarder batch_input batching completion tracking logging waited cancelled caller with_parser with_forwarder
    with_batcher with_group with_caller] in *; subst; cbn -[Nat.mul]; rewrite ?length_app; cbn -[Nat.mul];
    try (destruct (is_tombstone _)); try (destruct w); try (destruct cx); cbn -[Nat.mul]; lia.
Qed.

Lemma run_step_weight signal s s' : run_step signal s s' -> (weight s' < weight s)%nat.
Proof.
  destruct 1 as [s' _ G|_ _ C]; [by apply goroutine_step_weight|]. unfold weight. rewrite C. cbn. lia.
Qed.

Lemma run_length signal n s s' : nsteps (run_step signal) n s s' -> (n + weight s' <= weight s)%nat.
Proof. induction 1 as [|n s1 s2 s3 S _ IH]; [lia|]. apply run_step_weight in S. lia. Qed.

(** *** The invariant of a run *)

Section laws.
Context (events : list parse_event).

Record load_inv (s : run_state) : Prop := {
  ri_errors : logged s ++ errors_of (unparsed (parser s)) = errors_of events;
  ri_closed : batch_input_closed s = true -> forwarder s = FwDone;
  ri_closes : forwarder s = FwDone -> batch_input_closed s = true;
  ri_logging : logging s = false -> parser s = ErrorsClosed \/ parser s = Parsed;
  ri_waited : waited s = true -> forwarder s = FwDone /\ tracking s = false /\ logging s = false;
  ri_returned : caller s = Returned Completed \/ caller s = Returned Stopped -> waited s = true
}.

(** What holds as long as no signal came. *)
Record quiet (s : run_state) : Prop := {
  q_flow : batched s ++ batch_input s ++ held (forwarder s) ++ messages_of (unparsed (parser s)) = messages_of events;
  q_parsed : forwarder s = FwDone -> parser s = Parsed;
  q_batched : batching s = false -> batched s = messages_of events;
  q_completion : completion s = true -> batching s = false;
  q_tracking : tracking s = false -> completion s = true;
  q_caller : shutdownRequested s = false /\ (caller s = Waiting \/ caller s = Returned Completed)
}.

(** Ends the branches of a preservation proof that only shuffle fields. *)
Ltac shuffle := cbn [parser forwarder batch_input batch_input_closed batching batched completion tracking logging logged waited cancelled
  shutdownRequested caller with_parser with_forwarder with_batcher with_group with_caller unparsed held] in *; subst;
  try done; try (intuition congruence).

Lemma load_inv_start : load_inv (started events).
Proof. by split; try done; intros []. Qed.

Lemma quiet_start : quiet (started events).
Proof. by split; try done; split; [|left]. Qed.

Lemma load_inv_step s s' : load_inv s -> goroutine_step s s' -> load_inv s'.
Proof.
  intros [E C C' L W R]. destruct s as [p f q qc b l c t lo lg w cx sr m]. destruct 1; (split; shuffle).
  by rewrite <- app_assoc.
Qed.

(** Interrupted or not, what the batcher received and what waits for it begin
    the messages of the parser: only a message the forwarder holds can be
    lost. *)
Definition flow (s : run_state) : Prop :=
  exists lost, batched s ++ batch_input s ++ held (forwarder s) ++ lost ++ messages_of (unparsed (parser s)) = messages_of events /\
    (forwarder s <> FwDone -> lost = []).

Lemma flow_step s s' : flow s -> goroutine_step s s' -> flow s'.
Proof.
  intros (lost & F & L) G. destruct s as [p f q qc b l c t lo lg w cx sr m]. unfold flow.
  destruct G; cbn [parser forwarder batch_input batched with_parser with_forwarder with_batcher with_group with_caller unparsed held app] in *;
    subst; cbn [unparsed held app] in *; try (by exists lost).
  - rewrite (L ltac:(done)) in F. by exists [].
  - by exists (m0 :: lost).
  - exists lost. split; [done|]. intros _. by apply L.
  - exists lost. split; [by rewrite <- app_assoc|]. intros _. by apply L.
  - by exists (m0 :: lost).
  - exists lost. split; [by rewrite <- app_assoc|done].
Qed.

Lemma flow_reachable signal s : running signal events s -> flow s.
Proof.
  apply (rtc_ind_r flow); [by exists []|]. intros s1 s2 _ [s2' _ G|_ _ _] F; [by eapply flow_step|done].
Qed.

(** The messages of a parser end with their only tombstone. *)
Context (ms : list Message) (t : Message).
Context (shape : messages_of events = ms ++ [t]) (data : Forall is_data ms).

Lemma tombstone_last before m after :
  before ++ m :: after = messages_of events -> is_tombstone m = true -> before ++ [m] = messages_of events /\ after = [].
Proof.
  rewrite shape. intros E T. destruct after as [|a after _] using rev_ind; [done|].
  rewrite app_comm_cons, app_assoc in E. apply app_inj_tail in E as [E _]. rewrite <- E in data.
  apply Forall_app in data as [_ D]. apply Forall_cons in D as [D _]. unfold is_data, is_tombstone in *. by rewrite D in T.
Qed.

Lemma quiet_step s s' : load_inv s -> quiet s -> cancelled s = false -> goroutine_step s s' -> quiet s'.
Proof.
  intros [_ C C' L W _] [F P B Cm T [Sr Ca]] N. destruct s as [p f q qc b l c tr lo lg w cx sr m]. cbn in N.
  destruct 1; (split; shuffle).
  - by rewrite <- F, <- !app_assoc.
  - by rewrite <- F, <- !app_assoc.
  - intros Tm. apply (tombstone_last _ _ _ F). by destruct (is_tombstone m0).
  - intros _. specialize (C eq_refl). rewrite C in F. rewrite (P C), !app_nil_r in F. done.
Qed.

Lemma load_inv_reachable signal s : running signal events s -> load_inv s /\ (cancelled s = false -> quiet s).
Proof.
  apply (rtc_ind_r (fun s => load_inv s /\ (cancelled s = false -> quiet s))).
  - split; [apply load_inv_start|intros _; apply quiet_start].
  - intros s1 s2 _ [s2' _ G|_ _ _] [I Q].
    + split; [by eapply load_inv_step|]. intros C.
      assert (cancelled s1 = false) as C1 by (destruct G; cbn in C; congruence). by eapply quiet_step; eauto.
    + split; [|done]. destruct I. by split.
Qed.

(** A run that has not returned can go on. *)
Lemma run_progress s : load_inv s -> (cancelled s = false -> quiet s) -> returned s = None -> exists s', goroutine_step s s'.
Proof.
  intros [_ _ Cl L _ _] Q R. destruct (caller s) eqn:Ca; [| |by unfold returned in R; rewrite Ca in R].
  2: { eexists. by apply gs_forced. }
  destruct (cancelled s) eqn:N; [eexists; by apply gs_stopping|]. destruct (Q eq_refl) as [F P B _ _ [Sr _]].
  destruct (forwarder s) as [|m|m|] eqn:Fw.
  - destruct (parser s) as [[|[m|e] es]| |] eqn:Pa.
    + eexists. by apply gs_close_errors.
    + eexists. by eapply gs_message.
    + eexists. eapply gs_error; [done|]. destruct (logging s); [done|]. by destruct (L eq_refl).
    + eexists. by apply gs_close_messages.
    + eexists. by apply gs_range_over.
  - eexists. by eapply gs_go_on.
  - destruct (decide (length (batch_input s) < batch_input_cap)%nat) as [Lt|Ge]; [eexists; by eapply gs_forward|].
    destruct (batch_input s) as [|m' q] eqn:Bi; [cbn in Ge; unfold batch_input_cap in Ge; lia|].
    destruct (batching s) eqn:Bt; [eexists; by eapply gs_batch|].
    rewrite (B eq_refl) in F. rewrite <- (app_nil_r (messages_of events)) in F at 2. by apply app_inv_head in F.
  - specialize (P eq_refl). destruct (batching s) eqn:Bt.
    { destruct (batch_input s) as [|m q] eqn:Bi; eexists; [by apply gs_batch_closed; auto|by eapply gs_batch]. }
    destruct (completion s) eqn:Cm; [|eexists; apply gs_pool_ends; auto].
    destruct (tracking s) eqn:Tr; [eexists; apply gs_tracked; auto|].
    destruct (logging s) eqn:Lo; [eexists; apply gs_errors_over; auto|].
    destruct (waited s) eqn:Wa; [eexists; by apply gs_completed|eexists; by apply gs_waited].
Qed.
End laws.

(** Every run of the loader returns, within a number of steps linear in what
    its parser sends, whether or not an interrupt arrives: until it has
    returned some goroutine can go on, so that no run is stuck. *)
Theorem loader_run_returns events ms t signal n s :
  messages_of events = ms ++ [t] -> Forall is_data ms -> nsteps (run_step signal) n (started events) s ->
  (n <= 5 * length events + 11)%nat /\
  (returned s = None -> exists s', goroutine_step s s') /\
  exists s' why, rtc (run_step signal) s s' /\ returned s' = Some why /\ run_result why = Ok tt.
Proof.
  intros E F R. pose proof (run_length _ _ _ _ R) as L. assert (running signal events s) as U by (by eapply rtc_nsteps_2).
  split; [unfold weight in L at 2; cbn -[Nat.mul] in L; lia|]. clear L R n.
  assert (forall s, running signal events s -> returned s = None -> exists s', goroutine_step s s') as Go.
  { intros s1 U1. destruct (load_inv_reachable events ms t E F _ _ U1). by eapply run_progress. }
  split; [by apply Go|]. remember (weight s) as k eqn:K. revert s K U.
  induction k as [k IH] using lt_wf_ind. intros s -> U. destruct (returned s) as [why|] eqn:W.
  { exists s, why. by destruct why. }
  destruct (Go s U W) as [s1 G]. assert (run_step signal s s1) as S by by apply rs_goroutine.
  destruct (IH _ (run_step_weight _ _ _ S) s1 eq_refl) as (s2 & why & R & W2 & V); [by eapply rtc_r|].
  exists s2, why. by split; [eapply rtc_l|].
Qed.

(** A run that returns without having met an interrupt has done its work: the
    batcher received every message of the parser, in order, the pool has
    ended, and every error of the parser was logged.  After an interrupt the
    same holds of the errors unless the five seconds were over. *)
Theorem loader_return_complete events ms t signal s why :
  messages_of events = ms ++ [t] -> Forall is_data ms -> running signal events s -> returned s = Some why ->
  (cancelled s = false -> why = Completed /\ batched s = messages_of events /\ completion s = true /\ batching s = false) /\
  (why <> Forced -> logged s = errors_of events /\ forwarder s = FwDone).
Proof.
  intros E F U R. destruct (load_inv_reachable events ms t E F _ _ U) as [[Er C C' L W Re] Q].
  unfold returned in R. destruct (caller s) eqn:Ca; try done. injection R as ->.
  assert (why <> Forced -> waited s = true) as Wt by (intros N; apply Re; destruct why; auto; done). split.
  - intros N. destruct (Q N) as [_ _ B Cm T [_ [X|X]]]; [congruence|]. assert (why = Completed) as -> by congruence.
    destruct (W (Wt ltac:(done))) as (_ & Tr & _). pose proof (T Tr) as Co. by rewrite (B (Cm Co)), (Cm Co).
  - intros N. destruct (W (Wt N)) as (Fd & _ & Lo). split; [|done].
    destruct (L Lo) as [P|P]; rewrite P in Er; cbn in Er; by rewrite app_nil_r in Er.
Qed.

(** An interrupt in the middle of a file: once the forwarder has left while the
    parser still has messages to send, the parser never gets past them, so
    that the run can only end when the five seconds are over. *)
Theorem cut_short_forced signal events ms t s s' es why :
  messages_of events = ms ++ [t] -> Forall is_data ms -> running signal events s ->
  forwarder s = FwDone -> parser s = Parsing es -> messages_of es <> [] -> returned s = None ->
  rtc (run_step signal) s s' -> returned s' = Some why -> why = Forced.
Proof.
  intros E F U Fw Pa Ne Rn Rt R. destruct (load_inv_reachable events ms t E F _ _ U) as [I _].
  set (stuck x := forwarder x = FwDone /\ (exists es, parser x = Parsing es /\ messages_of es <> []) /\ logging x = true /\
    waited x = false /\ (caller x = Waiting \/ caller x = Stopping \/ caller x = Returned Forced)).
  assert (stuck s) as K.
  { destruct I as [_ _ _ L W _]. rewrite Pa in L. assert (logging s = true) as Lo by (destruct (logging s); [done|]; by destruct L).
    unfold stuck. rewrite Pa, Lo. split_and!; try done; [by eexists|destruct (waited s); [|done]; destruct W as (_ & _ & ?); congruence|].
    unfold returned in Rn. destruct (caller s); auto; done. }
  assert (forall x y, stuck x -> run_step signal x y -> stuck y) as St.
  { intros x y (A & (es' & B & C) & D & G & H) S. destruct S as [y _ S|_ _ N]; [|by unfold stuck; cbn; eauto 10].
    destruct S; unfold stuck; cbn; split_and!; try done; try congruence; try (by eauto).
    - assert (es' = PError e :: es0) as -> by congruence. by exists es0.
    - assert (es' = []) as -> by congruence. done.
    - exfalso. match goal with O : _ \/ parser x = Parsed |- _ => destruct O; congruence end. }
  clear -K St Rt R. induction Rt as [x|x y z S _ IH]; [|by apply IH; [|apply (St x)]].
  destruct K as (_ & _ & _ & _ & [C|[C|C]]); unfold returned in R; rewrite C in R; congruence.
Qed.
