(* ===== verification/LoaderSystem.v ===== *)
(** * LoaderSystem: the loader as one system (tools/loader/main.go, runLoader)

    The composition of the three parts of a run: the goroutines of LoaderStop
    with their channels, one of the batchers of Loader, and the pool of Publish
    that takes what the batcher sends.  A batcher takes nothing while one of
    its batches waits for room in the channel of the pool, and a batch that
    waits for five seconds panics.  The composite projects onto LoaderStop, and
    the accounting of Publish holds of it although the batches are not known in
    advance. *)
From stdpp Require Import relations.
From S2P Require Import Prelude GoInt GoStr GoFloat GoTime Values Loader Batching Feed Publish LoaderRun LoaderStop.

(** ** The composite *)

Section system.
Context {B : Type} `{Batching B}.

Record load_state : Type := {
  ctl : run_state;      (* LoaderStop *)
  bat : B;              (* the batcher *)
  pool : pub_state;     (* Publish *)
  crashed : bool        (* a send waited five seconds *)
}.

Definition loaded (n : Z) (b : B) (events : list parse_event) : load_state :=
  {| ctl := started events; bat := b; pool := NewPublisher n []; crashed := false |}.

(** The batcher hands its batches to the channel of the pool, one by one. *)
Definition hand_over (p : pub_state) (bs : list Batch) : pub_state :=
  {| sh := sh p; Publish.workers := Publish.workers p; pending := pending p ++ bs; completed := completed p |}.
Definition sent_by (old new : B) : list Batch := drop (length (output (b_view old))) (output (b_view new)).

Definition with_ctl (s : load_state) (c : run_state) : load_state :=
  {| ctl := c; bat := bat s; pool := pool s; crashed := crashed s |}.
Definition with_bat (s : load_state) (c : run_state) (b : B) : load_state :=
  {| ctl := c; bat := b; pool := hand_over (pool s) (sent_by (bat s) b); crashed := crashed s |}.
Definition with_pool (s : load_state) (p : pub_state) : load_state :=
  {| ctl := with_batcher (ctl s) (batch_input (ctl s)) (batching (ctl s)) (batched (ctl s)) (completed p);
     bat := bat s; pool := p; crashed := crashed s |}.

(** What the select of the batcher can take, and what that does to its input:
    a message, the closed channel, the cancelled context, its timer. *)
Inductive takes (c : run_state) (b : B) : batch_event -> run_state -> Prop :=
  | tk_message m q :
      batch_input c = m :: q ->
      takes c b (EvMessage m) (with_batcher c q (negb (is_tombstone m)) (batched c ++ [m]) (completion c))
  | tk_closed :
      batch_input c = [] -> batch_input_closed c = true -> takes c b EvClosed (with_batcher c [] false (batched c) (completion c))
  | tk_cancelled :
      cancelled c = true -> takes c b EvDone (with_batcher c (batch_input c) false (batched c) (completion c))
  | tk_timer : timer (b_view b) = true -> takes c b EvTimer c.

Definition alive (s : load_state) : Prop := returned (ctl s) = None /\ crashed s = false.

(** One step of the program. *)
Inductive load_step (s : load_state) : load_state -> Prop :=
  | ld_control c :
      goroutine_step (ctl s) c -> batching c = batching (ctl s) -> batched c = batched (ctl s) -> completion c = completion (ctl s) ->
      load_step s (with_ctl s c)
  | ld_batch e c b' stopped :
      batching (ctl s) = true -> pending (pool s) = [] -> takes (ctl s) (bat s) e c -> b_step (bat s) e = Ok (b', stopped) ->
      load_step s (with_bat s c b')
  | ld_pool p :
      pub_own_step (pool s) p -> input_closed (sh p) = input_closed (sh (pool s)) \/ batching (ctl s) = false ->
      load_step s (with_pool s p)
  | ld_crash :
      pending (pool s) <> [] -> load_step s {| ctl := ctl s; bat := bat s; pool := pool s; crashed := true |}.

(** A step of the program, a turn of the resizing goroutine, or the interrupt,
    while the process runs. *)
Inductive system_step (signal : bool) : bool -> load_state -> load_state -> Prop :=
  | sy_own s s' : alive s -> load_step s s' -> system_step signal true s s'
  | sy_adjust s now :
      alive s -> system_step signal false s {| ctl := ctl s; bat := b_adjust now (bat s); pool := pool s; crashed := crashed s |}
  | sy_signal s e :
      alive s -> signal = true -> cancelled (ctl s) = false ->
      system_step signal true s
        {| ctl := with_caller (ctl s) true (shutdownRequested (ctl s)) (caller (ctl s)); bat := bat s;
           pool := {| sh := set_pub_ctx (sh (pool s)) e; Publish.workers := Publish.workers (pool s); pending := pending (pool s);
                      completed := completed (pool s) |}; crashed := crashed s |}.

(** [k] steps, the turns of the resizing goroutine not counted. *)
Inductive system_run (signal : bool) : nat -> load_state -> load_state -> Prop :=
  | sr_here s : system_run signal 0 s s
  | sr_step k counted s s1 s' :
      system_step signal counted s s1 -> system_run signal k s1 s' ->
      system_run signal (if counted then S k else k) s s'.

Definition system (signal : bool) (n : Z) (b : B) (events : list parse_event) (s : load_state) : Prop :=
  exists k, system_run signal k (loaded n b events) s.
End system.
#[global] Arguments load_state : clear implicits.

(** ** Laws *)

(** What the batcher received, as the messages of batches. *)
Definition data_of (ms : list Message) : list bytes := concat ((fun m => taken_of (EvMessage m)) <$> ms).

Lemma data_of_snoc ms m : data_of (ms ++ [m]) = data_of ms ++ taken_of (EvMessage m).
Proof. unfold data_of. rewrite fmap_app, concat_app. cbn. by rewrite app_nil_r. Qed.

Lemma data_of_app ms ms' : data_of (ms ++ ms') = data_of ms ++ data_of ms'.
Proof. unfold data_of. by rewrite fmap_app, concat_app. Qed.

Lemma data_of_data ms : Forall is_data ms -> data_of ms = Data <$> ms.
Proof.
  induction 1 as [|m ms D F IH]; [done|]. change (data_of (m :: ms)) with (taken_of (EvMessage m) ++ data_of ms).
  unfold is_data in D. cbn [taken_of]. by rewrite D, IH.
Qed.

(** *** The pool, with batches that come as it runs *)

Definition none_done (p : pub_state) : Prop := pub_ctx (sh p) = None -> Forall (fun w => is_done w = false) (Publish.workers p).

Lemma plain_stream_app d bs : Forall plain d -> stream_ok bs -> stream_ok (d ++ bs).
Proof. intros F (d' & t & -> & F'). exists (d ++ d'), t. rewrite app_assoc. split; [done|]. by apply Forall_app. Qed.

Lemma pub_inv_hand_over all n p bs :
  pub_inv all n p -> Forall plain (to_come p) -> stream_ok bs -> input_closed (sh p) = false -> none_done p ->
  pub_inv (all ++ concat (Messages <$> bs)) n (hand_over p bs).
Proof.
  intros [Sz St F Cp Sm Ms Er Cm Dn Cl Lo] P S Ic Nd.
  assert (to_come (hand_over p bs) = to_come p ++ bs) as T by (unfold to_come; cbn; by rewrite app_assoc).
  split; cbn [hand_over sh Publish.workers pending completed]; try done.
  - rewrite T. by apply plain_stream_app.
  - rewrite T, fmap_app, concat_app, <- F. solve_Permutation.
  - intros w Hw Dw C. specialize (Nd C). rewrite Forall_forall in Nd. rewrite Nd in Dw; done.
  - intros C. congruence.
Qed.

(** What a step of the pool keeps while the batcher may still send. *)
Lemma pool_step_open all n p p' :
  pub_inv all n p -> pub_own_step p p' -> Forall plain (to_come p) -> input_closed (sh p) = false -> none_done p ->
  Forall plain (to_come p') /\ none_done p'.
Proof.
  intros I S P Ic Nd. destruct S as [p i w s' w' L W|p b bs Pe Le|p Pe C|p D C].
  - destruct (work_step_effect _ _ _ _ _ (pending p) (pi_stream _ _ _ I) W) as [_ (taken & It & Dt) _ _ _ _ _ [Cx _]].
    unfold to_come in *. cbn. split; [by rewrite It, <- app_assoc, Forall_app in P; destruct P|].
    unfold none_done in *. cbn. rewrite Cx. intros C. apply Forall_insert; [by apply Nd|].
    destruct (is_done w') eqn:Dw; [|done]. exfalso. destruct (Dt eq_refl C) as [-> |[_ X]]; [|congruence].
    rewrite It in P. cbn in P. by apply Forall_cons in P as [P _].
  - unfold to_come in *. rewrite Pe in P. cbn. by rewrite <- app_assoc.
  - unfold to_come in *. rewrite Pe in P. by split.
  - by split.
Qed.

Lemma pool_step_completed p p' :
  (completed p = true -> forallb is_done (Publish.workers p) = true) -> pub_own_step p p' ->
  completed p' = true -> forallb is_done (Publish.workers p') = true.
Proof.
  intros D S C. destruct S as [p i w s' w' L W|p b bs Pe Le|p Pe X|p Dn X]; cbn in *; try (by apply D); [|done].
  specialize (D C). exfalso. rewrite forallb_forall in D. assert (is_done w = true) as Dw
    by (apply D, list_elem_of_In; by eapply list_elem_of_lookup_2).
  unfold is_done in Dw. destruct W; destruct w as [pc0 ? ?]; cbn in *; by subst.
Qed.

(** With a batcher that may still send, an uncancelled pool has not completed. *)
Lemma none_done_open all n p :
  pub_inv all (pool_size n) p -> none_done p -> pub_ctx (sh p) = None -> forallb is_done (Publish.workers p) = false.
Proof.
  intros I Nd C. pose proof (pi_size _ _ _ I) as Sz. pose proof (pool_size_pos n). specialize (Nd C).
  destruct (Publish.workers p) as [|w ws]; [cbn in Sz; lia|]. apply Forall_cons in Nd as [E _]. cbn. by rewrite E.
Qed.

Lemma flush_plain ms : Forall plain (flush ms).
Proof. destruct ms; by repeat constructor. Qed.

Lemma emitted_stream limit b e :
  exists d, (emitted limit b e).1 = d ++ (match end_of e with Some true => [tombstone_batch] | _ => [] end) /\ Forall plain d.
Proof.
  destruct e as [| |m|]; cbn [emitted end_of].
  - by exists (flush (messages b)); split; [|apply flush_plain].
  - exists (flush (messages b)). split; [by rewrite app_nil_r|apply flush_plain].
  - destruct (MType m); [|by exists (flush (messages b)); split; [|apply flush_plain]].
    destruct (limit <=? _); [exists [data_batch (messages b ++ [Data m])]|exists []]; (split; [done|]); by repeat constructor.
  - destruct (timer b); [exists (flush (messages b))|exists []]; (split; [by rewrite ?app_nil_r|]); [apply flush_plain|done].
Qed.

(** *** The coupling of the parts *)

Section coupling.
Context {B : Type} `{BatchingLaws B M ok} (n : Z) (events : list parse_event).

Record coupled (s : load_state B) : Prop := {
  cp_cancel : cancelled (ctl s) = true <-> pub_ctx (sh (pool s)) <> None;
  cp_completion : completion (ctl s) = completed (pool s);
  cp_pool : pub_inv (concat (Messages <$> output (b_view (bat s)))) (pool_size n) (pool s);
  cp_ok : ok (bat s);
  cp_completed : completed (pool s) = true -> forallb is_done (Publish.workers (pool s)) = true;
  cp_open : batching (ctl s) = true ->
    batcher_inv M (b_view (bat s)) (data_of (batched (ctl s))) /\ Forall plain (to_come (pool s)) /\
    input_closed (sh (pool s)) = false /\ none_done (pool s);
  cp_ended : batching (ctl s) = false -> exists t, batcher_end M (b_view (bat s)) (data_of (batched (ctl s))) t
}.

Lemma coupled_start b : ok b -> batcher_inv M (b_view b) [] -> output (b_view b) = [] -> coupled (loaded n b events).
Proof.
  intros O I E. split; cbn [loaded ctl bat pool started cancelled completion batching batched NewPublisher sh pub_ctx completed]; try done.
  - rewrite E. apply (pub_inv_start n []). by exists [], false.
  - intros _. split_and!; try done. intros _. cbn. by apply Forall_replicate.
Qed.

Lemma goroutine_step_cancelled c c' : goroutine_step c c' -> cancelled c' = cancelled c.
Proof. by destruct 1. Qed.

Lemma coupled_uncancelled s : coupled s -> cancelled (ctl s) = false -> pub_ctx (sh (pool s)) = None.
Proof. intros C N. destruct (pub_ctx (sh (pool s))) eqn:E; [|done]. destruct (cp_cancel s C) as [_ X]. rewrite X in N; [done|congruence]. Qed.

Lemma coupled_control s c :
  coupled s -> goroutine_step (ctl s) c -> batching c = batching (ctl s) -> batched c = batched (ctl s) ->
  completion c = completion (ctl s) -> coupled (with_ctl s c).
Proof.
  intros [Ca Co Po O Cd Op En] G Eb Ed Ec. apply goroutine_step_cancelled in G.
  split; cbn [with_ctl ctl bat pool]; rewrite ?G, ?Eb, ?Ed, ?Ec; done.
Qed.

(** What a round gives to the pool. *)
Lemma sent_by_emitted b b' limit v e :
  output (b_view b') = output (b_view b) ++ (emitted limit v e).1 -> sent_by b b' = (emitted limit v e).1.
Proof. intros E. unfold sent_by. by rewrite E, drop_app_length. Qed.

Lemma takes_effect c b e c' :
  batching c = true -> takes c b e c' ->
  cancelled c' = cancelled c /\ completion c' = completion c /\ batching c' = negb (ends e) /\
  data_of (batched c') = data_of (batched c) ++ taken_of e.
Proof.
  intros Bt T. destruct T as [m q|Q C|C|T]; cbn; split_and!; try done; rewrite ?app_nil_r; try done.
  - unfold ends, is_tombstone. cbn. by destruct (MType m).
  - apply data_of_snoc.
Qed.

Lemma coupled_batch s e c b' stopped :
  coupled s -> batching (ctl s) = true -> pending (pool s) = [] -> takes (ctl s) (bat s) e c -> b_step (bat s) e = Ok (b', stopped) ->
  coupled (with_bat s c b').
Proof.
  intros [Ca Co Po O Cd Op _] Bt Pe T St. destruct (Op Bt) as (I & Pl & Ic & Nd).
  destruct (takes_effect _ _ _ _ Bt T) as (Tc & Tm & Tb & Td).
  destruct (b_step_exact (bat s) e _ O I) as (b1 & Es & Ou & Ms & O' & L). rewrite Es in St. injection St as -> <-.
  pose proof (sent_by_emitted _ _ _ _ _ Ou) as Se.
  destruct (emitted_stream (b_limit (bat s)) (b_view (bat s)) e) as (d & Ed & Fd).
  split; cbn [with_bat ctl bat pool hand_over sh completed Publish.workers pending]; rewrite ?Tc, ?Tm, ?Tb, ?Td; try done.
  - rewrite Ou, fmap_app, concat_app, Se. apply pub_inv_hand_over; try done. rewrite Ed.
    destruct (end_of e) as [[]|]; [exists d, true|exists d, false|exists d, false]; done.
  - unfold ends. destruct (end_of e); [done|]. intros _. split_and!; try done.
    unfold to_come in *. cbn. rewrite app_assoc. apply Forall_app. split; [done|]. by rewrite Se, Ed, app_nil_r.
  - unfold ends. destruct (end_of e) as [t|] eqn:En; [|done]. intros _. exists t. by rewrite (taken_of_end e), app_nil_r.
Qed.

Lemma coupled_pool s p :
  coupled s -> pub_own_step (pool s) p -> input_closed (sh p) = input_closed (sh (pool s)) \/ batching (ctl s) = false ->
  coupled (with_pool s p).
Proof.
  intros [Ca Co Po O Cd Op En] S Ic. pose proof (pub_inv_step _ _ _ _ Po (ps_own _ _ S)) as Po'.
  assert (pub_ctx (sh p) = pub_ctx (sh (pool s))) as Cx
    by (destruct S as [q i w s' w' L W| | |]; [|done..]; cbn; by destruct W).
  split; cbn [with_pool with_batcher ctl bat pool cancelled completion batching batched]; rewrite ?Cx; try done.
  - by eapply pool_step_completed.
  - intros Bt. destruct (Op Bt) as (I & Pl & Cl & Nd). destruct Ic as [Ic|?]; [|congruence].
    destruct (pool_step_open _ _ _ _ Po S Pl Cl Nd). split_and!; try done. congruence.
Qed.

Lemma coupled_step signal counted s s' : coupled s -> system_step signal counted s s' -> coupled s'.
Proof.
  intros C. destruct 1 as [s s' _ L|s now _|s e _ _ N].
  - destruct L; [by eapply coupled_control|by eapply coupled_batch|by apply coupled_pool|by destruct C].
  - destruct C as [Ca Co Po O Cd Op En]. split; cbn [ctl bat pool]; rewrite ?adjust_output by done; try done; [by apply ok_adjust| |].
    + intros Bt. destruct (Op Bt) as (I & R). split; [by apply adjust_inv|done].
    + intros Bt. destruct (En Bt) as [t E]. exists t. by apply adjust_end.
  - pose proof (coupled_uncancelled s C N) as Cx. destruct C as [Ca Co Po O Cd Op En].
    split; cbn [ctl bat pool with_caller cancelled completion batching batched sh completed Publish.workers]; try done.
    + apply (pub_inv_step _ _ _ _ Po). by apply ps_cancel.
    + intros Bt. destruct (Op Bt) as (I & Pl & Ic & _). by split_and!.
Qed.

Lemma system_coupled signal b s : ok b -> batcher_inv M (b_view b) [] -> output (b_view b) = [] ->
  system signal n b events s -> coupled s.
Proof.
  intros O I E [k R]. pose proof (coupled_start b O I E) as C.
  induction R as [s|k c s s1 s' S R IH]; [done|]. apply IH. by eapply coupled_step.
Qed.

(** *** The projection onto LoaderStop *)

Lemma with_batcher_eta c : with_batcher c (batch_input c) (batching c) (batched c) (completion c) = c.
Proof. by destruct c. Qed.

Lemma system_projects signal counted s s' :
  coupled s -> system_step signal counted s s' -> ctl s' = ctl s \/ run_step signal (ctl s) (ctl s').
Proof.
  intros C. destruct 1 as [s s' [Al _] L|s now _|s e [Al _] Sg N]; [|by left|right; by apply rs_signal].
  destruct L as [c G Eb Ed Ec|e c b' stopped Bt Pe T St|p S Ic|Pe].
  - right. by apply rs_goroutine.
  - destruct T; [..|by left]; right; (apply rs_goroutine; [done|]);
      [by apply gs_batch|by apply gs_batch_closed|by apply gs_batch_cancelled].
  - cbn. pose proof C as [Ca Co Po O Cd Op En]. destruct (completed p) eqn:Cp; [|left].
    + destruct (completed (pool s)) eqn:C0; [left; rewrite <- Co; apply with_batcher_eta|right].
      apply rs_goroutine; [done|]. apply gs_pool_ends; [|congruence].
      destruct (batching (ctl s)) eqn:Bt; [right|by left]. destruct (cancelled (ctl s)) eqn:Cc; [done|].
      destruct (Op eq_refl) as (_ & Pl & Cl & Nd).
      assert (pub_ctx (sh (pool s)) = None) as Cx by by apply (coupled_uncancelled s C).
      pose proof (pub_inv_step _ _ _ _ Po (ps_own _ _ S)) as Po'. destruct (pool_step_open _ _ _ _ Po S Pl Cl Nd) as [_ Nd'].
      assert (pub_ctx (sh p) = None) as Cx'
        by (destruct S as [q i w s' w' L W| | |]; [|done..]; cbn in *; by destruct W).
      pose proof (none_done_open _ _ _ Po' Nd' Cx') as D. rewrite (pool_step_completed _ _ (cp_completed s C) S Cp) in D. done.
    + assert (completion (ctl s) = false) as <-; [|apply with_batcher_eta].
      rewrite Co. destruct (completed (pool s)) eqn:C0; [|done]. destruct S; cbn in *; congruence.
  - by left.
Qed.

Lemma run_projects signal k s0 s : coupled s0 -> system_run signal k s0 s -> rtc (run_step signal) (ctl s0) (ctl s).
Proof.
  intros C R. induction R as [s|k c s s1 s' S R IH]; [done|]. pose proof (coupled_step _ _ _ _ C S) as C1.
  destruct (system_projects _ _ _ _ C S) as [E|E]; [rewrite <- E; by apply IH|]. eapply rtc_l; [exact E|by apply IH].
Qed.

Lemma system_running signal b s : ok b -> batcher_inv M (b_view b) [] -> output (b_view b) = [] ->
  system signal n b events s -> running signal events (ctl s).
Proof. intros O I E [k R]. by apply (run_projects _ k (loaded n b events)); [apply coupled_start|]. Qed.

(** *** What has been published *)

(** Everything the batcher received is published, given up, held by a worker,
    on its way to one, or in the buffer. *)
Lemma coupled_flow s :
  coupled s ->
  published (sh (pool s)) ++ abandoned (sh (pool s)) ++ concat (inflight <$> Publish.workers (pool s)) ++
    concat (Messages <$> to_come (pool s)) ++ messages (b_view (bat s)) ≡ₚ data_of (batched (ctl s)).
Proof.
  intros [Ca Co Po O Cd Op En]. pose proof (pi_flow _ _ _ Po) as F. rewrite !app_assoc. rewrite !app_assoc in F. rewrite F.
  destruct (batching (ctl s)) eqn:Bt.
  - destruct (Op eq_refl) as (I & _). by rewrite (bi_taken _ _ _ I).
  - destruct (En eq_refl) as [t [(d & E & _ & C & _) Bu _]]. rewrite E, Bu, app_nil_r, fmap_app, concat_app, C.
    destruct t; cbn; by rewrite ?app_nil_r.
Qed.

(** When the pool has completed without a cancellation. *)
Lemma coupled_settled s :
  coupled s -> cancelled (ctl s) = false -> batching (ctl s) = false -> completion (ctl s) = true ->
  published (sh (pool s)) ++ abandoned (sh (pool s)) ≡ₚ data_of (batched (ctl s)) /\
  messagesPublished (sh (pool s)) = wrap64 (Z.of_nat (length (published (sh (pool s))))) /\
  (refusals (sh (pool s)) = [] -> abandoned (sh (pool s)) = []).
Proof.
  intros C N Bt Cm. pose proof (coupled_flow s C) as F. pose proof (coupled_uncancelled s C N) as Cx.
  destruct C as [Ca Co Po O Cd Op En]. rewrite Co in Cm. specialize (Cd Cm).
  destruct (En Bt) as [t [_ Bu _]]. pose proof (all_done_drained _ _ _ Po (pool_size_pos n) Cd Cx) as E.
  pose proof (all_done_hold_nothing _ Cd) as Fl. destruct Po as [Sz Stm F' Cp Sm Ms Er Cm' Dn Cl Lo].
  rewrite E, Fl, Bu in F. cbn in F. rewrite !app_nil_r in F. split_and!; try done.
  intros R. destruct (abandoned (sh (pool s))); [done|]. by destruct Lo.
Qed.

(** *** The length of a run *)

(** What the buffer will cost the pool. *)
Definition buffer_rank (ms : list bytes) : nat := match ms with [] => 0 | _ => 2 * length ms + 8 end.
Definition handed_rank (bs : list Batch) : nat := sum_list ((fun b => batch_rank b + 1)%nat <$> bs).

Definition load_rank (s : load_state B) : nat :=
  12 * weight (ctl s) + buffer_rank (messages (b_view (bat s))) + pub_rank (pool s) + flag_weight (negb (crashed s)).

Lemma flush_rank ms : (handed_rank (flush ms) <= buffer_rank ms)%nat.
Proof. destruct ms; [done|]. unfold handed_rank, batch_rank. cbn. lia. Qed.

Lemma flush_rank_lt ms : ms <> [] -> (handed_rank (flush ms) < buffer_rank ms)%nat.
Proof. destruct ms; [done|]. unfold handed_rank, batch_rank. cbn. lia. Qed.

Lemma handed_rank_app bs bs' : handed_rank (bs ++ bs') = (handed_rank bs + handed_rank bs')%nat.
Proof. unfold handed_rank. by rewrite fmap_app, sum_list_with_app. Qed.

(** A message costs ten, a tombstone seven, and a timer that fires gains. *)
Lemma emitted_rank limit b e taken :
  batcher_inv M b taken ->
  let '(bs, rest) := emitted limit b e in
  (handed_rank bs + buffer_rank rest + (match e with EvTimer => flag_weight (timer b) | _ => 0 end) <=
   buffer_rank (messages b) + match e with EvTimer | EvClosed => 0 | _ => 10 end)%nat.
Proof.
  intros I. assert (forall ms, handed_rank (flush ms ++ [tombstone_batch]) + 0 + 0 <= buffer_rank ms + 10)%nat as T.
  { intros ms. rewrite handed_rank_app. pose proof (flush_rank ms). cbn. lia. }
  destruct e as [| |m|]; cbn [emitted]; [apply T|pose proof (flush_rank (messages b)); cbn; lia| |].
  - destruct (MType m); [|apply T]. assert (forall ms : list bytes, buffer_rank (ms ++ [Data m]) <= buffer_rank ms + 10)%nat as A.
    { intros ms. destruct ms as [|x ms]; cbn [app buffer_rank length]; [lia|]. rewrite length_app. cbn. lia. }
    specialize (A (messages b)). destruct (limit <=? _); [|cbn; lia].
    pose proof (flush_rank (messages b ++ [Data m])) as F.
    assert (flush (messages b ++ [Data m]) = [data_batch (messages b ++ [Data m])]) as E by by destruct (messages b).
    rewrite E in F. cbn [buffer_rank]. lia.
  - pose proof (bi_timer _ _ _ I) as Ti. destruct (timer b); [|cbn; lia].
    assert (messages b <> []) as Ne by (by destruct (messages b)). pose proof (flush_rank_lt _ Ne). cbn. lia.
Qed.

Lemma hand_over_rank p bs : pub_rank (hand_over p bs) = (pub_rank p + handed_rank bs)%nat.
Proof. unfold pub_rank, hand_over, handed_rank. cbn. rewrite fmap_app, sum_list_with_app. lia. Qed.

Lemma takes_weight c b e c' : batching c = true -> takes c b e c' ->
  (weight c' + (match e with EvTimer => 0 | _ => 1 end) <= weight c)%nat.
Proof.
  intros Bt T. unfold weight. destruct T as [m q Q|Q C|C|T]; cbn [parser forwarder batch_input batching completion tracking logging
    waited cancelled caller with_batcher]; rewrite ?Bt, ?Q; cbn [length flag_weight]; [destruct (negb _); cbn|..]; lia.
Qed.

Lemma load_step_rank s s' : coupled s -> crashed s = false -> load_step s s' -> (load_rank s' < load_rank s)%nat.
Proof.
  intros C Cr L. unfold load_rank. destruct L as [c G _ _ _|e c b' stopped Bt Pe T St|p S Ic|Pe];
    cbn [with_ctl with_bat with_pool ctl bat pool crashed].
  - apply goroutine_step_weight in G. lia.
  - pose proof (cp_ok s C) as O. destruct (cp_open s C Bt) as (I & _). destruct (b_step_exact (bat s) e _ O I) as (b1 & Es & Ou & Ms & _).
    rewrite Es in St. injection St as -> <-. rewrite (sent_by_emitted _ _ _ _ _ Ou), hand_over_rank, Ms.
    pose proof (emitted_rank (b_limit (bat s)) (b_view (bat s)) e _ I) as R. pose proof (takes_weight _ _ _ _ Bt T) as Wt.
    destruct (emitted _ _ _) as [bs rest]. cbn [fst snd]. destruct T as [m q Q|Q X|X|T]; [lia..|]. rewrite T in R. cbn in R. lia.
  - apply pub_own_rank in S as R. assert (weight (with_batcher (ctl s) (batch_input (ctl s)) (batching (ctl s)) (batched (ctl s)) (completed p))
      <= weight (ctl s))%nat; [|lia].
    unfold weight. cbn. rewrite (cp_completion s C). destruct (completed (pool s)) eqn:C0; [|destruct (completed p); cbn; lia].
    assert (completed p = true) as -> by (destruct S; cbn; congruence). lia.
  - rewrite Cr. cbn. lia.
Qed.

Lemma system_step_rank signal counted s s' :
  coupled s -> system_step signal counted s s' -> (load_rank s' + flag_weight counted <= load_rank s)%nat.
Proof.
  intros C. destruct 1 as [s s' [_ Cr] L|s now [_ Cr]|s e _ _ N]; cbn [flag_weight].
  - pose proof (load_step_rank _ _ C Cr L). lia.
  - unfold load_rank. cbn [ctl bat pool crashed]. rewrite adjust_messages by apply (cp_ok s C). lia.
  - assert (forall c, cancelled c = false -> weight (with_caller c true (shutdownRequested c) (caller c)) + 1 = weight c)%nat as Wt.
    { intros c E. unfold weight. cbn. rewrite E. cbn. lia. }
    specialize (Wt _ N). unfold load_rank. cbn [ctl bat pool crashed].
    change (pub_rank {| sh := set_pub_ctx _ e; Publish.workers := _; pending := _; completed := _ |}) with (pub_rank (pool s)). lia.
Qed.

Lemma system_run_rank signal k s s' : coupled s -> system_run signal k s s' -> (k + load_rank s' <= load_rank s)%nat.
Proof.
  intros C R. induction R as [s|k c s s1 s' S R IH]; [lia|]. pose proof (coupled_step _ _ _ _ C S) as C1.
  pose proof (system_step_rank _ _ _ _ C S). specialize (IH C1). destruct c; cbn [flag_weight] in *; lia.
Qed.

(** *** A run that has not returned can go on *)

(** A goroutine of LoaderStop moves on its own, or the batcher takes something,
    or the pool ends. *)
Lemma step_class c c' b :
  goroutine_step c c' ->
  (batching c' = batching c /\ batched c' = batched c /\ completion c' = completion c) \/
  (batching c = true /\ exists e, takes c b e c') \/
  (completion c = false /\ (batching c = false \/ cancelled c = true)).
Proof.
  intros G; destruct G; try (by left); right; try (by right; split); left; (split; [done|]); eexists.
  - by apply tk_message.
  - by apply tk_closed.
  - by apply tk_cancelled.
Qed.

(** The pool can move while a batch waits for it, or once the batcher ended. *)
Lemma pool_moves s :
  coupled s -> completed (pool s) = false -> pending (pool s) <> [] \/ batching (ctl s) = false -> exists s', load_step s s'.
Proof.
  intros C Cd W. destruct (pub_progress _ _ _ (cp_pool s C) Cd) as [p S]. eexists. apply (ld_pool _ p S).
  destruct W as [Ne|Bt]; [left|by right]. destruct S as [q i w s' w' L W|q b bs E L|q E X|q D X]; [cbn; by destruct W|done|done|done].
Qed.

Lemma open_pool_running s :
  coupled s -> batching (ctl s) = true -> cancelled (ctl s) = false -> completed (pool s) = false.
Proof.
  intros C Bt N. pose proof (coupled_uncancelled s C N) as Cx. destruct (cp_open s C Bt) as (_ & _ & _ & Nd).
  pose proof (none_done_open _ _ _ (cp_pool s C) Nd Cx) as D. destruct (completed (pool s)) eqn:E; [|done].
  by rewrite (cp_completed s C E) in D.
Qed.

Context (ms : list Message) (t : Message).
Context (shape : messages_of events = ms ++ [t]) (data : Forall is_data ms) (tomb : MType t = MessageTypeTombstone).

Lemma system_progress signal s :
  coupled s -> running signal events (ctl s) -> alive s -> exists s', load_step s s'.
Proof.
  intros C U [R _]. destruct (load_inv_reachable events ms t shape data _ _ U) as [I Q].
  destruct (cancelled (ctl s)) eqn:N.
  - unfold returned in R. destruct (caller (ctl s)) eqn:Ca; [| |done]; eexists; eapply ld_control;
      [by apply gs_stopping|done..|by apply gs_forced|done|done|done].
  - destruct (run_progress events _ I ltac:(auto) R) as [c G].
    destruct (step_class _ _ (bat s) G) as [(E1 & E2 & E3)|[(Bt & e & T)|(Cm & [Bt|X])]].
    + eexists. by apply ld_control.
    + destruct (pending (pool s)) as [|b bs] eqn:Pe.
      * destruct (cp_open s C Bt) as (Ib & _). destruct (b_step_exact (bat s) e _ (cp_ok s C) Ib) as (b' & E & _).
        eexists. by eapply ld_batch.
      * apply pool_moves; [done|by apply open_pool_running|left; congruence].
    + apply pool_moves; [done| |by right]. by rewrite <- (cp_completion s C).
    + congruence.
Qed.
End coupling.

Lemma system_run_snoc {B : Type} `{Batching B} signal k s s1 s2 :
  system_run signal k s s1 -> system_step signal true s1 s2 -> system_run signal (S k) s s2.
Proof.
  intros R S. induction R as [s|k c s s1 s' S1 R IH]; [apply (sr_step _ 0 true _ _ _ S), sr_here|].
  specialize (IH S). destruct c; [by apply (sr_step _ (Datatypes.S k) true _ _ _ S1)|by apply (sr_step _ (Datatypes.S k) false _ _ _ S1)].
Qed.

(** A run of any lawful batcher that is alive can make one more step. *)
Lemma system_extends {B : Type} `{BatchingLaws B M ok} n events ms t signal k b s :
  messages_of events = ms ++ [t] -> Forall is_data ms -> MType t = MessageTypeTombstone ->
  ok b -> batcher_inv M (b_view b) [] -> output (b_view b) = [] ->
  system_run signal k (loaded n b events) s -> alive s -> exists s', system_run signal (S k) (loaded n b events) s'.
Proof.
  intros E F T O I Eo R A. assert (system signal n b events s) as Sy by by exists k.
  pose proof (system_coupled _ _ _ _ _ O I Eo Sy) as C. pose proof (system_running _ _ _ _ _ O I Eo Sy) as U.
  destruct (system_progress n events ms t E F signal s C U A) as [s' L]. exists s'.
  eapply system_run_snoc; [exact R|by apply sy_own].
Qed.

(** ** The loader of the command *)

(** The batcher the flags choose. *)
Definition fixed_batcher (cfg : loader_config) (now : Z) : Batcher := NewBatcher now (batchSize cfg) (batchTimeout cfg).
Definition adaptive_batcher (cfg : loader_config) (now : Z) : AdaptiveBatcher :=
  NewAdaptiveBatcher now (minBatchSize cfg) (maxBatchSize cfg) (targetRate cfg) (batchTimeout cfg).

(** A run of the command over the events of its parser, with either batcher:
    its goroutines, its pool, and whether it crashed. *)
Inductive command_run `{GoLib} (signal : bool) (cfg : loader_config) (now : Z) (events : list parse_event) (k : nat)
    : run_state -> pub_state -> bool -> Prop :=
  | cr_fixed s :
      adaptive cfg = false -> system_run signal k (loaded (workers cfg) (fixed_batcher cfg now) events) s ->
      command_run signal cfg now events k (ctl s) (pool s) (crashed s)
  | cr_adaptive s :
      adaptive cfg = true -> system_run signal k (loaded (workers cfg) (adaptive_batcher cfg now) events) s ->
      command_run signal cfg now events k (ctl s) (pool s) (crashed s).

Section command.
Context `{GoLib, SortSlice, MapIter}.
Context (cfg : loader_config) (now : Z) (f : source_file) (connected : result Connection) (events : list parse_event).
Context (opened : open_input cfg connected (inr f) = Ok events) (sized : maxBatchSize cfg < 2 ^ 51).

(** The lines of the file that the parser accepts. *)
Definition file_lines : list bytes := accepted (line_judge cfg) f.

(** Both batchers start with nothing taken. *)
Lemma fixed_start : let b := fixed_batcher cfg now in 1 <= size b <= size b /\ batcher_inv (size b) b [].
Proof. cbv zeta. assert (1 <= size (fixed_batcher cfg now)) as S by (cbn; case_match; lia). split; [lia|]. apply new_batcher_inv. lia. Qed.

Lemma adaptive_start :
  let b := adaptive_batcher cfg now in (size_ok b /\ maxSize b = maxSize b) /\ batcher_inv (maxSize b) (viewed b) [].
Proof.
  pose proof (new_adaptive_size now (minBatchSize cfg) (maxBatchSize cfg) (targetRate cfg) (batchTimeout cfg) sized) as S.
  cbv zeta. split; [done|]. split; try done. destruct S. change (Z.of_nat 0 < maxSize (adaptive_batcher cfg now)). unfold adaptive_batcher. lia.
Qed.

(** What every run of the command has of its system. *)
Lemma command_system signal k c p cr :
  command_run signal cfg now events k c p cr ->
  exists (B : Type) (_ : Batching B) (b : B) (s : load_state B) (M : Z) (ok : B -> Prop) (_ : BatchingLaws B M ok),
    ok b /\ batcher_inv M (b_view b) [] /\ output (b_view b) = [] /\ messages (b_view b) = [] /\
    system_run signal k (loaded (workers cfg) b events) s /\ c = ctl s /\ p = pool s /\ cr = crashed s.
Proof.
  destruct 1 as [s A R|s A R].
  - destruct fixed_start. by exists Batcher, _, (fixed_batcher cfg now), s, (size (fixed_batcher cfg now)), _, (fixed_laws _).
  - destruct adaptive_start.
    by exists AdaptiveBatcher, _, (adaptive_batcher cfg now), s, (maxSize (adaptive_batcher cfg now)), _, (adaptive_laws _).
Qed.

Lemma events_shape :
  exists ms t, messages_of events = ms ++ [t] /\ Forall is_data ms /\ MType t = MessageTypeTombstone /\ Data <$> ms = file_lines.
Proof. by eapply open_input_lines. Qed.

(** The messages of the file are the data of what the batcher receives. *)
Lemma data_of_events : data_of (messages_of events) = file_lines.
Proof.
  destruct events_shape as (ms & t & E & F & T & D). rewrite E, data_of_snoc. cbn [taken_of]. by rewrite T, app_nil_r, data_of_data.
Qed.

(** What a run has published. *)
Lemma command_publishes signal k c p cr :
  command_run signal cfg now events k c p cr ->
  (exists rest, published (sh p) ++ rest ≡ₚ file_lines) /\
  (returned c <> None -> cancelled c = false ->
     returned c = Some Completed /\ published (sh p) ++ abandoned (sh p) ≡ₚ file_lines /\
     (refusals (sh p) = [] ->
        published (sh p) ≡ₚ file_lines /\ messagesPublished (sh p) = wrap64 (Z.of_nat (length file_lines)))).
Proof.
  intros R. destruct (command_system _ _ _ _ _ R) as (B & Bt & b & s & M & ok & Laws & O & I & Eo & _ & Rs & -> & -> & _).
  destruct events_shape as (ms & t & E & F & _).
  assert (system signal (workers cfg) b events s) as Sy by by exists k.
  pose proof (system_coupled _ _ _ _ _ O I Eo Sy) as C. pose proof (system_running _ _ _ _ _ O I Eo Sy) as U. split.
  - destruct (flow_reachable _ _ _ U) as (lost & Fl & _). pose proof (coupled_flow _ s C) as Fp.
    eexists. rewrite <- data_of_events, <- Fl, data_of_app, <- Fp. by rewrite <- app_assoc.
  - intros Rt N. destruct (returned (ctl s)) as [why|] eqn:W; [|done].
    destruct (loader_return_complete events ms t signal (ctl s) why E F U W) as [Q _]. destruct (Q N) as (-> & Ba & Cm & Bg).
    destruct (coupled_settled _ s C N Bg Cm) as (P & Ct & Ab). rewrite Ba, data_of_events in P. split; [done|]. split; [done|].
    intros Rf. rewrite (Ab Rf), app_nil_r in P. split; [done|]. by rewrite Ct, (Permutation_length P).
Qed.

(** How long a run is. *)
Lemma command_goes_on signal k c p cr :
  command_run signal cfg now events k c p cr ->
  (k <= 60 * length events + pool_size (workers cfg) + 135)%nat /\
  (returned c = None -> cr = false -> exists c' p' cr', command_run signal cfg now events (S k) c' p' cr').
Proof.
  intros R. split.
  - destruct (command_system _ _ _ _ _ R) as (B & Bt & b & s & M & ok & Laws & O & I & Eo & Em & Rs & _).
    pose proof (system_run_rank (workers cfg) _ _ _ _ (coupled_start _ events b O I Eo) Rs) as L.
    assert (load_rank (loaded (workers cfg) b events) = 60 * length events + pool_size (workers cfg) + 135)%nat as E; [|lia].
    unfold load_rank, loaded, weight, pub_rank. cbn [ctl bat pool crashed started parser forwarder batch_input batching completion tracking logging
      waited cancelled caller]. rewrite Em. cbn -[Nat.mul pool_size].
    assert (sum_list (worker_rank <$> replicate (pool_size (workers cfg)) pub_worker0) = pool_size (workers cfg)) as ->; [|lia].
    induction (pool_size (workers cfg)) as [|n IH]; [done|]. cbn. by rewrite IH.
  - intros W Cr. destruct events_shape as (ms & t & E & F & T & _).
    destruct R as [s A R|s A R].
    + destruct fixed_start as (O & I). pose proof (fixed_laws (size (fixed_batcher cfg now))) as Laws.
      edestruct (@system_extends _ _ _ _ Laws (workers cfg) events ms t signal k (fixed_batcher cfg now) s E F T O I) as [s' R']; [done|exact R|by split|].
      eexists _, _, _. by eapply cr_fixed.
    + destruct adaptive_start as (O & I). pose proof (adaptive_laws (maxSize (adaptive_batcher cfg now))) as Laws.
      edestruct (@system_extends _ _ _ _ Laws (workers cfg) events ms t signal k (adaptive_batcher cfg now) s E F T O I) as [s' R']; [done|exact R|by split|].
      eexists _, _, _. by eapply cr_adaptive.
Qed.

(** C18. The loader, end to end.  Whatever the interleaving of the parser, the
    forwarder, the batcher with its timer and its resizes, the workers of the
    pool, the answers of the connection and an interrupt: no line is published
    more often than the file has it, and a run that returns without an
    interrupt has published, or given up after a refusal, every line the parser
    accepts; if nothing was refused, exactly these lines were published, and
    counted. *)
Theorem loader_end_to_end signal k c p cr :
  command_run signal cfg now events k c p cr ->
  (exists rest, published (sh p) ++ rest ≡ₚ file_lines) /\
  (returned c <> None -> cancelled c = false ->
     returned c = Some Completed /\ published (sh p) ++ abandoned (sh p) ≡ₚ file_lines /\
     (refusals (sh p) = [] ->
        published (sh p) ≡ₚ file_lines /\ messagesPublished (sh p) = wrap64 (Z.of_nat (length file_lines)))).
Proof. apply command_publishes. Qed.

(** C19. And it gets there: the steps of a run are bounded by the size of the file,
    the turns of the resizing goroutine apart, and until the run has returned
    or has panicked on a send that waited for five seconds, it can go on. *)
Theorem loader_terminates signal k c p cr :
  command_run signal cfg now events k c p cr ->
  (k <= 60 * length events + pool_size (workers cfg) + 135)%nat /\
  (returned c = None -> cr = false -> exists c' p' cr', command_run signal cfg now events (S k) c' p' cr').
Proof. apply command_goes_on. Qed.
End command.
