(* ===== verification/GenIterator.v ===== *)
(** * GenIterator: iteration over a space of patterns
    (tools/generator/internal/generator/generators/pattern_iterator.go)

    A position in the space is a number in mixed radix whose digits are the
    indices of the components, the last component varying fastest.  Integers
    are int64: products wrap and a division by zero panics.  [Sprintf_d] is
    [fmt.Sprintf] with one integer argument. *)
From S2P Require Import Prelude GoInt GoStr GoFloat Values.

(** ** Components *)

Inductive IteratorComponent : Type :=
  | ArrayIterator (values : list string)
  | RangeIterator (start stop : Z) (format : string)
  | PatternComponent (prefix base : string) (digits maxValue : Z)
  | CycleIterator (values : list string) (cycles : Z).

(** [int64(math.Pow10(n))]. *)
Definition pow10_int `{GoLib} (n : Z) : Z :=
  if n <? 0 then 0 else f64_to_int64 float_out_of_range (f64_of_Z (10 ^ n)).

Definition NewPatternIteratorComponent `{GoLib} (prefix base : string) (digits : Z) : IteratorComponent :=
  PatternComponent prefix base digits (pow10_int digits).

(** [a % b] and [a / b]. *)
Definition rem64 (a b : Z) : result Z := if b =? 0 then Panic else Ok (go_rem a b).
Definition div64 (a b : Z) : result Z := if b =? 0 then Panic else Ok (wrap64 (go_div a b)).

(** An element of a slice. *)
Definition elem_at (l : list string) (i : Z) : result string :=
  if i <? 0 then Panic else match l !! Z.to_nat i with Some s => Ok s | None => Panic end.

Section iterator.
Context (Sprintf_d : string -> Z -> string).

Definition ValueAt (c : IteratorComponent) (index : Z) : result string :=
  match c with
  | ArrayIterator values =>
      if (index <? 0) || (Z.of_nat (length values) <=? index) then Ok "" else elem_at values index
  | RangeIterator start stop format =>
      let value := wrap64 (start + index) in
      Ok (Sprintf_d format (if stop <? value then stop else value))
  | PatternComponent prefix base digits maxValue =>
      let format := prefix +:+ base +:+ "%0" +:+ FormatInt digits +:+ "d" in
      value ← rem64 index maxValue;
      Ok (Sprintf_d format value)
  | CycleIterator values cycles =>
      if (length values =? 0)%nat then Ok ""
      else i ← rem64 index (Z.of_nat (length values)); elem_at values i
  end.

Definition Size (c : IteratorComponent) : Z :=
  match c with
  | ArrayIterator values => Z.of_nat (length values)
  | RangeIterator start stop _ => wrap64 (wrap64 (stop - start) + 1)
  | PatternComponent _ _ _ maxValue => maxValue
  | CycleIterator values cycles => wrap64 (Z.of_nat (length values) * cycles)
  end.

(** ** Positions *)

Definition product (sizes : list Z) : Z := fold_left (fun total size => wrap64 (total * size)) sizes 1.

Definition CartesianProduct (sizes : list Z) : Z := if (length sizes =? 0)%nat then 0 else product sizes.

(** The loops run from the last component to the first: over the reversed list. *)
Fixpoint to_indices (index : Z) (sizes : list Z) : result (list Z) :=
  match sizes with
  | [] => Ok []
  | size :: sizes =>
      i ← rem64 index size;
      index ← div64 index size;
      rest ← to_indices index sizes;
      Ok (i :: rest)
  end.

Definition IndexToIndices (index : Z) (sizes : list Z) : result (list Z) := reverse <$> to_indices index (reverse sizes).

Fixpoint to_index (indices sizes : list Z) (multiplier index : Z) : Z :=
  match indices, sizes with
  | i :: indices, size :: sizes =>
      to_index indices sizes (wrap64 (multiplier * size)) (wrap64 (index + wrap64 (i * multiplier)))
  | _, _ => index
  end.

Definition IndicesToIndex (indices sizes : list Z) : Z :=
  if (length indices =? length sizes)%nat then to_index (reverse indices) (reverse sizes) 1 0 else -1.

(** ** The iterator *)

Record PatternIterator : Type := {
  components : list IteratorComponent; sizes : list Z; indices : list Z; total : Z; current : Z }.

Definition NewPatternIterator (components : list IteratorComponent) : PatternIterator :=
  {| components := components; sizes := Size <$> components; indices := replicate (length components) 0;
     total := product (Size <$> components); current := 0 |}.

Definition Next (it : PatternIterator) : result (bool * PatternIterator) :=
  if total it <=? current it then Ok (false, it)
  else
    indices ← IndexToIndices (current it) (sizes it);
    Ok (true, {| components := components it; sizes := sizes it; indices := indices; total := total it;
                 current := wrap64 (current it + 1) |}).

Definition Values (it : PatternIterator) : result (list string) :=
  mapM (fun '(c, i) => ValueAt c i) (zip (components it) (indices it)).

Definition Reset (it : PatternIterator) : PatternIterator :=
  {| components := components it; sizes := sizes it; indices := (fun _ => 0) <$> indices it; total := total it; current := 0 |}.

Definition Progress (it : PatternIterator) : Z * Z := (current it, total it).

(** [for it.Next() { ... it.Values() ... }]: the values of the rounds. *)
Fixpoint iterate (rounds : nat) (it : PatternIterator) : result (list (list string) * PatternIterator) :=
  match rounds with
  | O => Ok ([], it)
  | S rounds =>
      '(more, it) ← Next it;
      if (more : bool) then
        values ← Values it;
        '(rest, it) ← iterate rounds it;
        Ok (values :: rest, it)
      else Ok ([], it)
  end.
End iterator.

(** ** Laws *)

(** The mixed-radix number with the last digit first. *)
Fixpoint radix (digits sizes : list Z) : Z :=
  match digits, sizes with
  | d :: digits, s :: sizes => d + s * radix digits sizes
  | _, _ => 0
  end.

Definition space (sizes : list Z) : Z := foldr Z.mul 1 sizes.

Definition digit_of (d s : Z) : Prop := 0 <= d < s.

Lemma space_pos ss : Forall (fun s => 0 < s) ss -> 0 < space ss.
Proof. unfold space. induction 1; cbn; lia. Qed.

Lemma radix_bound ds ss : Forall2 digit_of ds ss -> 0 <= radix ds ss < space ss.
Proof. unfold space, digit_of. induction 1; cbn in *; [lia|nia]. Qed.

Lemma to_index_radix ds ss m x : to_index ds ss (wrap64 m) (wrap64 x) = wrap64 (x + m * radix ds ss).
Proof.
  revert ss m x. induction ds as [|d ds IH]; intros [|s ss] m x; cbn [to_index radix]; try (f_equal; lia).
  assert (E1 : wrap64 (wrap64 m * s) = wrap64 (m * s))
    by (apply wrap64_eq; rewrite <- Zmult_mod_idemp_l, wrap64_mod, Zmult_mod_idemp_l; done).
  assert (E2 : wrap64 (wrap64 x + wrap64 (d * wrap64 m)) = wrap64 (x + d * m)).
  { rewrite wrap64_add_l, wrap64_add_r. apply wrap64_eq. rewrite <- Zplus_mod_idemp_r.
    rewrite <- (Zmult_mod_idemp_r (wrap64 m)), wrap64_mod, Zmult_mod_idemp_r, Zplus_mod_idemp_r. done. }
  rewrite E1, E2, IH. f_equal. lia.
Qed.

Lemma to_indices_radix ss k :
  Forall (fun s => 0 < s) ss -> 0 <= k < space ss -> space ss <= max_int64 ->
  exists ds, to_indices k ss = Ok ds /\ Forall2 digit_of ds ss /\ radix ds ss = k.
Proof.
  intros P. revert k. induction P as [|s ss P F IH]; intros k K B; cbn [to_indices].
  { exists []. cbn in *. split_and!; [done|constructor|lia]. }
  change (space (s :: ss)) with (s * space ss) in *. pose proof (space_pos ss F) as Sp.
  unfold rem64, div64. destruct (Z.eqb_spec s 0); [lia|]. cbn [mbind res_bind].
  unfold go_div, go_rem. rewrite Z.quot_div_nonneg, Z.rem_mod_nonneg by lia.
  assert (0 <= k / s < space ss) as Q by (split; [by apply Z.div_pos; lia|apply Z.div_lt_upper_bound; lia]).
  rewrite wrap64_id by (unfold_range; nia).
  destruct (IH (k / s) Q ltac:(nia)) as (ds & -> & D & R). exists (k mod s :: ds). cbn [mbind res_bind radix].
  split_and!; [done|constructor; [by apply Z.mod_pos_bound|done]|]. rewrite R. pose proof (Z.div_mod k s). lia.
Qed.

Lemma radix_inj ds ds' ss : Forall2 digit_of ds ss -> Forall2 digit_of ds' ss -> radix ds ss = radix ds' ss -> ds = ds'.
Proof.
  intros F. revert ds'. induction F as [|d s ds ss D F IH]; intros ds' F' E; inversion F' as [|d' s' ds2 ss' D' F2]; subst; [done|].
  cbn in E. unfold digit_of in *. assert (d = d' /\ radix ds ss = radix ds2 ss) as [-> R]; [|by rewrite (IH ds2)].
  set (q := radix ds ss - radix ds2 ss). assert (E' : s * q = d' - d) by (unfold q; lia).
  assert (q = 0) as Q by (destruct (Z.lt_trichotomy q 0) as [L|[L|L]]; nia). unfold q in *. lia.
Qed.

Lemma wrap64_mul_l a b : wrap64 (wrap64 a * b) = wrap64 (a * b).
Proof. apply wrap64_eq. by rewrite <- Zmult_mod_idemp_l, wrap64_mod, Zmult_mod_idemp_l. Qed.

Lemma product_space ss : product ss = wrap64 (space ss).
Proof.
  unfold product. assert (forall t, fold_left (fun total size => wrap64 (total * size)) ss (wrap64 t) = wrap64 (t * space ss)) as G.
  { induction ss as [|s ss IH]; intros t; cbn [fold_left]; [unfold space; cbn; f_equal; lia|].
    rewrite wrap64_mul_l, IH. f_equal. unfold space. cbn. lia. }
  change 1 with (wrap64 1) at 1. rewrite G. f_equal. lia.
Qed.

Lemma space_app a b : space (a ++ b) = space a * space b.
Proof. unfold space. induction a as [|x a IH]; cbn in *; [lia|]. rewrite IH. lia. Qed.
Lemma space_reverse ss : space (reverse ss) = space ss.
Proof.
  induction ss as [|s ss IH]; [done|]. rewrite reverse_cons, space_app, IH. unfold space. cbn. lia.
Qed.

(** The position of an iteration is a number in mixed radix.  Over non-empty
    components whose combinations can be counted in an int64, IndexToIndices
    and IndicesToIndex are inverse to each other between the positions
    [0, total) and the tuples of indices of the components, and
    CartesianProduct counts them. *)
Theorem mixed_radix_bijection ss :
  Forall (fun s => 0 < s) ss -> space ss <= max_int64 ->
  (ss <> [] -> CartesianProduct ss = space ss) /\
  (forall k, 0 <= k < space ss ->
     exists ds, IndexToIndices k ss = Ok ds /\ Forall2 digit_of ds ss /\ IndicesToIndex ds ss = k) /\
  (forall ds, Forall2 digit_of ds ss ->
     0 <= IndicesToIndex ds ss < space ss /\ IndexToIndices (IndicesToIndex ds ss) ss = Ok ds).
Proof.
  intros P B. pose proof (space_pos ss P) as Sp.
  assert (forall ds, Forall2 digit_of ds ss ->
    IndicesToIndex ds ss = radix (reverse ds) (reverse ss) /\ 0 <= radix (reverse ds) (reverse ss) < space ss) as Ix.
  { intros ds F. assert (0 <= radix (reverse ds) (reverse ss) < space ss) as R
      by (rewrite <- (space_reverse ss); by apply radix_bound, Forall2_reverse). split; [|done].
    unfold IndicesToIndex. rewrite (Forall2_length _ _ _ F), Nat.eqb_refl.
    change (to_index (reverse ds) (reverse ss) (wrap64 1) (wrap64 0) = radix (reverse ds) (reverse ss)).
    rewrite to_index_radix, Z.add_0_l, Z.mul_1_l, wrap64_id; [done|]. unfold_range. lia. }
  assert (forall k, 0 <= k < space ss ->
     exists ds, IndexToIndices k ss = Ok ds /\ Forall2 digit_of ds ss /\ IndicesToIndex ds ss = k) as To.
  { intros k K. destruct (to_indices_radix (reverse ss) k) as (ds & E & F & R).
    - by rewrite Forall_reverse.
    - by rewrite space_reverse.
    - by rewrite space_reverse.
    - exists (reverse ds). assert (Forall2 digit_of (reverse ds) ss) as F' by (rewrite <- (reverse_involutive ss); by apply Forall2_reverse).
      unfold IndexToIndices at 1. rewrite E. split_and!; [done|done|]. destruct (Ix _ F') as [-> _]. by rewrite reverse_involutive. }
  split_and!; [|done|].
  - intros N. unfold CartesianProduct. rewrite product_space, wrap64_id by (unfold_range; lia). by destruct ss.
  - intros ds F. destruct (Ix ds F) as [E R]. rewrite E. split; [done|]. destruct (To _ R) as (ds' & -> & F' & R').
    destruct (Ix ds' F') as [E' _]. f_equal. apply (inj reverse).
    eapply radix_inj; [by apply Forall2_reverse|by apply Forall2_reverse|congruence].
Qed.

(** *** Enumeration *)

Section enumeration.
Context (Sprintf_d : string -> Z -> string).

(** A component with as many distinct values as it announces. *)
Record component_ok (c : IteratorComponent) : Prop := {
  co_size : 0 < Size c;
  co_value : forall i, digit_of i (Size c) -> exists s, ValueAt Sprintf_d c i = Ok s;
  co_inj : forall i j s, digit_of i (Size c) -> digit_of j (Size c) ->
    ValueAt Sprintf_d c i = Ok s -> ValueAt Sprintf_d c j = Ok s -> i = j
}.

(** The row at a tuple of indices. *)
Definition row_at (cs : list IteratorComponent) (ds : list Z) : result (list string) :=
  mapM (fun '(c, i) => ValueAt Sprintf_d c i) (zip cs ds).

Lemma row_at_ok cs ds :
  Forall component_ok cs -> Forall2 digit_of ds (Size <$> cs) -> exists row, row_at cs ds = Ok row.
Proof.
  unfold row_at. intros F. revert ds. induction F as [|c cs C F IH]; intros ds D; inversion D as [|d s ds' ss Dd D']; subst; [by exists []|].
  destruct (co_value c C d Dd) as [v E]. destruct (IH ds' D') as [row R]. exists (v :: row). cbn. rewrite E. cbn.
  cbn in R. by rewrite R.
Qed.

Lemma row_at_inj cs ds ds' row :
  Forall component_ok cs -> Forall2 digit_of ds (Size <$> cs) -> Forall2 digit_of ds' (Size <$> cs) ->
  row_at cs ds = Ok row -> row_at cs ds' = Ok row -> ds = ds'.
Proof.
  unfold row_at. intros F. revert ds ds' row. induction F as [|c cs C F IH]; intros ds ds' row D D' R R';
    inversion D as [|d s ds1 ss Dd D1]; inversion D' as [|d' s' ds2 ss' Dd' D2]; subst; [done|].
  cbn in R, R'. apply res_bind_ok in R as (v & E & R). apply res_bind_ok in R as (r & Er & R).
  apply res_bind_ok in R' as (v' & E' & R'). apply res_bind_ok in R' as (r' & Er' & R'). injection R as <-. injection R' as -> ->.
  rewrite (co_inj c C d d' v) by done. by rewrite (IH ds1 ds2 r).
Qed.

(** The iterator after [k] rounds. *)
Definition after (cs : list IteratorComponent) (k : Z) (it : PatternIterator) : Prop :=
  components it = cs /\ sizes it = Size <$> cs /\ total it = space (Size <$> cs) /\ current it = k.

Lemma iterate_S m it :
  iterate Sprintf_d (S m) it =
    ('(more, it) ← Next it;
     if (more : bool) then values ← Values Sprintf_d it; '(rest, it) ← iterate Sprintf_d m it; Ok (values :: rest, it)
     else Ok ([], it)).
Proof. done. Qed.

Lemma iterate_rows cs m k it :
  Forall component_ok cs -> space (Size <$> cs) <= max_int64 ->
  after cs k it -> 0 <= k -> k + Z.of_nat m = space (Size <$> cs) ->
  exists rows it', iterate Sprintf_d (S m) it = Ok (rows, it') /\ after cs (space (Size <$> cs)) it' /\ length rows = m /\
    forall i row, rows !! i = Some row ->
      exists ds, IndexToIndices (k + Z.of_nat i) (Size <$> cs) = Ok ds /\ row_at cs ds = Ok row.
Proof.
  intros F B. assert (Forall (fun s => 0 < s) (Size <$> cs)) as P
    by (apply Forall_fmap; eapply Forall_impl; [exact F|]; by intros c []).
  revert k it. induction m as [|m IH]; intros k it A K E.
  all: rewrite iterate_S; unfold Next; destruct it as [ac az ai at_ ak], A as (Ac & As & At & Ak); cbn in Ac, As, At, Ak; subst; cbn [components sizes indices total current].
  - rewrite Z.add_0_r in E. rewrite E, Z.leb_refl. eexists [], _. by split_and!.
  - destruct (Z.leb_spec (space (Size <$> cs)) k); [lia|].
    destruct (mixed_radix_bijection (Size <$> cs) P B) as (_ & To & _).
    destruct (To k ltac:(lia)) as (ds & Ed & D & _). rewrite Ed. cbn [mbind res_bind].
    destruct (row_at_ok cs ds F D) as [row R]. unfold Values. cbn [components indices].
    change (mapM _ (zip cs ds)) with (row_at cs ds). rewrite R. cbn [mbind res_bind].
    rewrite wrap64_id by (unfold_range; lia).
    destruct (IH (k + 1) {| components := cs; sizes := Size <$> cs; indices := ds; total := space (Size <$> cs); current := k + 1 |})
      as (rows & it' & -> & A' & L & Rs); [by split_and!|lia|lia|].
    cbn [mbind res_bind]. exists (row :: rows), it'. split_and!; try done; [cbn; by rewrite L|].
    intros [|i] r; cbn; [intros [= <-]; exists ds; by rewrite Z.add_0_r|]. intros Lr. destruct (Rs i r Lr) as (ds' & Ei & Er).
    exists ds'. split; [|done]. rewrite <- Ei. f_equal. lia.
Qed.

(** C38. The iterator enumerates the space: over components with as many distinct
    values as they announce it yields every combination exactly once, in the
    order of the positions, without storing them, and then stops. *)
Theorem iterator_enumerates cs :
  Forall component_ok cs -> space (Size <$> cs) <= max_int64 ->
  exists rows it, iterate Sprintf_d (S (Z.to_nat (space (Size <$> cs)))) (NewPatternIterator cs) = Ok (rows, it) /\
    Z.of_nat (length rows) = space (Size <$> cs) /\ NoDup rows /\
    (forall ds row, Forall2 digit_of ds (Size <$> cs) -> row_at cs ds = Ok row ->
       rows !! Z.to_nat (IndicesToIndex ds (Size <$> cs)) = Some row) /\
    Next it = Ok (false, it).
Proof.
  intros F B. assert (Forall (fun s => 0 < s) (Size <$> cs)) as P
    by (apply Forall_fmap; eapply Forall_impl; [exact F|]; by intros c []).
  pose proof (space_pos _ P) as Sp. destruct (mixed_radix_bijection (Size <$> cs) P B) as (_ & To & From).
  destruct (iterate_rows cs (Z.to_nat (space (Size <$> cs))) 0 (NewPatternIterator cs) F B) as (rows & it & E & A & L & R); [|lia..|].
  { split_and!; try done. cbn. rewrite product_space, wrap64_id by (unfold_range; lia). done. }
  exists rows, it. split_and!; try done.
  - lia.
  - apply NoDup_alt. intros i j row Li Lj. apply lookup_lt_Some in Li as Bi. apply lookup_lt_Some in Lj as Bj.
    destruct (R i row Li) as (ds & Ed & Er). destruct (R j row Lj) as (ds' & Ed' & Er').
    destruct (To (0 + Z.of_nat i) ltac:(lia)) as (x & Ex & Dx & Kx). destruct (To (0 + Z.of_nat j) ltac:(lia)) as (y & Ey & Dy & Ky).
    rewrite Ed in Ex. injection Ex as ->. rewrite Ed' in Ey. injection Ey as ->.
    rewrite (row_at_inj cs x y row F Dx Dy Er Er') in Kx. lia.
  - intros ds row D Er. destruct (From ds D) as [Bd Ed].
    destruct (lookup_lt_is_Some_2 rows (Z.to_nat (IndicesToIndex ds (Size <$> cs)))) as [r Lr]; [lia|].
    destruct (R _ _ Lr) as (ds' & Ed' & Er'). rewrite Z2Nat.id, Z.add_0_l, Ed in Ed' by lia. injection Ed' as <-.
    rewrite Lr. congruence.
  - destruct A as (_ & _ & At & Ak). unfold Next. by rewrite At, Ak, Z.leb_refl.
Qed.
End enumeration.
