(* ===== verification/GenPattern.v ===== *)
(** * GenPattern: composite identifiers
    (tools/generator/internal/generator/generators/pattern_composite.go)

    An identifier is a template whose placeholders are replaced by component
    values chosen by an index.  The components of a pattern are a Go map: a
    call reads them in some order, which is an argument here. *)
From S2P Require Import Prelude GoInt GoStr GoFloat Values GenIterator.
From Stdlib Require Import Ascii.

(** ** Helpers (utils.go) *)

Definition getFloatFromInterface (val : value) : option float64 :=
  match val with
  | VFloat64 v => Some v
  | VInt v => Some (f64_of_Z v)
  | VInt64 v => Some (f64_of_Z v)
  | _ => None
  end.

Definition getFloat64 (config : fields) (key : string) : option float64 := val ← config !! key; getFloatFromInterface val.

(** [strings.ReplaceAll], for a non-empty [old]. *)
Definition ReplaceAll (s old new : string) : string := Join (Split s old) new.

Definition to_int64 `{GoLib} (f : float64) : Z := f64_to_int64 float_out_of_range f.
Definition positive (f : float64) : bool := f64_gt f (f64_of_Z 0).

(** ** Patterns *)

Inductive patternGenerator : Type :=
  | simplePatternGenerator (prefix base : string) (minDig maxDig : Z)
  | sequencePatternGenerator (start stop : Z).

Record componentDef : Type := { values : list string; generator : option patternGenerator }.

Record patternDef : Type := { weight : Z; template : string; pcomponents : gmap string componentDef }.

Record patternCompositeGenerator : Type := {
  cardinality : Z; patterns : list patternDef; currentIndex : Z; totalCombos : list Z; weightedSums : list Z }.

(** The placeholders of a template; a later opening brace wins. *)
Fixpoint placeholders_go (s : string) (start : option string) : list string :=
  match s with
  | EmptyString => []
  | String ch rest =>
      if Ascii.eqb ch "{"%char then placeholders_go rest (Some EmptyString)
      else match start with
           | Some placeholder =>
               if Ascii.eqb ch "}"%char then placeholder :: placeholders_go rest None
               else placeholders_go rest (Some (placeholder +:+ String ch EmptyString))
           | None => placeholders_go rest None
           end
  end.
Definition extractPlaceholders (template : string) : list string := placeholders_go template None.

Definition contains (l : list string) (item : string) : bool := existsb (String.eqb item) l.

Section parsing.
Context `{GoLib, MapIter} (Sscanf_range : string -> option (Z * Z)) (Sscanf_int : string -> option Z).

(** The two Sscanf calls: with [%d-%d], then with [%d]. *)
Definition parseDigitsFromString (digits : string) : Z * Z :=
  match Sscanf_range digits with
  | Some (minVal, maxVal) => (minVal, maxVal)
  | None => match Sscanf_int digits with Some minVal => (minVal, minVal) | None => (0, 0) end
  end.

(** The first element of an array of strings. *)
Definition first_string (v : option value) : string :=
  match as_slice v with Some (VString s :: _) => s | _ => "" end.

Definition createPatternGenerator (config : fields) : patternGenerator :=
  let '(minDig, maxDig) :=
    match as_string (config !! "digits") with
    | Some digits => parseDigitsFromString digits
    | None => match getFloat64 config "digits" with Some d => (to_int64 d, to_int64 d) | None => (0, 0) end
    end in
  simplePatternGenerator (first_string (config !! "prefix")) (first_string (config !! "base")) minDig maxDig.

Definition createSequenceGenerator (config : fields) : patternGenerator :=
  sequencePatternGenerator
    (match getFloat64 config "start" with Some f => to_int64 f | None => 1 end)
    (match getFloat64 config "end" with Some f => to_int64 f | None => 9999 end).

Definition string_of_value (v : value) : result string :=
  match v with VString s => Ok s | _ => Err (Errorf "component value must be string" []) end.

Definition parseComponent (compRaw : value) : result componentDef :=
  match compRaw with
  | VSlice vs => strs ← mapM string_of_value vs; Ok {| values := strs; generator := None |}
  | VMap compMap =>
      let compType := default EmptyString (as_string (compMap !! "type")) in
      if String.eqb compType "pattern" then Ok {| values := []; generator := Some (createPatternGenerator compMap) |}
      else if String.eqb compType "sequence" then Ok {| values := []; generator := Some (createSequenceGenerator compMap) |}
      else Err (Errorf "unknown component type: %s" [AS compType])
  | _ => Err (Errorf "invalid component definition" [])
  end.

(** The loop over the components the template uses. *)
Fixpoint parse_components (placeholders : list string) (cs : list (string * value)) (acc : gmap string componentDef)
    : result (gmap string componentDef) :=
  match cs with
  | [] => Ok acc
  | (name, compRaw) :: cs =>
      if negb (contains placeholders name) then parse_components placeholders cs acc
      else
        match parseComponent compRaw with
        | Ok comp => parse_components placeholders cs (<[name := comp]> acc)
        | Err err => Err (Wrapf "component %s: %w" [AS name] err)
        | Panic => Panic
        end
  end.

Definition parsePattern (patMap : fields) : result patternDef :=
  let weight := match getFloat64 patMap "weight" with Some w => to_int64 w | None => 1 end in
  match as_string (patMap !! "template") with
  | None => Err (Errorf "pattern requires 'template' string" [])
  | Some template =>
      match as_map (patMap !! "components") with
      | None => Err (Errorf "pattern requires 'components' map" [])
      | Some componentsMap =>
          let placeholders := extractPlaceholders template in
          components ← parse_components placeholders (iter (map_to_list componentsMap)) ∅;
          match List.find (fun ph => negb (bool_decide (is_Some (components !! ph)))) placeholders with
          | Some ph => Err (Errorf "template placeholder {%s} has no component" [AS ph])
          | None => Ok {| weight := weight; template := template; pcomponents := components |}
          end
      end
  end.

(** ** Distribution *)

Definition count (g : patternGenerator) : Z :=
  match g with
  | simplePatternGenerator _ _ _ maxDig => pow10_int maxDig
  | sequencePatternGenerator start stop => wrap64 (wrap64 (stop - start) + 1)
  end.

(** The radix of a component in an index, if it has values at all. *)
Definition comp_size (c : componentDef) : option Z :=
  if (0 <? length (values c))%nat then Some (Z.of_nat (length (values c))) else count <$> generator c.

Definition combos (cs : list (string * componentDef)) : Z :=
  fold_left (fun n '(_, c) => match comp_size c with Some s => wrap64 (n * s) | None => n end) cs 1.

(** totalCombos, weightedSums and the total weight. *)
Fixpoint distribute (ps : list patternDef) (sum : Z) : list Z * list Z :=
  match ps with
  | [] => ([], [])
  | p :: ps =>
      let sum := wrap64 (sum + weight p) in
      let '(cs, ws) := distribute ps sum in
      (combos (iter (map_to_list (pcomponents p))) :: cs, sum :: ws)
  end.

(** [int64] sums of quotients; a total weight of zero divides by zero. *)
Fixpoint possible (cws : list (Z * Z)) (totalWeight acc : Z) : result Z :=
  match cws with
  | [] => Ok acc
  | (c, w) :: cws => q ← div64 (wrap64 (c * w)) totalWeight; possible cws totalWeight (wrap64 (acc + q))
  end.

Definition calculateDistribution (card : Z) (ps : list patternDef) : result patternCompositeGenerator :=
  let '(cs, ws) := distribute ps 0 in
  totalPossible ← possible (zip cs (weight <$> ps)) (default 0 (last ws)) 0;
  if totalPossible <? card then
    Err (Errorf "insufficient combinations: %d possible < %d requested" [AZ totalPossible; AZ card])
  else Ok {| cardinality := card; patterns := ps; currentIndex := 0; totalCombos := cs; weightedSums := ws |}.

Fixpoint parse_patterns (i : Z) (vs : list value) : result (list patternDef) :=
  match vs with
  | [] => Ok []
  | patRaw :: vs =>
      match patRaw with
      | VMap patMap =>
          match parsePattern patMap with
          | Ok p => ps ← parse_patterns (i + 1) vs; Ok (p :: ps)
          | Err err => Err (Wrapf "pattern %d: %w" [AZ i] err)
          | Panic => Panic
          end
      | _ => Err (Errorf "pattern %d is not a map" [AZ i])
      end
  end.

Definition NewPatternCompositeGenerator (config : fields) : result patternCompositeGenerator :=
  match getFloat64 config "cardinality" with
  | Some card =>
      if positive card then
        match as_slice (config !! "patterns") with
        | Some ((_ :: _) as patternsRaw) =>
            ps ← parse_patterns 0 patternsRaw;
            calculateDistribution (to_int64 card) ps
        | _ => Err (Errorf "pattern_composite requires 'patterns' array" [])
        end
      else Err (Errorf "pattern_composite requires positive 'cardinality'" [])
  | None => Err (Errorf "pattern_composite requires positive 'cardinality'" [])
  end.
End parsing.

(** ** Generation *)

Section generation.
Context `{GoLib} (Sprintf_d : string -> Z -> string).

Definition generate_component (g : patternGenerator) (index : Z) : result string :=
  match g with
  | simplePatternGenerator prefix base minDig maxDig =>
      numDigits ←
        (if minDig <? maxDig then r ← rem64 index (wrap64 (maxDig - minDig + 1)); Ok (wrap64 (minDig + r)) else Ok minDig);
      num ← rem64 index (pow10_int numDigits);
      Ok (prefix +:+ base +:+ Sprintf_d ("%0" +:+ FormatInt numDigits +:+ "d") num)
  | sequencePatternGenerator start stop =>
      r ← rem64 index (count (sequencePatternGenerator start stop));
      Ok (FormatInt (wrap64 (start + r)))
  end.

Definition getComponentValue (c : componentDef) (index : Z) : result string :=
  if (0 <? length (values c))%nat then idx ← rem64 index (Z.of_nat (length (values c))); elem_at (values c) idx
  else match generator c with Some g => generate_component g index | None => Ok "" end.

(** The values of the components, read in the order [cs]. *)
Fixpoint component_values (cs : list (string * componentDef)) (index : Z) : result (list (string * string)) :=
  match cs with
  | [] => Ok []
  | (name, c) :: cs =>
      value ← getComponentValue c index;
      index ← match comp_size c with Some s => div64 index s | None => Ok index end;
      rest ← component_values cs index;
      Ok ((name, value) :: rest)
  end.

Definition substitute (template : string) (vs : list (string * string)) : string :=
  fold_left (fun result '(name, value) => ReplaceAll result ("{" +:+ name +:+ "}") value) vs template.

Definition generateFromPattern (p : patternDef) (order : list (string * componentDef)) (index : Z) : result string :=
  substitute (template p) <$> component_values order index.

Fixpoint select_go (sums : list Z) (scaledIndex : Z) (i : nat) : option nat :=
  match sums with
  | [] => None
  | sum :: sums => if scaledIndex <? sum then Some i else select_go sums scaledIndex (i + 1)
  end.

Definition selectPattern (g : patternCompositeGenerator) (index : Z) : result nat :=
  let totalWeight := default 0 (last (weightedSums g)) in
  scaledIndex ← div64 (wrap64 (index * totalWeight)) (cardinality g);
  Ok (default (length (patterns g) - 1)%nat (select_go (weightedSums g) scaledIndex 0)).

(** What the patterns before the chosen one are to generate. *)
Definition startIdx (g : patternCompositeGenerator) (patternIdx : nat) : Z :=
  fold_left (fun start p =>
      let share := f64_div (f64_of_Z (weight p)) (f64_of_Z (default 0 (last (weightedSums g)))) in
      wrap64 (start + to_int64 (f64_mul share (f64_of_Z (cardinality g)))))
    (take patternIdx (patterns g)) 0.

(** [order p] is the order in which this call reads the components of p. *)
Definition Generate_pattern (order : patternDef -> list (string * componentDef)) (g : patternCompositeGenerator)
    : result (string * patternCompositeGenerator) :=
  index ← rem64 (currentIndex g) (cardinality g);
  let g' := {| cardinality := cardinality g; patterns := patterns g; currentIndex := wrap64 (currentIndex g + 1);
               totalCombos := totalCombos g; weightedSums := weightedSums g |} in
  patternIdx ← selectPattern g index;
  match patterns g !! patternIdx with
  | None => Panic
  | Some pattern =>
      id ← generateFromPattern pattern (order pattern) (wrap64 (index - startIdx g patternIdx));
      Ok (id, g')
  end.

(** [n] calls, each with the order it reads maps in. *)
Fixpoint generate_ids (n : nat) (orders : nat -> patternDef -> list (string * componentDef)) (g : patternCompositeGenerator)
    : result (list string * patternCompositeGenerator) :=
  match n with
  | O => Ok ([], g)
  | S n =>
      '(id, g) ← Generate_pattern (orders O) g;
      '(ids, g) ← generate_ids n (fun k => orders (S k)) g;
      Ok (id :: ids, g)
  end.
End generation.

(** ** Laws *)

Section distinct.
Context `{GoLib} (Sprintf_d : string -> Z -> string).

(** A component that gives as many distinct values as it counts: a list of
    distinct values, a range, or numbers of one fixed width. *)
Record regular (s : Z) (c : componentDef) : Prop := {
  rg_size : comp_size c = Some s /\ 0 < s;
  rg_value : forall i, 0 <= i -> exists v, getComponentValue Sprintf_d c i = Ok v /\ getComponentValue Sprintf_d c (i mod s) = Ok v;
  rg_inj : forall i j v, 0 <= i < s -> 0 <= j < s ->
    getComponentValue Sprintf_d c i = Ok v -> getComponentValue Sprintf_d c j = Ok v -> i = j
}.

Lemma rem64_mod i s : 0 <= i -> 0 < s -> rem64 i s = Ok (i mod s) /\ rem64 (i mod s) s = Ok (i mod s).
Proof.
  intros I S. unfold rem64. destruct (Z.eqb_spec s 0); [lia|]. unfold go_rem. pose proof (Z.mod_pos_bound i s S).
  rewrite !Z.rem_mod_nonneg, Zmod_mod by lia. done.
Qed.

(** A component whose value is a function of the remainder. *)
Lemma regular_by_rem s c (val : Z -> result string) :
  comp_size c = Some s -> 0 < s ->
  (forall i, getComponentValue Sprintf_d c i = (r ← rem64 i s; val r)) ->
  (forall i, 0 <= i < s -> exists v, val i = Ok v) ->
  (forall i j v, 0 <= i < s -> 0 <= j < s -> val i = Ok v -> val j = Ok v -> i = j) ->
  regular s c.
Proof.
  intros Cs S G V I. split; [done| |].
  - intros i Hi. rewrite !G. destruct (rem64_mod i s Hi S) as [-> ->]. cbn.
    destruct (V (i mod s)) as [v E]; [by apply Z.mod_pos_bound|]. by exists v.
  - intros i j v Hi Hj. rewrite !G. destruct (rem64_mod i s) as [-> _]; [lia|lia|].
    destruct (rem64_mod j s) as [-> _]; [lia|lia|]. rewrite !Z.mod_small by lia. by apply I.
Qed.

Lemma regular_values vs :
  vs <> [] -> NoDup vs -> regular (Z.of_nat (length vs)) {| values := vs; generator := None |}.
Proof.
  intros N D. assert ((0 <? length vs)%nat = true) as L by by destruct vs.
  apply (regular_by_rem _ _ (elem_at vs)).
  - unfold comp_size. cbn [values]. by rewrite L.
  - destruct vs; [done|]. cbn. lia.
  - intros i. unfold getComponentValue. cbn [values]. by rewrite L.
  - intros i Hi. unfold elem_at. destruct (Z.ltb_spec i 0); [lia|].
    destruct (lookup_lt_is_Some_2 vs (Z.to_nat i)) as [v ->]; [lia|]. by exists v.
  - intros i j v Hi Hj. unfold elem_at. destruct (Z.ltb_spec i 0), (Z.ltb_spec j 0); try lia.
    destruct (vs !! Z.to_nat i) eqn:Ei; [|done]. destruct (vs !! Z.to_nat j) eqn:Ej; [|done]. intros [= ->] [= ->].
    pose proof (NoDup_lookup vs _ _ _ D Ei Ej). lia.
Qed.

Lemma regular_sequence start stop :
  in_int64 start -> in_int64 stop -> start <= stop -> stop - start + 1 <= max_int64 ->
  regular (stop - start + 1) {| values := []; generator := Some (sequencePatternGenerator start stop) |}.
Proof.
  intros A B L M. assert (count (sequencePatternGenerator start stop) = stop - start + 1) as C
    by (unfold count; rewrite wrap64_add_l; apply wrap64_id; unfold_range; lia).
  apply (regular_by_rem _ _ (fun r => Ok (FormatInt (wrap64 (start + r))))).
  - unfold comp_size. cbn [values generator length Nat.ltb Nat.leb fmap option_fmap option_map]. by rewrite C.
  - lia.
  - intros i. unfold getComponentValue. cbn [values generator length Nat.ltb Nat.leb]. unfold generate_component. by rewrite C.
  - intros i Hi. by eexists.
  - intros i j v Hi Hj E1 E2. injection E1 as <-. injection E2 as E. rewrite !wrap64_id in E by (unfold_range; lia).
    apply FormatInt_inj in E; [lia|unfold_range; lia..].
Qed.

Lemma pow10_int_small n : 0 <= n <= 15 -> pow10_int n = 10 ^ n.
Proof.
  intros N. unfold pow10_int. destruct (Z.ltb_spec n 0); [lia|]. apply f64_to_int64_in_range.
  - assert (0 <= 10 ^ n < 2 ^ 53); [|by apply f64_trunc_of_Z]. split; [lia|].
    assert (10 ^ n <= 10 ^ 15) by (apply Z.pow_le_mono_r; lia). lia.
  - assert (10 ^ n <= 10 ^ 15) by (apply Z.pow_le_mono_r; lia). unfold_range. lia.
Qed.

(** Digits of one width, given that Sprintf tells numbers of that width apart. *)
Lemma regular_digits prefix base d :
  0 <= d <= 15 -> (forall a b, Sprintf_d ("%0" +:+ FormatInt d +:+ "d") a = Sprintf_d ("%0" +:+ FormatInt d +:+ "d") b -> a = b) ->
  regular (10 ^ d) {| values := []; generator := Some (simplePatternGenerator prefix base d d) |}.
Proof.
  intros D I. pose proof (pow10_int_small d D) as P.
  apply (regular_by_rem _ _ (fun num => Ok (prefix +:+ base +:+ Sprintf_d ("%0" +:+ FormatInt d +:+ "d") num))).
  - unfold comp_size. cbn [values generator length Nat.ltb Nat.leb fmap option_fmap option_map]. unfold count. by rewrite P.
  - lia.
  - intros i. unfold getComponentValue. cbn [values generator length Nat.ltb Nat.leb]. unfold generate_component.
    rewrite Z.ltb_irrefl. cbn [mbind res_bind]. by rewrite P.
  - intros i Hi. by eexists.
  - intros i j v Hi Hj E1 E2. injection E1 as <-. injection E2 as E. symmetry in E.
    apply I. apply app_string_inj_len in E as [_ E]; [|done]. by apply app_string_inj_len in E as [_ E].
Qed.

(** The values of the components of a pattern tell the indices below the
    number of combinations apart, as long as the order of the map stays. *)
Lemma component_values_inj order ss i j vs :
  Forall2 (fun s '(_, c) => regular s c) ss order -> space ss <= max_int64 ->
  0 <= i < space ss -> 0 <= j < space ss ->
  component_values Sprintf_d order i = Ok vs -> component_values Sprintf_d order j = Ok vs -> i = j.
Proof.
  intros F. revert i j vs. induction F as [|s [n c] ss order R F IH]; intros i j vs B Hi Hj Ei Ej; [cbn in *; lia|].
  change (space (s :: ss)) with (s * space ss) in *. destruct R as [[Cs S] V Inj].
  cbn [component_values] in Ei, Ej. rewrite Cs in Ei, Ej.
  apply res_bind_ok in Ei as (v & Vi & Ei). apply res_bind_ok in Ej as (w & Vj & Ej).
  apply res_bind_ok in Ei as (qi & Qi & Ei). apply res_bind_ok in Ej as (qj & Qj & Ej).
  apply res_bind_ok in Ei as (ri & Ri & Ei). apply res_bind_ok in Ej as (rj & Rj & Ej). injection Ei as <-. injection Ej as -> ->.
  unfold div64 in Qi, Qj. destruct (Z.eqb_spec s 0); [lia|]. unfold go_div in *.
  assert (0 < space ss) as Sp by nia.
  assert (0 <= i / s < space ss /\ 0 <= j / s < space ss) as [Di Dj].
  { split; (split; [by apply Z.div_pos; lia|apply Z.div_lt_upper_bound; lia]). }
  rewrite Z.quot_div_nonneg, wrap64_id in Qi, Qj by (try lia; unfold_range; nia). injection Qi as <-. injection Qj as <-.
  destruct (V i ltac:(lia)) as (v1 & E1 & M1). destruct (V j ltac:(lia)) as (v2 & E2 & M2).
  rewrite Vi in E1. injection E1 as <-. rewrite Vj in E2. injection E2 as <-.
  pose proof (Inj (i mod s) (j mod s) v (Z.mod_pos_bound i s S) (Z.mod_pos_bound j s S) M1 M2) as Em.
  pose proof (IH (i / s) (j / s) ri ltac:(nia) Di Dj Ri Rj) as Eq.
  rewrite (Z.div_mod i s), (Z.div_mod j s) by lia. congruence.
Qed.

Lemma component_values_ok order ss i :
  Forall2 (fun s '(_, c) => regular s c) ss order -> 0 <= i <= max_int64 ->
  exists vs, component_values Sprintf_d order i = Ok vs.
Proof.
  intros F. revert i. induction F as [|s [n c] ss order R F IH]; intros i I; [by exists []|].
  destruct R as [[Cs S] V _]. cbn [component_values]. rewrite Cs. destruct (V i ltac:(lia)) as (v & -> & _). cbn [mbind res_bind].
  unfold div64. destruct (Z.eqb_spec s 0); [lia|]. unfold go_div. rewrite Z.quot_div_nonneg by lia.
  assert (0 <= i / s <= i) by (split; [apply Z.div_pos; lia|apply Z.div_le_upper_bound; nia]).
  rewrite wrap64_id by (unfold_range; lia). cbn [mbind res_bind]. destruct (IH (i / s)) as [vs ->]; [lia|]. by eexists.
Qed.
End distinct.

Section single.
Context `{GoLib, MapIter} (Sprintf_d : string -> Z -> string).

(** The radices of the components that have values. *)
Definition sizes_of (cs : list (string * componentDef)) : list Z := omap (fun '(_, c) => comp_size c) cs.

#[local] Instance sizes_of_proper : Proper (Permutation ==> Permutation) sizes_of.
Proof. intros a b P. unfold sizes_of. by rewrite P. Qed.

Lemma combos_space cs : combos cs = wrap64 (space (sizes_of cs)).
Proof.
  unfold combos. assert (forall n, fold_left (fun n '(_, c) => match comp_size c with Some s => wrap64 (n * s) | None => n end) cs (wrap64 n) =
    wrap64 (n * space (sizes_of cs))) as G; [|change 1 with (wrap64 1) at 1; rewrite G; f_equal; lia].
  induction cs as [|[nm c] cs IH]; intros n; cbn [fold_left]; [unfold space; cbn; f_equal; lia|].
  change (sizes_of ((nm, c) :: cs)) with (match comp_size c with Some s => s :: sizes_of cs | None => sizes_of cs end).
  destruct (comp_size c) as [s|]; [|apply IH]. rewrite wrap64_mul_l, IH. f_equal. unfold space. cbn. lia.
Qed.

Lemma space_perm a b : a ≡ₚ b -> space a = space b.
Proof. unfold space. induction 1; cbn in *; lia. Qed.

Lemma regular_sizes order ss : Forall2 (fun s '(_, c) => regular Sprintf_d s c) ss order -> sizes_of order = ss.
Proof.
  induction 1 as [|s [n c] ss order R F IH]; [done|]. destruct R as [[E _] _ _]. unfold sizes_of in *. cbn [omap list_omap]. rewrite E. by rewrite IH.
Qed.

(** A generator of one pattern, as its constructor leaves it. *)
Lemma distribution_single p order ss card g :
  order ≡ₚ map_to_list (pcomponents p) -> Forall2 (fun s '(_, c) => regular Sprintf_d s c) ss order ->
  0 < weight p -> space ss * weight p <= max_int64 -> 0 < card ->
  calculateDistribution card [p] = Ok g ->
  card <= space ss /\ cardinality g = card /\ patterns g = [p] /\ weightedSums g = [weight p] /\ currentIndex g = 0.
Proof.
  intros O F W B C. assert (0 < space ss) as Sp.
  { apply space_pos. clear -F. induction F as [|s [n c] ss order [[_ ?] _ _] F IH]; by constructor. }
  assert (0 <= space ss <= max_int64 /\ 0 <= weight p <= max_int64 /\ 0 <= space ss * weight p) as (B1 & B2 & B3) by (split_and!; nia).
  unfold calculateDistribution. cbn [distribute last default fmap list_fmap map zip zip_with possible].
  rewrite combos_space. rewrite (space_perm _ ss).
  2: { rewrite iter_perm. rewrite <- O. by rewrite (regular_sizes order ss F). }
  rewrite Z.add_0_l. rewrite !(wrap64_id (weight p)), (wrap64_id (space ss)) by (unfold_range; lia).
  rewrite (wrap64_id (space ss * weight p)) by (unfold_range; lia). unfold div64. cbn [default id].
  destruct (Z.eqb_spec (weight p) 0); [lia|]. unfold go_div. rewrite (Z.quot_mul (space ss) (weight p)) by done. cbn [mbind res_bind].
  rewrite (wrap64_id (space ss)) by (unfold_range; lia).
  rewrite Z.add_0_l, !(wrap64_id (space ss)) by (unfold_range; lia). destruct (Z.ltb_spec (space ss) card); [done|].
  intros [= <-]. by split_and!.
Qed.

(** The number of combinations of the components of a pattern. *)
Definition combinations (p : patternDef) : Z := space (sizes_of (map_to_list (pcomponents p))).

Definition regular_pattern (p : patternDef) : Prop :=
  forall nm c, pcomponents p !! nm = Some c -> exists s, regular Sprintf_d s c.

(** Whatever the order in which the components are read, their radices are
    those of the pattern. *)
Lemma regular_order p order :
  regular_pattern p -> order ≡ₚ map_to_list (pcomponents p) ->
  exists ss, Forall2 (fun s '(_, c) => regular Sprintf_d s c) ss order /\ space ss = combinations p.
Proof.
  intros R O. assert (exists ss, Forall2 (fun s '(_, c) => regular Sprintf_d s c) ss order) as [ss F].
  { assert (Forall (fun '(nm, c) => pcomponents p !! nm = Some c) order) as Fo.
    { rewrite O. apply Forall_forall. by intros [nm c] ?%elem_of_map_to_list. }
    clear O. induction Fo as [|[nm c] order C Fo [ss IH]]; [by exists []|]. destruct (R nm c C) as [s Rs]. exists (s :: ss). by constructor. }
  exists ss. split; [done|]. unfold combinations. apply space_perm. rewrite <- O. by rewrite (regular_sizes order ss F).
Qed.

(** One call of such a generator. *)
Lemma generate_single p o ss card g k :
  Forall2 (fun s '(_, c) => regular Sprintf_d s c) ss (o p) ->
  0 < weight p -> space ss * weight p <= max_int64 -> 0 < card <= space ss ->
  cardinality g = card -> patterns g = [p] -> weightedSums g = [weight p] -> currentIndex g = k -> 0 <= k < max_int64 ->
  exists vs g', Generate_pattern Sprintf_d o g = Ok (substitute (template p) vs, g') /\
    component_values Sprintf_d (o p) (k mod card) = Ok vs /\
    cardinality g' = card /\ patterns g' = [p] /\ weightedSums g' = [weight p] /\ currentIndex g' = k + 1.
Proof.
  intros F W B [C L] Ec Ep Ew Ei K. pose proof (Z.mod_pos_bound k card C) as M. unfold Generate_pattern.
  rewrite Ei, Ec. destruct (rem64_mod k card ltac:(lia) C) as [-> _]. cbn [mbind res_bind]. unfold selectPattern. rewrite Ew, Ec, Ep.
  cbn [last default id]. unfold div64. destruct (Z.eqb_spec card 0); [lia|].
  assert (0 <= k mod card * weight p < card * weight p) as I by nia.
  assert (card * weight p <= max_int64 /\ card <= max_int64 /\ weight p <= max_int64) as (M1 & M2 & M3) by (split_and!; nia).
  rewrite (wrap64_id (k mod card * weight p)) by (unfold_range; lia). unfold go_div. rewrite Z.quot_div_nonneg by lia.
  assert (0 <= k mod card * weight p / card < weight p) as Q
    by (split; [apply Z.div_pos; lia|apply Z.div_lt_upper_bound; lia]).
  rewrite (wrap64_id (k mod card * weight p / card)), (wrap64_id (k + 1)) by (unfold_range; lia). cbn [mbind res_bind select_go].
  destruct (Z.ltb_spec (k mod card * weight p / card) (weight p)); [|lia]. cbn [default id lookup list_lookup].
  change (startIdx g 0) with 0. rewrite Z.sub_0_r, (wrap64_id (k mod card)) by (unfold_range; lia).
  unfold generateFromPattern.
  destruct (component_values_ok Sprintf_d (o p) ss (k mod card) F) as [vs E]; [nia|]. rewrite E. cbn [fmap res_fmap mbind res_bind].
  eexists vs, _. split; [done|]. cbn [cardinality patterns weightedSums currentIndex].
  by split_and!.
Qed.

(** Its calls, each with an order of its own. *)
Lemma generate_ids_single p card n orders k g :
  regular_pattern p -> (forall k q, orders k q ≡ₚ map_to_list (pcomponents q)) ->
  0 < weight p -> combinations p * weight p <= max_int64 -> 0 < card <= combinations p ->
  cardinality g = card -> patterns g = [p] -> weightedSums g = [weight p] -> currentIndex g = k ->
  0 <= k -> k + Z.of_nat n <= max_int64 ->
  exists vss g', generate_ids Sprintf_d n orders g = Ok (substitute (template p) <$> vss, g') /\ length vss = n /\
    forall m vs, vss !! m = Some vs -> component_values Sprintf_d (orders m p) ((k + Z.of_nat m) mod card) = Ok vs.
Proof.
  intros R. revert orders k g. induction n as [|n IH]; intros orders k g O W B C Ec Ep Ew Ei K M; cbn [generate_ids]; [by eexists [], g|].
  destruct (regular_order p (orders 0%nat p) R (O 0%nat p)) as (ss & F & Sz). rewrite <- Sz in B, C.
  destruct (generate_single p (orders 0%nat) ss card g k F W B C Ec Ep Ew Ei ltac:(lia)) as (vs & g1 & -> & V & Ec' & Ep' & Ew' & Ei').
  rewrite Sz in B, C. cbn [mbind res_bind].
  destruct (IH (fun k => orders (S k)) (k + 1) g1 ltac:(intros; apply O) W B C Ec' Ep' Ew' Ei' ltac:(lia) ltac:(lia)) as (vss & g2 & -> & Ln & Vs).
  cbn [mbind res_bind]. exists (vs :: vss), g2. split_and!; [done|cbn; by rewrite Ln|]. intros [|m] us Lm; cbn in Lm.
  - injection Lm as <-. by rewrite Z.add_0_r.
  - rewrite <- (Vs m us Lm). do 2 f_equal. lia.
Qed.

(** C39. What a generator of a single pattern enumerates.  If each component of
    the pattern is regular (distinct values, a range, or digits of one fixed
    width) and the constructor accepts the cardinality, there are at least as
    many combinations; and whatever the order in which each call reads the Go
    map of components, the identifier of its k-th call is the template with the
    component values of k modulo the cardinality, in that call's order.  Two
    calls that read the map in the same order have different component values
    exactly when their indices differ modulo the cardinality; with at most one
    component every two calls do.  With two components and orders that differ
    values can repeat, and with a range of widths too
    ([GenWitnesses.map_order_repeats_ids], [digit_range_repeats_ids]). *)
Theorem single_pattern_enumerates p card g n orders :
  regular_pattern p -> (forall k q, orders k q ≡ₚ map_to_list (pcomponents q)) ->
  0 < weight p -> combinations p * weight p <= max_int64 -> 0 < card -> Z.of_nat n <= max_int64 ->
  calculateDistribution card [p] = Ok g ->
  card <= combinations p /\
  exists vss g', generate_ids Sprintf_d n orders g = Ok (substitute (template p) <$> vss, g') /\ length vss = n /\
    (forall k vs, vss !! k = Some vs -> component_values Sprintf_d (orders k p) (Z.of_nat k mod card) = Ok vs) /\
    (forall i j vs us, vss !! i = Some vs -> vss !! j = Some us ->
       orders i p = orders j p \/ (size (pcomponents p) <= 1)%nat ->
       vs = us <-> Z.of_nat i mod card = Z.of_nat j mod card).
Proof.
  intros R O W B C N D. destruct (regular_order p _ R (O 0%nat p)) as (ss & F & S). rewrite <- S in B.
  destruct (distribution_single p _ ss card g (O 0%nat p) F W B C D) as (L & Ec & Ep & Ew & Ei). rewrite S in B, L. split; [done|].
  destruct (generate_ids_single p card n orders 0 g R O W B (conj C L) Ec Ep Ew Ei ltac:(lia) ltac:(lia)) as (vss & g' & E & Ln & Vs).
  exists vss, g'. split_and!; [done..|].
  intros i j vs us Li Lj Same.
  assert (orders i p = orders j p) as Or.
  { destruct Same as [?|Sz]; [done|]. rewrite <- length_map_to_list in Sz. pose proof (O i p) as P. rewrite <- (O j p) in P, Sz.
    destruct (orders j p) as [|x [|y l]]; cbn in Sz; [by apply Permutation_nil_r in P|by apply Permutation_singleton_r in P|lia]. }
  pose proof (Vs i vs Li) as Ci. pose proof (Vs j us Lj) as Cj. rewrite Or, Z.add_0_l in Ci. rewrite Z.add_0_l in Cj.
  split; [|intros Q; rewrite Q in Ci; congruence]. intros <-.
  destruct (regular_order p _ R (O j p)) as (sj & Fj & Sj).
  pose proof (Z.mod_pos_bound (Z.of_nat i) card C). pose proof (Z.mod_pos_bound (Z.of_nat j) card C).
  eapply (component_values_inj Sprintf_d (orders j p) sj); try done; rewrite Sj; nia.
Qed.
End single.
