(* ===== verification/GenEngine.v ===== *)
(** * GenEngine: the record generator
    (tools/generator/internal: types.go, template.go, transformer,
    generator/registry.go, lifecycle.go, engine.go, and main.go)

    A template lists fields; a field has a generator made by the factory
    registered for its type; a record is made by drawing the fields in order.
    The engine is written against the interface [FieldGenerator]: generators
    are values of a type [G] and a call takes what it draws, of a type [D]. *)
From S2P Require Import Prelude GoInt GoStr GoFloat Values GoUtf8 GoJson GenIterator.

(** ** Interfaces (types.go, lifecycle.go) *)

(** GenerateWithContext is [None] for a generator without it. *)
Class FieldGenerator (G D : Type) : Type := {
  Generate : D -> G -> result value * G;
  GenerateWithContext : G -> option (fields -> result value)
}.

Record FieldDefinition : Type := { Name : string; Type_ : string; Config : fields; Internal : bool }.
Record TransformationDefinition : Type := { TType : string; TConfig : fields }.
Record Template : Type := {
  tmpl_Name : string; Table : string; Pattern : string; Fields : list FieldDefinition;
  PostTransformations : list TransformationDefinition }.

Record GeneratorCapabilities : Type := { IsStateful : bool; IsBinary : bool; IsContinuous : bool }.
Record GeneratorMetadata : Type := {
  gm_Name : string; Description : string; Version : string; Capabilities : GeneratorCapabilities }.

(** ** Templates (types.go, template.go) *)

(** The old format: fields as a map from names to their data. *)
Record old_template : Type := {
  old_Name : string; old_Table : string; old_Pattern : string; old_Fields : gmap string fields;
  old_PostTransformations : list TransformationDefinition }.

Definition as_bool (v : option value) : option bool := match v with Some (VBool b) => Some b | _ => None end.

(** One field of the old format: what is not the type nor the internal flag is
    its configuration. *)
Definition old_field (name : string) (fieldData : fields) : FieldDefinition :=
  let '(type, fieldData) :=
    match as_string (fieldData !! "type") with Some t => (t, delete "type" fieldData) | None => (EmptyString, fieldData) end in
  let '(internal, fieldData) :=
    match as_bool (fieldData !! "internal") with Some b => (b, delete "internal" fieldData) | None => (false, fieldData) end in
  {| Name := name; Type_ := type; Internal := internal;
     Config := match as_map (fieldData !! "config") with Some config => config | None => fieldData end |}.

(** UnmarshalYAML: what the YAML library makes of the document in each format. *)
Definition UnmarshalYAML `{MapIter} (newFormat : error + Template) (oldFormat : error + old_template) : result Template :=
  match newFormat with
  | inr t => Ok t
  | inl _ =>
      match oldFormat with
      | inl err => Err err
      | inr o =>
          Ok {| tmpl_Name := old_Name o; Table := old_Table o; Pattern := old_Pattern o;
                PostTransformations := old_PostTransformations o;
                Fields := (fun '(name, data) => old_field name data) <$> iter (map_to_list (old_Fields o)) |}
      end
  end.

Definition TypeValidator : Type := string -> bool.

Fixpoint validate_fields (fs : list FieldDefinition) (validator : option TypeValidator) : result unit :=
  match fs with
  | [] => Ok tt
  | f :: fs =>
      if String.eqb (Name f) "" then Err (Errorf "field name is required" [])
      else if String.eqb (Type_ f) "" then Err (Errorf "field '%s' is missing type" [AS (Name f)])
      else if match validator with Some v => negb (v (Type_ f)) | None => false end then
        Err (Errorf "field '%s' has unrecognized type '%s'" [AS (Name f); AS (Type_ f)])
      else validate_fields fs validator
  end.

Definition validateTemplateWithValidator (t : Template) (validator : option TypeValidator) : result unit :=
  if String.eqb (tmpl_Name t) "" then Err (Errorf "required field 'name' is missing or empty" [])
  else if (length (Fields t) =? 0)%nat then Err (Errorf "at least one field is required" [])
  else validate_fields (Fields t) validator.

Definition readTemplateFile (file : error + list Byte.byte) : result (list Byte.byte) :=
  match file with inl err => Err (Wrapf "unable to read file: %w" [] err) | inr data => Ok data end.

(** [parse] is yaml.Unmarshal into a template, by way of UnmarshalYAML. *)
Definition parseYAMLTemplate (parse : list Byte.byte -> result Template) (data : list Byte.byte) : result Template :=
  match parse data with Err err => Err (Wrapf "YAML parsing error: %w" [] err) | r => r end.

(** A failure with the path of the file. *)
Definition at_path {A} (fmt : string) (filePath : string) (r : result A) : result A :=
  match r with Err err => Err (Wrapf fmt [AS filePath] err) | r => r end.

Definition ParseTemplateWithValidator (parse : list Byte.byte -> result Template) (filePath : string)
    (file : error + list Byte.byte) (validator : option TypeValidator) : result Template :=
  data ← at_path "failed to read template file %s: %w" filePath (readTemplateFile file);
  t ← at_path "failed to parse YAML template from %s: %w" filePath (parseYAMLTemplate parse data);
  _ ← at_path "template validation failed for %s: %w" filePath (validateTemplateWithValidator t validator);
  Ok t.

(** ** Registry (registry.go) *)

Section registry.
Context {G : Type}.

Definition GeneratorFactory : Type := fields -> result G.
Record GeneratorRegistration : Type := { Factory : GeneratorFactory; Metadata : GeneratorMetadata }.
Definition registry : Type := gmap string GeneratorRegistration.

Definition RegisterGeneratorWithMetadata (r : registry) (type : string) (f : GeneratorFactory) (m : GeneratorMetadata) : registry :=
  <[type := {| Factory := f; Metadata := m |}]> r.

Definition RegisterGenerator (r : registry) (type : string) (f : GeneratorFactory) : registry :=
  RegisterGeneratorWithMetadata r type f
    {| gm_Name := type; Description := type +:+ " generator"; Version := "1.0.0";
       Capabilities := {| IsStateful := false; IsBinary := false; IsContinuous := false |} |}.

Definition GetGenerator (r : registry) (type : string) : option GeneratorFactory := Factory <$> r !! type.

Definition CreateGenerator (r : registry) (type : string) (config : fields) : result G :=
  match r !! type with
  | None => Err (Errorf "unknown generator type: %s" [AS type])
  | Some registration =>
      match Factory registration config with
      | Err err => Err (Wrapf "failed to create generator %s: %w" [AS type] err)
      | g => g
      end
  end.

Definition GetGeneratorMetadata (r : registry) (type : string) : option GeneratorMetadata := Metadata <$> r !! type.
Definition ListGeneratorsWithMetadata (r : registry) : gmap string GeneratorMetadata := Metadata <$> r.
Definition ListGenerators `{MapIter} (r : registry) : list string := (iter (map_to_list r)).*1.

Definition has_capability (capability : string) (c : GeneratorCapabilities) : bool :=
  if String.eqb capability "IsStateful" then IsStateful c
  else if String.eqb capability "IsBinary" then IsBinary c
  else if String.eqb capability "IsContinuous" then IsContinuous c
  else false.

Definition ListGeneratorsByCapability `{MapIter} (r : registry) (capability : string) : list string :=
  (List.filter (fun '(_, reg) => has_capability capability (Capabilities (Metadata reg))) (iter (map_to_list r))).*1.

(** The validator the package's init installs. *)
Definition registry_validator (r : registry) : TypeValidator :=
  fun type => match GetGenerator r type with Some _ => true | None => false end.

(** ** Engine (engine.go) *)

Record Engine : Type := { template : Template; generators : gmap string G }.

Fixpoint create_fields (r : registry) (fs : list FieldDefinition) (gens : gmap string G) : result (gmap string G) :=
  match fs with
  | [] => Ok gens
  | f :: fs =>
      match CreateGenerator r (Type_ f) (Config f) with
      | Ok g => create_fields r fs (<[Name f := g]> gens)
      | Err err => Err (Wrapf "failed to create generator for field %s: %w" [AS (Name f)] err)
      | Panic => Panic
      end
  end.
Definition createGenerators (r : registry) (t : Template) : result (gmap string G) := create_fields r (Fields t) ∅.

Definition NewEngine (r : registry) (parsed : result Template) : result Engine :=
  match parsed with
  | Panic => Panic
  | Err err => Err (Wrapf "failed to parse template: %w" [] err)
  | Ok t =>
      match createGenerators r t with
      | Panic => Panic
      | Err err => Err (Wrapf "failed to create generators: %w" [] err)
      | Ok gens => Ok {| template := t; generators := gens |}
      end
  end.
End registry.
Arguments registry : clear implicits.
Arguments Engine : clear implicits.

(** The path below the map at hand: each part but the last leads to a map,
    made if it is missing; any other value there panics. *)
Fixpoint set_nested (record : fields) (part : string) (parts : list string) (v : value) : result fields :=
  match parts with
  | [] => Ok (<[part := v]> record)
  | next :: parts =>
      match record !! part with
      | None => inner ← set_nested ∅ next parts v; Ok (<[part := VMap inner]> record)
      | Some (VMap m) => inner ← set_nested m next parts v; Ok (<[part := VMap inner]> record)
      | Some _ => Panic
      end
  end.

Definition setNestedValue (record : fields) (path : string) (v : value) : result fields :=
  match Split path "." with
  | [] => Panic
  | part :: parts => set_nested record part parts v
  end.

(** ** Transformers (transformer/registry.go, transformers) *)

Inductive Transformer : Type :=
  | jsonEncoder
  | base64Encoder
  | compressor (algorithm : string) (level : Z).

(** Levels of compress/gzip. *)
Definition HuffmanOnly : Z := -2.
Definition BestCompression : Z := 9.
Definition DefaultCompression : Z := -1.

(** What the standard library answers: the texts of JSON, and the compressor. *)
Class Codecs : Type := {
  codec_text :: Json.JsonText;
  gzip_compress : Z -> list Byte.byte -> list Byte.byte
}.

Definition json_Marshal `{Codecs} (v : value) : error + string :=
  match Json.Marshal v with inr text => inr (string_of_bytes text) | inl err => inl err end.

Section transformers.
Context `{GoLib, Codecs}.

Definition NewCompressor (config : fields) : result Transformer :=
  algorithm ← match config !! "algorithm" with
              | None => Ok "gzip"
              | Some (VString s) => Ok s
              | Some alg => Err (Errorf "algorithm must be a string, got %T" [AT (Some alg)])
              end;
  level ← match config !! "level" with
          | None => Ok DefaultCompression
          | Some (VInt v) => Ok v
          | Some (VFloat64 v) => Ok (f64_to_int64 float_out_of_range v)
          | Some lvl => Err (Errorf "level must be an integer, got %T" [AT (Some lvl)])
          end;
  if negb (String.eqb algorithm "gzip") then Err (Errorf "unsupported compression algorithm: %s" [AS algorithm])
  else if (level <? HuffmanOnly) || (BestCompression <? level) then
    Err (Errorf "invalid gzip compression level: %d (must be between %d and %d)" [AZ level; AZ HuffmanOnly; AZ BestCompression])
  else Ok (compressor algorithm level).

(** GetTransformer over the transformers the package registers. *)
Definition GetTransformer (name : string) (config : fields) : result Transformer :=
  if String.eqb name "encode_json" then Ok jsonEncoder
  else if String.eqb name "encode_base64" then Ok base64Encoder
  else if String.eqb name "compress" then NewCompressor config
  else Err (Errorf "unknown transformer: %s" [AS name]).

Definition json_Transform (input : value) : result value :=
  match input with
  | VMap record =>
      match json_Marshal (VMap record) with
      | inr data => Ok (VString data)
      | inl err => Err (Wrapf "json encoding failed: %w" [] err)
      end
  | _ => Err (Errorf "encode_json expects map[string]interface{}, got %T" [AT (Some input)])
  end.

Definition base64_Transform (input : value) : result value :=
  match input with
  | VBytes data => Ok (VString (string_of_bytes (Base64.EncodeToString data)))
  | _ => Err (Errorf "encode_base64 expects []byte, got %T" [AT (Some input)])
  end.

Definition Transform (t : Transformer) (input : value) : result value :=
  match t with
  | jsonEncoder => json_Transform input
  | base64Encoder => base64_Transform input
  | compressor algorithm level =>
      data ← match input with
             | VString s => Ok (bytes_of_string s)
             | VBytes b => Ok b
             | _ => Err (Errorf "compress expects string or []byte, got %T" [AT (Some input)])
             end;
      if String.eqb algorithm "gzip" then Ok (VBytes (gzip_compress level data))
      else Err (Errorf "unknown compression algorithm: %s" [AS algorithm])
  end.

(** The chain of the post-transformations. *)
Fixpoint transform_all (ts : list TransformationDefinition) (input : value) : result value :=
  match ts with
  | [] => Ok input
  | def :: ts =>
      match GetTransformer (TType def) (TConfig def) with
      | Panic => Panic
      | Err err => Err (Wrapf "failed to create transformer %s: %w" [AS (TType def)] err)
      | Ok t =>
          match Transform t input with
          | Panic => Panic
          | Err err => Err (Wrapf "transformation %s failed: %w" [AS (TType def)] err)
          | Ok v => transform_all ts v
          end
      end
  end.

Definition applyTransformations (t : Template) (record : fields) : result value :=
  transform_all (PostTransformations t) (VMap record).
End transformers.

(** ** Records (engine.go) *)

Section records.
Context `{GoLib, Codecs} {G D : Type} `{FieldGenerator G D}.


(** A field whose generator is missing calls a method of a nil pointer. *)
Definition generateFieldValue (gs : gmap string G) (f : FieldDefinition) (record : fields) (d : D) : result value * gmap string G :=
  match gs !! Name f with
  | None => (Panic, gs)
  | Some g =>
      match GenerateWithContext g with
      | Some with_context => (with_context record, gs)
      | None => let '(r, g) := Generate d g in (r, <[Name f := g]> gs)
      end
  end.

(** The loop over the fields; [draws i] is what the i-th field draws. *)
Fixpoint fill_record (fs : list FieldDefinition) (draws : nat -> D) (record : fields) (gs : gmap string G) : result fields * gmap string G :=
  match fs with
  | [] => (Ok record, gs)
  | f :: fs =>
      let '(r, gs) := generateFieldValue gs f record (draws O) in
      match r with
      | Panic => (Panic, gs)
      | Err err => (Err (Wrapf "failed to generate field %s: %w" [AS (Name f)] err), gs)
      | Ok v =>
          match (if Internal f || negb (Contains (Name f) ".") then Ok (<[Name f := v]> record)
                 else setNestedValue record (Name f) v) with
          | Ok record => fill_record fs (fun i => draws (S i)) record gs
          | Err err => (Err err, gs)
          | Panic => (Panic, gs)
          end
      end
  end.

Definition drop_internal (fs : list FieldDefinition) (record : fields) : fields :=
  fold_left (fun record f => if Internal f then delete (Name f) record else record) fs record.

Definition generateRawRecord (t : Template) (draws : nat -> D) (gs : gmap string G) : result fields * gmap string G :=
  let '(r, gs) := fill_record (Fields t) draws ∅ gs in
  match r with
  | Ok record =>
      let record := if String.eqb (Table t) "" then record else <["$table" := VString (Table t)]> record in
      (Ok (drop_internal (Fields t) record), gs)
  | r => (r, gs)
  end.

Definition generateSingleRecord (t : Template) (draws : nat -> D) (gs : gmap string G) : result value * gmap string G :=
  let '(r, gs) := generateRawRecord t draws gs in (record ← r; applyTransformations t record, gs).

(** *** Writing: a string as it is, anything else as JSON, a line each *)

(** [write_err i] is what the i-th write answers. *)
Context (write_err : nat -> option error).

Definition write_record (i : nat) (record : value) : error + string :=
  match (match record with VString s => inr s | v => json_Marshal v end) with
  | inl err => inl err
  | inr line => match write_err i with Some err => inl err | None => inr line end
  end.

Definition write_failure (record : value) : string :=
  match record with VString _ => "failed to write record" | _ => "failed to encode record" end.

(** *** Serial generation *)

(** [draws k] is what the k-th record draws; [i] records are done. *)
Fixpoint generate_from (t : Template) (draws : nat -> nat -> D) (togo i : nat) (gs : gmap string G) : list string * result unit * gmap string G :=
  match togo with
  | O => ([], Ok tt, gs)
  | S togo =>
      let '(r, gs) := generateSingleRecord t (draws i) gs in
      match r with
      | Panic => ([], Panic, gs)
      | Err err => ([], Err (Wrapf "failed to generate record %d: %w" [AZ (Z.of_nat i + 1)] err), gs)
      | Ok record =>
          match write_record i record with
          | inl err => ([], Err (Wrapf (write_failure record +:+ " %d: %w") [AZ (Z.of_nat i + 1)] err), gs)
          | inr line => let '(lines, r, gs) := generate_from t draws togo (i + 1) gs in (line :: lines, r, gs)
          end
      end
  end.

Definition GenerateRecords (e : Engine G) (draws : nat -> nat -> D) (count : Z) : list string * result unit * gmap string G :=
  generate_from (template e) draws (Z.to_nat count) 0 (generators e).

(** *** Parallel generation *)

Record record_worker : Type := { togo : nat; made : list value; failure : option error }.

(** What worker [i] of [workers] is to make. *)
Definition share (count workers : Z) (i : nat) : Z :=
  go_div count workers + (if Z.of_nat i <? go_rem count workers then 1 else 0).

Definition start_worker (n : Z) : result record_worker :=
  if n <? 0 then Panic else Ok {| togo := Z.to_nat n; made := []; failure := None |}.

(** A worker that still has a record to make looks at the context, takes the
    lock for the raw record and transforms it.  [k] raw records were made
    before; the state is theirs. *)
Definition worker_turn (t : Template) (draws : nat -> nat -> D) (cancelled : option error) (id k : nat) (w : record_worker) (gs : gmap string G)
    : result (record_worker * nat * gmap string G) :=
  match togo w, failure w with
  | S n, None =>
      match cancelled with
      | Some err => Ok ({| togo := togo w; made := made w; failure := Some err |}, k, gs)
      | None =>
          let '(r, gs) := generateSingleRecord t (draws k) gs in
          match r with
          | Panic => Panic
          | Err err => Ok ({| togo := togo w; made := made w;
                              failure := Some (Wrapf "worker %d failed: %w" [AZ (Z.of_nat id)] err) |}, S k, gs)
          | Ok record => Ok ({| togo := n; made := made w ++ [record]; failure := None |}, S k, gs)
          end
      end
  | _, _ => Ok (w, k, gs)
  end.

(** The turns in the order of the lock: who, and what its look at the context shows. *)
Fixpoint take_turns (t : Template) (draws : nat -> nat -> D) (turns : list (nat * option error)) (k : nat)
    (ws : list record_worker) (gs : gmap string G) : result (nat * list record_worker * gmap string G) :=
  match turns with
  | [] => Ok (k, ws, gs)
  | (i, cancelled) :: turns =>
      match ws !! i with
      | None => take_turns t draws turns k ws gs
      | Some w =>
          '(w, k, gs) ← worker_turn t draws cancelled i k w gs;
          take_turns t draws turns k (<[i := w]> ws) gs
      end
  end.

Definition returned (w : record_worker) : bool :=
  match failure w with Some _ => true | None => (togo w =? 0)%nat end.

(** The lines of the records, until a write fails. *)
Fixpoint write_all (i : nat) (records : list value) : list string * result unit :=
  match records with
  | [] => ([], Ok tt)
  | record :: records =>
      match write_record i record with
      | inl err => ([], Err (Wrapf (write_failure record +:+ ": %w") [] err))
      | inr line => let '(lines, r) := write_all (S i) records in (line :: lines, r)
      end
  end.

(** [arrival] are the workers in the order of their results; the first
    failure to arrive is returned before anything is written. *)
Definition collect (ws arrival : list record_worker) : list string * result unit :=
  match omap failure arrival with
  | err :: _ => ([], Err err)
  | [] => write_all 0 (concat (made <$> ws))
  end.

Definition start_workers (count workers : Z) : result (list record_worker) :=
  mapM (fun i => start_worker (share count workers i)) (seq 0 (Z.to_nat workers)).

Definition run_workers (e : Engine G) (draws : nat -> nat -> D) (count workers : Z) (turns : list (nat * option error))
    : result (list record_worker) :=
  ws ← start_workers count (if workers <=? 0 then 1 else workers);
  '(_, ws, _) ← take_turns (template e) draws turns 0 ws (generators e);
  Ok ws.

Definition GenerateRecordsParallel (e : Engine G) (draws : nat -> nat -> D) (count workers : Z)
    (turns : list (nat * option error)) (arrive : list record_worker -> list record_worker) : result (list string * result unit) :=
  ws ← run_workers e draws count workers turns;
  Ok (collect ws (arrive ws)).

(** ** Continuous generation (continuous/engine.go) *)

Fixpoint fill_continuous (names : list string) (draws : nat -> D) (record : fields) (gs : gmap string G) : result fields * gmap string G :=
  match names with
  | [] => (Ok record, gs)
  | name :: names =>
      match gs !! name with
      | None => fill_continuous names (fun i => draws (S i)) record gs
      | Some g =>
          let '(r, g) := Generate (draws O) g in
          let gs := <[name := g]> gs in
          match r with
          | Panic => (Panic, gs)
          | Err err => (Err (Wrapf "failed to generate field %s: %w" [AS name] err), gs)
          | Ok v => fill_continuous names (fun i => draws (S i)) (<[name := v]> record) gs
          end
      end
  end.

(** The record of the continuous engine: the map of generators, in its order. *)
Definition continuous_record `{MapIter} (t : Template) (draws : nat -> D) (gs : gmap string G) : result fields * gmap string G :=
  let '(r, gs) := fill_continuous (iter (map_to_list gs)).*1 draws ∅ gs in
  (record ← r; Ok (if String.eqb (Table t) "" then record else <["$table" := VString (Table t)]> record), gs).

(** The rounds of Run until one of its selects sees the end, after [rounds]. *)
Fixpoint run_continuous `{MapIter} (t : Template) (draws : nat -> nat -> D) (rounds i : nat) (gs : gmap string G) : list string * result unit * gmap string G :=
  match rounds with
  | O => ([], Ok tt, gs)
  | S rounds =>
      let '(r, gs) := continuous_record t (draws i) gs in
      match r with
      | Panic => ([], Panic, gs)
      | Err err => ([], Err (Wrapf "failed to generate record: %w" [] err), gs)
      | Ok record =>
          match write_record i (VMap record) with
          | inl err => ([], Err (Wrapf "failed to encode record: %w" [] err), gs)
          | inr line => let '(lines, r, gs) := run_continuous t draws rounds (S i) gs in (line :: lines, r, gs)
          end
      end
  end.
End records.

(** ** Laws *)

(** *** Nested fields *)

(** Where a field is stored: under its name, or along its dots. *)
Definition path_of (f : FieldDefinition) : list string :=
  if Internal f || negb (Contains (Name f) ".") then [Name f] else Split (Name f) ".".

(** Every strict prefix of the path is a map or missing. *)
Fixpoint open_at (record : fields) (p : list string) : Prop :=
  match p with
  | [] => True
  | part :: rest =>
      rest = [] \/ match record !! part with None => True | Some (VMap m) => open_at m rest | Some _ => False end
  end.

Definition strict_prefix (p q : list string) : Prop := exists x r, q = p ++ x :: r.

(** No field is stored below another one: a record never writes into a map
    that a generator made, or that the configuration shares between records. *)
Definition own_maps (t : Template) : Prop :=
  forall f g, f ∈ Fields t -> g ∈ Fields t -> ~ strict_prefix (path_of f) (path_of g).

Lemma open_at_empty p : open_at ∅ p.
Proof. destruct p as [|part rest]; [done|]. right. by rewrite lookup_empty. Qed.

Definition store (record : fields) (p : list string) (v : value) : result fields :=
  match p with [] => Panic | part :: parts => set_nested record part parts v end.

Lemma store_open record p v : p <> [] -> open_at record p -> exists record', store record p v = Ok record'.
Proof.
  revert record. induction p as [|part [|next rest] IH]; intros record N O; [done|by eexists|].
  destruct O as [[=]|O]. cbn [store set_nested]. specialize (fun r => IH r ltac:(done)). cbn [store] in IH.
  destruct (record !! part) as [[]|]; try done.
  - destruct (IH m O) as [r ->]. by eexists.
  - destruct (IH ∅ (open_at_empty _)) as [r ->]. by eexists.
Qed.

Lemma store_keeps_open record p v record' q :
  store record p v = Ok record' -> ~ strict_prefix p q -> open_at record q -> open_at record' q.
Proof.
  revert record record' q. induction p as [|part parts IH]; intros record record' q S N O; [done|].
  destruct q as [|qh [|q2 qt]]; [done|by left|]. destruct O as [[=]|O]. right.
  destruct (decide (qh = part)) as [->|Ne].
  - destruct parts as [|next parts]; [by destruct N; exists q2, qt|].
    assert (~ strict_prefix (next :: parts) (q2 :: qt)) as N' by (intros (x & r & E); apply N; exists x, r; by rewrite E).
    cbn [store set_nested] in S.
    destruct (record !! part) as [w|] eqn:L; [destruct w; try done|]; apply res_bind_ok in S as (inner & S & E); injection E as <-;
      rewrite lookup_insert_eq; (eapply IH; [exact S|done|]); [done|apply open_at_empty].
  - cbn [store] in S. assert (record' !! qh = record !! qh) as ->; [|done]. destruct parts as [|next parts]; cbn [set_nested] in S.
    + injection S as <-. by rewrite lookup_insert_ne.
    + destruct (record !! part) as [[]|]; try done; apply res_bind_ok in S as (inner & _ & S); injection S as <-; by rewrite lookup_insert_ne.
Qed.

Lemma store_field record f v :
  (if Internal f || negb (Contains (Name f) ".") then Ok (<[Name f := v]> record) else setNestedValue record (Name f) v) =
  store record (path_of f) v.
Proof. unfold path_of, setNestedValue. destruct (_ || _); [done|]. by destruct (Split (Name f) "."). Qed.

Lemma path_of_nonempty f : path_of f <> [].
Proof. unfold path_of. destruct (_ || _); [done|]. apply Split_nonempty. Qed.

(** *** Records never panic *)

Section total.
Context `{GoLib, Codecs} {G D : Type} `{FieldGenerator G D}.

(** An invariant of generators under which a call returns. *)
Context (safe : G -> Prop)
  (safe_generate : forall d g, safe g -> no_panic (Generate d g).1 /\ safe (Generate d g).2)
  (safe_context : forall g w record, safe g -> GenerateWithContext g = Some w -> no_panic (w record)).

(** Every field has its generator. *)
Definition complete (t : Template) (gs : gmap string G) : Prop := forall f, f ∈ Fields t -> exists g, gs !! Name f = Some g.

Definition gens_ok (t : Template) (gs : gmap string G) : Prop := complete t gs /\ map_Forall (fun _ => safe) gs.

Lemma field_value_total t gs f record d r gs' :
  gens_ok t gs -> f ∈ Fields t -> generateFieldValue gs f record d = (r, gs') -> no_panic r /\ gens_ok t gs'.
Proof.
  intros [C S] Hf. unfold generateFieldValue. destruct (C f Hf) as [g L]. rewrite L.
  pose proof (map_Forall_lookup_1 _ _ _ _ S L) as Sg. destruct (GenerateWithContext g) as [w|] eqn:W.
  { intros [= <- <-]. split; [by eapply safe_context|by split]. }
  destruct (safe_generate d g Sg) as [N Sg']. destruct (Generate d g) as [r0 g']. intros [= <- <-]. split; [done|]. split.
  - intros f' Hf'. destruct (decide (Name f = Name f')) as [E|Ne]; [exists g'; by rewrite E, lookup_insert_eq|].
    rewrite lookup_insert_ne by done. by apply C.
  - by apply map_Forall_insert_2.
Qed.

Lemma fill_record_total t fs draws record gs r gs' :
  own_maps t -> (forall f, f ∈ fs -> f ∈ Fields t) -> (forall f, f ∈ Fields t -> open_at record (path_of f)) -> gens_ok t gs ->
  fill_record fs draws record gs = (r, gs') -> no_panic r /\ gens_ok t gs'.
Proof.
  intros M. revert draws record gs. induction fs as [|f fs IH]; intros draws record gs Sub O C; cbn [fill_record].
  { intros [= <- <-]. by split; [apply ok_no_panic|]. }
  assert (f ∈ Fields t) as Hf by (apply Sub; left).
  destruct (generateFieldValue gs f record (draws 0%nat)) as [v gs1] eqn:E. apply (field_value_total t) in E as [N C1]; [|done..].
  destruct v as [v|err|]; [|intros [= <- <-]; by split; [apply err_no_panic|]|done].
  rewrite store_field. destruct (store_open record (path_of f) v (path_of_nonempty f) (O f Hf)) as [record' S]. rewrite S.
  apply IH; [intros g Hg; apply Sub; by right| |done].
  intros g Hg. eapply store_keeps_open; [exact S|by apply M|by apply O].
Qed.

Lemma transform_all_total ts v : no_panic (transform_all ts v).
Proof.
  revert v. induction ts as [|def ts IH]; intros v; cbn [transform_all]; [apply ok_no_panic|].
  assert (no_panic (GetTransformer (TType def) (TConfig def))) as N.
  { unfold GetTransformer, NewCompressor, no_panic. repeat case_match; cbn; repeat case_match; done. }
  destruct (GetTransformer _ _) as [tr| |]; [|apply err_no_panic|done].
  assert (no_panic (Transform tr v)) as N' by (unfold no_panic, Transform, json_Transform, base64_Transform; repeat case_match; cbn; repeat case_match; done).
  destruct (Transform tr v); [apply IH|apply err_no_panic|done].
Qed.

Lemma single_record_total t draws gs r gs' :
  own_maps t -> gens_ok t gs -> generateSingleRecord t draws gs = (r, gs') -> no_panic r /\ gens_ok t gs'.
Proof.
  intros M C. unfold generateSingleRecord, generateRawRecord.
  destruct (fill_record (Fields t) draws ∅ gs) as [raw gs1] eqn:E.
  apply (fill_record_total t) in E as [N C1]; [|done|done|intros; apply open_at_empty|done].
  destruct raw as [raw|err|]; [| |done]; intros [= <- <-]; (split; [|done]); [apply transform_all_total|apply err_no_panic].
Qed.
End total.
