(* ===== verification/GenParallel.v ===== *)
(** * GenParallel: parallel generation makes the records of serial generation
    (tools/generator/internal/generator/engine.go)

    Workers share the generators under a lock; any order in which they take
    it makes the same records, spread over the workers. *)
From S2P Require Import Prelude GoInt GoStr GoFloat Values GenIterator GenEngine.

Section parallel.
Context `{GoLib, Codecs} {G D : Type} `{FieldGenerator G D}.

(** ** The records of a serial run, without their writing *)

Fixpoint records_from (t : Template) (draws : nat -> nat -> D) (n i : nat) (gs : gmap string G) : result (list value * gmap string G) :=
  match n with
  | O => Ok ([], gs)
  | S n =>
      let '(r, gs) := generateSingleRecord t (draws i) gs in
      v ← r;
      '(vs, gs) ← records_from t draws n (S i) gs;
      Ok (v :: vs, gs)
  end.

Lemma records_app t draws a b i gs :
  records_from t draws (a + b) i gs =
    ('(vs, gs) ← records_from t draws a i gs; '(ws, gs) ← records_from t draws b (a + i) gs; Ok (vs ++ ws, gs)).
Proof.
  revert i gs. induction a as [|a IH]; intros i gs; cbn [Nat.add records_from].
  { cbn. by destruct (records_from t draws b i gs) as [[]| |]. }
  destruct (generateSingleRecord t (draws i) gs) as [[v|e|] gs1]; [|done..]. cbn [mbind res_bind]. rewrite IH.
  rewrite <- Nat.add_succ_r. destruct (records_from t draws a (S i) gs1) as [[vs gs2]|e|]; [|done..]. cbn [mbind res_bind].
  by destruct (records_from t draws b (a + S i) gs2) as [[]| |].
Qed.

Lemma records_snoc t draws k gs vs gs1 :
  records_from t draws k 0 gs = Ok (vs, gs1) ->
  records_from t draws (S k) 0 gs = (let '(r, gs2) := generateSingleRecord t (draws k) gs1 in v ← r; Ok (vs ++ [v], gs2)).
Proof.
  intros E. rewrite <- (Nat.add_1_r k), records_app, E. cbn [mbind res_bind records_from]. rewrite Nat.add_0_r.
  by destruct (generateSingleRecord t (draws k) gs1) as [[]].
Qed.

Lemma records_length t draws n i gs vs gs' : records_from t draws n i gs = Ok (vs, gs') -> length vs = n.
Proof.
  revert i gs vs. induction n as [|n IH]; intros i gs vs E; cbn in E; [by injection E as <- _|].
  destruct (generateSingleRecord _ _ _) as [[v| |] gs1]; [|done..]. cbn in E. apply res_bind_ok in E as ([vs1 gs2] & E & E').
  injection E' as <- <-. cbn. by rewrite (IH _ _ _ E).
Qed.

(** A prefix of a run that succeeds succeeds. *)
Lemma records_prefix t draws n k gs r :
  (k <= n)%nat -> records_from t draws n 0 gs = Ok r -> exists r', records_from t draws k 0 gs = Ok r'.
Proof.
  intros L. replace n with (k + (n - k))%nat by lia. rewrite records_app. intros E. apply res_bind_ok in E as (r' & E & _). by exists r'.
Qed.

(** ** Runs of the workers *)

Section run.
Context (t : Template) (draws : nat -> nat -> D) (gs0 : gmap string G) (total : nat).

(** While no worker has failed, the workers hold the first [k] serial records. *)
Record par_inv (k : nat) (ws : list record_worker) (gs : gmap string G) : Prop := {
  pa_made : exists vs, records_from t draws k 0 gs0 = Ok (vs, gs) /\ concat (made <$> ws) ≡ₚ vs;
  pa_togo : (sum_list (togo <$> ws) + k = total)%nat;
  pa_fine : Forall (fun w => failure w = None) ws
}.

Definition failed (ws : list record_worker) : Prop := exists w, w ∈ ws /\ is_Some (failure w).

Lemma failed_insert i w w' ws : ws !! i = Some w -> (is_Some (failure w) -> w' = w) -> failed ws -> failed (<[i := w']> ws).
Proof.
  intros L K (v & Hv & F). apply list_elem_of_lookup in Hv as [j Hj]. exists v. split; [|done]. apply list_elem_of_lookup. exists j.
  destruct (decide (i = j)) as [<-|N]; [|by rewrite list_lookup_insert_ne].
  rewrite L in Hj. injection Hj as ->. rewrite K by done. apply list_lookup_insert_eq. by eapply lookup_lt_Some.
Qed.

Lemma failed_here i w' ws : (i < length ws)%nat -> is_Some (failure w') -> failed (<[i := w']> ws).
Proof. intros L F. exists w'. split; [|done]. apply list_elem_of_lookup. exists i. by apply list_lookup_insert_eq. Qed.

(** A turn without cancellation. *)
Lemma turn_step i w ws k gs w' k' gs' :
  ws !! i = Some w -> worker_turn t draws None i k w gs = Ok (w', k', gs') ->
  par_inv k ws gs -> par_inv k' (<[i := w']> ws) gs' \/ failed (<[i := w']> ws) /\ forall r, records_from t draws (S k) 0 gs0 <> Ok r.
Proof.
  intros L T [(vs & E & P) Tg F]. unfold worker_turn in T. pose proof (lookup_lt_Some _ _ _ L) as Li.
  destruct (togo w) as [|n] eqn:En; [injection T as <- <- <-; left; rewrite list_insert_id by done; by split; [exists vs|..]|].
  destruct (failure w) eqn:Ef.
  { rewrite Forall_forall in F. rewrite (F w) in Ef by (by eapply list_elem_of_lookup_2). done. }
  pose proof (records_snoc t draws k gs0 vs gs E) as Sn.
  destruct (generateSingleRecord t (draws k) gs) as [[v|err|] gs1]; [| |done]; injection T as <- <- <-.
  - left. pose proof (sum_list_insert togo _ _ _ {| togo := n; made := made w ++ [v]; failure := None |} L) as Hs.
    pose proof (concat_insert made _ _ _ {| togo := n; made := made w ++ [v]; failure := None |} L) as Hc. cbn in Hs, Hc. split.
    + exists (vs ++ [v]). split; [done|]. apply (inj (.++ made w)). rewrite Hc, P. solve_Permutation.
    + lia.
    + by apply Forall_insert_weak.
  - right. split; [by apply failed_here|]. intros r. rewrite Sn. done.
Qed.

Lemma turn_failed i w ws k gs w' k' gs' c :
  ws !! i = Some w -> worker_turn t draws c i k w gs = Ok (w', k', gs') -> failed ws -> failed (<[i := w']> ws).
Proof.
  intros L T. apply (failed_insert i w); [done|]. intros [e Fe]. unfold worker_turn in T. rewrite Fe in T.
  destruct (togo w); by injection T as <- _ _.
Qed.

(** Any number of turns. *)
Lemma turns_outcome turns k ws gs k' ws' gs' :
  Forall (fun c => c = None) turns.*2 -> take_turns t draws turns k ws gs = Ok (k', ws', gs') -> par_inv k ws gs \/ failed ws ->
  (failed ws \/ forall r, records_from t draws total 0 gs0 <> Ok r) /\ failed ws' \/ par_inv k' ws' gs'.
Proof.
  revert k ws gs. induction turns as [|[i c] turns IH]; intros k ws gs Nc T I; cbn [take_turns] in T.
  { injection T as <- <- <-. destruct I; [by right|left; by split; [left|]]. }
  cbn in Nc. apply Forall_cons in Nc as [-> Nc]. destruct (ws !! i) as [w|] eqn:L; [|by eapply IH].
  apply res_bind_ok in T as ([[w1 k1] gs1] & T1 & T). destruct I as [I|I].
  - destruct (turn_step i w ws k gs w1 k1 gs1 L T1 I) as [I1|[F1 N]].
    + destruct (IH _ _ _ Nc T (or_introl I1)) as [[[(v & Hv & Fv)|N] F]|R]; [| |by right].
      * exfalso. destruct I1 as [_ _ Fi]. rewrite Forall_forall in Fi. rewrite (Fi v Hv) in Fv. by destruct Fv.
      * left. by split; [right|].
    + destruct (IH _ _ _ Nc T (or_intror F1)) as [[_ F]|[_ _ Fi]].
      * left. split; [|done]. right. intros r E. destruct (Nat.le_gt_cases (S k) total) as [Le|Gt].
        { destruct (records_prefix t draws total (S k) gs0 r Le E) as [r' E']. by apply (N r'). }
        destruct I as [_ Tg Fn]. unfold worker_turn in T1. pose proof (sum_list_lookup togo _ _ _ L).
        destruct (togo w) eqn:Ew; [|lia]. injection T1 as <- <- <-. rewrite list_insert_id in F1 by done.
        destruct F1 as (v & Hv & Fv). rewrite Forall_forall in Fn. rewrite (Fn v Hv) in Fv. by destruct Fv.
      * right. destruct (IH _ _ _ Nc T (or_intror F1)) as [[_ (v & Hv & Fv)]|R]; [|done].
        exfalso. rewrite Forall_forall in Fi. rewrite (Fi v Hv) in Fv. by destruct Fv.
  - destruct (IH _ _ _ Nc T (or_intror (turn_failed _ _ _ _ _ _ _ _ _ L T1 I))) as [[_ F]|R]; [left; by split; [left|]|by right].
Qed.

(** When every worker has returned. *)
Lemma finished_outcome turns ws k' ws' gs' :
  Forall (fun c => c = None) turns.*2 -> take_turns t draws turns 0 ws gs0 = Ok (k', ws', gs') -> par_inv 0 ws gs0 ->
  forallb returned ws' = true ->
  (exists vs gs, records_from t draws total 0 gs0 = Ok (vs, gs) /\ concat (made <$> ws') ≡ₚ vs /\ Forall (fun w => failure w = None) ws') \/
  (forall r, records_from t draws total 0 gs0 <> Ok r) /\ failed ws'.
Proof.
  intros Nc T I R. destruct (turns_outcome _ _ _ _ _ _ _ Nc T (or_introl I)) as [[[(v & Hv & Fv)|N] F]|[(vs & E & P) Tg Fn]].
  - exfalso. destruct I as [_ _ Fi]. rewrite Forall_forall in Fi. rewrite (Fi v Hv) in Fv. by destruct Fv.
  - by right.
  - left. assert (sum_list (togo <$> ws') = 0%nat) as Z.
    { clear -R Fn. induction ws' as [|w ws IH]; [done|]. cbn in R. apply andb_prop in R as [Rw R]. apply Forall_cons in Fn as [Fw Fn].
      rewrite fmap_cons. cbn. rewrite IH by done. unfold returned in Rw. rewrite Fw in Rw. apply Nat.eqb_eq in Rw. lia. }
    assert (k' = total) as -> by lia. by exists vs, gs'.
Qed.
End run.

(** ** Shares *)

Lemma shares_sum (count W : Z) :
  0 <= count -> 0 < W -> sum_list ((fun i => Z.to_nat (share count W i)) <$> seq 0 (Z.to_nat W)) = Z.to_nat count.
Proof.
  intros C P. assert (forall n, Z.of_nat n <= W ->
    Z.of_nat (sum_list ((fun i => Z.to_nat (share count W i)) <$> seq 0 n)) =
      Z.of_nat n * (count / W) + Z.min (Z.of_nat n) (count mod W)) as Gn.
  { pose proof (Z.mod_pos_bound count W P). assert (0 <= count / W) by (apply Z.div_pos; lia).
    induction n as [|n IH]; intros L; [cbn; lia|]. rewrite seq_S, fmap_app, sum_list_with_app. cbn [fmap list_fmap sum_list_with].
    rewrite Nat2Z.inj_add, IH by lia. unfold share, go_div, go_rem. rewrite Z.quot_div_nonneg, Z.rem_mod_nonneg by lia. cbn [Nat.add].
    unfold id. destruct (Z.ltb_spec (Z.of_nat n) (count mod W)); lia. }
  specialize (Gn (Z.to_nat W) ltac:(lia)). pose proof (Z.mod_pos_bound count W P). pose proof (Z.div_mod count W). lia.
Qed.

Lemma share_nonneg count W i : 0 <= count -> 0 < W -> 0 <= share count W i.
Proof.
  intros C P. unfold share, go_div, go_rem. rewrite Z.quot_div_nonneg by lia. assert (0 <= count / W) by (apply Z.div_pos; lia).
  case_match; lia.
Qed.

Definition fresh (n : nat) : record_worker := {| togo := n; made := []; failure := None |}.

Lemma start_workers_ok count W :
  0 <= count -> 0 < W -> start_workers count W = Ok (fresh <$> ((fun i => Z.to_nat (share count W i)) <$> seq 0 (Z.to_nat W))).
Proof.
  intros C P. unfold start_workers. generalize (seq 0 (Z.to_nat W)). intros l. induction l as [|i l IH]; [done|]. cbn [mapM].
  unfold start_worker. pose proof (share_nonneg count W i C P). destruct (Z.ltb_spec (share count W i) 0); [lia|].
  cbn [mbind res_bind]. change (mapM _ l) with (mapM (fun i => start_worker (share count W i)) l) at 1. by rewrite IH.
Qed.

Lemma par_inv_start t draws gs count W :
  0 <= count -> 0 < W ->
  par_inv t draws gs (Z.to_nat count) 0 (fresh <$> ((fun i => Z.to_nat (share count W i)) <$> seq 0 (Z.to_nat W))) gs.
Proof.
  intros C P. split.
  - exists []. split; [done|]. generalize ((fun i => Z.to_nat (share count W i)) <$> seq 0 (Z.to_nat W)).
    intros l. by induction l as [|n l IH].
  - rewrite Nat.add_0_r, <- (shares_sum count W C P). f_equal. by rewrite <- list_fmap_compose, (list_fmap_ext _ id), list_fmap_id.
  - apply Forall_fmap, Forall_true. done.
Qed.

(** ** Writing *)

(** The line of a record, when it has one. *)
Definition encode (v : value) : error + string := match v with VString s => inr s | v => json_Marshal v end.
Definition encodes (v : value) : Prop := exists line, encode v = inr line.
Definition line_of (v : value) : string := match encode v with inr line => line | inl _ => EmptyString end.

Section writing.
Context (write_err : nat -> option error).

(** None of the next [n] writes fails. *)
Definition written_well (i n : nat) : Prop := forall j, (i <= j < i + n)%nat -> write_err j = None.

Lemma written_well_S i n : written_well i (S n) <-> write_err i = None /\ written_well (S i) n.
Proof.
  unfold written_well. split.
  - intros W. split; [apply W; lia|]. intros j J. apply W. lia.
  - intros [W0 W] j J. destruct (decide (j = i)) as [->|]; [done|]. apply W. lia.
Qed.

Lemma write_record_spec i v :
  match write_record write_err i v with
  | inr line => encodes v /\ write_err i = None /\ line = line_of v
  | inl _ => ~ (encodes v /\ write_err i = None)
  end.
Proof.
  assert (write_record write_err i v = match encode v with inl err => inl err | inr line => match write_err i with Some err => inl err | None => inr line end end)
    as -> by by unfold write_record, encode.
  unfold encodes, line_of. destruct (encode v) as [err|line]; [by intros [[? ?] _]|].
  destruct (write_err i); [by intros [_ ?]|]. split_and!; [by eexists|done|done].
Qed.

Lemma write_record_ok i v : encodes v -> write_err i = None -> write_record write_err i v = inr (line_of v).
Proof. intros E W. pose proof (write_record_spec i v) as S. destruct (write_record write_err i v); [by destruct S|]. by destruct S as (_ & _ & ->). Qed.

Lemma write_all_ok i vs : Forall encodes vs -> written_well i (length vs) -> write_all write_err i vs = (line_of <$> vs, Ok tt).
Proof.
  intros F. revert i. induction F as [|v vs E F IH]; intros i W; [done|]. apply written_well_S in W as [W0 W]. cbn [write_all].
  by rewrite (write_record_ok i v E W0), IH.
Qed.

(** What is written are the lines of the first records; all of them unless a
    record has no line or a write fails. *)
Lemma write_all_cases i vs :
  exists lines r, write_all write_err i vs = (lines, r) /\ lines `prefix_of` (line_of <$> vs) /\
    ((r = Ok tt /\ Forall encodes vs /\ written_well i (length vs)) \/ exists err, r = Err err).
Proof.
  revert i. induction vs as [|v vs IH]; intros i; cbn [write_all].
  - exists [], (Ok tt). split_and!; [done..|]. left. split_and!; [done..|]. intros j J. cbn in J. lia.
  - pose proof (write_record_spec i v) as S. destruct (write_record write_err i v) as [err|line].
    + eexists [], _. split_and!; [done|apply prefix_nil|]. right. by eexists.
    + destruct S as (E & W & ->). destruct (IH (S i)) as (lines & r & -> & P & C). exists (line_of v :: lines), r.
      split_and!; [done|by apply prefix_cons|]. destruct C as [(-> & F & Ws)|X]; [left|by right].
      split_and!; [done|by constructor|]. by apply written_well_S.
Qed.

(** A serial run succeeds exactly when its records can be made, each has a
    line, and no write fails. *)
Lemma generate_from_ok t draws n i gs vs gs' :
  records_from t draws n i gs = Ok (vs, gs') -> Forall encodes vs -> written_well i n ->
  generate_from write_err t draws n i gs = (line_of <$> vs, Ok tt, gs').
Proof.
  revert i gs vs. induction n as [|n IH]; intros i gs vs E F W; cbn [records_from generate_from] in *; [by injection E as <- <-|].
  destruct (generateSingleRecord t (draws i) gs) as [[v|e|] gs1]; [|done..]. cbn [mbind res_bind] in E. apply written_well_S in W as [W0 W].
  apply res_bind_ok in E as ([vs1 gs2] & E & E'). injection E' as <- <-. apply Forall_cons in F as [Fv F].
  rewrite (write_record_ok i v Fv W0), Nat.add_1_r. by rewrite (IH _ _ _ E F W).
Qed.

Lemma generate_from_inv t draws n i gs lines u gs' :
  generate_from write_err t draws n i gs = (lines, Ok u, gs') ->
  exists vs, records_from t draws n i gs = Ok (vs, gs') /\ length vs = n /\ Forall encodes vs /\ written_well i n /\ lines = line_of <$> vs.
Proof.
  revert i gs lines. induction n as [|n IH]; intros i gs lines E; cbn [records_from generate_from] in *.
  - injection E as <- _ <-. exists []. split_and!; [done..|intros j J; lia|done].
  - destruct (generateSingleRecord t (draws i) gs) as [[v|e|] gs1]; [|done..]. cbn [mbind res_bind].
    pose proof (write_record_spec i v) as S. destruct (write_record write_err i v) as [err|line]; [done|].
    destruct S as (Ev & W0 & ->). rewrite Nat.add_1_r in E.
    destruct (generate_from write_err t draws n (S i) gs1) as [[lines1 r] gs2] eqn:Gf. injection E as <- -> <-.
    destruct (IH _ _ _ Gf) as (vs & -> & L & F & W & ->). exists (v :: vs). cbn [mbind res_bind].
    split_and!; [done|cbn; by rewrite L|by constructor|by apply written_well_S|done].
Qed.
End writing.

(** ** Equivalence *)

Context (safe : G -> Prop)
  (safe_generate : forall d g, safe g -> no_panic (Generate d g).1 /\ safe (Generate d g).2)
  (safe_context : forall g w record, safe g -> GenerateWithContext g = Some w -> no_panic (w record)).

Lemma take_turns_total t draws turns k ws gs :
  own_maps t -> gens_ok safe t gs -> exists r, take_turns t draws turns k ws gs = Ok r.
Proof.
  intros M. revert k ws gs. induction turns as [|[i c] turns IH]; intros k ws gs Gs; cbn [take_turns]; [by eexists|].
  destruct (ws !! i) as [w|]; [|by apply IH]. unfold worker_turn.
  destruct (togo w) as [|n], (failure w), c; cbn [mbind res_bind]; try by apply IH.
  destruct (generateSingleRecord t (draws k) gs) as [r gs1] eqn:E.
  apply (single_record_total safe safe_generate safe_context t) in E as [N Gs1]; [|done..].
  by destruct r; [apply IH|apply IH|].
Qed.

Lemma made_of_failures ws arrival :
  arrival ≡ₚ ws -> (Forall (fun w => failure w = None) ws -> omap failure arrival = []) /\
  (failed ws -> exists err errs, omap failure arrival = err :: errs).
Proof.
  intros P. split.
  - intros F. rewrite <- P in F. clear P. induction F as [|w l E F IH]; [done|]. cbn [omap list_omap]. cbv beta in E. by rewrite E.
  - intros (w & Hw & [err E]). rewrite <- P in Hw. assert (err ∈ omap failure arrival) as Hi by (apply list_elem_of_omap; by exists w).
    destruct (omap failure arrival) as [|e es]; [by apply elem_of_nil in Hi|by exists e, es].
Qed.

End parallel.
