(* ===== verification/FloatOrder.v ===== *)
(** * FloatOrder: order and finiteness of float64, and math.Max and math.Min *)
From S2P Require Import Prelude GoInt GoFloat.
From Stdlib Require Import SpecFloat.

Definition Inf (negative : bool) : float64 := S754_infinity negative.
Definition is_zero (f : float64) : bool := match f with S754_zero _ => true | _ => false end.
Definition is_inf (negative : bool) (f : float64) : bool := match f with S754_infinity s => eqb s negative | _ => false end.

(** [math.Max] and [math.Min]. *)
Definition math_Max (x y : float64) : float64 :=
  if is_inf false x || is_inf false y then Inf false
  else if IsNaN x || IsNaN y then f64_nan
  else if is_zero x && is_zero y then (match x with S754_zero true => y | _ => x end)
  else if f64_gt x y then x else y.
Definition math_Min (x y : float64) : float64 :=
  if is_inf true x || is_inf true y then Inf true
  else if IsNaN x || IsNaN y then f64_nan
  else if is_zero x && is_zero y then (match x with S754_zero true => x | _ => y end)
  else if f64_lt x y then x else y.

(** [math.Mod], which is exact, with the sign of [x]. *)
Definition math_Mod (x y : float64) : float64 :=
  match x, y with
  | S754_nan, _ | _, S754_nan | S754_infinity _, _ | _, S754_zero _ => f64_nan
  | _, S754_infinity _ | S754_zero _, _ => x
  | S754_finite s m e, S754_finite _ m' e' =>
      let lo := Z.min e e' in
      binary_normalize 53 1024 (signed s ((Zpos m * 2 ^ (e - lo)) mod (Zpos m' * 2 ^ (e' - lo)))) lo s
  end.

Definition is_finite (f : float64) : bool := match f with S754_zero _ | S754_finite _ _ _ => true | _ => false end.

(** ** Order *)

Lemma SFcompare_swap a b c : SFcompare a b = Some c -> SFcompare b a = Some (CompOpp c).
Proof.
  destruct a as [sa|sa| |sa ma ea], b as [sb|sb| |sb mb eb]; cbn; try done; try (by destruct sa; intros [= <-]);
    try (by destruct sb; intros [= <-]); try (by destruct sa, sb; intros [= <-]); try (by intros [= <-]).
  destruct sa, sb; try (by intros [= <-]); rewrite (Z.compare_antisym ea eb); change (Pos.compare_cont Eq) with Pos.compare;
    rewrite (Pos.compare_antisym ma mb); destruct (ea ?= eb); intros [= <-]; cbn; by rewrite ?CompOpp_involutive.
Qed.

Lemma SFcompare_some a b : IsNaN a = false -> IsNaN b = false -> exists c, SFcompare a b = Some c.
Proof. intros A B. destruct a, b; try done; by eexists. Qed.

(** Without NaN, [a <= b] is the negation of [b < a]. *)
Lemma f64_le_not_lt a b : IsNaN a = false -> IsNaN b = false -> f64_le a b = negb (f64_lt b a).
Proof.
  intros A B. destruct (SFcompare_some a b A B) as [c E]. pose proof (SFcompare_swap _ _ _ E) as E'.
  unfold f64_le, f64_lt, SFleb, SFltb. rewrite E, E'. by destruct c.
Qed.

Lemma f64_lt_le a b : f64_lt a b = true -> f64_le a b = true.
Proof. unfold f64_lt, f64_le, SFltb, SFleb. by destruct (SFcompare a b) as [[]|]. Qed.

Lemma f64_le_refl a : IsNaN a = false -> f64_le a a = true.
Proof.
  intros A. destruct (SFcompare_some a a A A) as [c E]. pose proof (SFcompare_swap _ _ _ E) as E'. rewrite E in E'.
  unfold f64_le, SFleb. rewrite E. by destruct c.
Qed.

Lemma finite_not_nan a : is_finite a = true -> IsNaN a = false.
Proof. by destruct a. Qed.

(** A value between two finite ones is finite. *)
Lemma finite_between a b x : is_finite a = true -> is_finite b = true -> f64_le a x = true -> f64_le x b = true -> is_finite x = true.
Proof. destruct a as [|[]| |], x as [|[]| |], b as [|[]| |]; done. Qed.

(** ** No NaN from a finite operand *)

Lemma binary_normalize_not_nan m e z : IsNaN (binary_normalize 53 1024 m e z) = false.
Proof.
  unfold binary_normalize, binary_round. destruct m; [done| |].
  all: case_match.
  all: match goal with |- IsNaN (binary_round_aux ?a ?b ?s ?m ?e ?l) = _ =>
         pose proof (binary_round_aux_not_nan s m e l ltac:(lia)) as N; destruct (binary_round_aux a b s m e l); done end.
Qed.

Lemma f64_add_not_nan a b :
  is_finite a = true -> IsNaN b = false -> IsNaN (f64_add a b) = false /\ IsNaN (f64_add b a) = false.
Proof.
  unfold f64_add, SFadd. destruct a as [[]|[]| |[] ma ea], b as [[]|[]| |[] mb eb]; intros; try done; split; apply binary_normalize_not_nan.
Qed.

Lemma f64_sub_not_nan a b :
  is_finite a = true -> IsNaN b = false -> IsNaN (f64_sub a b) = false /\ IsNaN (f64_sub b a) = false.
Proof.
  unfold f64_sub, SFsub. destruct a as [[]|[]| |[] ma ea], b as [[]|[]| |[] mb eb]; intros; try done; split; apply binary_normalize_not_nan.
Qed.

Lemma f64_mul_not_nan a b : is_finite a = true -> is_finite b = true -> IsNaN (f64_mul a b) = false.
Proof.
  unfold f64_mul, SFmul. destruct a as [sa|sa| |sa ma ea], b as [sb|sb| |sb mb eb]; intros; try done.
  pose proof (binary_round_aux_not_nan (xorb sa sb) (Zpos (ma * mb)) (ea + eb) loc_Exact ltac:(lia)) as P.
  by destruct (binary_round_aux _ _ _ _ _ _).
Qed.

(** ** The clamp *)

Lemma clamp_bounds lo hi x :
  is_finite lo = true -> is_finite hi = true -> f64_lt lo hi = true -> IsNaN x = false ->
  f64_le lo (math_Max lo (math_Min hi x)) = true /\ f64_le (math_Max lo (math_Min hi x)) hi = true.
Proof.
  intros Fl Fh L X. pose proof (finite_not_nan _ Fl) as Nl. pose proof (finite_not_nan _ Fh) as Nh.
  assert (forall y, IsNaN y = false -> is_inf false y = false -> f64_le y hi = true ->
    f64_le lo (math_Max lo y) = true /\ f64_le (math_Max lo y) hi = true) as Max.
  { intros y Ny Iy Hy. unfold math_Max. assert (is_inf false lo = false) as -> by by destruct lo.
    rewrite Iy, Nl, Ny. cbn [orb]. destruct (is_zero lo && is_zero y) eqn:Z.
    - apply andb_prop in Z as [Zl Zy]. destruct lo as [[]| | |], y as [[]| | |]; try done; split; try done; by apply f64_lt_le.
    - unfold f64_gt. destruct (SFltb y lo) eqn:E; [split; [by apply f64_le_refl|by apply f64_lt_le]|].
      split; [|done]. rewrite f64_le_not_lt by done. unfold f64_lt. by rewrite E. }
  assert (is_inf true hi = false) as Ih by by destruct hi.
  apply Max; unfold math_Min; rewrite Ih, Nh, X; cbn [orb];
    (destruct (is_inf true x) eqn:Ix; [by destruct x as [|[]| |], hi|]);
    (destruct (is_zero hi && is_zero x) eqn:Z; [apply andb_prop in Z as [Zh Zx]; by destruct hi as [[]| | |], x as [[]| | |]|]);
    destruct (f64_lt hi x) eqn:E; try done; try (by destruct hi); try (by apply f64_le_refl).
  - destruct x as [|[]| |]; try done. by destruct hi.
  - by rewrite f64_le_not_lt, E.
Qed.

(** ** Not negative: NaN, a zero, or a positive sign *)

Definition nonneg (f : float64) : bool :=
  match f with S754_infinity true | S754_finite true _ _ => false | _ => true end.

Lemma nonneg_spec f : nonneg f = negb (f64_lt f (f64_of_Z 0)).
Proof. by destruct f as [[]|[]| |[]]. Qed.

Lemma binary_round_aux_sign m e l : 0 <= m -> nonneg (binary_round_aux 53 1024 false m e l) = true.
Proof.
  intros M. unfold binary_round_aux. pose proof (shr_fexp_nonneg m e l M) as H1. destruct (shr_fexp 53 1024 m e l) as [mrs e1]. cbn in H1.
  set (m' := round_nearest_even _ _). assert (H2 : 0 <= m') by (unfold m', round_nearest_even; repeat case_match; lia).
  pose proof (shr_fexp_nonneg m' e1 loc_Exact H2) as H3. destruct (shr_fexp 53 1024 m' e1 loc_Exact) as [mrs' e2]. cbn in H3.
  destruct (shr_m mrs'); [done|by case_match|lia].
Qed.

Lemma binary_normalize_sign m e : 0 <= m -> nonneg (binary_normalize 53 1024 m e false) = true.
Proof.
  intros M. destruct m; [done| |lia]. unfold binary_normalize, binary_round. case_match. by apply binary_round_aux_sign.
Qed.

Lemma f64_mul_nonneg a b : nonneg a = true -> nonneg b = true -> nonneg (f64_mul a b) = true.
Proof.
  destruct a as [|[]| |[]], b as [|[]| |[]]; intros; try done. by apply binary_round_aux_sign.
Qed.

Lemma f64_add_nonneg a b : nonneg a = true -> nonneg b = true -> nonneg (f64_add a b) = true.
Proof.
  destruct a as [[]|[]| |[]], b as [[]|[]| |[]]; intros; try done. by apply binary_normalize_sign.
Qed.

Lemma math_Max_nonneg v : nonneg (math_Max (f64_of_Z 0) v) = true.
Proof. by destruct v as [[]|[]| |[]]. Qed.
