(* ===== verification/GenWaves.v ===== *)
(** * GenWaves: traffic, signals and load patterns
    (tools/generator/internal/generator/generators: network_burst.go,
    signal_synthesis.go, stress_pattern.go)

    Three generators that follow the clock or a sample counter.  A call takes
    the random numbers it may draw, in order, and the readings of the clock.
    The sine is a parameter; every other operation is binary64, in the order of
    the source and without fused multiply-add. *)
From S2P Require Import Prelude GoInt GoStr GoFloat GoTime Values GenPattern FloatOrder.

(** [math.Sin]. *)
Class MathLib : Type := { math_Sin : float64 -> float64 }.

(** [t.After(u)]. *)
Definition After (t u : gotime) : bool := instant u <? instant t.

(** ParseDuration with the error of the caller. *)
Definition parse_duration `{GoLib} (fmt s : string) : result Z :=
  match ParseDuration s with Some d => Ok d | None => Err (Wrapf fmt [] (LibError "time.ParseDuration")) end.

(** *** Constants of the source, as the nearest float64 *)

Definition half : float64 := Float64frombits 0x3fe0000000000000.
Definition tenth : float64 := Float64frombits 0x3fb999999999999a.
Definition f_0_05 : float64 := Float64frombits 0x3fa999999999999a.
Definition f_0_2 : float64 := Float64frombits 0x3fc999999999999a.
Definition f_0_3 : float64 := Float64frombits 0x3fd3333333333333.
Definition f_0_9_ : float64 := Float64frombits 0x3feccccccccccccd.
Definition two_pi : float64 := Float64frombits 0x401921fb54442d18.

Section waves.
Context `{GoLib, MathLib}.

(** A float64 of the configuration that must satisfy [ok], or its default. *)
Definition float_checked (config : fields) (key : string) (dflt : float64) (bad : float64 -> bool) (msg : string) : result float64 :=
  match getFloat64 config key with
  | Some f => if bad f then Err (Errorf msg []) else Ok f
  | None => Ok dflt
  end.

(** A positive duration of the configuration, or its default. *)
Definition positive_duration (config : fields) (key : string) (dflt : Z) (fmt msg : string) : result Z :=
  match as_string (config !! key) with
  | Some s => dur ← parse_duration fmt s; if dur <=? 0 then Err (Errorf msg []) else Ok dur
  | None => Ok dflt
  end.

(** ** Network bursts (network_burst.go) *)

Record networkBurst : Type := {
  baseline : float64; burstProbability : float64; burstMultiplier : float64; burstDuration : Z;
  inBurst : bool; burstEndTime : gotime; lastValue : float64; nb_initialized : bool }.

Definition NewNetworkBurstGenerator (config : fields) : result networkBurst :=
  baseline ← match getFloat64 config "baseline" with
             | Some b => if f64_le b (f64_of_Z 0) then Err (Errorf "network_burst requires positive 'baseline' value" []) else Ok b
             | None => Err (Errorf "network_burst requires positive 'baseline' value" [])
             end;
  prob ← float_checked config "burst_probability" f_0_05 (fun p => f64_lt p (f64_of_Z 0) || f64_gt p (f64_of_Z 1))
           "burst_probability must be between 0 and 1";
  mult ← float_checked config "burst_multiplier" (f64_of_Z 10) (fun m => f64_le m (f64_of_Z 1))
           "burst_multiplier must be greater than 1";
  dur ← positive_duration config "burst_duration" (30 * Second) "invalid burst_duration: %w" "burst_duration must be positive";
  Ok {| baseline := baseline; burstProbability := prob; burstMultiplier := mult; burstDuration := dur;
        inBurst := false; burstEndTime := zero_time; lastValue := baseline; nb_initialized := false |}.

Definition nb_set (g : networkBurst) (burst : bool) (until : gotime) (last : float64) (init : bool) : networkBurst :=
  {| baseline := baseline g; burstProbability := burstProbability g; burstMultiplier := burstMultiplier g;
     burstDuration := burstDuration g; inBurst := burst; burstEndTime := until; lastValue := last; nb_initialized := init |}.

Definition nb_Initialize (g : networkBurst) : networkBurst := nb_set g false zero_time (baseline g) true.
Definition nb_Reset (g : networkBurst) : networkBurst := nb_set g false zero_time (baseline g) (nb_initialized g).

(** The state at the clock [now]: what is left of a burst, then perhaps a new
    one; with the number of draws made. *)
Definition nb_burst (rnd : nat -> float64) (now : gotime) (g : networkBurst) : networkBurst * nat :=
  let g := if nb_initialized g then g else nb_set g false (burstEndTime g) (baseline g) true in
  let g := if inBurst g && After now (burstEndTime g) then nb_set g false (burstEndTime g) (lastValue g) true else g in
  if inBurst g then (g, O)
  else if f64_lt (rnd O) (burstProbability g) then (nb_set g true (Add now (burstDuration g)) (lastValue g) true, 1%nat)
  else (g, 1%nat).

Definition nb_Generate (rnd : nat -> float64) (now : gotime) (g : networkBurst) : float64 * networkBurst :=
  let '(g, k) := nb_burst rnd now g in
  let baseValue := if inBurst g then f64_mul (baseline g) (burstMultiplier g) else baseline g in
  let noise := f64_mul (f64_mul (f64_sub (rnd k) half) f_0_2) baseValue in
  let value := math_Max (f64_of_Z 0) (f64_add baseValue noise) in
  let last := f64_add (f64_mul f_0_3 value) (f64_mul (f64_sub (f64_of_Z 1) f_0_3) (lastValue g)) in
  (last, nb_set g (inBurst g) (burstEndTime g) last (nb_initialized g)).

(** ** Signal synthesis (signal_synthesis.go) *)

Record signalSynthesis : Type := {
  frequency : float64; harmonics : list float64; amplitudes : list float64; noiseLevel : float64; sampleRate : float64;
  sampleTime : float64; timeStep : float64; ss_initialized : bool }.

(** The numbers of an array that pass a test; the others are skipped. *)
Definition numbers (v : option value) (ok : float64 -> bool) : list float64 :=
  match as_slice v with Some vs => List.filter ok (omap getFloatFromInterface vs) | None => [] end.

(** One amplitude for the fundamental and one per harmonic. *)
Definition pad_amplitudes (harmonics amplitudes : list float64) : list float64 :=
  if (0 <? length harmonics)%nat then
    take (length harmonics + 1) (amplitudes ++ replicate (length harmonics + 1 - length amplitudes) (f64_of_Z 1))
  else if (length amplitudes =? 0)%nat then [f64_of_Z 1]
  else amplitudes.

Definition NewSignalSynthesisGenerator (config : fields) : result signalSynthesis :=
  freq ← match getFloat64 config "frequency" with
         | Some f => if f64_le f (f64_of_Z 0) then Err (Errorf "signal_synthesis requires positive 'frequency'" []) else Ok f
         | None => Err (Errorf "signal_synthesis requires positive 'frequency'" [])
         end;
  let harmonics := numbers (config !! "harmonics") positive in
  let amplitudes := pad_amplitudes harmonics (numbers (config !! "amplitudes") (fun _ => true)) in
  noise ← float_checked config "noise_level" f_0_05 (fun n => f64_lt n (f64_of_Z 0) || f64_gt n (f64_of_Z 1))
            "noise_level must be between 0 and 1";
  let rate := match getFloat64 config "sample_rate" with Some r => if positive r then r else f64_of_Z 1000 | None => f64_of_Z 1000 end in
  Ok {| frequency := freq; harmonics := harmonics; amplitudes := amplitudes; noiseLevel := noise; sampleRate := rate;
        sampleTime := f64_of_Z 0; timeStep := f64_div (f64_of_Z 1) rate; ss_initialized := false |}.

Definition ss_at (g : signalSynthesis) (t : float64) (init : bool) : signalSynthesis :=
  {| frequency := frequency g; harmonics := harmonics g; amplitudes := amplitudes g; noiseLevel := noiseLevel g;
     sampleRate := sampleRate g; sampleTime := t; timeStep := timeStep g; ss_initialized := init |}.

Definition ss_Initialize (g : signalSynthesis) : signalSynthesis := ss_at g (f64_of_Z 0) true.
Definition ss_Reset (g : signalSynthesis) : signalSynthesis := ss_at g (f64_of_Z 0) (ss_initialized g).

(** [2*math.Pi*freq*t]. *)
Definition phase (freq t : float64) : float64 := f64_mul (f64_mul two_pi freq) t.

(** The harmonics from the [i]-th on; amplitude [i + 1] may be out of range. *)
Fixpoint add_harmonics (g : signalSynthesis) (i : nat) (hs : list float64) (signal : float64) : result float64 :=
  match hs with
  | [] => Ok signal
  | harmonic :: hs =>
      match amplitudes g !! (i + 1)%nat with
      | None => Panic
      | Some amplitude =>
          add_harmonics g (i + 1) hs
            (f64_add signal (f64_mul amplitude (math_Sin (phase (f64_mul (frequency g) harmonic) (sampleTime g)))))
      end
  end.

Definition attenuate (g : signalSynthesis) (signal : float64) : float64 :=
  let nyquist := f64_div (sampleRate g) (f64_of_Z 2) in
  let maxFreq := match last (harmonics g) with Some h => f64_mul (frequency g) h | None => frequency g end in
  if f64_gt maxFreq nyquist then f64_mul signal (f64_div nyquist maxFreq) else signal.

(** The sample counter wraps after an hour. *)
Definition next_time (g : signalSynthesis) : float64 :=
  let t := f64_add (sampleTime g) (timeStep g) in
  if f64_gt t (f64_of_Z 3600) then f64_sub t (f64_of_Z 3600) else t.

Definition ss_Generate (rnd : nat -> float64) (g : signalSynthesis) : result float64 * signalSynthesis :=
  let g := if ss_initialized g then g else ss_at g (f64_of_Z 0) true in
  match
    match amplitudes g !! 0%nat with
    | None => Panic
    | Some amplitude =>
        add_harmonics g 0 (harmonics g) (f64_mul amplitude (math_Sin (phase (frequency g) (sampleTime g))))
    end
  with
  | Ok signal =>
      let signal := if f64_gt (noiseLevel g) (f64_of_Z 0) then
                      f64_add signal (f64_mul (f64_mul (f64_sub (rnd O) half) (f64_of_Z 2)) (noiseLevel g))
                    else signal in
      (Ok (attenuate g signal), ss_at g (next_time g) true)
  | r => (r, g)
  end.

(** ** Load patterns (stress_pattern.go) *)

Record stressPattern : Type := {
  pattern : string; period : Z; burstFactor : float64; baselineRate : float64; startTime : gotime; sp_initialized : bool }.

Definition stress_patterns : list string := ["sine_burst"; "square_wave"; "sawtooth"].

Definition NewStressPatternGenerator (config : fields) : result stressPattern :=
  match as_string (config !! "pattern") with
  | None => Err (Errorf "stress_pattern requires 'pattern' type" [])
  | Some pattern =>
      if negb (bool_decide (pattern ∈ stress_patterns)) then
        Err (Errorf "unknown pattern type: %s (valid: sine_burst, square_wave, sawtooth)" [AS pattern])
      else
        period ← positive_duration config "period" Minute "invalid period: %w" "period must be positive";
        factor ← float_checked config "burst_factor" (f64_of_Z 100) (fun f => f64_le f (f64_of_Z 1)) "burst_factor must be greater than 1";
        rate ← float_checked config "baseline_rate" (f64_of_Z 1000) (fun r => f64_le r (f64_of_Z 0)) "baseline_rate must be positive";
        Ok {| pattern := pattern; period := period; burstFactor := factor; baselineRate := rate; startTime := zero_time;
              sp_initialized := false |}
  end.

Definition sp_start (g : stressPattern) (now : gotime) (init : bool) : stressPattern :=
  {| pattern := pattern g; period := period g; burstFactor := burstFactor g; baselineRate := baselineRate g; startTime := now;
     sp_initialized := init |}.

Definition sp_Initialize (now : gotime) (g : stressPattern) : stressPattern := sp_start g now true.
Definition sp_Reset (now : gotime) (g : stressPattern) : stressPattern := sp_start g now (sp_initialized g).

(** The position in the cycle, [now] being the clock of time.Since. *)
Definition position (g : stressPattern) (now : gotime) : float64 :=
  let elapsed := duration_sub (instant now) (instant (startTime g)) in
  f64_div (math_Mod (Seconds elapsed) (Seconds (period g))) (Seconds (period g)).

(** [baselineRate + (burstFactor-1)*baselineRate*factor]. *)
Definition ramp (g : stressPattern) (factor : float64) : float64 :=
  f64_add (baselineRate g) (f64_mul (f64_mul (f64_sub (burstFactor g) (f64_of_Z 1)) (baselineRate g)) factor).

Definition sp_value (g : stressPattern) (pos : float64) : float64 :=
  if String.eqb (pattern g) "sine_burst" then
    let sineValue := math_Sin (f64_mul two_pi pos) in
    if f64_gt sineValue (f64_of_Z 0) then ramp g (f64_mul sineValue sineValue) else baselineRate g
  else if String.eqb (pattern g) "square_wave" then
    if f64_lt pos half then f64_mul (baselineRate g) (burstFactor g) else baselineRate g
  else if String.eqb (pattern g) "sawtooth" then
    if f64_lt pos f_0_9_ then ramp g (f64_div pos f_0_9_)
    else ramp g (f64_div (f64_sub (f64_of_Z 1) pos) tenth)
  else baselineRate g.

(** [now] starts an uninitialized pattern, [later] is the clock of time.Since. *)
Definition sp_Generate (now later : gotime) (g : stressPattern) : float64 * stressPattern :=
  let g := if sp_initialized g then g else sp_start g now true in
  (math_Max (f64_of_Z 0) (sp_value g (position g later)), g).
End waves.

(** ** Laws *)

Section laws.
Context `{GoLib, MathLib}.

(** *** Bursts *)

(** A run of calls, each with its draws and its clock: the states after them. *)
Fixpoint nb_run (calls : list ((nat -> float64) * gotime)) (g : networkBurst) : list (float64 * networkBurst) :=
  match calls with
  | [] => []
  | (rnd, now) :: calls => let r := nb_Generate rnd now g in r :: nb_run calls r.2
  end.

Definition same_burst (g g' : networkBurst) : Prop :=
  baseline g' = baseline g /\ burstProbability g' = burstProbability g /\ burstMultiplier g' = burstMultiplier g /\
  burstDuration g' = burstDuration g.

(** What one call of an initialized generator does to the burst. *)
Lemma nb_step rnd now g :
  nb_initialized g = true ->
  let g' := (nb_Generate rnd now g).2 in
  let continues := inBurst g && negb (After now (burstEndTime g)) in
  let starts := negb continues && f64_lt (rnd O) (burstProbability g) in
  inBurst g' = continues || starts /\
  burstEndTime g' = (if starts then Add now (burstDuration g) else burstEndTime g) /\
  nb_initialized g' = true /\ same_burst g g'.
Proof.
  intros I. unfold nb_Generate, nb_burst. rewrite I. destruct (inBurst g) eqn:B; [destruct (After now (burstEndTime g))|].
  all: cbn [andb negb orb inBurst nb_set]; rewrite ?B; cbn [andb negb orb inBurst].
  all: try (destruct (f64_lt _ _)); cbn; rewrite ?I, ?B; by split_and!.
Qed.

(** A burst lasts for its duration: from the call that starts it, every call
    whose clock has not passed its end is in the burst and keeps that end,
    whatever the draws; the first call after the end is in a burst again
    exactly if its own draw starts one. *)
Theorem burst_lasts g calls rnd now :
  nb_initialized g = true -> inBurst g = true ->
  Forall (fun c => After c.2 (burstEndTime g) = false) calls ->
  After now (burstEndTime g) = true ->
  Forall (fun r => inBurst r.2 = true /\ burstEndTime r.2 = burstEndTime g) (nb_run calls g) /\
  exists v g', last (nb_run (calls ++ [(rnd, now)]) g) = Some (v, g') /\
    inBurst g' = f64_lt (rnd O) (burstProbability g) /\
    (inBurst g' = true -> burstEndTime g' = Add now (burstDuration g)).
Proof.
  revert g. induction calls as [|[r t] calls IH]; intros g I B F A.
  - split; [constructor|]. pose proof (nb_step rnd now g I) as (Ib & Ie & _). rewrite B, A in Ib, Ie. cbn [andb negb orb] in Ib, Ie.
    cbn [app nb_run last]. destruct (nb_Generate rnd now g) as [v g']. cbn [snd] in *. exists v, g'. split_and!; [done|done|].
    rewrite Ib. intros E. by rewrite E in Ie.
  - apply Forall_cons in F as [N F]. cbn [snd] in N.
    pose proof (nb_step r t g I) as (Ib & Ie & I' & S). rewrite B, N in Ib, Ie. cbn [andb negb orb] in Ib, Ie.
    cbn [nb_run app]. destruct (nb_Generate r t g) as [v g'] eqn:G. cbn [snd] in *.
    destruct S as (_ & Sp & _ & Sd). rewrite <- Ie in F, A. destruct (IH g' I' Ib F A) as (Fr & v' & g2 & L & P).
    split.
    + constructor; [by split|]. by rewrite Ie in Fr.
    + exists v', g2. rewrite Sp, Sd in P. split; [|done]. destruct (nb_run (calls ++ [(rnd, now)]) g'); [done|]. exact L.
Qed.

(** Traffic is never negative, whatever is drawn and whatever the clock. *)
Lemma network_never_negative calls g :
  nonneg (lastValue g) = true -> nonneg (baseline g) = true ->
  Forall (fun r => nonneg r.1 = true) (nb_run calls g).
Proof.
  revert g. induction calls as [|[r t] calls IH]; intros g L B; [constructor|]. cbn [nb_run].
  assert (nonneg (nb_Generate r t g).1 = true /\ lastValue (nb_Generate r t g).2 = (nb_Generate r t g).1 /\
    baseline (nb_Generate r t g).2 = baseline g) as (N & E & Eb).
  { unfold nb_Generate. destruct (nb_burst r t g) as [g1 k] eqn:S. cbn [fst snd].
    assert (baseline g1 = baseline g /\ nonneg (lastValue g1) = true) as [E1 N1].
    { unfold nb_burst in S. repeat case_match; injection S as <- _; by split. }
    split_and!; [|done|by rewrite <- E1]. apply f64_add_nonneg; apply f64_mul_nonneg; try done. apply math_Max_nonneg. }
  constructor; [done|]. apply IH; by rewrite ?E, ?Eb.
Qed.

(** *** Signals *)

(** An amplitude for the fundamental and for each harmonic. *)
Definition ss_safe (g : signalSynthesis) : Prop := (length (harmonics g) < length (amplitudes g))%nat.

Lemma pad_amplitudes_length hs amps : (length hs < length (pad_amplitudes hs amps))%nat.
Proof.
  unfold pad_amplitudes. destruct (Nat.ltb_spec 0 (length hs)) as [L|L].
  - rewrite length_take, length_app, length_replicate. lia.
  - destruct (Nat.eqb_spec (length amps) 0); cbn; lia.
Qed.

Lemma NewSignalSynthesis_safe config g : NewSignalSynthesisGenerator config = Ok g -> ss_safe g.
Proof.
  unfold NewSignalSynthesisGenerator. intros E. apply res_bind_ok in E as (freq & _ & E).
  apply res_bind_ok in E as (noise & _ & E). injection E as <-. apply pad_amplitudes_length.
Qed.

Lemma add_harmonics_ok g i hs signal :
  (i + length hs < length (amplitudes g))%nat -> exists f, add_harmonics g i hs signal = Ok f.
Proof.
  revert i signal. induction hs as [|h hs IH]; intros i signal L; [by eexists|]. cbn [add_harmonics length] in *.
  destruct (lookup_lt_is_Some_2 (amplitudes g) (i + 1)) as [a ->]; [lia|]. apply IH. lia.
Qed.

(** A sample is always produced, and the generator stays safe. *)
Lemma ss_Generate_safe rnd g : ss_safe g -> (exists f, (ss_Generate rnd g).1 = Ok f) /\ ss_safe (ss_Generate rnd g).2.
Proof.
  intros S. unfold ss_Generate. set (g' := if ss_initialized g then g else _).
  assert (ss_safe g') as S' by (unfold g'; by destruct (ss_initialized g)). clearbody g'.
  unfold ss_safe in S'. destruct (lookup_lt_is_Some_2 (amplitudes g') 0) as [a E]; [lia|].
  rewrite E. destruct (add_harmonics_ok g' 0 (harmonics g') (f64_mul a (math_Sin (phase (frequency g') (sampleTime g'))))) as [f ->]; [lia|].
  by split; [eexists|].
Qed.

(** *** Load patterns *)

Lemma sp_never_negative now later g : nonneg (sp_Generate now later g).1 = true.
Proof. apply math_Max_nonneg. Qed.
End laws.
