(* ===== verification/GenFields.v ===== *)
(** * GenFields: the field generators
    (tools/generator/internal/generator/generators)

    The generators a template can name, with their constructors from a
    configuration, and the registry that holds them.  A call draws from
    [draws]: what its source of random numbers, the clock and the UUID library
    answer; a generator inside another one draws from the next level. *)
From S2P Require Import Prelude GoInt GoStr GoFloat GoTime Values Convert GenIterator GenPattern GenEngine FloatOrder GenWaves.

(** ** Draws *)

Record draw : Type := {
  Float64 : nat -> float64;                 (* the k-th call, in [0, 1) *)
  NormFloat64 : float64;
  Int63n : Z -> Z;
  Intn : nat -> Z -> Z;                     (* the k-th call *)
  Now : gotime;
  Later : gotime;                           (* a second reading of the clock *)
  new_uuid : string;
  map_order : patternDef -> list (string * componentDef);
  Int63n_range n : 0 < n -> 0 <= Int63n n < n;
  Intn_range k n : 0 < n -> 0 <= Intn k n < n
}.
Definition draws : Type := nat -> draw.
Definition deeper (d : draws) : draws := fun level => d (S level).

(** ** Generators *)

Inductive FieldGen : Type :=
  | addGenerator (sources : list string)
  | minGenerator (sources : list string) (multiply : float64)
  | maxGenerator (sources : list string) (multiply : float64)
  | multiplyGenerator (source : string) (factor add : float64)
  | sequenceGenerator (current start stop step : Z) (repeat : bool)
  | constantGenerator (v : value)
  | uuidGenerator
  | randomIntGenerator (min max : Z)
  | randomFloatGenerator (min max : float64)
  | randomStringGenerator (length : Z) (charset : string)
  | weightedChoiceGenerator (choices : list (value * float64)) (cumulativeWeights : list float64) (totalWeight : float64)
  | timestampGenerator (currentTime : gotime) (interval : Z) (format mode : string) (windowSize : Z)
  | errorInjectionGenerator (normal : FieldGen) (errorRate : float64) (errors : list (value * float64))
      (cumulativeWeights : list float64) (totalWeight : float64)
  | brownianMotionGenerator (base volatility minBound maxBound drift currentValue : float64) (initialized : bool)
  | chaosGenerator (modes : list (string * float64)) (base : FieldGen) (nullCount malformedCount extremeCount normalCount : Z)
  | patternGenerator_ (g : patternCompositeGenerator)
  | networkBurstGenerator (g : networkBurst)
  | signalSynthesisGenerator (g : signalSynthesis)
  | stressPatternGenerator (g : stressPattern).

Section fields.
Context `{GoLib, Codecs, MapIter, MathLib} (Sprintf_d : string -> Z -> string) (time_Format : gotime -> string -> string).
Context (Sscanf_range : string -> option (Z * Z)) (Sscanf_int : string -> option Z).

(** *** Calculators (add.go, min.go, max.go, multiply.go) *)

Definition source_string (v : value) : result string :=
  match v with VString s => Ok s | _ => Err (Errorf "all sources must be strings" []) end.

Definition parse_sources (kind : string) (config : fields) : result (list string) :=
  match config !! "sources" with
  | None => Err (Errorf (kind +:+ " generator requires 'sources' configuration parameter") [])
  | Some (VSlice []) => Err (Errorf "sources array cannot be empty" [])
  | Some (VSlice sourcesSlice) => mapM source_string sourcesSlice
  | Some _ => Err (Errorf "sources must be an array" [])
  end.

Definition NewAddGenerator (config : fields) : result FieldGen :=
  sources ← parse_sources "add" config; Ok (addGenerator sources).

(** The optional multiplier, and the other optional floats. *)
Definition float_or (config : fields) (key : string) (dflt : float64) : float64 := default dflt (as_float64 (config !! key)).

Definition NewMinGenerator (config : fields) : result FieldGen :=
  sources ← parse_sources "min" config; Ok (minGenerator sources (float_or config "multiply" (f64_of_Z 1))).
Definition NewMaxGenerator (config : fields) : result FieldGen :=
  sources ← parse_sources "max" config; Ok (maxGenerator sources (float_or config "multiply" (f64_of_Z 1))).

Definition NewMultiplyGenerator (config : fields) : result FieldGen :=
  match config !! "source" with
  | None => Err (Errorf "multiply generator requires 'source' configuration parameter" [])
  | Some (VString source) =>
      if String.eqb source "" then Err (Errorf "source cannot be empty" [])
      else match config !! "factor" with
           | None => Err (Errorf "multiply generator requires 'factor' configuration parameter" [])
           | Some (VFloat64 factor) => Ok (multiplyGenerator source factor (float_or config "add" (f64_of_Z 0)))
           | Some _ => Err (Errorf "factor must be a float64" [])
           end
  | Some _ => Err (Errorf "source must be a string" [])
  end.

Definition source_value (record : fields) (source : string) : result float64 :=
  match record !! source with
  | None => Err (Errorf "source field '%s' not found in record" [AS source])
  | Some v =>
      match getFloatFromInterface v with
      | Some f => Ok f
      | None => Err (Errorf "source field '%s' has non-numeric value: %T" [AS source; AT (Some v)])
      end
  end.

Fixpoint sum_sources (sources : list string) (record : fields) (sum : float64) : result float64 :=
  match sources with
  | [] => Ok sum
  | source :: sources => v ← source_value record source; sum_sources sources record (f64_add sum v)
  end.

(** The loop of min and max: [better v best] when v replaces it. *)
Fixpoint best_source (better : float64 -> float64 -> bool) (sources : list string) (record : fields) (best : option float64)
    : result (option float64) :=
  match sources with
  | [] => Ok best
  | source :: sources =>
      v ← source_value record source;
      best_source better sources record
        (match best with None => Some v | Some b => if better v b then Some v else Some b end)
  end.

Definition extremum (kind : string) (better : float64 -> float64 -> bool) (sources : list string) (multiply : float64) (record : fields)
    : result value :=
  if (length sources =? 0)%nat then Err (Errorf ("no source fields configured for " +:+ kind +:+ " generator") [])
  else
    best ← best_source better sources record None;
    match best with
    | None => Err (Errorf "no valid numeric values found in source fields" [])
    | Some b => Ok (VFloat64 (f64_mul b multiply))
    end.

Definition add_GenerateWithContext (sources : list string) (record : fields) : result value :=
  VFloat64 <$> sum_sources sources record (f64_of_Z 0).
Definition min_GenerateWithContext : list string -> float64 -> fields -> result value := extremum "min" f64_lt.
Definition max_GenerateWithContext : list string -> float64 -> fields -> result value := extremum "max" f64_gt.
Definition multiply_GenerateWithContext (source : string) (factor add : float64) (record : fields) : result value :=
  v ← source_value record source; Ok (VFloat64 (f64_add (f64_mul v factor) add)).

(** GenerateWithContext of the generators that have it. *)
Definition gen_with_context (g : FieldGen) : option (fields -> result value) :=
  match g with
  | addGenerator sources => Some (add_GenerateWithContext sources)
  | minGenerator sources multiply => Some (min_GenerateWithContext sources multiply)
  | maxGenerator sources multiply => Some (max_GenerateWithContext sources multiply)
  | multiplyGenerator source factor add => Some (multiply_GenerateWithContext source factor add)
  | _ => None
  end.

(** *** Choices (weighted_choice.go, error_injection.go) *)

Fixpoint choose {A} (choices : list A) (cumulativeWeights : list float64) (target : float64) : option A :=
  match choices, cumulativeWeights with
  | c :: choices, w :: cumulativeWeights => if f64_lt target w then Some c else choose choices cumulativeWeights target
  | _, _ => None
  end.

(** The chosen value, or the last one; indexing an empty slice panics. *)
Definition pick (choices : list (value * float64)) (cumulativeWeights : list float64) (target : float64) : result value :=
  match choose choices cumulativeWeights target with
  | Some (v, _) => Ok v
  | None => match last choices with Some (v, _) => Ok v | None => Panic end
  end.

(** The loop over the choices: [weight_of] reads a weight. *)
Fixpoint parse_choices (what : string) (weight_of : value -> option float64) (i : Z) (vs : list value) (total : float64)
    : result (list (value * float64) * list float64 * float64) :=
  match vs with
  | [] => Ok ([], [], total)
  | VMap choiceMap :: vs =>
      match choiceMap !! "value" with
      | None => Err (Errorf (what +:+ " at index %d missing 'value' field") [AZ i])
      | Some v =>
          match choiceMap !! "weight" with
          | None => Err (Errorf (what +:+ " at index %d missing 'weight' field") [AZ i])
          | Some weightRaw =>
              match weight_of weightRaw with
              | None => Err (Errorf "weight at index %d must be a number" [AZ i])
              | Some weight =>
                  if f64_le weight (f64_of_Z 0) then Err (Errorf "weight at index %d must be positive" [AZ i])
                  else
                    let total := f64_add total weight in
                    '(cs, ws, total') ← parse_choices what weight_of (i + 1) vs total;
                    Ok ((v, weight) :: cs, total :: ws, total')
              end
          end
      end
  | _ :: _ => Err (Errorf (what +:+ " at index %d must be an object") [AZ i])
  end.

(** A weighted choice reads int and float64 weights. *)
Definition choice_weight (v : value) : option float64 :=
  match v with VInt n => Some (f64_of_Z n) | VFloat64 f => Some f | _ => None end.

Definition NewWeightedChoiceGenerator (config : fields) : result FieldGen :=
  match config !! "choices" with
  | None => Err (Errorf "weighted_choice generator requires 'choices' configuration parameter" [])
  | Some (VSlice []) => Err (Errorf "choices array cannot be empty" [])
  | Some (VSlice vs) =>
      '(cs, ws, total) ← parse_choices "choice" choice_weight 0 vs (f64_of_Z 0);
      Ok (weightedChoiceGenerator cs ws total)
  | Some _ => Err (Errorf "choices must be an array" [])
  end.

(** *** Simple generators (sequence.go, constant.go, uuid.go, random.go) *)

Definition int_or (config : fields) (key : string) (dflt : Z) : Z := match config !! key with Some (VInt n) => n | _ => dflt end.

Definition NewSequenceGenerator (config : fields) : result FieldGen :=
  let start := int_or config "start" 1 in
  Ok (sequenceGenerator start start (int_or config "end" max_int64) (int_or config "step" 1)
        (default false (as_bool (config !! "repeat")))).

Definition sequence_Generate (current start stop step : Z) (repeat : bool) : result value * FieldGen :=
  if (stop <? current) && negb repeat then
    (Err (Errorf "sequence exceeded end value %d" [AZ stop]), sequenceGenerator current start stop step repeat)
  else
    let current := if stop <? current then start else current in
    (Ok (VInt64 current), sequenceGenerator (wrap64 (current + step)) start stop step repeat).

Definition NewConstantGenerator (config : fields) : result FieldGen :=
  match config !! "value" with
  | None => Err (Errorf "constant generator requires 'value' configuration parameter" [])
  | Some v => Ok (constantGenerator v)
  end.

Definition NewRandomIntGenerator (config : fields) : result FieldGen :=
  match getFloat64 config "min" with
  | None => Err (Errorf "min value is required" [])
  | Some minVal =>
      match getFloat64 config "max" with
      | None => Err (Errorf "max value is required" [])
      | Some maxVal =>
          if to_int64 maxVal <=? to_int64 minVal then Err (Errorf "min value must be less than max value" [])
          else Ok (randomIntGenerator (to_int64 minVal) (to_int64 maxVal))
      end
  end.

(** [Int63n] panics for an argument that is not positive. *)
Definition randomInt_Generate (d : draw) (min max : Z) : result value :=
  let n := wrap64 (max - min) in
  if n <=? 0 then Panic else Ok (VInt64 (wrap64 (min + Int63n d n))).

Definition NewRandomFloatGenerator (config : fields) : result FieldGen :=
  match getFloat64 config "min" with
  | None => Err (Errorf "min value is required" [])
  | Some minVal =>
      match getFloat64 config "max" with
      | None => Err (Errorf "max value is required" [])
      | Some maxVal =>
          if f64_ge minVal maxVal then Err (Errorf "min value must be less than max value" [])
          else Ok (randomFloatGenerator minVal maxVal)
      end
  end.

Definition alphanumeric : string := "abcdefghijklmnopqrstuvwxyzABCDEFGHIJKLMNOPQRSTUVWXYZ0123456789".

Definition NewRandomStringGenerator (config : fields) : result FieldGen :=
  length ← match config !! "length" with
           | Some (VInt n) => if n <=? 0 then Err (Errorf "length must be positive" []) else Ok n
           | _ => Ok 10
           end;
  charset ← match config !! "charset" with
            | Some (VString cs) => if String.eqb cs "" then Err (Errorf "charset cannot be empty" []) else Ok cs
            | _ => Ok alphanumeric
            end;
  Ok (randomStringGenerator length charset).

Definition randomString_Generate (d : draw) (length : Z) (charset : string) : result value :=
  cs ← mapM (fun k => match byte_at charset (Intn d k (len charset)) with Some c => Ok c | None => Panic end) (seq 0 (Z.to_nat length));
  Ok (VString (String.string_of_list_ascii cs)).

(** *** Timestamps (timestamp.go); [now] is time.Now at the construction *)

Definition NewTimestampGenerator (now : gotime) (config : fields) : result FieldGen :=
  currentTime ← match as_string (config !! "start") with
                | Some startStr => map_err (fun err => Wrapf "invalid start time format: %w" [] err) (time_Parse RFC3339 startStr)
                | None => Ok now
                end;
  interval ← match as_string (config !! "interval") with Some s => parse_duration "invalid interval format: %w" s | None => Ok Second end;
  let format := default RFC3339 (as_string (config !! "format")) in
  mode ← match as_string (config !! "mode") with
         | Some m =>
             if bool_decide (m ∈ ["fixed"; "now"; "relative"; "sliding_window"]) then Ok m
             else Err (Errorf "invalid timestamp mode: %s" [AS m])
         | None => Ok "fixed"
         end;
  currentTime ← (if String.eqb mode "relative" then
                   match as_string (config !! "offset") with
                   | Some s => offset ← parse_duration "invalid offset format: %w" s; Ok (Add now offset)
                   | None => Ok currentTime
                   end
                 else Ok currentTime);
  windowSize ← (if String.eqb mode "sliding_window" then
                  match as_string (config !! "window") with Some s => parse_duration "invalid window format: %w" s | None => Ok (5 * Minute) end
                else Ok 0);
  Ok (timestampGenerator currentTime interval format mode windowSize).

Definition timestamp_Generate (d : draw) (currentTime : gotime) (interval : Z) (format mode : string) (windowSize : Z) : value * FieldGen :=
  let timestamp :=
    if String.eqb mode "now" then Now d
    else if String.eqb mode "sliding_window" then
      Add (Add (Now d) (wrap64 (- windowSize))) (to_int64 (f64_mul (f64_of_Z windowSize) half))
    else currentTime in
  let next := if String.eqb mode "now" || String.eqb mode "sliding_window" then currentTime else Add currentTime interval in
  (VString (time_Format timestamp format), timestampGenerator next interval format mode windowSize).

(** *** Brownian motion (brownian.go) *)

Definition float_of (v : option value) : option float64 := v ← v; getFloatFromInterface v.

Definition NewBrownianMotionGenerator (config : fields) : result FieldGen :=
  match getFloat64 config "base" with
  | None => Err (Errorf "brownian_motion requires 'base' value" [])
  | Some base =>
      volatility ← match getFloat64 config "volatility" with
                   | Some vol => if f64_le vol (f64_of_Z 0) then Err (Errorf "volatility must be positive" []) else Ok vol
                   | None => Ok tenth
                   end;
      '(minBound, maxBound) ←
        match as_slice (config !! "bounds") with
        | Some [lo; hi] =>
            let minBound := default (Inf true) (getFloatFromInterface lo) in
            let maxBound := default (Inf false) (getFloatFromInterface hi) in
            if f64_ge minBound maxBound then Err (Errorf "invalid bounds: min must be less than max" [])
            else if f64_lt base minBound || f64_gt base maxBound then
              Err (Errorf "base value %.2f outside bounds [%.2f, %.2f]" [AF base; AF minBound; AF maxBound])
            else Ok (minBound, maxBound)
        | _ => Ok (Inf true, Inf false)
        end;
      Ok (brownianMotionGenerator base volatility minBound maxBound (default (f64_of_Z 0) (getFloat64 config "drift")) base false)
  end.

(** Reflection at the bounds, then the clamp. *)
Definition reflect (minBound maxBound x : float64) : float64 :=
  if f64_lt x minBound then f64_add minBound (f64_sub minBound x)
  else if f64_gt x maxBound then f64_sub maxBound (f64_sub x maxBound)
  else x.

Definition brownian_next (volatility minBound maxBound drift z current : float64) : float64 :=
  let change := f64_add (f64_mul volatility z) drift in
  math_Max minBound (math_Min maxBound (reflect minBound maxBound (f64_add current change))).

Definition brownian_Generate (d : draw) (base volatility minBound maxBound drift currentValue : float64) (initialized : bool) : value * FieldGen :=
  let current := if initialized then currentValue else base in
  let newValue := brownian_next volatility minBound maxBound drift (NormFloat64 d) current in
  (VFloat64 newValue, brownianMotionGenerator base volatility minBound maxBound drift newValue true).

(** *** Chaos (chaos.go) *)

Definition chaos_types : list string := ["null_injection"; "malformed_data"; "extreme_values"].

Fixpoint parse_modes (i : Z) (vs : list value) : result (list (string * float64)) :=
  match vs with
  | [] => Ok []
  | VMap modeMap :: vs =>
      match as_string (modeMap !! "type") with
      | None => Err (Errorf "mode %d requires 'type'" [AZ i])
      | Some modeType =>
          if negb (bool_decide (modeType ∈ chaos_types)) then Err (Errorf "unknown chaos mode: %s" [AS modeType])
          else match getFloat64 modeMap "probability" with
               | Some prob =>
                   if f64_lt prob (f64_of_Z 0) || f64_gt prob (f64_of_Z 1) then
                     Err (Errorf "mode %d requires 'probability' between 0 and 1" [AZ i])
                   else ms ← parse_modes (i + 1) vs; Ok ((modeType, prob) :: ms)
               | None => Err (Errorf "mode %d requires 'probability' between 0 and 1" [AZ i])
               end
      end
  | _ :: _ => Err (Errorf "mode %d is not a map" [AZ i])
  end.

Definition replacement_chars : string :=
  string_of_bytes (concat (replicate 5 [Byte.xef; Byte.xbf; Byte.xbd])).

Definition malformedTypes : list value :=
  [VString "NaN"; VFloat64 f64_nan; VFloat64 (Inf false); VFloat64 (Inf true); VString "undefined"; VString "null"; VString "";
   VString replacement_chars; VMap ∅; VSlice []; VString (string_of_bytes [Byte.x00; Byte.x01; Byte.x02]);
   VString "9999999999999999999999999999"].

Definition extremeValues : list value :=
  (VFloat64 <$> (Float64frombits <$>
     [0x7fefffffffffffff; 0xffefffffffffffff; 1; 0x7fe1ccf385ebc8a0; 0xffe1ccf385ebc8a0; 0; 0x8000000000000000;
      0x000730d67819e8d2; 0x800730d67819e8d2])) ++ [VInt64 max_int64; VInt64 min_int64].

(** [generated] is what the normal generator gives if it is asked. *)
Definition errorInjection_Generate (d : draw) (normal : FieldGen) (errorRate : float64) (errors : list (value * float64))
    (ws : list float64) (total : float64) (generated : result value * FieldGen) : result value * FieldGen :=
  if f64_lt (Float64 d 0) errorRate then
    (pick errors ws (f64_mul (Float64 d 1) total), errorInjectionGenerator normal errorRate errors ws total)
  else let '(r, normal) := generated in (r, errorInjectionGenerator normal errorRate errors ws total).

(** The first mode whose draw falls below its probability; [k] draws were made. *)
Fixpoint chaos_mode (d : draw) (modes : list (string * float64)) (k : nat) : option (string * nat) :=
  match modes with
  | [] => None
  | (type, probability) :: modes => if f64_lt (Float64 d k) probability then Some (type, k) else chaos_mode d modes (S k)
  end.

Definition element (vs : list value) (i : Z) : result value :=
  if i <? 0 then Panic else match vs !! Z.to_nat i with Some v => Ok v | None => Panic end.

(** ** Generate *)

Fixpoint gen_generate (d : draws) (g : FieldGen) : result value * FieldGen :=
  match g with
  | addGenerator _ => (Err (Errorf "add generator requires GenerateWithContext support" []), g)
  | minGenerator _ _ => (Err (Errorf "min generator requires GenerateWithContext support" []), g)
  | maxGenerator _ _ => (Err (Errorf "max generator requires GenerateWithContext support" []), g)
  | multiplyGenerator _ _ _ => (Err (Errorf "multiply generator requires GenerateWithContext support" []), g)
  | sequenceGenerator current start stop step repeat => sequence_Generate current start stop step repeat
  | constantGenerator v => (Ok v, g)
  | uuidGenerator => (Ok (VString (new_uuid (d O))), g)
  | randomIntGenerator min max => (randomInt_Generate (d O) min max, g)
  | randomFloatGenerator min max => (Ok (VFloat64 (f64_add min (f64_mul (Float64 (d O) 0) (f64_sub max min)))), g)
  | randomStringGenerator length charset => (randomString_Generate (d O) length charset, g)
  | weightedChoiceGenerator choices ws total => (pick choices ws (f64_mul (Float64 (d O) 0) total), g)
  | timestampGenerator currentTime interval format mode windowSize =>
      let '(v, g) := timestamp_Generate (d O) currentTime interval format mode windowSize in (Ok v, g)
  | errorInjectionGenerator normal errorRate errors ws total =>
      errorInjection_Generate (d O) normal errorRate errors ws total (gen_generate (deeper d) normal)
  | brownianMotionGenerator base volatility minBound maxBound drift currentValue initialized =>
      let '(v, g) := brownian_Generate (d O) base volatility minBound maxBound drift currentValue initialized in (Ok v, g)
  | chaosGenerator modes base n m x c =>
      match chaos_mode (d O) modes 0 with
      | Some (type, k) =>
          if String.eqb type "null_injection" then (Ok VNil, chaosGenerator modes base (wrap64 (n + 1)) m x c)
          else if String.eqb type "malformed_data" then
            (element malformedTypes (Intn (d O) k (Z.of_nat (length malformedTypes))), chaosGenerator modes base n (wrap64 (m + 1)) x c)
          else (element extremeValues (Intn (d O) k (Z.of_nat (length extremeValues))), chaosGenerator modes base n m (wrap64 (x + 1)) c)
      | None => let '(r, base) := gen_generate (deeper d) base in (r, chaosGenerator modes base n m x (wrap64 (c + 1)))
      end
  | patternGenerator_ g =>
      match Generate_pattern Sprintf_d (map_order (d O)) g with
      | Ok (id, g) => (Ok (VString id), patternGenerator_ g)
      | Err err => (Err err, patternGenerator_ g)
      | Panic => (Panic, patternGenerator_ g)
      end
  | networkBurstGenerator g =>
      let '(v, g) := nb_Generate (Float64 (d O)) (Now (d O)) g in (Ok (VFloat64 v), networkBurstGenerator g)
  | signalSynthesisGenerator g =>
      let '(r, g) := ss_Generate (Float64 (d O)) g in (VFloat64 <$> r, signalSynthesisGenerator g)
  | stressPatternGenerator g =>
      let '(v, g) := sp_Generate (Now (d O)) (Later (d O)) g in (Ok (VFloat64 v), stressPatternGenerator g)
  end.

Definition field_generator : FieldGenerator FieldGen draws := {| Generate := gen_generate; GenerateWithContext := gen_with_context |}.

(** *** Generators around another one (error_injection.go, chaos.go)

    [create] is CreateGenerator for the generator inside. *)

Section nested.
Context (create : string -> fields -> result FieldGen).

Definition NewErrorInjectionGenerator (config : fields) : result FieldGen :=
  normalConfigMap ← match config !! "normal" with
                    | None => Err (Errorf "error_injection generator requires 'normal' configuration parameter" [])
                    | Some (VMap m) => Ok m
                    | Some _ => Err (Errorf "normal configuration must be an object" [])
                    end;
  normalType ← of_option (as_string (normalConfigMap !! "type"))
                 (Errorf "normal generator configuration must specify 'type'" []);
  normalGenConfigMap ← match normalConfigMap !! "config" with
                       | None => Ok ∅
                       | Some (VMap m) => Ok m
                       | Some _ => Err (Errorf "normal generator config must be an object" [])
                       end;
  normal ← map_err (fun err => Wrapf "failed to create normal generator: %w" [] err) (create normalType normalGenConfigMap);
  errorRate ← match config !! "error_rate" with
              | None => Err (Errorf "error_injection generator requires 'error_rate' configuration parameter" [])
              | Some v => of_option (getFloatFromInterface v) (Errorf "error_rate must be a number" [])
              end;
  if f64_lt errorRate (f64_of_Z 0) || f64_gt errorRate (f64_of_Z 1) then
    Err (Errorf "error_rate must be between 0.0 and 1.0" [])
  else
    match config !! "errors" with
    | None => Err (Errorf "error_injection generator requires 'errors' configuration parameter" [])
    | Some (VSlice []) => Err (Errorf "errors array cannot be empty" [])
    | Some (VSlice vs) =>
        '(cs, ws, total) ← parse_choices "error" getFloatFromInterface 0 vs (f64_of_Z 0);
        Ok (errorInjectionGenerator normal errorRate cs ws total)
    | Some _ => Err (Errorf "errors must be an array" [])
    end.

Definition default_base : fields := <["min" := VFloat64 (f64_of_Z 0)]> (<["max" := VFloat64 (f64_of_Z 100)]> ∅).

Definition createDefaultBaseGenerator : result FieldGen :=
  map_err (fun err => Wrapf "failed to create default base generator: %w" [] err) (create "random_float" default_base).

Definition parseBaseGenerator (config : fields) : result FieldGen :=
  match as_map (config !! "base") with
  | None => createDefaultBaseGenerator
  | Some baseConfig =>
      map_err (fun err => Wrapf "failed to create base generator: %w" [] err)
        (create (default "random_float" (as_string (baseConfig !! "type"))) (default default_base (as_map (baseConfig !! "config"))))
  end.

Definition NewChaosGenerator (config : fields) : result FieldGen :=
  match as_slice (config !! "modes") with
  | Some ((_ :: _) as modesRaw) =>
      modes ← parse_modes 0 modesRaw;
      base ← parseBaseGenerator config;
      Ok (chaosGenerator modes base 0 0 0 0)
  | _ => Err (Errorf "chaos requires 'modes' array" [])
  end.
End nested.

(** ** The registry the package's init functions fill

    A configuration that nests generators deeper than [depth] is not
    followed: [now] is the clock at the construction. *)

Definition unknown_generator (type : string) : error := Errorf "unknown generator type: %s" [AS type].

Definition factories : Type := list (string * (fields -> result FieldGen)).

(** Those that need no other generator and never panic on construction. *)
Definition plain_factories (now : gotime) : factories :=
  [("add", NewAddGenerator); ("brownian_motion", NewBrownianMotionGenerator); ("constant", NewConstantGenerator);
   ("max", NewMaxGenerator); ("min", NewMinGenerator); ("multiply", NewMultiplyGenerator);
   ("network_burst", fun config => networkBurstGenerator <$> NewNetworkBurstGenerator config);
   ("random_float", NewRandomFloatGenerator); ("random_int", NewRandomIntGenerator); ("random_string", NewRandomStringGenerator);
   ("sequence", NewSequenceGenerator);
   ("signal_synthesis", fun config => signalSynthesisGenerator <$> NewSignalSynthesisGenerator config);
   ("stress_pattern", fun config => stressPatternGenerator <$> NewStressPatternGenerator config);
   ("timestamp", NewTimestampGenerator now); ("uuid", fun _ => Ok uuidGenerator); ("weighted_choice", NewWeightedChoiceGenerator)].

Definition other_factories (create : string -> fields -> result FieldGen) : factories :=
  [("chaos", NewChaosGenerator create); ("error_injection", NewErrorInjectionGenerator create);
   ("pattern_composite", fun config => patternGenerator_ <$> NewPatternCompositeGenerator Sscanf_range Sscanf_int config)].

Definition register (create : string -> fields -> result FieldGen) (now : gotime) : registry FieldGen :=
  fold_left (fun r '(type, factory) => RegisterGenerator r type factory) (plain_factories now ++ other_factories create) ∅.

Fixpoint create_nested (depth : nat) (now : gotime) (type : string) (config : fields) : result FieldGen :=
  match depth with
  | O => Err (unknown_generator type)
  | S depth => CreateGenerator (register (create_nested depth now) now) type config
  end.
End fields.

(** ** Laws *)

Section laws.
Context `{GoLib, Codecs, MapIter, MathLib} (Sprintf_d : string -> Z -> string) (time_Format : gotime -> string -> string).
Abbreviation generate := (gen_generate Sprintf_d time_Format).

(** [n] calls of one generator; [ds k] is what the k-th draws. *)
Fixpoint run_field (n : nat) (ds : nat -> draws) (g : FieldGen) : list (result value) * FieldGen :=
  match n with
  | O => ([], g)
  | S n =>
      let '(r, g) := generate (ds O) g in
      let '(rs, g) := run_field n (fun k => ds (S k)) g in
      (r :: rs, g)
  end.

(** An invariant of one call holds along a run, with what it gives of each result. *)
Lemma run_field_inv (I : FieldGen -> Prop) (P : result value -> Prop) n ds g :
  (forall k g, I g -> P (generate (ds k) g).1 /\ I (generate (ds k) g).2) -> I g ->
  Forall P (run_field n ds g).1 /\ length (run_field n ds g).1 = n /\ I (run_field n ds g).2.
Proof.
  revert ds g. induction n as [|n IH]; intros ds g St Ig; [by split_and!|]. cbn [run_field].
  destruct (St 0%nat g Ig) as [Pr Ig']. destruct (generate (ds 0%nat) g) as [r g1]. cbn in Pr, Ig'.
  destruct (IH (fun k => ds (S k)) g1 (fun k => St (S k)) Ig') as (F & L & I'). destruct (run_field n _ g1) as [rs g2].
  cbn in *. split_and!; [by constructor|by rewrite L|done].
Qed.

(** *** Brownian motion stays in its bounds *)

Lemma reflect_not_nan lo hi x : is_finite lo = true -> is_finite hi = true -> IsNaN x = false -> IsNaN (reflect lo hi x) = false.
Proof.
  intros Fl Fh X. unfold reflect. destruct (f64_lt x lo).
  { apply (f64_add_not_nan lo); [done|]. by apply (f64_sub_not_nan lo x). }
  destruct (f64_gt x hi); [|done]. apply (f64_sub_not_nan hi); [done|]. by apply (f64_sub_not_nan hi x).
Qed.

(** C40. A Brownian motion with finite bounds, volatility and drift: every value it
    gives is in its bounds, for every sequence of finite normal draws. *)
Theorem brownian_bounded base volatility lo hi drift n ds :
  is_finite lo = true -> is_finite hi = true -> f64_lt lo hi = true -> f64_le lo base = true -> f64_le base hi = true ->
  is_finite volatility = true -> is_finite drift = true -> (forall k, is_finite (NormFloat64 (ds k 0%nat)) = true) ->
  let g := brownianMotionGenerator base volatility lo hi drift base false in
  length (run_field n ds g).1 = n /\
  Forall (fun r => exists v, r = Ok (VFloat64 v) /\ f64_le lo v = true /\ f64_le v hi = true) (run_field n ds g).1.
Proof.
  intros Fl Fh L Bl Bh Fv Fd Z g.
  set (I := fun g => exists current started, g = brownianMotionGenerator base volatility lo hi drift current started /\
    f64_le lo current = true /\ f64_le current hi = true).
  destruct (run_field_inv I (fun r => exists v, r = Ok (VFloat64 v) /\ f64_le lo v = true /\ f64_le v hi = true) n ds g) as (F & Ln & _); [| |done].
  - intros k g0 (c & st & -> & Cl & Ch). cbn [gen_generate]. unfold brownian_Generate.
    set (cur := if st then c else base). assert (f64_le lo cur = true /\ f64_le cur hi = true) as [Ul Uh] by (unfold cur; by destruct st).
    assert (is_finite cur = true) as Fc by by apply (finite_between lo hi).
    assert (IsNaN (f64_add cur (f64_add (f64_mul volatility (NormFloat64 (ds k 0%nat))) drift)) = false) as Nn.
    { apply (f64_add_not_nan cur); [done|]. apply (f64_add_not_nan drift); [done|]. by apply f64_mul_not_nan. }
    destruct (clamp_bounds lo hi _ Fl Fh L (reflect_not_nan lo hi _ Fl Fh Nn)) as [Rl Rh]. cbn [fst snd].
    split; [by eexists|by eexists _, true].
  - exists base, false. by split_and!.
Qed.

(** *** Sequences *)

(** The k-th value of a sequence of [n] values. *)
Definition nth_value (start step n : Z) (k : nat) : Z := start + (Z.of_nat k mod n) * step.

(** A sequence with a positive step counts from its start to its end: it gives
    the values start, start + step, ... up to the end, and after them starts
    again if it repeats and fails from then on otherwise. *)
Theorem sequence_exact start stop step repeat m ds k r :
  0 < step -> start <= stop -> min_int64 <= start -> stop + step <= max_int64 ->
  (run_field m ds (sequenceGenerator start start stop step repeat)).1 !! k = Some r ->
  let n := (stop - start) / step + 1 in
  r = if negb repeat && (n <=? Z.of_nat k) then Err (Errorf "sequence exceeded end value %d" [AZ stop])
      else Ok (VInt64 (nth_value start step n k)).
Proof.
  intros P L Lo Hi Lk n. assert (0 < n /\ start + (n - 1) * step <= stop /\ stop < start + n * step) as (N & N1 & N2).
  { unfold n. pose proof (Z.div_mod (stop - start) step). pose proof (Z.mod_pos_bound (stop - start) step P).
    assert (0 <= (stop - start) / step) by (apply Z.div_pos; lia). split_and!; lia. }
  assert (G : forall m ds i k r, 0 <= i <= n -> (run_field m ds (sequenceGenerator (start + i * step) start stop step repeat)).1 !! k = Some r ->
    r = if negb repeat && (n <=? i + Z.of_nat k) then Err (Errorf "sequence exceeded end value %d" [AZ stop])
        else Ok (VInt64 (start + ((i + Z.of_nat k) mod n) * step))).
  { clear Lk. clear m ds k r. induction m as [|m IH]; intros ds i k r I Lk; [done|]. cbn [run_field gen_generate] in Lk. unfold sequence_Generate in Lk.
    destruct (Z.ltb_spec stop (start + i * step)) as [Ex|In].
    - assert (i = n) as -> by nia. destruct repeat; cbn [negb andb] in *.
      + rewrite wrap64_id in Lk by (unfold_range; lia).
        specialize (IH (fun k => ds (S k)) 1). rewrite Z.mul_1_l in IH. destruct (run_field m _ _) as [rs g]. cbn [fst] in *. destruct k as [|k]; cbn in Lk.
        * injection Lk as <-. rewrite Z.add_0_r, Z_mod_same_full. do 2 f_equal. lia.
        * rewrite (IH k r ltac:(lia) Lk). replace (n + Z.of_nat (S k)) with (1 + Z.of_nat k + 1 * n) by lia. by rewrite Z_mod_plus_full.
      + specialize (IH (fun k => ds (S k)) n). destruct (run_field m _ _) as [rs g]. cbn [fst] in *. destruct k as [|k]; cbn in Lk.
        * injection Lk as <-. destruct (Z.leb_spec n (n + Z.of_nat 0)); [done|lia].
        * rewrite (IH k r ltac:(lia) Lk). destruct (Z.leb_spec n (n + Z.of_nat k)), (Z.leb_spec n (n + Z.of_nat (S k))); done || lia.
    - assert (i < n) by nia. cbn [andb] in Lk. rewrite wrap64_id in Lk by (unfold_range; nia).
      specialize (IH (fun k => ds (S k)) (i + 1)). replace (start + (i + 1) * step) with (start + i * step + step) in IH by lia.
      destruct (run_field m _ _) as [rs g]. cbn [fst] in *. destruct k as [|k]; cbn in Lk.
      + injection Lk as <-. rewrite Z.add_0_r. destruct (Z.leb_spec n i); [lia|]. rewrite andb_false_r, Z.mod_small by lia. done.
      + rewrite (IH k r ltac:(lia) Lk). replace (i + 1 + Z.of_nat k) with (i + Z.of_nat (S k)) by lia. done. }
  specialize (G m ds 0 k r ltac:(lia)). rewrite Z.mul_0_l, Z.add_0_r, Z.add_0_l in G. by apply G.
Qed.

(** *** Random integers *)

(** A random integer is in [min, max), unless the width of the range does not
    fit an int64: then the call panics. *)
Lemma randomInt_exact d min max :
  in_int64 min -> in_int64 max -> min < max ->
  if max - min <=? max_int64 then exists n, randomInt_Generate d min max = Ok (VInt64 n) /\ min <= n < max
  else randomInt_Generate d min max = Panic.
Proof.
  intros A B L. unfold randomInt_Generate. destruct (Z.leb_spec (max - min) max_int64) as [F|F].
  - rewrite wrap64_id by (unfold_range; lia). destruct (Z.leb_spec (max - min) 0); [lia|].
    pose proof (Int63n_range d (max - min) ltac:(lia)). rewrite wrap64_id by (unfold_range; lia). eexists. split; [done|]. lia.
  - assert (wrap64 (max - min) = max - min - 2 ^ 64) as ->.
    { assert ((max - min + 2 ^ 63) mod 2 ^ 64 = max - min + 2 ^ 63 - 2 ^ 64) as M
        by (symmetry; apply (Z.mod_unique_pos _ _ 1); unfold_range; lia). unfold wrap64. rewrite M. lia. }
    destruct (Z.leb_spec (max - min - 2 ^ 64) 0); [done|]. unfold_range. lia.
Qed.

(** *** Choices *)

Lemma parse_choices_shape what weight_of i vs total cs ws total' :
  parse_choices what weight_of i vs total = Ok (cs, ws, total') ->
  length cs = length vs /\ length ws = length vs /\
  Forall (fun c => exists m, VMap m ∈ vs /\ m !! "value" = Some c.1 /\ f64_le c.2 (f64_of_Z 0) = false) cs.
Proof.
  revert i total cs ws total'. induction vs as [|v vs IH]; intros i total cs ws total' E; cbn [parse_choices] in E; [by injection E as <- <- <-|].
  destruct v; try done. destruct (m !! "value") as [v|] eqn:Ev; [|done]. destruct (m !! "weight") as [w|]; [|done].
  destruct (weight_of w) as [weight|]; [|done]. destruct (f64_le weight (f64_of_Z 0)) eqn:P; [done|].
  apply res_bind_ok in E as ([[cs1 ws1] t1] & E & E'). injection E' as <- <- <-. destruct (IH _ _ _ _ _ E) as (L1 & L2 & F).
  cbn [length]. split_and!; [by rewrite L1|by rewrite L2|]. constructor.
  - exists m. split_and!; [left|done|done].
  - eapply Forall_impl; [exact F|]. intros c (m' & Hm & R). exists m'. by split; [right|].
Qed.

(** Picking gives the first choice whose cumulated weight exceeds the target,
    and the last one when there is none. *)
Lemma pick_exact (cs : list (value * float64)) ws target :
  cs <> [] -> length ws = length cs ->
  exists i v w, cs !! i = Some (v, w) /\ pick cs ws target = Ok v /\
    ((exists t, ws !! i = Some t /\ f64_lt target t = true) \/ i = (length cs - 1)%nat) /\
    forall j t, (j < i)%nat -> ws !! j = Some t -> f64_lt target t = false.
Proof.
  intros N L. unfold pick.
  assert (forall (cs : list (value * float64)) (ws : list float64), length ws = length cs ->
    match choose cs ws target with
    | Some c => exists i t, cs !! i = Some c /\ ws !! i = Some t /\ f64_lt target t = true /\
        forall j t, (j < i)%nat -> ws !! j = Some t -> f64_lt target t = false
    | None => forall j t, ws !! j = Some t -> f64_lt target t = false
    end) as C.
  { clear. intros cs. induction cs as [|c cs IH]; intros [|w ws] L; cbn [choose]; try done.
    destruct (f64_lt target w) eqn:E; [exists 0%nat, w; split_and!; try done; lia|]. specialize (IH ws ltac:(by injection L)).
    destruct (choose cs ws target).
    - destruct IH as (i & t & Lc & Lw & Lt & B). exists (S i), t. split_and!; try done. intros [|j] t' Hj; cbn; [by intros [= <-]|].
      apply B. lia.
    - intros [|j] t; cbn; [by intros [= <-]|]. apply IH. }
  specialize (C cs ws L). destruct (choose cs ws target) as [[v w]|].
  - destruct C as (i & t & Lc & Lw & Lt & B). exists i, v, w. split_and!; try done. left. by exists t.
  - destruct (exists_last N) as (cs' & [v w] & ->). rewrite last_snoc. exists (length cs'), v, w. rewrite length_app. cbn [length].
    split_and!; [by rewrite list_lookup_middle|done|right; lia|]. intros j t _. apply C.
Qed.

(** *** Safe generators *)

(** What a constructed generator needs not to panic; identifiers of patterns
    are left out. *)
Fixpoint gen_safe (g : FieldGen) : Prop :=
  match g with
  | randomIntGenerator min max => in_int64 min /\ in_int64 max /\ min < max /\ max - min <= max_int64
  | randomStringGenerator _ charset => charset <> EmptyString
  | weightedChoiceGenerator cs ws _ => cs <> [] /\ length ws = length cs
  | errorInjectionGenerator normal _ cs ws _ => gen_safe normal /\ cs <> [] /\ length ws = length cs
  | chaosGenerator _ base _ _ _ _ => gen_safe base
  | patternGenerator_ _ => False
  | signalSynthesisGenerator g => ss_safe g
  | _ => True
  end.

Lemma pick_no_panic (cs : list (value * float64)) ws target : cs <> [] -> length ws = length cs -> no_panic (pick cs ws target).
Proof. intros N L. destruct (pick_exact cs ws target N L) as (i & v & w & _ & -> & _). done. Qed.

Lemma element_no_panic vs i : 0 <= i < Z.of_nat (length vs) -> no_panic (element vs i).
Proof.
  intros [A B]. unfold element. destruct (Z.ltb_spec i 0); [lia|]. destruct (lookup_lt_is_Some_2 vs (Z.to_nat i)) as [v ->]; [lia|done].
Qed.

Lemma byte_at_some s i : 0 <= i < len s -> exists c, byte_at s i = Some c.
Proof.
  unfold byte_at, len. intros [A B]. assert (Z.to_nat i < String.length s)%nat as L by lia. revert L. generalize (Z.to_nat i). clear.
  induction s as [|c s IH]; intros [|n] L; cbn in *; [lia|lia|by eexists|]. apply IH. lia.
Qed.

Lemma randomString_no_panic d n charset : charset <> EmptyString -> no_panic (randomString_Generate d n charset).
Proof.
  intros N. unfold randomString_Generate. apply res_bind_no_panic; [|done]. apply mapM_res_no_panic. intros k _.
  assert (0 < len charset) as P by (destruct charset; [done|]; unfold len; cbn; lia).
  by destruct (byte_at_some charset _ (Intn_range d k (len charset) P)) as [c ->].
Qed.

Lemma extremum_no_panic kind better sources multiply record : no_panic (extremum kind better sources multiply record).
Proof.
  unfold extremum. destruct (_ =? _)%nat; [done|]. apply res_bind_no_panic; [|intros [b|] _; done]. generalize (@None float64).
  induction sources as [|s ss IH]; intros best; cbn [best_source]; [done|]. apply res_bind_no_panic; [|intros v _; apply IH].
  unfold source_value. by repeat case_match.
Qed.

Lemma gen_context_safe g w record : gen_with_context g = Some w -> no_panic (w record).
Proof.
  destruct g; try done; cbn [gen_with_context]; intros E; injection E as <-; try apply extremum_no_panic.
  - assert (forall sum, no_panic (sum_sources sources record sum)) as N.
    { induction sources as [|s ss IH]; intros sum; cbn [sum_sources]; [done|]. apply res_bind_no_panic; [|intros v _; apply IH].
      unfold source_value. by repeat case_match. }
    specialize (N (f64_of_Z 0)). unfold add_GenerateWithContext. by destruct (sum_sources _ _ _).
  - apply res_bind_no_panic; [|done]. unfold source_value. by repeat case_match.
Qed.

Lemma gen_generate_safe d g : gen_safe g -> no_panic (generate d g).1 /\ gen_safe (generate d g).2.
Proof.
  revert d. induction g; intros d Sg; cbn [gen_generate]; try by split.
  - unfold sequence_Generate. by destruct (_ && _).
  - destruct Sg as (A & B & L & W). pose proof (randomInt_exact (d 0%nat) min max A B L) as E.
    destruct (Z.leb_spec (max - min) max_int64); [|lia]. destruct E as (n & E & _). cbn [fst snd]. by rewrite E.
  - split; [by apply randomString_no_panic|done].
  - destruct Sg as [N L]. split; [by apply pick_no_panic|done].
  - destruct Sg as (Sn & N & L). unfold errorInjection_Generate. destruct (f64_lt _ _); [by split; [apply pick_no_panic|]|].
    destruct (IHg (deeper d) Sn) as [P S']. by destruct (generate (deeper d) g).
  - destruct (chaos_mode _ _ _) as [[type k]|].
    + destruct (String.eqb type "null_injection"); [done|].
      destruct (String.eqb type "malformed_data"); (split; [|done]); apply element_no_panic, Intn_range; done.
    + destruct (IHg (deeper d) Sg) as [P S']. by destruct (generate (deeper d) g).
  - by destruct (nb_Generate _ _ g).
  - destruct (ss_Generate_safe (Float64 (d 0%nat)) g Sg) as [[f E] S']. destruct (ss_Generate _ g). cbn [fst snd] in *. by subst.
Qed.

(** *** Continuous generation *)

(** A calculator: Generate only fails. *)
Definition calculator (g : FieldGen) : Prop := is_Some (gen_with_context g).

Lemma fill_continuous_fails names ds record gs r gs' name :
  name ∈ names -> (exists g, gs !! name = Some g /\ calculator g) ->
  fill_continuous (H1 := field_generator Sprintf_d time_Format) names ds record gs = (Ok r, gs') -> False.
Proof.
  revert ds record gs. induction names as [|n names IH]; intros ds record gs Hn (g & L & C); [by apply not_elem_of_nil in Hn|].
  cbn [fill_continuous]. destruct (decide (n = name)) as [->|Ne].
  - rewrite L. destruct g; try (by destruct C); done.
  - apply elem_of_cons in Hn as [->|Hn]; [done|]. destruct (gs !! n) as [g'|].
    + destruct (@Generate _ _ (field_generator Sprintf_d time_Format) (ds 0%nat) g') as [[v|e|] g1]; [|done..]. apply IH; [done|]. exists g. by rewrite lookup_insert_ne.
    + apply IH; [done|]. by exists g.
Qed.
End laws.
