(* ===== verification/GenState.v ===== *)
(** * GenState: the life cycle of stateful generators
    (tools/generator/internal/generator: lifecycle.go, generators/state.go, and
    the Initialize, Reset, GetState and GetMetadata methods)

    A stateful generator can be initialized, reset and asked for its state.
    The state manager holds pointers to the generators of an engine: here it
    holds their names, and its operations take and return the generators. *)
From S2P Require Import Prelude GoInt GoStr GoFloat GoTime Values GenIterator GenPattern GenEngine FloatOrder GenWaves GenFields.

(** ** The interface (lifecycle.go)

    [stateful g] is the type assertion; an error is [Some]. *)
Class StatefulFieldGenerator (G D : Type) : Type := {
  stateful : G -> bool;
  Initialize : D -> G -> option error * G;
  Reset_gen : D -> G -> option error * G;
  GetState : D -> G -> value
}.

Definition IsStatefulGenerator {G D} `{StatefulFieldGenerator G D} (g : G) : bool := stateful g.

Definition InitializeIfStateful {G D} `{StatefulFieldGenerator G D} (d : D) (g : G) : option error * G :=
  if stateful g then Initialize d g else (None, g).

(** ** The state manager (state.go) *)

Section manager.
Context {G D : Type} `{StatefulFieldGenerator G D, MapIter}.

Record StateManager : Type := { managed : gset string; states : gmap string value }.

Definition NewStateManager (gs : gmap string G) : StateManager := {| managed := dom gs; states := ∅ |}.

Definition track (sm : StateManager) (name : string) (v : value) : StateManager :=
  {| managed := managed sm; states := <[name := v]> (states sm) |}.

(** The loop of InitializeAll and ResetAll: [op] on every stateful generator
    until one fails; [d name] is what the generator of that name draws. *)
Fixpoint each_stateful (op : D -> G -> option error * G) (d : string -> D) (names : list string) (sm : StateManager) (gs : gmap string G)
    : option error * StateManager * gmap string G :=
  match names with
  | [] => (None, sm, gs)
  | name :: names =>
      match gs !! name with
      | Some g =>
          if stateful g then
            let '(err, g) := op (d name) g in
            match err with
            | Some err => (Some err, sm, <[name := g]> gs)
            | None => each_stateful op d names (track sm name (GetState (d name) g)) (<[name := g]> gs)
            end
          else each_stateful op d names sm gs
      | None => each_stateful op d names sm gs
      end
  end.

Definition InitializeAll (d : string -> D) (sm : StateManager) (gs : gmap string G) : option error * StateManager * gmap string G :=
  each_stateful Initialize d (iter (elements (managed sm))) sm gs.
Definition ResetAll (d : string -> D) (sm : StateManager) (gs : gmap string G) : option error * StateManager * gmap string G :=
  each_stateful Reset_gen d (iter (elements (managed sm))) sm gs.

(** The state of a managed generator that has one. *)
Definition state_of (d : string -> D) (sm : StateManager) (gs : gmap string G) (name : string) : option value :=
  if decide (name ∈ managed sm) then
    match gs !! name with Some g => if stateful g then Some (GetState (d name) g) else None | None => None end
  else None.

Definition GetAllStates (d : string -> D) (sm : StateManager) (gs : gmap string G) : gmap string value :=
  map_imap (fun name _ => state_of d sm gs name) gs.
Definition GetGeneratorState (d : string -> D) (sm : StateManager) (gs : gmap string G) (name : string) : value :=
  default VNil (state_of d sm gs name).
Definition UpdateState (d : string -> D) (sm : StateManager) (gs : gmap string G) (name : string) : StateManager :=
  match state_of d sm gs name with Some v => track sm name v | None => sm end.

(** The wrapper with a state of its own. *)
Record StatefulGeneratorWrapper : Type := { inner : G; wrapped_state : value }.

Definition NewStatefulWrapper (g : G) (initialState : value) : StatefulGeneratorWrapper := {| inner := g; wrapped_state := initialState |}.
Definition wrapper_Generate `{FieldGenerator G D} (d : D) (w : StatefulGeneratorWrapper) : result value * StatefulGeneratorWrapper :=
  let '(r, g) := Generate d (inner w) in (r, {| inner := g; wrapped_state := wrapped_state w |}).
Definition wrapper_Initialize (d : D) (w : StatefulGeneratorWrapper) : option error * StatefulGeneratorWrapper :=
  let '(err, g) := InitializeIfStateful d (inner w) in (err, {| inner := g; wrapped_state := wrapped_state w |}).
Definition wrapper_Reset (d : D) (w : StatefulGeneratorWrapper) : option error * StatefulGeneratorWrapper :=
  if stateful (inner w) then
    let '(err, g) := Reset_gen d (inner w) in (err, {| inner := g; wrapped_state := wrapped_state w |})
  else (None, w).
Definition wrapper_GetState (w : StatefulGeneratorWrapper) : value := wrapped_state w.
Definition SetState (w : StatefulGeneratorWrapper) (v : value) : StatefulGeneratorWrapper := {| inner := inner w; wrapped_state := v |}.
End manager.

(** ** The generators *)

Definition gen_stateful (g : FieldGen) : bool :=
  match g with
  | brownianMotionGenerator _ _ _ _ _ _ _ | chaosGenerator _ _ _ _ _ _ | networkBurstGenerator _ | signalSynthesisGenerator _
  | stressPatternGenerator _ => true
  | _ => false
  end.

(** None of them fails; the generator inside a chaos is initialized with it
    when it is stateful. *)
Definition brownian_Initialize (base volatility minBound maxBound drift : float64) : FieldGen :=
  brownianMotionGenerator base volatility minBound maxBound drift base true.

Fixpoint gen_Initialize (d : draws) (g : FieldGen) : FieldGen :=
  match g with
  | brownianMotionGenerator base volatility minBound maxBound drift _ _ =>
      brownian_Initialize base volatility minBound maxBound drift
  | chaosGenerator modes base _ _ _ _ => chaosGenerator modes (gen_Initialize (deeper d) base) 0 0 0 0
  | networkBurstGenerator g => networkBurstGenerator (nb_Initialize g)
  | signalSynthesisGenerator g => signalSynthesisGenerator (ss_Initialize g)
  | stressPatternGenerator g => stressPatternGenerator (sp_Initialize (Now (d O)) g)
  | g => g
  end.

Definition brownian_Reset (base volatility minBound maxBound drift : float64) (initialized : bool) : FieldGen :=
  brownianMotionGenerator base volatility minBound maxBound drift base initialized.

Fixpoint gen_Reset (d : draws) (g : FieldGen) : FieldGen :=
  match g with
  | brownianMotionGenerator base volatility minBound maxBound drift _ initialized =>
      brownian_Reset base volatility minBound maxBound drift initialized
  | chaosGenerator modes base _ _ _ _ => chaosGenerator modes (gen_Reset (deeper d) base) 0 0 0 0
  | networkBurstGenerator g => networkBurstGenerator (nb_Reset g)
  | signalSynthesisGenerator g => signalSynthesisGenerator (ss_Reset g)
  | stressPatternGenerator g => stressPatternGenerator (sp_Reset (Now (d O)) g)
  | g => g
  end.

Section states.
Context `{GoLib, MathLib} (Duration_String : Z -> string).

(** [float64(n) / float64(total) * 100]. *)
Definition percentage (n total : Z) : value :=
  VFloat64 (f64_mul (f64_div (f64_of_Z n) (f64_of_Z total)) (f64_of_Z 100)).

Definition chaos_GetState (nullCount malformedCount extremeCount normalCount : Z) : fields :=
  let total := wrap64 (wrap64 (wrap64 (nullCount + malformedCount) + extremeCount) + normalCount) in
  let counts :=
    <["null_count" := VInt64 nullCount]> (<["malformed_count" := VInt64 malformedCount]>
      (<["extreme_count" := VInt64 extremeCount]> (<["normal_count" := VInt64 normalCount]>
        (<["total_count" := VInt64 total]> ∅)))) in
  if 0 <? total then
    <["null_percentage" := percentage nullCount total]> (<["malformed_percentage" := percentage malformedCount total]>
      (<["extreme_percentage" := percentage extremeCount total]> (<["normal_percentage" := percentage normalCount total]> counts)))
  else counts.

Definition nb_GetState (now : gotime) (g : networkBurst) : fields :=
  let state := <["current_value" := VFloat64 (lastValue g)]> (<["baseline" := VFloat64 (baseline g)]>
                 (<["in_burst" := VBool (inBurst g)]> ∅)) in
  if inBurst g then
    <["burst_remaining" := VFloat64 (Seconds (duration_sub (instant (burstEndTime g)) (instant now)))]> state
  else state.

Definition ss_GetState (g : signalSynthesis) : fields :=
  <["current_time" := VFloat64 (sampleTime g)]> (<["frequency" := VFloat64 (frequency g)]>
    (<["sample_rate" := VFloat64 (sampleRate g)]> (<["harmonics" := VFloats (harmonics g)]> ∅))).

Definition sp_GetState (now : gotime) (g : stressPattern) : fields :=
  <["pattern" := VString (pattern g)]> (<["period" := VString (Duration_String (period g))]>
    (<["burst_factor" := VFloat64 (burstFactor g)]> (<["baseline_rate" := VFloat64 (baselineRate g)]>
      (<["position" := VFloat64 (position g now)]>
        (<["elapsed" := VString (Duration_String (duration_sub (instant now) (instant (startTime g))))]> ∅))))).

Definition gen_GetState (d : draws) (g : FieldGen) : value :=
  match g with
  | brownianMotionGenerator base volatility _ _ drift currentValue _ =>
      VMap (<["current_value" := VFloat64 currentValue]> (<["base" := VFloat64 base]>
        (<["volatility" := VFloat64 volatility]> (<["drift" := VFloat64 drift]> ∅))))
  | chaosGenerator _ _ n m x c => VMap (chaos_GetState n m x c)
  | networkBurstGenerator g => VMap (nb_GetState (Now (d O)) g)
  | signalSynthesisGenerator g => VMap (ss_GetState g)
  | stressPatternGenerator g => VMap (sp_GetState (Now (d O)) g)
  | _ => VNil
  end.

Definition stateful_generator : StatefulFieldGenerator FieldGen draws := {|
  stateful := gen_stateful;
  Initialize d g := (None, gen_Initialize d g);
  Reset_gen d g := (None, gen_Reset d g);
  GetState := gen_GetState
|}.

(** GetMetadata, of the generators that have it. *)
Definition gen_GetMetadata (g : FieldGen) : option GeneratorMetadata :=
  let continuous name description := Some {|
    gm_Name := name; Description := description; Version := "1.0.0";
    Capabilities := {| IsStateful := true; IsBinary := false; IsContinuous := true |} |} in
  match g with
  | chaosGenerator _ _ _ _ _ _ => continuous "chaos" "Failure injection generator for resilience testing"
  | signalSynthesisGenerator _ => continuous "signal_synthesis" "Fourier synthesis waveform generator"
  | stressPatternGenerator _ => continuous "stress_pattern" "Load testing pattern generator"
  | _ => None
  end.
End states.

(** ** Laws *)

Section all.
Context {G D : Type} `{StatefulFieldGenerator G D, MapIter} (op : D -> G -> option error * G) (d : string -> D).

(** What an operation on a set of names does to one generator. *)
Definition applied (names : list string) (name : string) (g : G) : G :=
  if bool_decide (name ∈ names) && stateful g then (op (d name) g).2 else g.

Lemma applied_cons name names n g : n <> name -> applied (name :: names) n g = applied names n g.
Proof. intros N. unfold applied. by rewrite (bool_decide_ext (n ∈ name :: names) (n ∈ names)) by set_solver. Qed.

(** A pass over distinct names whose operations succeed applies them to all,
    and tracks the state each has after it. *)
Lemma each_stateful_ok names sm gs :
  NoDup names -> (forall name g, name ∈ names -> gs !! name = Some g -> stateful g = true -> (op (d name) g).1 = None) ->
  exists sm' gs', each_stateful op d names sm gs = (None, sm', gs') /\ managed sm' = managed sm /\
    (forall n, gs' !! n = applied names n <$> gs !! n) /\
    (forall n g, gs !! n = Some g -> n ∈ names -> stateful g = true -> states sm' !! n = Some (GetState (d n) (op (d n) g).2)) /\
    (forall n, n ∉ names -> states sm' !! n = states sm !! n).
Proof.
  intros ND. revert sm gs. induction ND as [|name names Nin ND IH]; intros sm gs Succeeds; cbn [each_stateful].
  { exists sm, gs. split_and!; try done; [intros n; by destruct (gs !! n)|]. intros n g _ []%not_elem_of_nil. }
  assert (Skip : match gs !! name with Some g => stateful g = false | None => True end ->
    exists sm' gs', each_stateful op d names sm gs = (None, sm', gs') /\ managed sm' = managed sm /\
      (forall n, gs' !! n = applied (name :: names) n <$> gs !! n) /\
      (forall n g, gs !! n = Some g -> n ∈ name :: names -> stateful g = true -> states sm' !! n = Some (GetState (d n) (op (d n) g).2)) /\
      (forall n, n ∉ name :: names -> states sm' !! n = states sm !! n)).
  { intros St. destruct (IH sm gs) as (sm' & gs' & E & Em & Eg & Es & En); [intros n g Hn; apply Succeeds; by right|].
    exists sm', gs'. split_and!; [done|done| | |].
    - intros n. rewrite Eg. destruct (gs !! n) as [g|] eqn:L; [|done]. cbn. f_equal. destruct (decide (n = name)) as [->|N]; [|by rewrite applied_cons].
      rewrite L in St. unfold applied. by rewrite St, !andb_false_r.
    - intros n g L [->|Hn]%elem_of_cons Sg; [by rewrite L, Sg in St|by eapply Es].
    - intros n [N Hn]%not_elem_of_cons. by apply En. }
  destruct (gs !! name) as [g|] eqn:L; [|by apply Skip]. destruct (stateful g) eqn:St; [|by apply Skip]. clear Skip.
  pose proof (Succeeds name g ltac:(by left) L St) as E. destruct (op (d name) g) as [err g'] eqn:O. cbn in E. subst err.
  destruct (IH (track sm name (GetState (d name) g')) (<[name := g']> gs)) as (sm' & gs' & E & Em & Eg & Es & En).
  { intros n g0 Hn Ln. rewrite lookup_insert_ne in Ln by (intros ->; done). apply Succeeds; [by right|done]. }
  exists sm', gs'. split_and!; [done|done| | |].
  - intros n. rewrite Eg. destruct (decide (n = name)) as [->|N].
    + rewrite lookup_insert_eq, L. cbn. unfold applied. rewrite bool_decide_false by done.
      rewrite bool_decide_true by by left. by rewrite St, O.
    + rewrite lookup_insert_ne by done. destruct (gs !! n) as [g0|]; [|done]. cbn. by rewrite applied_cons.
  - intros n g0 Ln Hn Sg. destruct (decide (n = name)) as [->|N].
    + rewrite L in Ln. injection Ln as <-. rewrite En by done. cbn. by rewrite lookup_insert_eq, O.
    + apply elem_of_cons in Hn as [?|Hn]; [done|]. apply (Es n g0); [by rewrite lookup_insert_ne|done|done].
  - intros n [N Hn]%not_elem_of_cons. rewrite En by done. cbn. by rewrite lookup_insert_ne.
Qed.
End all.

Lemma managed_names `{MapIter} (s : gset string) : NoDup (iter (elements s)) /\ forall n, n ∈ iter (elements s) <-> n ∈ s.
Proof.
  split; [rewrite iter_perm; apply NoDup_elements|]. intros n. by rewrite iter_perm, elem_of_elements.
Qed.

(** ResetAll resets every stateful generator of the manager, whatever the
    order in which it reads its map, leaves the others alone, and from then on
    answers with their states. *)
Theorem reset_all_exact `{GoLib, MathLib, MapIter} Duration_String (d : string -> draws) (sm : StateManager) (gs : gmap string FieldGen) :
  let _ := stateful_generator Duration_String in
  exists sm' gs', ResetAll d sm gs = (None, sm', gs') /\ managed sm' = managed sm /\
    (forall n, gs' !! n = (fun g => if bool_decide (n ∈ managed sm) then gen_Reset (d n) g else g) <$> gs !! n) /\
    (forall n v, state_of d sm' gs' n = Some v -> states sm' !! n = Some v).
Proof.
  intros SG. destruct (managed_names (managed sm)) as [ND Names]. unfold ResetAll.
  destruct (each_stateful_ok Reset_gen d (iter (elements (managed sm))) sm gs ND ltac:(done)) as (sm' & gs' & E & Em & Eg & Es & _).
  assert (forall n g, applied Reset_gen d (iter (elements (managed sm))) n g = if bool_decide (n ∈ managed sm) then gen_Reset (d n) g else g) as Ap.
  { intros n g. unfold applied. rewrite (bool_decide_ext _ (n ∈ managed sm)) by apply Names.
    destruct (bool_decide _); [|done]. cbn. by destruct g. }
  exists sm', gs'. split_and!; [done|done| |].
  - intros n. rewrite Eg. destruct (gs !! n); [|done]. cbn. by rewrite Ap.
  - intros n v. unfold state_of. rewrite Em. case_decide as M; [|done]. rewrite Eg. destruct (gs !! n) as [g|] eqn:L; [|done]. cbn [fmap option_fmap option_map].
    rewrite Ap, bool_decide_true by done. intros V.
    assert (gen_stateful (gen_Reset (d n) g) = gen_stateful g) as St by by destruct g.
    change (@stateful FieldGen draws SG) with gen_stateful in *. rewrite St in V. destruct (gen_stateful g) eqn:Sg; [|done]. injection V as <-.
    apply (Es n g L); [by apply Names|done].
Qed.

(** *** A reset restarts the generator *)

(** Stateful all the way down. *)
Fixpoint stateful_down (g : FieldGen) : Prop :=
  match g with
  | brownianMotionGenerator _ _ _ _ _ _ _ | networkBurstGenerator _ | signalSynthesisGenerator _ | stressPatternGenerator _ => True
  | chaosGenerator _ base _ _ _ _ => stateful_down base
  | _ => False
  end.

(** The generator as it was constructed, before any call. *)
Fixpoint fresh (g : FieldGen) : FieldGen :=
  match g with
  | brownianMotionGenerator b v lo hi dr _ _ => brownianMotionGenerator b v lo hi dr b false
  | networkBurstGenerator g => networkBurstGenerator (nb_set g false zero_time (baseline g) false)
  | signalSynthesisGenerator g => signalSynthesisGenerator (ss_at g (f64_of_Z 0) false)
  | stressPatternGenerator g => stressPatternGenerator (sp_start g zero_time false)
  | chaosGenerator ms base _ _ _ _ => chaosGenerator ms (fresh base) 0 0 0 0
  | g => g
  end.

(** A load pattern has been started: by a call, or by Initialize. *)
Fixpoint pattern_started (g : FieldGen) : Prop :=
  match g with
  | stressPatternGenerator g => sp_initialized g = true
  | chaosGenerator _ base _ _ _ _ => pattern_started base
  | _ => True
  end.

(** The state a call works on: an uninitialized generator is at its start. *)
Fixpoint started (g : FieldGen) : FieldGen :=
  match g with
  | brownianMotionGenerator b v lo hi dr c i => brownianMotionGenerator b v lo hi dr (if i then c else b) true
  | networkBurstGenerator g =>
      networkBurstGenerator (if nb_initialized g then g else nb_set g false (burstEndTime g) (baseline g) true)
  | signalSynthesisGenerator g => signalSynthesisGenerator (if ss_initialized g then g else ss_at g (f64_of_Z 0) true)
  | chaosGenerator ms base n m x c => chaosGenerator ms (started base) n m x c
  | g => g
  end.

Section restart.
Context `{GoLib, Codecs, MapIter, MathLib} (Sprintf_d : string -> Z -> string) (time_Format : gotime -> string -> string).
Abbreviation generate := (gen_generate Sprintf_d time_Format).

Lemma started_started g : started (started g) = started g.
Proof.
  induction g; cbn [started]; try done; [by rewrite IHg| |].
  - by destruct (nb_initialized g) eqn:E; [rewrite E|].
  - by destruct (ss_initialized g) eqn:E; [rewrite E|].
Qed.

(** A call does not see whether the generator is marked as initialized. *)
Lemma generate_started d g :
  (generate d (started g)).1 = (generate d g).1 /\ started (generate d (started g)).2 = started (generate d g).2.
Proof.
  revert d. induction g as [| | | | | | | | | | | | |? ? ? ? ? ? []|ms base IH n m x c| |g|g|g]; intros d; cbn [started]; try done.
  - cbn [gen_generate]. destruct (chaos_mode _ _ _) as [[type k]|].
    + destruct (String.eqb type "null_injection"); [|destruct (String.eqb type "malformed_data")]; cbn [fst snd started]; by rewrite started_started.
    + destruct (IH (deeper d)) as [E1 E2]. destruct (generate (deeper d) (started base)), (generate (deeper d) base). cbn [fst snd started] in *.
      by rewrite E1, E2.
  - cbn [gen_generate]. unfold nb_Generate, nb_burst. destruct (nb_initialized g) eqn:I; [by rewrite I|]. cbn. done.
  - cbn [gen_generate]. unfold ss_Generate. destruct (ss_initialized g) eqn:I; [by rewrite I|]. done.
Qed.

Lemma run_alike n ds g g' :
  started g = started g' -> (run_field Sprintf_d time_Format n ds g).1 = (run_field Sprintf_d time_Format n ds g').1.
Proof.
  revert ds g g'. induction n as [|n IH]; intros ds g g' Alike; [done|]. cbn [run_field].
  destruct (generate_started (ds 0%nat) g) as [R1 S1], (generate_started (ds 0%nat) g') as [R2 S2]. rewrite Alike in R1, S1.
  destruct (generate (ds 0%nat) g) as [r g1], (generate (ds 0%nat) g') as [r' g1']. cbn [fst snd] in *.
  specialize (IH (fun k => ds (S k)) g1 g1' ltac:(congruence)).
  destruct (run_field _ _ n _ g1), (run_field _ _ n _ g1'). cbn [fst] in *. congruence.
Qed.

(** The calls a generator can receive. *)
Inductive gen_op : Type := CallGenerate (d : draws) | CallInitialize (d : draws) | CallReset (d : draws).

Definition gen_apply (g : FieldGen) (o : gen_op) : FieldGen :=
  match o with
  | CallGenerate d => (generate d g).2
  | CallInitialize d => gen_Initialize d g
  | CallReset d => gen_Reset d g
  end.

Lemma apply_fresh g o : stateful_down g -> stateful_down (gen_apply g o) /\ fresh (gen_apply g o) = fresh g.
Proof.
  revert o. induction g as [| | | | | | | | | | | | |? ? ? ? ? ? i|ms base IH n m x c| |g|g|g]; intros o S; try done; destruct o as [d|d|d]; cbn [gen_apply]; try done.
  - cbn [gen_generate]. destruct (chaos_mode _ _ _) as [[type k]|].
    + by destruct (String.eqb type "null_injection"); [|destruct (String.eqb type "malformed_data")].
    + destruct (IH (CallGenerate (deeper d)) S) as [S' F]. cbn [gen_apply] in *. destruct (generate (deeper d) base). cbn [snd fresh stateful_down] in *.
      by rewrite F.
  - destruct (IH (CallInitialize (deeper d)) S) as [S' F]. cbn in *. by rewrite F.
  - destruct (IH (CallReset (deeper d)) S) as [S' F]. cbn in *. by rewrite F.
  - cbn [gen_generate]. unfold nb_Generate. destruct (nb_burst _ _ g) as [g1 k] eqn:E. cbn. split; [done|].
    assert (same_burst g g1) as (E1 & E2 & E3 & E4) by (unfold nb_burst in E; repeat case_match; injection E as <- _; done).
    unfold nb_set. cbn. by rewrite ?E1, ?E2, ?E3, ?E4.
  - cbn [gen_generate]. destruct (ss_Generate _ g) as [r g1] eqn:E. cbn. split; [done|]. f_equal.
    unfold ss_Generate in E. repeat case_match; by injection E as _ <-.
  - cbn [gen_generate]. unfold sp_Generate. by destruct (sp_initialized g).
Qed.

Lemma reset_started d g : stateful_down g -> pattern_started g -> started (gen_Reset d g) = started (gen_Initialize d (fresh g)).
Proof.
  revert d. induction g as [| | | | | | | | | | | | |? ? ? ? ? ? i|ms base IH n m x c| |g|g|g]; intros d S P; try done; cbn [gen_Reset gen_Initialize fresh started].
  - by destruct i.
  - by rewrite IH.
  - unfold nb_Reset, nb_Initialize. cbn. by destruct (nb_initialized g).
  - unfold ss_Reset, ss_Initialize. cbn. by destruct (ss_initialized g).
  - cbn in P. unfold sp_Reset, sp_Initialize, sp_start. cbn. by rewrite P.
Qed.

(** Reset returns to the start: whatever a stateful generator went through
    since its construction, after a Reset it gives the values a new one gives
    after Initialize, for the same draws - provided a load pattern has started,
    since a Reset before that is forgotten at the first call, and provided the
    generator inside a chaos is stateful, since another one is not reset. *)
Theorem reset_restarts g0 ops d n ds :
  stateful_down g0 -> fresh g0 = g0 ->
  let g := fold_left gen_apply ops g0 in
  pattern_started g ->
  (run_field Sprintf_d time_Format n ds (gen_Reset d g)).1 = (run_field Sprintf_d time_Format n ds (gen_Initialize d g0)).1.
Proof.
  intros S F g P. apply run_alike.
  assert (stateful_down g /\ fresh g = g0) as [Sg Fg].
  { subst g. clear P. rewrite <- F at 3. revert g0 S F. induction ops as [|o ops IH] using rev_ind; intros g0 S F; [done|].
    rewrite fold_left_app. cbn [fold_left]. destruct (IH g0 S F) as [S' F']. destruct (apply_fresh _ o S') as [S2 F2]. split; [done|congruence]. }
  rewrite <- Fg. by apply reset_started.
Qed.
End restart.

(** What a constructor returns is fresh. *)
Lemma constructed_fresh `{GoLib, MathLib} config :
  (forall g, NewBrownianMotionGenerator config = Ok g -> fresh g = g /\ stateful_down g) /\
  (forall g, NewNetworkBurstGenerator config = Ok g -> fresh (networkBurstGenerator g) = networkBurstGenerator g) /\
  (forall g, NewSignalSynthesisGenerator config = Ok g -> fresh (signalSynthesisGenerator g) = signalSynthesisGenerator g) /\
  (forall g, NewStressPatternGenerator config = Ok g -> fresh (stressPatternGenerator g) = stressPatternGenerator g).
Proof.
  split_and!; intros g E.
  - unfold NewBrownianMotionGenerator in E. destruct (getFloat64 config "base"); [|done].
    apply res_bind_ok in E as (vol & _ & E). apply res_bind_ok in E as ([lo hi] & _ & E). by injection E as <-.
  - unfold NewNetworkBurstGenerator in E. do 4 apply res_bind_ok in E as (? & _ & E). by injection E as <-.
  - unfold NewSignalSynthesisGenerator in E. do 2 apply res_bind_ok in E as (? & _ & E). by injection E as <-.
  - unfold NewStressPatternGenerator in E. destruct (as_string _); [|done]. destruct (negb _); [done|].
    do 3 apply res_bind_ok in E as (? & _ & E). by injection E as <-.
Qed.
