(* ===== verification/GenRegistry.v ===== *)
(** * GenRegistry: what the registry of generators constructs

    Constructed generators do not panic, but for two of them; nesting is
    followed to the bottom; and the two engines on constructed generators. *)
From S2P Require Import Prelude GoInt GoStr GoFloat GoTime Values Convert GenIterator GenPattern GenEngine GenParallel FloatOrder GenWaves GenFields.

Section registry.
Context `{GoLib, Codecs, MapIter, MathLib} (Sscanf_range : string -> option (Z * Z)) (Sscanf_int : string -> option Z).
Abbreviation create_nested := (create_nested Sscanf_range Sscanf_int).

(** ** The registry as a list of factories *)

Definition add_all (l : factories) (r : registry FieldGen) : registry FieldGen :=
  fold_left (fun r '(type, factory) => RegisterGenerator r type factory) l r.

Lemma add_all_lookup l r type reg :
  add_all l r !! type = Some reg ->
  (exists f, (type, f) ∈ l /\ Factory reg = f) \/ r !! type = Some reg.
Proof.
  revert r. induction l as [|[ty f] l IH]; intros r E; [by right|]. cbn in E. destruct (IH _ E) as [(f' & Hf & Er)|L].
  - left. exists f'. by split; [right|].
  - unfold RegisterGenerator, RegisterGeneratorWithMetadata, registry in *. destruct (decide (ty = type)) as [->|N].
    + rewrite lookup_insert_eq in L. injection L as <-. left. exists f. by split; [left|].
    + rewrite lookup_insert_ne in L by done. by right.
Qed.

(** Two lists with the same names whose factories agree on a configuration. *)
Lemma add_all_ext (l l' : factories) r r' type config :
  Forall2 (fun a b => a.1 = b.1 /\ a.2 config = b.2 config) l l' ->
  CreateGenerator r type config = CreateGenerator r' type config ->
  CreateGenerator (add_all l r) type config = CreateGenerator (add_all l' r') type config.
Proof.
  intros F. revert r r'. induction F as [|[ty f] [ty' f'] l l' [E1 E2] F IH]; intros r r' E; [done|]. cbn in E1, E2. subst ty'.
  cbn. apply IH. unfold CreateGenerator, RegisterGenerator, RegisterGeneratorWithMetadata, registry in *.
  destruct (decide (ty = type)) as [->|N]; [by rewrite !lookup_insert_eq; cbn; rewrite E2|]. by rewrite !lookup_insert_ne.
Qed.

(** ** Constructed generators are safe *)

(** No random range too wide for an int64, and no pattern. *)
Fixpoint narrow (g : FieldGen) : Prop :=
  match g with
  | randomIntGenerator min max => max - min <= max_int64
  | errorInjectionGenerator normal _ _ _ _ => narrow normal
  | chaosGenerator _ base _ _ _ _ => narrow base
  | patternGenerator_ _ => False
  | _ => True
  end.

Context (oor_int64 : forall f, in_int64 (float_out_of_range f)).

Lemma to_int64_range f : in_int64 (to_int64 f).
Proof. unfold to_int64, f64_to_int64. repeat case_match; try apply oor_int64. bools. unfold_range. lia. Qed.

Lemma choices_ok what weight_of v vs cs ws total total' :
  parse_choices what weight_of 0 (v :: vs) total = Ok (cs, ws, total') -> cs <> [] /\ length ws = length cs.
Proof. intros E%parse_choices_shape. destruct E as (L1 & L2 & _). split; [by destruct cs|congruence]. Qed.

(** The inversion of a constructor: every test before its result succeeded. *)
Ltac built E := repeat (apply res_bind_ok in E as (? & ? & E) || (case_match; try done)); try injection E as <-.

Section constructors.
Context (create : string -> fields -> result FieldGen)
  (create_safe : forall type config g, create type config = Ok g -> narrow g -> gen_safe g).

Lemma NewRandomInt_safe config g : NewRandomIntGenerator config = Ok g -> narrow g -> gen_safe g.
Proof.
  unfold NewRandomIntGenerator. intros E N. destruct (getFloat64 config "min") as [a|]; [|done].
  destruct (getFloat64 config "max") as [b|]; [|done]. destruct (Z.leb_spec (to_int64 b) (to_int64 a)); [done|].
  injection E as <-. split_and!; try apply to_int64_range; done.
Qed.

Lemma NewRandomString_safe config g : NewRandomStringGenerator config = Ok g -> gen_safe g.
Proof.
  unfold NewRandomStringGenerator. intros E. apply res_bind_ok in E as (n & _ & E). apply res_bind_ok in E as (cs & C & E).
  injection E as <-. cbn. destruct (config !! "charset") as [[]|]; try (by injection C as <-).
  destruct (String.eqb_spec s ""); [done|by injection C as <-].
Qed.

Lemma NewWeightedChoice_safe config g : NewWeightedChoiceGenerator config = Ok g -> gen_safe g.
Proof.
  unfold NewWeightedChoiceGenerator. intros E. destruct (config !! "choices") as [[]|]; try done. destruct l as [|v vs]; [done|].
  apply res_bind_ok in E as ([[cs ws] t] & P & E). injection E as <-. by eapply choices_ok.
Qed.

Lemma NewErrorInjection_safe config g : NewErrorInjectionGenerator create config = Ok g -> narrow g -> gen_safe g.
Proof.
  unfold NewErrorInjectionGenerator. intros E N. do 3 apply res_bind_ok in E as (? & _ & E).
  apply res_bind_ok in E as (normal & Cn & E). apply map_err_ok in Cn. apply res_bind_ok in E as (rate & _ & E).
  destruct (_ || _); [done|]. destruct (config !! "errors") as [[]|]; try done. destruct l as [|v vs]; [done|].
  apply res_bind_ok in E as ([[cs ws] t] & P & E). injection E as <-. apply choices_ok in P as [P1 P2].
  split; [by eapply create_safe|by split].
Qed.

Lemma NewChaos_safe config g : NewChaosGenerator create config = Ok g -> narrow g -> gen_safe g.
Proof.
  unfold NewChaosGenerator. intros E N. destruct (as_slice (config !! "modes")) as [[|v vs]|]; try done.
  apply res_bind_ok in E as (modes & _ & E). apply res_bind_ok in E as (base & B & E). injection E as <-.
  unfold parseBaseGenerator, createDefaultBaseGenerator in B. cbn in *.
  destruct (as_map (config !! "base")); apply map_err_ok in B; by eapply create_safe.
Qed.

Lemma plain_safe type f config g now : (type, f) ∈ plain_factories now -> f config = Ok g -> narrow g -> gen_safe g.
Proof.
  intros M E N. unfold plain_factories in M.
  repeat (apply elem_of_cons in M as [[= -> ->]|M]); [..|by apply not_elem_of_nil in M].
  all: try first [by eapply NewRandomInt_safe | by eapply NewRandomString_safe | by eapply NewWeightedChoice_safe].
  all: unfold NewAddGenerator, NewBrownianMotionGenerator, NewConstantGenerator, NewMaxGenerator, NewMinGenerator, NewMultiplyGenerator,
    NewRandomFloatGenerator, NewSequenceGenerator, NewTimestampGenerator in E.
  all: try by built E.
  destruct (NewSignalSynthesisGenerator config) eqn:S; [injection E as <-|done..]. by eapply NewSignalSynthesis_safe.
Qed.
End constructors.

Lemma create_nested_inv depth now type config g :
  create_nested (S depth) now type config = Ok g ->
  (exists f, (type, f) ∈ plain_factories now /\ f config = Ok g) \/
  NewChaosGenerator (create_nested depth now) config = Ok g \/ NewErrorInjectionGenerator (create_nested depth now) config = Ok g \/
  exists p, g = patternGenerator_ p.
Proof.
  cbn [GenFields.create_nested]. unfold CreateGenerator. intros E.
  destruct (register _ _ _ _ !! type) as [reg|] eqn:L; [|done]. destruct (Factory reg config) as [g'| |] eqn:F; [|done..].
  injection E as ->. apply (add_all_lookup _ ∅) in L as [(f & M & Ef)|L]; [|unfold registry in L; by rewrite lookup_empty in L].
  rewrite Ef in F. apply elem_of_app in M as [M|M]; [left; by exists f|right].
  unfold other_factories in M. rewrite !elem_of_cons in M. destruct M as [[= _ ->]|[[= _ ->]|[[= _ ->]|M]]]; [by left|by right; left| |by apply not_elem_of_nil in M].
  do 2 right. destruct (NewPatternCompositeGenerator _ _ config) as [p| |]; [|done..]. injection F as <-. by exists p.
Qed.

(** A generator the registry constructs never panics, nor does any generator
    inside it, whatever it draws - unless it is a random integer whose range
    does not fit an int64, or a composite identifier. *)
Theorem constructed_generators_safe depth now type config g :
  create_nested depth now type config = Ok g -> narrow g -> gen_safe g.
Proof.
  revert type config g. induction depth as [|depth IH]; intros type config g E N; [done|].
  apply create_nested_inv in E as [(f & M & F)|[E|[E|[p ->]]]].
  - by eapply plain_safe.
  - by eapply NewChaos_safe.
  - by eapply NewErrorInjection_safe.
  - done.
Qed.

(** ** Nesting *)

(** How deep maps nest in a value. *)
Fixpoint value_depth (v : value) : nat :=
  match v with VMap m => S (map_fold (fun _ v n => Nat.max (value_depth v) n) 0%nat m) | _ => 0 end.

Definition config_depth (config : fields) : nat := value_depth (VMap config).

Lemma depth_lookup (config : fields) key v : config !! key = Some v -> (value_depth v < config_depth config)%nat.
Proof.
  unfold config_depth. cbn [value_depth]. revert key v.
  apply (map_fold_weak_ind (fun n (m : fields) => forall key v, m !! key = Some v -> (value_depth v < S n)%nat)).
  - intros key v L. by rewrite lookup_empty in L.
  - intros k x m n Hk IH key v L. destruct (decide (k = key)) as [->|N].
    + rewrite lookup_insert_eq in L. injection L as ->. lia.
    + rewrite lookup_insert_ne in L by done. specialize (IH key v L). lia.
Qed.

Lemma depth_as_map (config m : fields) key : as_map (config !! key) = Some m -> (config_depth m < config_depth config)%nat.
Proof.
  unfold as_map. destruct (config !! key) as [[]|] eqn:L; try done. intros [= ->]. by apply depth_lookup in L.
Qed.

Lemma NewChaos_ext c c' config :
  (forall type m, (config_depth m < config_depth config)%nat -> c type m = c' type m) ->
  c "random_float" default_base = c' "random_float" default_base ->
  (forall type, (1 < config_depth config)%nat -> c type default_base = c' type default_base) ->
  NewChaosGenerator c config = NewChaosGenerator c' config.
Proof.
  intros S1 S2 S3. unfold NewChaosGenerator, parseBaseGenerator, createDefaultBaseGenerator.
  destruct (as_map (config !! "base")) as [b|] eqn:B; [|by rewrite S2]. pose proof (depth_as_map _ _ _ B) as Db.
  destruct (as_map (b !! "config")) as [m|] eqn:M; cbn [default].
  - rewrite S1; [done|]. pose proof (depth_as_map _ _ _ M). unfold id. lia.
  - rewrite S3; [done|]. unfold config_depth in *. cbn [value_depth] in *. lia.
Qed.

Lemma NewErrorInjection_ext c c' config :
  (forall type m, (config_depth m < config_depth config)%nat -> c type m = c' type m) ->
  (forall type, (1 < config_depth config)%nat -> c type ∅ = c' type ∅) ->
  NewErrorInjectionGenerator c config = NewErrorInjectionGenerator c' config.
Proof.
  intros S1 S2. unfold NewErrorInjectionGenerator. destruct (config !! "normal") as [[]|] eqn:L; try done.
  apply depth_lookup in L. change (value_depth (VMap m)) with (config_depth m) in L. cbn [mbind res_bind].
  destruct (as_string (m !! "type")) as [type|]; [|done]. cbn [of_option mbind res_bind].
  destruct (m !! "config") as [[]|] eqn:C; try done; cbn [mbind res_bind].
  - apply depth_lookup in C. change (value_depth (VMap m0)) with (config_depth m0) in C. by rewrite S1 by lia.
  - rewrite S2; [done|]. unfold config_depth in *. cbn [value_depth] in *. lia.
Qed.

Lemma register_ext c c' now type config :
  NewChaosGenerator c config = NewChaosGenerator c' config -> NewErrorInjectionGenerator c config = NewErrorInjectionGenerator c' config ->
  CreateGenerator (register Sscanf_range Sscanf_int c now) type config = CreateGenerator (register Sscanf_range Sscanf_int c' now) type config.
Proof. intros E1 E2. apply (add_all_ext _ _ ∅ ∅); [|done]. repeat constructor; done. Qed.

Lemma depth_default_base : config_depth default_base = 1%nat.
Proof. by vm_compute. Qed.

(** A depth above that of the configuration follows every nested generator:
    any larger depth constructs the same. *)
Theorem create_depth_enough depth depth' now type config :
  (config_depth config < depth)%nat -> (depth <= depth')%nat ->
  create_nested depth now type config = create_nested depth' now type config.
Proof.
  assert (Flat : forall n n' , create_nested (S n) now "random_float" default_base = create_nested (S n') now "random_float" default_base).
  { intros n n'. cbn [GenFields.create_nested]. unfold CreateGenerator. done. }
  revert depth' type config. induction depth as [|depth IH]; intros [|depth'] type config L Le; try lia. cbn [GenFields.create_nested].
  assert (forall type m, (config_depth m < config_depth config)%nat -> create_nested depth now type m = create_nested depth' now type m) as S1
    by (intros ty m Lm; apply IH; lia).
  apply register_ext.
  - apply NewChaos_ext; [done| |].
    + unfold config_depth in L. cbn [value_depth] in L. destruct depth, depth'; try lia. apply Flat.
    + intros ty Lc. apply S1. rewrite depth_default_base. lia.
  - apply NewErrorInjection_ext; [done|]. intros ty Lc. apply S1. exact Lc.
Qed.
End registry.
