(* ===== verification/GenRun.v ===== *)
(** * GenRun: the command of the generator (tools/generator/main.go) and its
    continuous mode (generator/continuous) *)
From S2P Require Import Prelude GoInt GoStr GoFloat GoTime Values Telemetry GenIterator GenPattern GenEngine FloatOrder GenWaves GenFields.

(** ** Rate limiting (continuous/ratelimit.go)

    A token bucket; [now] is the clock, [later] the clock after the sleep. *)

Record RateLimiter : Type := { rate : float64; capacity : float64; tokens : float64; lastTime : Z }.

Definition NewRateLimiter (rate : float64) (now : Z) : RateLimiter :=
  {| rate := rate; capacity := rate; tokens := rate; lastTime := now |}.

Definition refill (r : RateLimiter) (now : Z) : float64 :=
  f64_add (tokens r) (f64_mul (Seconds (duration_sub now (lastTime r))) (rate r)).

(** The duration it sleeps for, when it sleeps, and the bucket after it. *)
Definition Wait `{GoLib} (r : RateLimiter) (now later : Z) : option Z * RateLimiter :=
  let filled := refill r now in
  let filled := if f64_gt filled (capacity r) then capacity r else filled in
  let r := {| rate := rate r; capacity := capacity r; tokens := filled; lastTime := now |} in
  let take r := {| rate := rate r; capacity := capacity r; tokens := f64_sub (tokens r) (f64_of_Z 1); lastTime := lastTime r |} in
  if f64_lt (tokens r) (f64_of_Z 1) then
    let sleepTime := to_int64 (f64_mul (f64_div (f64_sub (f64_of_Z 1) (tokens r)) (rate r)) (f64_of_Z Second)) in
    (Some sleepTime, take {| rate := rate r; capacity := capacity r; tokens := refill r later; lastTime := later |})
  else (None, take r).

Definition SetRate (r : RateLimiter) (rate : float64) : RateLimiter :=
  {| rate := rate; capacity := rate; tokens := tokens r; lastTime := lastTime r |}.

(** ** The continuous engine (continuous/engine.go) *)

Section engine.
Context `{GoLib, Codecs, MapIter} {G D : Type} `{FieldGenerator G D} (write_err : nat -> option error).

Record ContinuousEngine : Type := {
  ce_template : Template; ce_generators : gmap string G; rateLimiter : RateLimiter; duration : Z; messagesGenerated : Z;
  ce_startTime : Z }.

Definition NewContinuousEngine (t : Template) (gs : gmap string G) (rate : float64) (duration now : Z) : ContinuousEngine :=
  {| ce_template := t; ce_generators := gs; rateLimiter := NewRateLimiter rate now; duration := duration; messagesGenerated := 0;
     ce_startTime := now |}.

(** What the select of the loop finds: the context done, the timer expired,
    neither - then a round with the clock readings of the rate limiter. *)
Inductive loop_event : Type := CtxDone | TimedOut | Round (now later : Z).

(** After a round: the generators, the bucket and the counter. *)
Definition ce_round (e : ContinuousEngine) (gs : gmap string G) (now later : Z) (counted : bool) : ContinuousEngine :=
  {| ce_template := ce_template e; ce_generators := gs; rateLimiter := (Wait (rateLimiter e) now later).2; duration := duration e;
     messagesGenerated := if counted then wrapu64 (messagesGenerated e + 1) else messagesGenerated e;
     ce_startTime := ce_startTime e |}.

(** Run: the lines written, the outcome and the engine; [i] counts the writes.
    Without a duration the timer's channel is nil and never ready. *)
Fixpoint ce_run (draws : nat -> nat -> D) (events : list loop_event) (i : nat) (e : ContinuousEngine)
    : list string * result unit * ContinuousEngine :=
  match events with
  | [] | CtxDone :: _ => ([], Ok tt, e)
  | TimedOut :: events => if 0 <? duration e then ([], Ok tt, e) else ce_run draws events i e
  | Round now later :: events =>
      let '(r, gs) := continuous_record (ce_template e) (draws i) (ce_generators e) in
      match r with
      | Panic => ([], Panic, ce_round e gs now later false)
      | Err err => ([], Err (Wrapf "failed to generate record: %w" [] err), ce_round e gs now later false)
      | Ok record =>
          match write_record write_err i (VMap record) with
          | inl err => ([], Err (Wrapf "failed to encode record: %w" [] err), ce_round e gs now later false)
          | inr line =>
              let '(lines, r, e) := ce_run draws events (S i) (ce_round e gs now later true) in (line :: lines, r, e)
          end
      end
  end.

(** GetStats at the clock [now]. *)
Definition GetStats (e : ContinuousEngine) (now : Z) : Z * Z * float64 :=
  let elapsed := duration_sub now (ce_startTime e) in
  (messagesGenerated e, elapsed, f64_div (f64_of_Z (messagesGenerated e)) (Seconds elapsed)).
End engine.

(** ** The command *)

Section command.
Context `{GoLib, Codecs, MapIter} {G D : Type} `{FieldGenerator G D} (write_err : nat -> option error).

(** What the run meets: the lock's order and the results' arrivals in a
    parallel batch, the rounds made before the end of a continuous run. *)
Record run_env : Type := {
  env_draws : nat -> nat -> D; env_turns : list (nat * option error);
  env_arrive : list record_worker -> list record_worker; env_rounds : nat }.

(** Generate: what is written and the outcome. *)
Definition main_Generate (r : registry G) (templateFile : string) (parsed : result Template) (mode : string) (count workers : Z)
    (env : run_env) : result (list string * result unit) :=
  match NewEngine r parsed with
  | Panic => Panic
  | Err err => Ok ([], Err (Wrapf "failed to create generation engine from template %s: %w" [AS templateFile] err))
  | Ok e =>
      if String.eqb mode "continuous" then
        Ok (run_continuous write_err (template e) (env_draws env) (env_rounds env) 0 (generators e)).1
      else if String.eqb mode "batch" then
        if 1 <? workers then GenerateRecordsParallel write_err e (env_draws env) count workers (env_turns env) (env_arrive env)
        else Ok (GenerateRecords write_err e (env_draws env) count).1
      else Ok ([], Err (Errorf "unknown generation mode: %s" [AS mode]))
  end.

(** runMain: the exit code; [flushed] is what the flush answers.  [usage] and
    [showVersion] exit themselves; an uncaught panic exits with 2. *)
Definition gen_usage : Z := 0.
Definition gen_showVersion : Z := 0.

Definition gen_runMain (flag_error showHelp showVersionFlag : bool) (args : list string) (generated : result unit) (flushed : option error) : Z :=
  if flag_error then 1
  else if showHelp then gen_usage
  else if showVersionFlag then gen_showVersion
  else match args with
       | [] => gen_usage
       | _ => match generated with
              | Ok _ => match flushed with Some _ => 1 | None => 0 end
              | Err _ => 1
              | Panic => 2
              end
       end.
End command.

(** ** Laws *)

(** The missing template prints the usage, which exits with the code of a
    success before the failure is returned. *)
Lemma missing_template_succeeds generated flushed : gen_runMain false false false [] generated flushed = 0.
Proof. done. Qed.

(** The continuous engine calls Generate on every generator, and Generate of a
    calculator only fails: with an add, min, max or multiply field, which a
    batch computes, a continuous run fails at its first record. *)
Theorem continuous_calculators_fail `{GoLib, Codecs, MapIter, MathLib} Sprintf_d time_Format write_err t ds rounds gs name g :
  gs !! name = Some g -> calculator g -> (0 < rounds)%nat ->
  let '(lines, r, _) :=
    run_continuous (H1 := field_generator Sprintf_d time_Format) write_err t ds rounds 0 gs in
  lines = [] /\ r <> Ok tt.
Proof.
  intros L C P. destruct rounds as [|rounds]; [lia|]. cbn [run_continuous]. unfold continuous_record.
  destruct (fill_continuous (iter (map_to_list gs)).*1 (ds 0%nat) ∅ gs) as [[record|err|] gs1] eqn:E; [|done..].
  exfalso. eapply (fill_continuous_fails Sprintf_d time_Format); [|by exists g|exact E].
  apply list_elem_of_fmap. exists (name, g). split; [done|]. rewrite iter_perm. by apply elem_of_map_to_list.
Qed.

(** The continuous engine writes one line per round and counts exactly the
    lines it wrote, until the context is done, its timer expires or a round
    fails: the rounds are those of [run_continuous], whatever the limiter does. *)
Theorem continuous_counts `{GoLib, Codecs, MapIter, FieldGenerator} write_err t gs rate dur start draws clocks stop :
  stop = CtxDone \/ stop = TimedOut /\ 0 < dur -> Z.of_nat (length clocks) < 2 ^ 64 ->
  let '(lines, r, e) :=
    ce_run write_err draws (((fun '(now, later) => Round now later) <$> clocks) ++ [stop]) 0 (NewContinuousEngine t gs rate dur start) in
  (lines, r, ce_generators e) = run_continuous write_err t draws (length clocks) 0 gs /\
  messagesGenerated e = Z.of_nat (length lines) /\ (length lines <= length clocks)%nat /\
  (r = Ok tt -> length lines = length clocks).
Proof.
  intros Stop Bound.
  enough (forall i e, ce_template e = t -> duration e = dur -> 0 <= messagesGenerated e -> messagesGenerated e + Z.of_nat (length clocks) < 2 ^ 64 ->
    let '(lines, r, e') := ce_run write_err draws (((fun '(now, later) => Round now later) <$> clocks) ++ [stop]) i e in
    (lines, r, ce_generators e') = run_continuous write_err t draws (length clocks) i (ce_generators e) /\
    messagesGenerated e' = messagesGenerated e + Z.of_nat (length lines) /\ (length lines <= length clocks)%nat /\
    (r = Ok tt -> length lines = length clocks)) as X.
  { specialize (X 0%nat (NewContinuousEngine t gs rate dur start) eq_refl eq_refl ltac:(done) ltac:(cbn; lia)).
    destruct (ce_run _ _ _ _ _) as [[lines r] e]. by cbn in X. }
  clear Bound. induction clocks as [|[now later] clocks IH]; intros i e <- Du P B.
  - cbn. destruct Stop as [->|[-> Pos]]; cbn; [|rewrite Du, (proj2 (Z.ltb_lt _ _)) by done]; split_and!; try done; cbn; lia.
  - cbn [fmap list_fmap app ce_run length run_continuous] in *. destruct (continuous_record _ _ _) as [[record|err|] gs1]; cbn -[Z.of_nat].
    2, 3: split_and!; try done; cbn; lia.
    destruct (write_record _ _ _) as [err|line]; cbn -[Z.of_nat]; [split_and!; try done; cbn; lia|].
    assert (messagesGenerated (ce_round e gs1 now later true) = messagesGenerated e + 1) as M by (cbn; apply wrapu64_id; unfold in_uint64; lia).
    specialize (IH (S i) (ce_round e gs1 now later true) eq_refl Du ltac:(rewrite M; lia) ltac:(rewrite M; lia)).
    destruct (ce_run _ _ _ _ _) as [[lines r] e']. destruct IH as (E & Em & L & F). cbn [ce_generators ce_round ce_template] in E.
    rewrite <- E. split_and!; [done|cbn [length]; lia|cbn; lia|]. intros R. cbn. by rewrite F.
Qed.
