(* ===== verification/ToolChain.v ===== *)
(** * ToolChain: from a generated record to the fields of a message

    The three programs one after the other.  The generator writes a record as
    a line of JSON, or, with its three transformers, as JSON, compressed, in
    base64; the loader reads the file and publishes what its lines hold; the
    connector parses a message back with parse_json, after decompress where the
    record was packed.  What arrives is the record, as JSON carries it. *)
From S2P Require Import Prelude GoInt GoStr GoUtf8 GoFloat GoTime Values GoJson Steps Proto Schema Yaml.
From S2P Require Import Telemetry Loader Feed Publish LoaderRun LoaderStop Batching LoaderSystem.
From S2P Require Import GenIterator GenEngine GenParallel.
From Stdlib.Strings Require Import Byte.

(** ** The two ways to carry a record *)

(** The transformers of a template, and the first steps of the parser. *)
Definition transformer (name : string) : TransformationDefinition := {| TType := name; TConfig := ∅ |}.
Definition chain (packed : bool) : list TransformationDefinition :=
  if packed then [transformer "encode_json"; transformer "compress"; transformer "encode_base64"] else [].

Definition first_step (name : string) (config : fields) : TransformSpec := {| Schema.Step := name; Schema.Block := EmptyString; Schema.Config := Some config |}.
Definition consumer (packed : bool) : list TransformSpec :=
  (if packed then [first_step "decompress" {[ "algorithm" := VString "gzip" ]}] else []) ++ [first_step "parse_json" ∅].

(** *** The codecs' promises *)

(** What compress/gzip writes, it reads. *)
Class GzipLaws `{GoLib, Codecs} : Prop := {
  compressed_nonempty level b : gzip_compress level b <> [];
  compressed_header level b : gzip_NewReader (gzip_compress level b) = Ok tt;
  compressed_reads level b : gzip_ReadAll (gzip_compress level b) = Ok b
}.

Section chain.
Context `{GoLib, Codecs, ProtoLib, SortSlice, MapIter} {G D : Type} `{FieldGenerator G D}.
Context `{!Json.JsonTextLaws, !GzipLaws}.

(** The records a run makes before its transformers. *)
Fixpoint raw_records (t : Template) (draws : nat -> nat -> D) (n i : nat) (gs : gmap string G) : result (list fields * gmap string G) :=
  match n with
  | O => Ok ([], gs)
  | S n =>
      let '(r, gs) := generateRawRecord t (draws i) gs in
      m ← r;
      '(ms, gs) ← raw_records t draws n (S i) gs;
      Ok (m :: ms, gs)
  end.

(** A record as JSON, as a message, and as a line of the file. *)
Definition json_of (m : fields) : bytes := match Json.Marshal (VMap m) with inr text => text | inl _ => [] end.
Definition payload (packed : bool) (m : fields) : bytes := if packed then gzip_compress DefaultCompression (json_of m) else json_of m.
Definition line (packed : bool) (m : fields) : bytes := if packed then Base64.EncodeToString (payload true m) else json_of m.

(** A record that JSON has a text for, on a line the scanner takes. *)
Definition carried (packed : bool) (m : fields) : Prop :=
  Json.plain (VMap m) = true /\ Json.depth (VMap m) <= Json.maxNestingDepth /\ (length (line packed m) < MaxScanTokenSize)%nat.

(** The record as the transformers leave it. *)
Definition output_of (packed : bool) (m : fields) : value := if packed then VString (string_of_bytes (line true m)) else VMap m.

(** ** Each program on its own *)

Lemma json_of_reads packed m :
  carried packed m ->
  Json.Marshal (VMap m) = inr (json_of m) /\ json_of m <> [] /\ Forall Json.visible (json_of m) /\ Json.Valid (json_of m) = true /\
  Json.Unmarshal (json_of m) = Ok (Json.as_json <$> m).
Proof.
  intros (P & D0 & _). destruct (Json.Unmarshal_Marshal m P D0) as (text & E & R). unfold json_of. by rewrite E.
Qed.

(** The generator. *)
Lemma transformed packed t m :
  PostTransformations t = chain packed -> carried packed m -> applyTransformations t m = Ok (output_of packed m).
Proof.
  intros E C. unfold applyTransformations. rewrite E. destruct packed; [|done]. destruct (json_of_reads _ _ C) as [M _].
  cbn -[json_of json_Marshal]. unfold json_Marshal. rewrite M. change (NewCompressor ∅) with (Ok (E := error) (compressor "gzip" DefaultCompression)).
  cbn -[json_of bytes_of_string string_of_bytes Base64.EncodeToString]. by rewrite bytes_of_string_of_bytes.
Qed.

Lemma line_of_output packed m : carried packed m -> encodes (output_of packed m) /\ line_of (output_of packed m) = string_of_bytes (line packed m).
Proof.
  intros C. destruct (json_of_reads _ _ C) as [E _]. destruct packed; unfold line_of, encodes; cbn [output_of encode]; [by split; [eexists|]|].
  unfold json_Marshal. rewrite E. by split; [eexists|].
Qed.

Lemma records_of_raw packed t draws n i gs ms gs' :
  PostTransformations t = chain packed -> raw_records t draws n i gs = Ok (ms, gs') -> Forall (carried packed) ms ->
  records_from t draws n i gs = Ok (output_of packed <$> ms, gs').
Proof.
  intros P. revert i gs ms. induction n as [|n IH]; intros i gs ms E F; cbn [raw_records records_from] in *; [by injection E as <- <-|].
  unfold generateSingleRecord. destruct (generateRawRecord t (draws i) gs) as [[m|e|] gs1]; [|done..]. cbn [mbind res_bind] in *.
  apply res_bind_ok in E as ([ms1 gs2] & E & E'). injection E' as <- <-. apply Forall_cons in F as [C F].
  rewrite (transformed packed) by done. by rewrite (IH _ _ _ E F).
Qed.

(** An object starts with its brace. *)
Lemma json_of_braced m : carried false m -> exists rest, json_of m = x7b :: rest.
Proof.
  intros C. destruct (json_of_reads _ _ C) as (E & _). unfold Json.Marshal in E. cbn [Json.encode] in E. unfold Json.object_of in E.
  destruct (Json.all_members _) as [e|l]; [done|]. injection E as <-. by eexists.
Qed.

(** The loader. *)
Definition written (lines : list string) : source_file := {| file_data := with_newlines (bytes_of_string <$> lines); file_err := None |}.

Lemma line_shape packed m :
  carried packed m -> line packed m <> [] /\ line_ok (line packed m) /\
  (if packed then accept_base64 else accept_json) (line packed m) = inr (payload packed m).
Proof.
  intros C. pose proof C as (_ & _ & L). destruct (json_of_reads _ _ C) as (_ & Ne & V & Va & _).
  assert (line packed m <> [] /\ Forall Json.visible (line packed m)) as [Nl Vl].
  { destruct packed; [|by split]. split; [by apply Base64.EncodeToString_nonempty, compressed_nonempty|].
    eapply Forall_impl; [apply Base64.EncodeToString_chars|]. by intros b (_ & _ & B). }
  rewrite Forall_forall in Vl. split; [done|]. split.
  - split_and!; [by intros B%Vl|done|]. intros B%last_Some_elem_of. by apply Vl in B.
  - destruct packed; cbn [line payload]; [unfold accept_base64; by rewrite Base64.DecodeString_EncodeToString|unfold accept_json; by rewrite Va].
Qed.

Lemma accepted_lines cfg packed ms :
  base64 cfg = packed -> Forall (carried packed) ms ->
  file_lines cfg (written ((fun m => string_of_bytes (line packed m)) <$> ms)) = payload packed <$> ms.
Proof.
  intros B F. unfold file_lines, accepted, written, line_judge. rewrite B. cbn [file_data]. rewrite <- list_fmap_compose.
  rewrite (list_fmap_ext _ (line packed)) by (intros; apply bytes_of_string_of_bytes). rewrite scan_lines.
  2: { apply Forall_fmap. eapply Forall_impl; [exact F|]. intros m C. by apply line_shape. }
  cbn [fst]. induction F as [|m ms C _ IH]; [done|]. destruct (line_shape _ _ C) as (Ne & _ & A).
  cbn [fmap list_fmap omap list_omap]. rewrite A, IH. by destruct (line packed m).
Qed.
(** The file is detected as JSON lines, or declared base64. *)
Lemma written_opens cfg packed c ms :
  base64 cfg = packed -> ms <> [] -> Forall (carried packed) ms ->
  exists events, open_input cfg (Ok c) (inr (written ((fun m => string_of_bytes (line packed m)) <$> ms))) = Ok events.
Proof.
  intros B Ne F. unfold open_input. rewrite B. destruct packed; [cbn [mbind res_bind]; rewrite GetParser_base64; by eexists|].
  destruct ms as [|m ms]; [done|]. apply Forall_cons in F as [C _]. destruct (json_of_braced m C) as [rest E].
  set (f := written _). assert (exists rest, peek f = inr (x7b :: rest)) as [rest' ->].
  { unfold peek, f, written, with_newlines. cbn [fmap list_fmap concat file_data file_err]. rewrite bytes_of_string_of_bytes. cbn [line].
    rewrite E. case_match; by eexists. }
  rewrite detect_exact. unfold format_of. case_bool_decide as P; [by destruct P as [? ?]|].
  case_bool_decide as Q; [by destruct Q as [? ?]|]. cbn [isJSONContent mbind res_bind]. rewrite GetParser_jsonlines. by eexists.
Qed.

(** The connector. *)
Definition reads_back (steps : list compiledStep) (payload : bytes) (m : fields) : Prop :=
  forall st rest, Steps.Data st = Some payload ->
  exists st', run_steps (steps ++ rest) st = run_steps rest st' /\ Steps.Fields st' = (Json.as_json <$> m) ∪ Steps.Fields st /\
    Steps.Errors st' = Steps.Errors st /\ Steps.Message st' = Steps.Message st.

Lemma parse_json_reads st b m c :
  Steps.Data st = Some b -> b <> [] -> Json.Unmarshal b = Ok m -> exists f, makeParseJSONStep c = Ok f /\ f st = Ok (put_all st m).
Proof. intros E Ne U. eexists. split; [reflexivity|]. cbv beta. rewrite E. destruct b; [done|]. by rewrite U. Qed.

Lemma decompress_reads st level b :
  Steps.Data st = Some (gzip_compress level b) -> makeGzipDecompressStep st = Ok (set_Data st b).
Proof.
  intros E. unfold makeGzipDecompressStep. rewrite E, compressed_header, compressed_reads. pose proof (compressed_nonempty level b).
  by destruct (gzip_compress level b).
Qed.

Lemma consumer_reads packed :
  exists steps, mapM (M := result) compileStep (consumer packed) = Ok steps /\
    forall m, carried packed m -> reads_back steps (payload packed m) m.
Proof.
  destruct packed; eexists; (split; [reflexivity|]); intros m C st rest D0; destruct (json_of_reads _ _ C) as (_ & Ne & _ & _ & U);
    cbn [app run_steps fn]; [rewrite (decompress_reads _ _ _ D0)|];
    (match goal with |- context [Steps.Data ?s] => destruct (parse_json_reads s (json_of m) _ ∅ ltac:(done) Ne U) as (f & [= <-] & E) end);
    cbv beta in E; rewrite E; by eexists.
Qed.

(** ** The chain *)

(** Messages that hold the payloads of some of the records. *)
Lemma payloads_read packed steps ms sent rest :
  Forall (carried packed) ms -> (forall m, carried packed m -> reads_back steps (payload packed m) m) ->
  sent ++ rest ≡ₚ payload packed <$> ms ->
  exists arrived others, arrived ++ others ≡ₚ ms /\ rest = payload packed <$> others /\ Forall2 (reads_back steps) sent arrived.
Proof.
  intros F R (all & E & P)%Permutation_map_inv. symmetry in E.
  apply fmap_app_inv in E as (arrived & others & -> & -> & ->). exists arrived, others. split; [done|]. split; [done|].
  rewrite P, Forall_app in F. destruct F as [F _]. apply Forall2_fmap_l. apply Forall_Forall2_diag.
  eapply Forall_impl; [exact F|]. by intros m C; apply R.
Qed.

End chain.
