(* ===== verification/TestData.v ===== *)
(** * TestData: the generators of test data (internal/util)

    The draws of the property-based tests, as functions of the values rapid
    draws under its labels, and the random names of the integration tests.
    What they are for is what the theorems say: the texts of ValidJsonString
    are read by parse_json as the fields that were drawn, and it refuses every
    text of InvalidJsonString. *)
From S2P Require Import Prelude GoInt GoStr GoUtf8 GoFloat GoTime Values GoJson Steps.
From Stdlib.Strings Require Import Byte.
From Stdlib Require Import Ascii.

(** ** Rapid *)

(** What is drawn under a label. *)
Class Rapid : Type := {
  IntRange : Z -> Z -> string -> Z;
  StringMatching : string -> string -> string;
  AnyString : string -> string;
  Float64Range : Z -> Z -> string -> float64;
  AnyBool : string -> bool;
  sample : nat -> string -> nat        (* the index SampledFrom draws below a length *)
}.

Definition identifier : string := "[a-zA-Z][a-zA-Z0-9_]*".

(** The draws keep to their generators; a float of a bounded range is finite. *)
Class RapidLaws `{Rapid} : Prop := {
  IntRange_in lo hi l : lo <= hi -> lo <= IntRange lo hi l <= hi;
  identifier_ascii l : is_ascii (StringMatching identifier l) = true;
  Float64Range_finite lo hi l : Json.float_ok (Float64Range lo hi l) = true;
  sample_in n l : (0 < n)%nat -> (sample n l < n)%nat
}.

(** ** generate.go *)

Section generate.
Context `{Rapid}.

Definition label (kind : string) (i : nat) : string := kind +:+ FormatInt (Z.of_nat i).

Definition drawn_field (i : nat) : value :=
  let typeChoice := IntRange 0 2 (label "type_" i) in
  if typeChoice =? 0 then VString (AnyString (label "str_val_" i))
  else if typeChoice =? 1 then
    let v := Float64Range (- 10 ^ 10) (10 ^ 10) (label "num_val_" i) in
    VFloat64 (if Json.is_finite v then v else f64_of_Z 42)
  else VBool (AnyBool (label "bool_val_" i)).

Definition generateRandomJsonFields : fields :=
  foldl (fun jsonData i => <[StringMatching identifier (label "key_" i) := drawn_field i]> jsonData) ∅
    (seq 0 (Z.to_nat (IntRange 1 5 "numFields"))).

Definition ValidJsonString `{Json.JsonText} : string :=
  match Json.Marshal (VMap generateRandomJsonFields) with inr jsonBytes => string_of_bytes jsonBytes | inl _ => EmptyString end.

Definition ValidJsonMap : fields := generateRandomJsonFields.

(** The patterns, with a tilde for each double quote. *)
Fixpoint quoted (s : string) : string :=
  match s with EmptyString => EmptyString | String c s => (if Ascii.eqb c "~" then dq else String c EmptyString) +:+ quoted s end.

Definition invalidPatterns : list string := quoted <$> [
  "{~key~: invalid}"; "{~key~: ~value~"; "{~key~: ~value}"; "{~key~: ~val\x00ue~}"; "{~key~: ~value~,}"; "{key: ~value~}";
  "{'key': 'value'}"; "{~key~: ~value~, ~key2~:}" ].

(** An index out of range panics. *)
Definition InvalidJsonString : result string :=
  let idx := IntRange 0 (Z.of_nat (length invalidPatterns) - 1) "invalid_pattern" in
  if idx <? 0 then Panic else match invalidPatterns !! Z.to_nat idx with Some s => Ok s | None => Panic end.

Definition NatsMessage : Msg :=
  {| Subject := StringMatching identifier "topic"; MsgData := bytes_of_string (AnyString "data") |}.
Definition NatsMessageWithJson `{Json.JsonText} : Msg :=
  {| Subject := StringMatching identifier "topic"; MsgData := bytes_of_string ValidJsonString |}.
Definition NatsMessageWithInvalidJson : result Msg :=
  text ← InvalidJsonString; Ok {| Subject := StringMatching identifier "topic"; MsgData := bytes_of_string text |}.

Definition SampledFrom (l : list string) (name : string) : string := nth (sample (length l) name) l EmptyString.

Definition RandomEndpoint : string :=
  SampledFrom ["nats://localhost:4222"; "nats://127.0.0.1:4222"; "nats://test.example.com:4222"] "endpoint".
Definition ComponentName : string :=
  SampledFrom ["source"; "sink"; "parser"; "connector"; "yaml_parser"; "noop_parser"; "writer"] "component".
Definition UnicodeName : string :=
  SampledFrom ["🚀💻🔥"; "你好世界"; "مرحبا بالعالم"; "こんにちは世界"; "Здравствуй мир"; "Γεια σου κόσμε"] "unicode".

Definition newlines : string := "line1" +:+ String "010" ("line2" +:+ String "010" "line3").
Definition tabs : string := "col1" +:+ String "009" ("col2" +:+ String "009" "col3").
Definition controls : string := String "000" (String "001" (String "002" EmptyString)).
Definition SpecialCharsString : string :=
  SampledFrom [quoted "He said ~Hello~"; "C:\Windows\Path"; newlines; tabs; EmptyString; " "; controls] "special_chars".
End generate.

(** ** test_utils.go *)

Definition latin : string := "ABCDEFGHIJKLMNOPQRSTUVWXYZabcdefghijklmnopqrstuvwxyz0123456789".

(** [Intn] is the sequence of draws of math/rand. *)
Fixpoint random_letters (Intn : nat -> Z -> Z) (togo i : nat) : result string :=
  match togo with
  | O => Ok EmptyString
  | S togo =>
      c ← match byte_at latin (Intn i (len latin)) with Some c => Ok c | None => Panic end;
      rest ← random_letters Intn togo (S i);
      Ok (String c rest)
  end.
Definition RandomAlias (Intn : nat -> Z -> Z) : result string := random_letters Intn 16 0.
Definition RandomTopicName (Intn : nat -> Z -> Z) : result string := RandomAlias Intn.
Definition RandomNumber (Intn : nat -> Z -> Z) : Z := Intn O 1000000.

Definition DefaultQDBEndpoint : string := "qdb://127.0.0.1:2836".
Definition TestSinkConfig : string * Z * Z * Z := ("qdb://127.0.0.1:2836", 2, 50, 2).

(** errors.As into a ConnectorError: the first of the chain. *)
Fixpoint as_connector_error (e : error) : option (Z * string * list (string * value)) :=
  match e with
  | ConnectorError code component _ _ _ metadata => Some (code, component, metadata)
  | Wrapf _ _ w => as_connector_error w
  | _ => None
  end.

(** Whether the assertion holds.  [errContains] is the text of the test case
    when its type is the unnamed struct of this package. *)
Definition AssertError (contains : error -> string -> bool) (errContains : option string) (err : option error) : bool :=
  match err, errContains with
  | None, _ => false
  | Some e, Some text => String.eqb text EmptyString || contains e text
  | Some _, None => true
  end.

Definition AssertSubscriptionError (contains : error -> string -> bool) (errContains : option string) (err : option error) (topic : string) : bool :=
  AssertError contains errContains err &&
  match err with
  | Some e =>
      match as_connector_error e with
      | Some (code, component, metadata) =>
          String.eqb component "source" && (code =? ErrCodeSubscriptionFailed) &&
          match List.find (fun kv => String.eqb kv.1 "topic") metadata with Some (_, VString t) => String.eqb t topic | _ => false end
      | None => false
      end
  | None => false
  end.

(** ** What the data are *)

Section laws.
Context `{GoLib, Rapid, !RapidLaws, Json.JsonText, !Json.JsonTextLaws}.

Lemma ascii_self c : (nat_of_ascii c <? 128)%nat = true -> Utf8.is_self (byte_of_ascii c) = true.
Proof. by destruct c as [[] [] [] [] [] [] [] []]. Qed.

Lemma ascii_utf8 s : is_ascii s = true -> Utf8.ValidUTF8 (bytes_of_string s) = true.
Proof.
  intros A. apply Utf8.ValidUTF8_ascii. induction s as [|c s IH]; [by constructor|]. cbn [is_ascii] in A. apply andb_true_iff in A as [C A].
  change (bytes_of_string (String c s)) with (byte_of_ascii c :: bytes_of_string s). constructor; [by apply ascii_self|by apply IH].
Qed.

(** The fields drawn: identifiers with scalars that JSON has a text for. *)
Lemma drawn_fields : map_Forall (fun k v => Utf8.ValidUTF8 (bytes_of_string k) = true /\ Json.plain v = true /\ Json.scalar v = true)
  generateRandomJsonFields.
Proof.
  unfold generateRandomJsonFields. generalize (seq 0 (Z.to_nat (IntRange 1 5 "numFields"))). intros l.
  assert (forall m : fields, map_Forall (fun k v => Utf8.ValidUTF8 (bytes_of_string k) = true /\ Json.plain v = true /\ Json.scalar v = true) m ->
    map_Forall (fun k v => Utf8.ValidUTF8 (bytes_of_string k) = true /\ Json.plain v = true /\ Json.scalar v = true)
      (foldl (fun jsonData i => <[StringMatching identifier (label "key_" i) := drawn_field i]> jsonData) m l)) as G; [|by apply G].
  induction l as [|i l IH]; intros m M; [done|]. cbn [foldl]. apply IH. apply map_Forall_insert_2; [|done].
  split; [apply ascii_utf8, identifier_ascii|]. unfold drawn_field. case_match; [done|]. case_match; [|done].
  pose proof (Float64Range_finite (- 10 ^ 10) (10 ^ 10) (label "num_val_" i)) as F. pose proof F as [-> _]%andb_true_iff. by split.
Qed.

(** The texts do what their names say: parse_json reads a valid one as the
    fields that were drawn, as JSON carries them, and refuses an invalid one. *)
Theorem json_data_exact config :
  exists step, makeParseJSONStep config = Ok step /\
    (forall st, Steps.Data st = Some (MsgData NatsMessageWithJson) -> step st = Ok (put_all st (Json.as_json <$> ValidJsonMap))) /\
    (exists msg, NatsMessageWithInvalidJson = Ok msg /\ forall st, Steps.Data st = Some (MsgData msg) -> exists err, step st = Err err).
Proof.
  eexists. split; [reflexivity|]. split.
  - intros st E. pose proof drawn_fields as F.
    destruct (Json.Unmarshal_Marshal generateRandomJsonFields) as (text & M & Ne & _ & _ & U).
    + apply Json.plain_map_intro. eapply map_Forall_impl; [exact F|]. by intros k v (? & ? & _).
    + etrans; [apply Json.flat_depth|done]. eapply map_Forall_impl; [exact F|]. by intros k v (_ & _ & ?).
    + assert (MsgData NatsMessageWithJson = text) as Et by (cbn; unfold ValidJsonString; by rewrite M, bytes_of_string_of_bytes).
      rewrite Et in E. cbv beta. rewrite E. destruct text; [done|]. by rewrite U.
  - assert (Forall (fun s => bytes_of_string s <> [] /\ exists e, Json.Unmarshal (bytes_of_string s) = Err e) invalidPatterns) as Bad.
    { repeat (apply Forall_cons_2; [split; [done|eexists; vm_compute; reflexivity]|]). by apply Forall_nil. }
    unfold NatsMessageWithInvalidJson, InvalidJsonString. pose proof (IntRange_in 0 (Z.of_nat (length invalidPatterns) - 1) "invalid_pattern" ltac:(done)) as [L U].
    destruct (Z.ltb_spec (IntRange 0 (Z.of_nat (length invalidPatterns) - 1) "invalid_pattern") 0); [lia|].
    destruct (lookup_lt_is_Some_2 invalidPatterns (Z.to_nat (IntRange 0 (Z.of_nat (length invalidPatterns) - 1) "invalid_pattern"))) as [s Es]; [lia|].
    rewrite Es. cbn [mbind res_bind]. eexists. split; [done|]. intros st E. cbn [MsgData] in E. cbv beta. rewrite E.
    rewrite Forall_forall in Bad. destruct (Bad s) as (Ne & e & X); [by eapply list_elem_of_lookup_2|]. destruct (bytes_of_string s); [done|].
    rewrite X. by eexists.
Qed.
End laws.

(** A random name has sixteen characters. *)
Lemma random_letters_shape Intn togo i :
  (forall i n, 0 < n -> 0 <= Intn i n < n) -> exists s, random_letters Intn togo i = Ok s /\ len s = Z.of_nat togo.
Proof.
  intros D. revert i. induction togo as [|togo IH]; intros i; [by exists EmptyString|]. destruct (IH (S i)) as (s & E & L).
  assert (exists c, byte_at latin (Intn i (len latin)) = Some c) as [c C].
  { specialize (D i (len latin) ltac:(done)). unfold byte_at. change (len latin) with 62 in *.
    assert (Z.to_nat (Intn i 62%Z) < 62)%nat as B by lia. revert B. generalize (Z.to_nat (Intn i 62)). intros k B.
    do 62 (destruct k as [|k]; [by eexists|]). lia. }
  cbn [random_letters]. rewrite C, E. exists (String c s). split; [done|]. unfold len in *. cbn [String.length]. lia.
Qed.

Lemma RandomAlias_shape Intn : (forall i n, 0 < n -> 0 <= Intn i n < n) -> exists s, RandomAlias Intn = Ok s /\ len s = 16.
Proof. intros D. exact (random_letters_shape Intn 16 0 D). Qed.

(** The error of a failed bind is the subscription error the tests expect. *)
Lemma subscription_error_asserted contains topic err :
  AssertSubscriptionError contains None (Some (NewSubscriptionFailedError "source" topic err)) topic = true.
Proof. cbn. by rewrite String.eqb_refl. Qed.
