(* ===== verification/TestLib.v ===== *)
(** * Concrete libraries and sample data

    Instances of the library classes for a small concrete environment (three
    numbers, one layout of times, identity map order), with their laws, and
    the sample configurations, messages, workers and environments on which
    Witnesses.v instantiates the properties. *)
From S2P Require Import Prelude GoInt GoStr GoFloat GoTime Values GoUtf8 GoJson Qdb FieldPath Convert Steps Compute Subject.
From S2P Require Import MapEntry Unpack Proto Schema Explode Filter Parser Yaml Breaker SinkOptions Sink.
From S2P Require Import Source Stats Worker Health Connector Options.
From Stdlib.Strings Require Import Byte.
From Stdlib Require Import SpecFloat.

(** ** Libraries *)

(** 2024-01-01T00:00:00Z. *)
Definition new_year : gotime := time_Unix 1704067200 0.

(** The text of a document: n is 7, s is x, at is a time and xs is [1, 2]. *)
Definition sample_text : list byte := Json.print (Json.JObject [
  (bytes_of_string "n", Json.JNumber (bytes_of_string "7")); (bytes_of_string "s", Json.JString (bytes_of_string "x"));
  (bytes_of_string "at", Json.JString (bytes_of_string "2024-01-01T00:00:00Z"));
  (bytes_of_string "xs", Json.JArray [Json.JNumber (bytes_of_string "1"); Json.JNumber (bytes_of_string "2")])]).

(** The numbers it reads. *)
Definition digit_of (s : string) : option Z :=
  if String.eqb s "1" then Some 1 else if String.eqb s "2" then Some 2 else if String.eqb s "7" then Some 7 else None.

#[export] Instance sample_lib : GoLib := {|
  gzip_NewReader b := match b with x1f :: x8b :: _ => Ok tt | _ => Err (LibError "gzip: invalid header") end;
  gzip_ReadAll b := Ok (drop 2 b);
  ParseFloat s := match digit_of s with Some n => Ok (f64_of_Z n) | None => Err (LibError "invalid syntax") end;
  FormatFloat_g f := if SFeqb f (f64_of_Z 1) then "1" else if SFeqb f (f64_of_Z 7) then "7" else "2";
  Sprintf_v v := match v with VString s => s | _ => "v" end;
  ParseDuration s := if String.eqb s "1ms" then Some Millisecond else match ParseInt s with Ok d => Some d | _ => None end;
  time_Parse layout s := if String.eqb s "2024-01-01T00:00:00Z" then Ok new_year else Err (LibError "cannot parse");
  sha1_Sum b := replicate 20 x00;
  sha256_Sum256 b := replicate 32 x00;
  trim_unicode s cutset := s;
  float_out_of_range f := min_int64;
  native_is_little := true;
  MinTimespec := Time 0 0 |}.

#[export] Instance sample_laws : GoLibLaws.
Proof.
  split; intros; cbn; try apply ok_no_panic; try done.
  - by repeat case_match.
  - by repeat case_match.
  - by case_match.
Qed.

#[export] Instance sample_iter : MapIter := {| iter A l := l; iter_perm A l := reflexivity l |}.

(** A message type with one string field "id". *)
Definition id_field : FieldDescriptor := {|
  fd_Name := "id"; fd_Number := 1; fd_Kind := StringKind; fd_Card := Singular; fd_Default := 0 |}.

#[export] Instance sample_proto : ProtoLib := {|
  set_proto := unit; MessageDescriptor := unit; Files := unit;
  os_ReadFile _ := Ok [x01]; filepath_Dir s := s; filepath_Base s := s;
  Unmarshal_set _ := Ok tt; Compile _ f := Ok (FileDesc f []); NewFiles _ := Ok tt;
  FindDescriptorByName _ _ := Ok (Some tt);
  Unmarshal _ b := Ok [(id_field, PString "k")]; message_types _ := [] |}.

#[export] Instance sample_proto_laws : ProtoLibLaws.
Proof. split; [done|]. by intros d b populated [= <-]. Qed.
#[export] Instance sample_schemas : StandardTimestamps.
Proof. by intros files name d _. Qed.

(** ** Configurations *)

Definition sstep (name : string) (config : fields) : TransformSpec :=
  {| Step := name; Block := EmptyString; Config := Some config |}.

Definition column (name t : string) : ColumnSchema := {| Name := name; Type_ := t |}.

Definition no_filters : Filter.Spec := {| SpecMode := EmptyString; Match := [] |}.

Definition common_steps : list TransformSpec := [
  sstep "parse_json" ∅;
  sstep "extract_table" {[ "value" := VString "t1" ]} ].

(** One row: an int64 column converted from "n", the string "s", and a double
    column no step fills. *)
Definition row_config : YAMLConfig := {|
  Yaml.Compression := EmptyString;
  Yaml.Columns := [column "num" "int64"; column "s" "string"; column "missing" "double"];
  Transformations := common_steps ++ [
    sstep "extract_field" {[ "source" := VString "n"; "target" := VString "num"; "type" := VString "int64" ]} ];
  Yaml.Filters := no_filters |}.

(** The same with an index. *)
Definition indexed_config : YAMLConfig := {|
  Yaml.Compression := EmptyString;
  Yaml.Columns := [column "s" "string"];
  Transformations := common_steps ++ [sstep "extract_index" {[ "source" := VString "at" ]}];
  Yaml.Filters := no_filters |}.

(** "xs" exploded into rows one millisecond apart, with an ordinal. *)
Definition explode_config : YAMLConfig := {|
  Yaml.Compression := EmptyString;
  Yaml.Columns := [column "x" "double"; column "i" "int64"; column "s" "string"];
  Transformations := common_steps ++ [
    sstep "extract_timestamp" {[ "source" := VString "at"; "target" := VString "start" ]};
    sstep "explode" {[ "source" := VString "xs"; "target" := VString "x"; "ordinal" := VString "i";
      "index" := VMap {[ "start" := VMap {[ "source" := VString "start" ]};
                         "interval" := VMap {[ "value" := VString "1ms" ]} ]} ]} ];
  Yaml.Filters := no_filters |}.

(** The parser a configuration compiles to. *)
Definition dummy_parser (c : YAMLConfig) : YAMLParser := {|
  config := c; pipeline := []; hasIndexStep := false; explode := None; columnTypes := []; columns := [];
  Yaml.rowFilter := None |}.
Definition compiled (c : YAMLConfig) : YAMLParser :=
  match NewYAMLParserFromConfig c with Ok p => p | _ => dummy_parser c end.

Definition is_ok {E A} (r : res E A) : bool := match r with Ok _ => true | _ => false end.

Lemma is_ok_inv {E A} (r : res E A) : is_ok r = true -> exists x, r = Ok x.
Proof. destruct r; [eauto|done..]. Qed.

Lemma is_ok_bind_inv {E A B} (r : res E A) (g : A -> res E B) :
  is_ok (x ← r; g x) = true -> exists x y, r = Ok x /\ g x = Ok y.
Proof. destruct r as [x| |]; cbn; [|done..]. intros [y Y]%is_ok_inv. eauto. Qed.

Lemma compiled_ok c : is_ok (NewYAMLParserFromConfig c) = true -> NewYAMLParserFromConfig c = Ok (compiled c).
Proof. unfold compiled. by destruct (NewYAMLParserFromConfig c). Qed.

Lemma row_compiled : NewYAMLParserFromConfig row_config = Ok (compiled row_config).
Proof. apply compiled_ok. by vm_compute. Qed.
Lemma indexed_compiled : NewYAMLParserFromConfig indexed_config = Ok (compiled indexed_config).
Proof. apply compiled_ok. by vm_compute. Qed.
Lemma explode_compiled : NewYAMLParserFromConfig explode_config = Ok (compiled explode_config).
Proof. apply compiled_ok. by vm_compute. Qed.

(** ** Messages *)

Definition good_msg : Msg := {| Subject := "plant.a"; MsgData := sample_text |}.
Definition bad_msg : Msg := {| Subject := "plant.a"; MsgData := [x00] |}.

Example row_parsed :
  (fun r => (Outcome_of r, data <$> Tables r)) <$> Parse (compiled row_config) new_year (Some good_msg) =
  Ok (OutcomeOK, [[CDInt64 [7]; CDString ["x"]; CDDouble [f64_nan]]]).
Proof. by vm_compute. Qed.

Example bad_parsed :
  Outcome_of <$> Parse (compiled row_config) new_year (Some bad_msg) = Ok OutcomeUnusable.
Proof. by vm_compute. Qed.

Example explode_parsed :
  (fun r => (Outcome_of r, data <$> Tables r, idx <$> Tables r)) <$> Parse (compiled explode_config) zero_time (Some good_msg) =
  Ok (OutcomeOK, [[CDDouble [f64_of_Z 1; f64_of_Z 2]; CDInt64 [0; 1]; CDString ["x"; "x"]]],
      [[(1704067200, 0); (1704067200, 1000000)]]).
Proof. by vm_compute. Qed.

(** ** A worker and its environment *)

Definition unavailable_once (i : nat) : option error :=
  match i with O => Some (QdbError ErrTryAgain "push" []) | S _ => None end.

Definition sample_sink_env (push : nat -> option error) : SinkEnv := {|
  push_result := push; wait_cancelled _ := false; ctx_cancelled _ := false; ctx_err := Canceled |}.

Definition sample_env (push : nat -> option error) : BatchEnv := {|
  be_now _ := new_year; be_rnd _ := 0; be_start := 5; be_end := 6;
  be_sink := sample_sink_env push; be_ack _ := None; be_nak _ := None |}.

Definition sample_sink : Sink := {|
  Sink.Options_ := SinkOpts.NewOptions [SinkOpts.WithClusterUri "qdb://127.0.0.1:2836"]; closed := false |}.

(** Threshold 2, timeout 1000 ns, jitter up to 100 ns, levels 1, 2 and 4. *)
Definition sample_breaker : CircuitBreaker := NewCircuitBreaker 2 1 1000 false "qdb-cluster" 100 1 4 0.

Definition sample_worker : Worker := {|
  id := 0; workerID := "worker-0"; parser := Parse (compiled row_config);
  rowFilter := Yaml.rowFilter (compiled row_config); sink := sample_sink; circuitBreaker := sample_breaker;
  onTableWrites := true; Worker.parseErrorAction := "fail"; closing := false; counters := zero_counters |}.

Lemma sample_timestamps c : standard_timestamps c.
Proof. apply Forall_true. intros spec _. apply StandardTimestamps_schema. Qed.

#[export] Instance sample_lawful : LawfulParser (parser sample_worker) (columns (compiled row_config)) :=
  Parse_lawful row_config (compiled row_config) (sample_timestamps row_config) row_compiled.

Lemma sample_breaker_total : breaker_total sample_breaker.
Proof. right. cbn. lia. Qed.

Definition sample_info (seq : Z) (m : Msg) : MessageInfo := {|
  InfoMsg := {| payload := m; Source.Metadata := Some {| Stream := seq; Timestamp := 0; NumPending := 0 |};
                reply := "r" |};
  Sequence := seq |}.

(** Two good messages around one the parser refuses. *)
Definition sample_batch : MessageBatch :=
  {| Messages := [sample_info 10 good_msg; sample_info 11 bad_msg; sample_info 12 good_msg] |}.

(** The trace of that batch when the first push is answered with a retryable
    error and the second one succeeds. *)
Definition sample_trace : list worker_event :=
  match processBatchFromChannel (sample_env unavailable_once) sample_worker (Some sample_batch) with
  | Ok (_, tr, _) => tr | _ => [] end.
Definition sample_after : Worker :=
  match processBatchFromChannel (sample_env unavailable_once) sample_worker (Some sample_batch) with
  | Ok (w, _, _) => w | _ => sample_worker end.

Example sample_calls : calls sample_trace = [(false, [11]); (true, [10; 12])].
Proof. by vm_compute. Qed.

Example sample_pushes :
  omap (fun e => match e with SinkEv (Pushed t r) => Some (TableName <$> t, rowCount <$> t, r) | _ => None end) sample_trace =
  [(["t1" +:+ nul], [2%nat], Some (QdbError ErrTryAgain "push" [])); (["t1" +:+ nul], [2%nat], None)].
Proof. by vm_compute. Qed.

Lemma sample_ran :
  processBatchFromChannel (sample_env unavailable_once) sample_worker (Some sample_batch) = Ok (sample_after, sample_trace, None).
Proof.
  unfold sample_after, sample_trace.
  assert (E : (fun r => r.2) <$> processBatchFromChannel (sample_env unavailable_once) sample_worker (Some sample_batch) = Ok None)
    by by vm_compute.
  destruct (processBatchFromChannel _ _ _) as [[[w tr] e]| |]; try done. by injection E as ->.
Qed.

Lemma sample_batch_ok : Messages sample_batch <> [] /\ NoDup (Sequence <$> Messages sample_batch).
Proof. split; [done|]. cbn. by apply (bool_decide_unpack _). Qed.

(** ** Flags *)

Definition sample_options : Options.Options := {|
  PidFile := EmptyString; MaxRetries := 3; NatsEndpoint := "nats://127.0.0.1:4222"; NatsStreamName := "plant"; NatsConsumerName := "qdb";
  NatsCredsFile := EmptyString; NatsCAFile := EmptyString;
  NatsBatchSize := 100; NatsBatchTimeout := Second; NatsFetchTimeout := Second; Workers := 2;
  QdbClusterUri := "qdb://127.0.0.1:2836"; QdbClusterPublicKeyFile := EmptyString; QdbUserSecurityFile := EmptyString;
  QdbCompression := "balanced"; QdbEncryption := "none"; QdbPushMode := EmptyString; QdbDeduplicationMode := "drop";
  QdbClientMaxParallelism := 0; QdbClientMaxInBufSize := 0;
  CircuitBreakerFailureThreshold := 5; CircuitBreakerSuccessThreshold := 2; CircuitBreakerTimeout := 30 * Second;
  CircuitBreakerShared := true; CircuitBreakerJitterMax := Second;
  CircuitBreakerHalfOpenBase := 1; CircuitBreakerHalfOpenMax := 64;
  HealthStuckThreshold := 60 * Second; HTTPAddr := EmptyString; StatsInterval := 0;
  MetricsLagBucketStart := 1; MetricsLagBucketFactor := f64_of_Z 2; MetricsLagBucketCount := 10;
  MetricsWriteBucketStart := 1; MetricsWriteBucketFactor := f64_of_Z 2; MetricsWriteBucketCount := 10;
  ParserType := "yaml"; ParserConfig := "conf/parser.yaml"; Options.ParseErrorAction := "fail" |}.

Definition sample_parsed : result (SinkOpts.OptionsProvider * SourceOpts.OptionsProvider) :=
  parseAndSetFields CompNone WriterDeduplicationModeDisabled sample_options.

Example sample_options_valid : validateOptions (fun _ => None) (fun _ => true) sample_options = None.
Proof. by vm_compute. Qed.

(** ** Tables *)

Definition string_column : WriterColumn := {| ColumnName := "s" +:+ nul; ColumnType := TsColumnString |}.

Definition one_row_table (name s : string) : WriterTable := {|
  TableName := name; rowCount := 1; columnInfoByOffset := [string_column];
  columnOffsetByName := {["s" +:+ nul := 0%nat]}; idx := [(0, 0)]; data := [CDString [s]] |}.
