(* ===== verification/Witnesses.v ===== *)
(** * Witnesses: every conditional property at a concrete input

    The hypotheses of each property hold on the samples of TestLib.v (or on
    small inputs given here), and the property yields its conclusion there. *)
From S2P Require Import Prelude GoInt GoStr GoFloat GoTime GoCalendar Values Qdb FieldPath Convert Steps Compute Subject.
From S2P Require Import MapEntry Unpack Proto Schema Explode Exploded Filter Parser Yaml Backoff Breaker SinkOptions.
From S2P Require Import Sink Hooks Manager Source Stats Liveness Worker Health Connector Window Lag Options.
From S2P Require Import Factory System TestLib.
From Stdlib.Strings Require Import Byte.
From Stdlib Require Import SpecFloat.

(** ** Worker *)

Lemma ack_only_after_write_witness :
  exists q settled e rs,
    AckCall q settled e ∈ sample_trace /\
    parsed (sample_env unavailable_once) sample_worker (Messages sample_batch) rs /\
    (survivors sample_worker rs = [] \/
     exists tables before after, MergeWriterTables (survivors sample_worker rs) = Ok tables /\
       sample_trace = before ++ SinkEv (Pushed tables None) :: after /\ AckCall q settled e ∈ after).
Proof.
  eexists [10; 12], [InfoMsg (sample_info 10 good_msg); InfoMsg (sample_info 12 good_msg)], None.
  assert (I : AckCall [10; 12] [InfoMsg (sample_info 10 good_msg); InfoMsg (sample_info 12 good_msg)] None ∈ sample_trace).
  { apply (list_elem_of_lookup_2 _ 12). by vm_compute. }
  destruct (ack_only_after_write (columns (compiled row_config)) (sample_env unavailable_once) sample_worker _ sample_batch
    sample_after sample_trace None _ _ _ eq_refl sample_breaker_total ltac:(by vm_compute) sample_ran I)
    as (rs & P & D).
  exists rs. split; [exact I|]. split; [exact P|]. destruct D as [D|(t & b & a & M & _ & E & J)]; [by left|].
  right. exists t, b, a. split; [exact M|]. by split.
Defined.

Lemma worker_settles_batch_witness :
  exists w' tr err failed valid,
    processBatchFromChannel (sample_env unavailable_once) sample_worker (Some sample_batch) = Ok (w', tr, err) /\
    failed ++ valid ≡ₚ [10; 11; 12].
Proof.
  destruct (worker_settles_batch (columns (compiled row_config)) (sample_env unavailable_once) sample_worker _ sample_batch
    eq_refl (proj1 sample_batch_ok) sample_breaker_total (proj2 sample_batch_ok))
    as (w' & tr & err & rs & f & v & E & _ & _ & P & _).
  exists w', tr, err, f, v. split; [exact E|exact P].
Defined.

Lemma worker_counters_exact_witness :
  exists w' tr err rs,
    processBatchFromChannel (sample_env unavailable_once) sample_worker (Some sample_batch) = Ok (w', tr, err) /\
    batch_gain sample_worker (sample_env unavailable_once) (Messages sample_batch) rs err acks +
      batch_gain sample_worker (sample_env unavailable_once) (Messages sample_batch) rs err nacks = 3.
Proof.
  destruct (worker_counters_exact (columns (compiled row_config)) (sample_env unavailable_once) sample_worker _ sample_batch
    eq_refl (proj1 sample_batch_ok) sample_breaker_total (proj2 sample_batch_ok))
    as (w' & tr & err & rs & E & _ & _ & _ & A).
  exists w', tr, err, rs. split; [exact E|]. apply A; done.
Defined.

Lemma run_settles_everything_witness :
  exists w' tr, Run sample_worker [RecvBatch (sample_env unavailable_once) (Some sample_batch)] = Ok (w', tr, None) /\
    concat (calls tr).*2 ≡ₚ [10; 11; 12].
Proof.
  destruct (run_settles_everything (columns (compiled row_config))
    [RecvBatch (sample_env unavailable_once) (Some sample_batch)] sample_worker) as (w' & tr & E & _ & P).
  - split; [apply sample_lawful|]. split; [done|]. split; [apply sample_breaker_total|by vm_compute].
  - constructor; [apply sample_batch_ok|constructor].
  - exists w', tr. split; [exact E|exact P].
Defined.

(** ** YAML parser *)

Lemma parse_total_classified_witness :
  exists r, Parse (compiled row_config) new_year (Some bad_msg) = Ok r /\
    (Outcome_of r = OutcomeUnusable -> Tables r = [] /\ ParseErrors r <> []).
Proof.
  destruct (parse_total_classified row_config (compiled row_config) new_year bad_msg row_compiled (sample_timestamps row_config)) as (r & E & D).
  exists r. split; [exact E|]. intros U. rewrite U in D. exact D.
Defined.

(** The result and the one table of a sample message. *)
Definition result_of (c : YAMLConfig) : ParseResult :=
  match Parse (compiled c) new_year (Some good_msg) with
  | Ok r => r | _ => {| Tables := []; Outcome_of := OutcomeUnusable; ParseErrors := [] |} end.

Lemma result_of_ok c :
  is_ok (Parse (compiled c) new_year (Some good_msg)) = true ->
  Parse (compiled c) new_year (Some good_msg) = Ok (result_of c).
Proof. unfold result_of. by destruct (Parse _ _ _). Qed.

Definition table_of (c : YAMLConfig) : WriterTable :=
  default {| TableName := EmptyString; rowCount := 0; columnInfoByOffset := []; columnOffsetByName := ∅; idx := []; data := [] |}
    (head (Tables (result_of c))).

Lemma table_of_in c : length (Tables (result_of c)) = 1%nat -> table_of c ∈ Tables (result_of c).
Proof. unfold table_of. destruct (Tables (result_of c)); [done|left]. Qed.

Lemma row_is_scalar : explode (compiled row_config) = None.
Proof. by vm_compute. Qed.

Lemma parse_tables_well_formed_witness :
  rectangular (columns (compiled row_config)) (table_of row_config) /\ table_name_ok (TableName (table_of row_config)) /\
  (0 < rowCount (table_of row_config))%nat /\
  (explode (compiled row_config) = None -> rowCount (table_of row_config) = 1%nat).
Proof.
  apply (parse_tables_well_formed row_config (compiled row_config) new_year good_msg (result_of row_config) (table_of row_config)
    row_compiled).
  - apply result_of_ok. by vm_compute.
  - apply table_of_in. by vm_compute.
Defined.

Lemma parse_row_content_witness :
  exists st, runPipeline (compiled row_config) (newParseState (compiled row_config) good_msg) = Ok (st, true) /\
    data (table_of row_config) !! 0%nat = Some (CDInt64 [default Int64Undefined (as_int64 (Fields st !! "num"))]).
Proof.
  destruct (parse_row_content row_config (compiled row_config) new_year good_msg (result_of row_config) (table_of row_config)
    row_compiled row_is_scalar) as (st & R & _ & _ & D).
  - apply result_of_ok. by vm_compute.
  - apply table_of_in. by vm_compute.
  - exists st. split; [exact R|]. exact (D 0%nat (column "num" "int64") eq_refl).
Defined.

(** The explode step of the sample configuration. *)
Definition explode_index : fields :=
  {[ "start" := VMap {[ "source" := VString "start" ]}; "interval" := VMap {[ "value" := VString "1ms" ]} ]}.
Definition explode_cfg : fields :=
  {[ "source" := VString "xs"; "target" := VString "x"; "ordinal" := VString "i"; "index" := VMap explode_index ]}.

Lemma parse_exploded_rows_witness :
  exists st start d,
    runPipeline (compiled explode_config) (newParseState (compiled explode_config) good_msg) = Ok (st, true) /\
    field_at "start" (Fields st) = Some (VTime start) /\
    configured_interval {[ "value" := VString "1ms" ]} (Fields st) 2 d /\
    idx (table_of explode_config) !! 1%nat = Some (timespec (Add start (wrap64 (1 * d)))) /\
    data (table_of explode_config) !! 1%nat = Some (CDInt64 [0; 1]).
Proof.
  destruct (parse_exploded_rows explode_config (compiled explode_config) (sstep "explode" explode_cfg) explode_cfg new_year good_msg
    (result_of explode_config) (table_of explode_config) explode_compiled eq_refl eq_refl eq_refl)
    as (st & v & array & start & d & R & _ & _ & _ & S & I & _ & C & _ & X & _ & D).
  - apply result_of_ok. by vm_compute.
  - apply table_of_in. by vm_compute.
  - assert (L : cd_Length array = 2%nat) by (rewrite <- C; by vm_compute). rewrite L in *.
    exists st, start, d. split; [exact R|]. split; [exact S|]. split; [exact I|]. split; [exact (X 1%nat ltac:(lia))|].
    exact (D 1%nat (column "i" "int64") eq_refl).
Defined.

Lemma parse_clock_free_witness :
  Parse (compiled indexed_config) zero_time (Some good_msg) = Parse (compiled indexed_config) new_year (Some good_msg).
Proof.
  apply (parse_clock_free indexed_config (compiled indexed_config) _ _ _ indexed_compiled). left. by vm_compute.
Defined.

(** ** Breaker *)

Definition sample_request (t : Z) (err : option error) : request :=
  {| req_rnd _ := 0; req_start := t; req_end := t + 1; req_err := err |}.

Lemma zero_rnd_ok : rnd_ok (fun _ => 0).
Proof. intros n N. cbn. lia. Qed.

Lemma sample_breaker_ok : breaker_cfg_ok sample_breaker.
Proof. unfold breaker_cfg_ok. split_and!; first [by vm_compute|right; by vm_compute]. Qed.

(** Two failures open the breaker, the third request is rejected, and after
    the timeout a fourth is admitted. *)
Definition sample_requests : list request :=
  [sample_request 10 unavailable; sample_request 20 unavailable; sample_request 30 None; sample_request 5000 None].

Lemma sample_sequential : sequential 0 sample_requests.
Proof. unfold max_int64. cbn. repeat split; try apply zero_rnd_ok; vm_compute; done. Qed.

Example sample_executed :
  (fun r => (state r.1.1, length r.2)) <$> execute_all sample_breaker sample_requests = Ok (StateHalfOpen, 3%nat).
Proof. by vm_compute. Qed.

Lemma breaker_refines_recovery_witness :
  exists cb' bs s', execute_all sample_breaker sample_requests =
      Ok (cb', replies "qdb-cluster" sample_requests bs, admitted_of sample_requests bs) /\
    spec_run 2 1 4 1000 (Closed 0) sample_requests bs s'.
Proof.
  destruct (breaker_refines_recovery sample_requests sample_breaker 0 (Closed 0) sample_breaker_ok) as (cb & bs & s & t & E & S & _).
  - cbn. by split_and!.
  - lia.
  - apply sample_sequential.
  - exists cb, bs, s. by split.
Defined.

(** Half-open at level 1 with nothing in flight. *)
Definition recovering_breaker : CircuitBreaker := upd_halfOpen (upd_state sample_breaker StateHalfOpen 0) 1 0 0.

(** With the limits of the default configuration, 1 and 32, recovery takes 63
    successes and not the 32 of the decision record. *)
Definition default_recovering : CircuitBreaker :=
  upd_halfOpen (upd_state (NewCircuitBreaker 5 2 (30 * Second) true "qdb-cluster" 0 1 32 0) StateHalfOpen 0) 1 0 0.

Lemma default_recovery_takes_63 :
  (fun n => (fun r => GetState r.1.1) <$> execute_all default_recovering ((fun i => sample_request (10 * i) None) <$> seqZ 1 n)) <$> [32; 62; 63] =
  [Ok StateHalfOpen; Ok StateHalfOpen; Ok StateClosed].
Proof. by vm_compute. Qed.

Lemma recovery_completes_witness :
  exists cb', execute_all recovering_breaker ((fun i => sample_request (10 * i) None) <$> seqZ 1 7) =
      Ok (cb', replicate 7 None, (fun i => sample_request (10 * i) None) <$> seqZ 1 7) /\ GetState cb' = StateClosed.
Proof.
  destruct (recovery_completes ((fun i => sample_request (10 * i) None) <$> seqZ 1 7) recovering_breaker 0 1 0)
    as (cb & E & S & _).
  - unfold breaker_cfg_ok. split_and!; first [by vm_compute|right; by vm_compute].
  - cbn. by split_and!.
  - lia.
  - cbn. repeat split; try apply zero_rnd_ok; vm_compute; done.
  - repeat constructor.
  - by vm_compute.
  - exists cb. by split.
Defined.

Lemma effective_timeout_bounds_witness :
  calculateEffectiveTimeout (fun _ => 0) sample_breaker = Ok 950 /\ 20 * Z.abs (950 - 1000) <= 1000.
Proof.
  assert (E : calculateEffectiveTimeout (fun _ => 0) sample_breaker = Ok 950) by by vm_compute.
  split; [exact E|].
  apply (effective_timeout_bounds (fun _ => 0) sample_breaker zero_rnd_ok); [|exact E].
  cbn. split; by vm_compute.
Defined.

Lemma backoff_sequence_witness :
  (delays 4 (NewBackoff Second (5 * Second))).1 !! 2%nat = Some (4 * Second) /\ Second <= 4 * Second <= 5 * Second.
Proof.
  assert (L : (delays 4 (NewBackoff Second (5 * Second))).1 !! 2%nat = Some (4 * Second)) by by vm_compute.
  split; [exact L|].
  apply (backoff_sequence Second (5 * Second) 4 2 (4 * Second)); [vm_compute; by split|by vm_compute|exact L].
Defined.

(** ** Sink *)

Lemma write_outcome_witness :
  exists k m, let '(err, tr) := Write (sample_sink_env unavailable_once) sample_sink [one_row_table "t1" "x"] in
    Z.of_nat k <= 10 /\
    pushes tr = (fun j => ([one_row_table "t1" "x"], unavailable_once j)) <$> seq 0 k /\
    sleeps tr = backoff_delay <$> seq 0 m.
Proof.
  destruct (write_outcome (sample_sink_env unavailable_once) sample_sink [string_column] [one_row_table "t1" "x"])
    as (k & m & W).
  - done.
  - done.
  - split; [by apply (bool_decide_unpack _)|by repeat constructor].
  - by vm_compute.
  - exists k, m. destruct (Write _ _ _) as [err tr]. destruct W as (A & B & _ & C & _).
    split; [exact A|]. by split.
Defined.

(** ** Connector *)

Definition nats_up : NatsEnv := {|
  Stat _ := None; nats_Connect _ := None; nats_JetStream := None;
  ConsumerInfo _ _ := inr ("plant.>", 3); PullSubscribe _ _ _ := inr 1%nat |}.
Definition nats_down : NatsEnv := {|
  Stat _ := None; nats_Connect _ := None; nats_JetStream := None;
  ConsumerInfo _ _ := inl (NatsError NatsConsumerNotFound); PullSubscribe _ _ _ := inl (NatsError NatsTimeout) |}.

(** The first re-bind fails, the second succeeds. *)
Definition sample_rebind : rebind_input := {|
  rb_start := 100; rb_env i := if (i <=? 1)%nat then nats_down else nats_up; rb_ctx _ := None;
  rb_cancelled _ := false; rb_wait_cancelled _ := false; rb_now i := 200 + Z.of_nat i |}.

Definition sample_fetch (fetched : list nats_msg + error) : fetch_input := {|
  fi_cancelled := false; fi_start := 50; fi_now := 60; fi_fetched := fetched; fi_valid := true;
  fi_recover_cancelled := false; fi_wait_cancelled := false; fi_rebind := sample_rebind;
  fi_dispatch_cancelled := false; fi_error_text _ := EmptyString |}.

Definition sample_source : Source := {|
  NatsConn := true; JetStream := true; Subscription := Some 0%nat;
  Source.Options_ := SourceOpts.NewOptions [SourceOpts.WithStreamName "plant"];
  filterSubject := "plant.>"; pendingCount := 0; pendingAt := 0 |}.

Definition sample_connector : Connector := NewConnector sample_source.

(** Two messages, then a deleted consumer, then one message. *)
Definition sample_inputs : list fetch_input :=
  [sample_fetch (inl [InfoMsg (sample_info 1 good_msg); InfoMsg (sample_info 2 good_msg)]);
   sample_fetch (inr (NatsError NatsConsumerDeleted));
   sample_fetch (inl [InfoMsg (sample_info 3 good_msg)])].

Lemma triple_eta {A B C} (p : A * B * C) : p = (p.1.1, p.1.2, p.2).
Proof. by destruct p as [[a b] c]. Qed.

Lemma fetch_loop_delivers_witness :
  (fetchLoop sample_inputs sample_connector).1.1 = false /\
  sent (fetchLoop sample_inputs sample_connector).2 = concat (batch_of <$> sample_inputs) /\
  wrapu64 (MessagesFetched (stats (fetchLoop sample_inputs sample_connector).1.2)) = 3.
Proof.
  assert (F : (fetchLoop sample_inputs sample_connector).1.1 = false) by by vm_compute.
  split; [exact F|].
  pose proof (fetch_loop_delivers sample_inputs sample_connector _ _ _ ltac:(by eexists) ltac:(by vm_compute) (triple_eta _)) as D.
  rewrite F in D. exact D.
Defined.

Lemma rebind_bounded_witness :
  exists k, Z.of_nat k <= 10 /\
    wrapu64 (RebindAttempts (stats (rebindSubscription sample_rebind sample_connector).1.2)) = wrapu64 (0 + Z.of_nat k).
Proof.
  destruct (rebind_bounded sample_rebind sample_connector _ _ _ ltac:(by vm_compute) ltac:(by vm_compute) ltac:(by vm_compute) eq_refl (triple_eta _)) as (k & K & A & _).
  exists k. by split.
Defined.

Definition sample_monitor : healthMonitor := newHealthMonitor zero_probe [("worker-0", zero_probe)] 1000.

Definition idle_round : bool * Connector * Backoff * list loop_event :=
  fetch_round (sample_fetch (inl [])) (NewBackoff fetchBackoffBase fetchBackoffMax) sample_connector.

Lemma idle_is_healthy_witness :
  active (evaluate sample_monitor 1000 (health idle_round.1.1.2)) !! condFetchStalled = None.
Proof.
  apply (idle_is_healthy (sample_fetch (inl [])) (NewBackoff fetchBackoffBase fetchBackoffMax) sample_connector
    idle_round.1.1.1 idle_round.1.1.2 idle_round.1.2 idle_round.2).
  - by eexists.
  - by vm_compute.
  - fold idle_round. by destruct idle_round as [[[a b] c] d].
  - done.
  - by apply (bool_decide_unpack _).
  - split; by vm_compute.
  - by vm_compute.
  - by vm_compute.
Defined.

(** ** System *)

Definition sample_NewWorker (shared : bool) : result (option Manager * Worker) :=
  NewWorker (fun _ => inr []) (fun _ => inr row_config) (fun _ => None) 0 1 sample_options
    match sample_parsed with Ok (p, _) => p | _ => {|
      SinkOpts.p_ClusterUri := EmptyString; SinkOpts.p_ClusterPublicKeyFile := EmptyString;
      SinkOpts.p_UserSecurityFile := EmptyString; SinkOpts.p_Encryption := None; SinkOpts.p_Compression := CompNone;
      SinkOpts.p_DeduplicationMode := WriterDeduplicationModeDrop; SinkOpts.p_PushMode := WriterPushModeAsync;
      SinkOpts.p_ClientMaxParallelism := None; SinkOpts.p_ClientMaxInBufSize := None; SinkOpts.p_Timeout := None |} end
    true (if shared then Some (connector_manager sample_options) else None).

Lemma new_worker_ready_witness :
  exists m w, sample_NewWorker true = Ok (m, w) /\ (exists cols, worker_ready cols w) /\
    Worker.parseErrorAction w = "fail" /\ GetStats w = snapshot zero_counters.
Proof.
  assert (E : is_ok (sample_NewWorker true) = true) by by vm_compute.
  destruct (sample_NewWorker true) as [[m w]| |] eqn:N; try done. exists m, w. split; [done|].
  apply (new_worker_ready (fun _ => inr []) (fun _ => inr row_config) (fun _ => None) 0 1 sample_options _ true true m w N).
  right. by vm_compute.
Defined.

Lemma validated_configuration_witness :
  exists sink src, sample_parsed = Ok (sink, src) /\ breaker_cfg_ok (worker_breaker sample_options 0) /\
    SinkOpts.RetryAttempts (SinkOpts.FromOptionsProvider sink) = 10 /\
    SinkOpts.PushMode (SinkOpts.FromOptionsProvider sink) = WriterPushModeAsync.
Proof.
  destruct sample_parsed as [[sink src]| |] eqn:P; [|by vm_compute in P..]. exists sink, src. split; [done|].
  destruct (validated_configuration _ _ CompNone WriterDeduplicationModeDisabled sample_options 0 sink src
    sample_options_valid P) as (B & _ & _ & R & _ & M & _).
  - done.
  - by vm_compute.
  - right. by vm_compute.
  - split; [exact B|]. split; [exact R|]. by apply M.
Defined.

(** ** Filter *)

Definition keep_x : Filter.Spec :=
  {| SpecMode := "whitelist"; Match := [{| Filter.Column := "s"; Filter.Value := VString "x" |}] |}.

Lemma filter_exact_witness :
  exists f, Filter.New keep_x [string_column] ["other"] = Ok f /\
    Apply f [one_row_table "a" "x"; one_row_table "b" "y"] = [one_row_table "a" "x"].
Proof.
  destruct (Filter.New keep_x [string_column] ["other"]) as [f| |] eqn:N; [|by vm_compute in N..].
  exists f. split; [done|].
  destruct (filter_exact keep_x [string_column] ["other"] f [one_row_table "a" "x"; one_row_table "b" "y"])
    as [E _]; [by apply (bool_decide_unpack _)|repeat constructor|exact N|].
  rewrite E. by vm_compute.
Defined.

(** ** Steps *)

Definition state_with (fs : fields) : ParseState := {|
  Message := None; Data := None; Fields := fs; Errors := []; indexBuf := []; doubleVals := []; blobVals := [];
  int64Vals := []; stringVals := []; timestampVals := [] |}.

Definition unpack_config (extra : fields) : fields :=
  extra ∪ {[ "source" := VString "raw"; "type" := VString "int16"; "target" := VString "out";
             "endianness" := VString "big" ]}.

Definition dummy_unpack : unpackSpec := {|
  u_source := EmptyString; u_lookupSource _ := None; typeName := EmptyString;
  elem := {| width := 1; isFloat := false; readInt := None; widen := None |}; u_widen _ _ := Panic;
  order := LittleEndian; u_target := EmptyString; hasScale := false; scaleSource := EmptyString;
  scaleLookup := None; scaleValue := S754_zero false |}.
Definition unpack_of (extra : fields) : unpackSpec :=
  match parseUnpackConfig (unpack_config extra) with Ok u => u | _ => dummy_unpack end.
Lemma unpack_of_ok extra :
  is_ok (parseUnpackConfig (unpack_config extra)) = true -> parseUnpackConfig (unpack_config extra) = Ok (unpack_of extra).
Proof. unfold unpack_of. by destruct (parseUnpackConfig _). Qed.

Definition raw_state : ParseState := state_with {[ "raw" := VBytes [xff; xfe; x01; x00] ]}.

Lemma unpack_roundtrip_witness :
  run (unpack_of ∅) raw_state = Ok (put raw_state (u_target (unpack_of ∅)) (VInts (wrap64 <$> [-2; 256]))).
Proof.
  apply (unpack_roundtrip (unpack_config ∅) (unpack_of ∅) raw_state 2 true [-2; 256]).
  - apply unpack_of_ok. by vm_compute.
  - by vm_compute.
  - apply (list_elem_of_lookup_2 _ 2). by vm_compute.
  - repeat constructor; by vm_compute.
  - by vm_compute.
Defined.

Definition by_two : fields := {[ "scale" := VMap {[ "value" := VFloat64 (f64_of_Z 2) ]} ]}.

Lemma unpack_scaled_exact_witness :
  run (unpack_of by_two) raw_state =
    Ok (put raw_state (u_target (unpack_of by_two)) (VFloats ((fun n => f64_mul (f64_of_Z n) (f64_of_Z 2)) <$> [-2; 256]))).
Proof.
  apply (unpack_scaled_exact (unpack_config by_two) (unpack_of by_two) raw_state 2 true [-2; 256] (f64_of_Z 2)).
  - apply unpack_of_ok. by vm_compute.
  - by vm_compute.
  - by vm_compute.
  - apply (list_elem_of_lookup_2 _ 2). by vm_compute.
  - repeat constructor; by vm_compute.
  - by vm_compute.
Defined.

Lemma unpack_step_ok : exists f, makeUnpackStep (unpack_config ∅) = Ok f.
Proof. apply is_ok_inv. by vm_compute. Qed.

Lemma unpack_all_or_nothing_witness :
  exists f, makeUnpackStep (unpack_config ∅) = Ok f /\ no_panic (f (state_with ∅)) /\ no_panic (f raw_state).
Proof.
  destruct unpack_step_ok as [f E]. exists f. split; [exact E|]. split.
  - apply (unpack_all_or_nothing (unpack_config ∅) f (state_with ∅) E).
  - apply (unpack_all_or_nothing (unpack_config ∅) f raw_state E).
Defined.

Definition name_state : ParseState := state_with {[ "name" := VString "a/b/c" ]}.

Lemma slice_step_python_witness :
  let cfg := {| sl_source := "name"; sl_lookupSource fs := fs !! "name"; sl_target := "out";
                Compute.start := -3; end_ := -1; hasEnd := true |} in
  exists r, makeSliceFieldStep cfg name_state = Ok (put name_state "out" (VString r)) /\
    String.list_ascii_of_string r = py_slice (String.list_ascii_of_string "a/b/c") (-3) (Some (-1)).
Proof.
  intros cfg. apply (slice_step_python cfg name_state "a/b/c"); [done|split; by vm_compute..|by vm_compute].
Defined.

Lemma split_step_selects_witness :
  let cfg := {| sp_source := "name"; sp_lookupSource fs := fs !! "name"; separator := "/";
                sp_target := "out"; index := -1 |} in
  exists parts, Join parts "/" = "a/b/c" /\
    makeSplitFieldStep cfg name_state =
      match py_get parts (-1) with
      | Some p => Ok (put name_state "out" (VString p))
      | None => Err (parse_error "split index %d out of range (%d parts) in compute_field step"
                       [AZ (-1); AZ (Z.of_nat (length parts))])
      end.
Proof.
  intros cfg. destruct (split_step_selects cfg name_state "a/b/c") as (parts & J & _ & E);
    [done|done|split; by vm_compute|by vm_compute|].
  exists parts. by split.
Defined.

Definition entry_config : fields :=
  {[ "source" := VString "m"; "key_target" := VString "k"; "value_target" := VString "v";
     "on_multiple" := VString "first" ]}.
Definition entry_state : ParseState :=
  state_with {[ "m" := VMap {[ "b" := VInt64 2; "7" := VInt64 1 ]} ]}.

Lemma entry_config_ok : exists cfg, parseMapEntryConfig entry_config = Ok cfg.
Proof. apply is_ok_inv. by vm_compute. Qed.

Lemma entry_step_ok : exists f st', makeExtractMapEntryStep entry_config = Ok f /\ f entry_state = Ok st'.
Proof. apply is_ok_bind_inv. by vm_compute. Qed.

Lemma map_entry_exact_witness :
  exists cfg f st', parseMapEntryConfig entry_config = Ok cfg /\ makeExtractMapEntryStep entry_config = Ok f /\
    f entry_state = Ok st' /\
    exists m k v, lookupSource cfg (Fields entry_state) = Some (VMap m) /\ m !! k = Some v /\
      forall k', is_Some (m !! k') -> string_le k k'.
Proof.
  destruct entry_config_ok as [cfg C]. destruct entry_step_ok as (f & st' & F & S).
  exists cfg, f, st'. split; [exact C|]. split; [exact F|]. split; [exact S|].
  apply (map_entry_exact entry_config cfg f entry_state st' C F) in S as (m & k & v & L & K & M & _).
  exists m, k, v. split; [exact L|]. by split.
Defined.

(** A message type with an unsigned field and the well-known Timestamp. *)
Definition count_field : FieldDescriptor :=
  {| fd_Name := "count"; fd_Number := 1; fd_Kind := Uint64Kind; fd_Card := Singular; fd_Default := 0 |}.
Definition at_field : FieldDescriptor :=
  {| fd_Name := "at"; fd_Number := 2; fd_Kind := MessageKind; fd_Card := Singular; fd_Default := 0 |}.
Definition stamped : list (FieldDescriptor * pvalue) :=
  [(count_field, PUint (2 ^ 64 - 1)); (at_field, PMessage timestamp_type [(seconds_field, PInt 1782991353)])].
Definition stamped_proto : ProtoLib := {|
  set_proto := unit; MessageDescriptor := unit; Files := unit;
  os_ReadFile _ := Ok [x01]; filepath_Dir s := s; filepath_Base s := s;
  Unmarshal_set _ := Ok tt; Compile _ f := Ok (FileDesc f []); NewFiles _ := Ok tt;
  FindDescriptorByName _ _ := Ok (Some tt);
  Unmarshal _ b := Ok stamped; message_types _ := [timestamp_type] |}.
Lemma stamped_laws : @ProtoLibLaws stamped_proto.
Proof. split; [done|]. intros d b populated [= <-]. by vm_compute. Qed.

(** The text of the nested timestamp is its instant. *)
Lemma proto_decode_normal_witness :
  exists es text, @decode stamped_proto tt [x01] = Ok (list_to_map es) /\
    (list_to_map es : fields) !! "at" = Some (VString text) /\ denotes_instant text (1782991353 * 10 ^ 9) /\
    (list_to_map es : fields) !! "count" = Some (VInt64 (-1)).
Proof.
  destruct (@proto_decode_normal stamped_proto stamped_laws tt [x01] ltac:(by vm_compute)) as (es & E & _ & R & N).
  apply Forall2_cons_inv_l in R as ([k1 v1] & es1 & [E1 R1] & R & ->).
  apply Forall2_cons_inv_l in R as ([k2 v2] & es2 & [E2 R2] & R & ->). apply Forall2_nil_inv_l in R as ->.
  cbn in E1, E2, R1, R2. subst k1 k2. inversion R1 as [| | | | |n m Im Em| | | | |]. subst.
  inversion R2 as [| | | | | | | | |mt p es Ne F|mt p s n text Nm Hs Hn D]; subst; [done|].
  assert (s = 1782991353 /\ n = 0) as [-> ->].
  { split; [destruct Hs as [(fd & I & F)|[F _]]|destruct Hn as [(fd & I & F)|[F (fd & I & Nf & Df)]]].
    - apply list_elem_of_singleton in I. by injection I.
    - exfalso. apply Forall_cons in F as [F _]. exact (F eq_refl).
    - apply list_elem_of_singleton in I. injection I as -> _. done.
    - repeat (apply elem_of_cons in I as [->|I]; [done|]). exfalso. exact (not_elem_of_nil _ I). }
  exists [("count", VInt64 m); ("at", VString text)], text. split; [exact E|]. split; [done|]. split.
  - rewrite <- (Z.add_0_r (1782991353 * 10 ^ 9)). apply D. split; split; by vm_compute.
  - assert (m = -1) as -> by (unfold_range; unfold in_int64, min_int64, max_int64 in Im; Z.to_euclidean_division_equations; lia). done.
Defined.

(** ** Explode *)

Lemma exploded_index_exact_witness :
  let index := buildExplodedIndex new_year Millisecond 3 in
  length index = 3%nat /\ index !! 0%nat = Some new_year /\
  forall i j t u, (i < j)%nat -> index !! i = Some t -> index !! j = Some u -> instant t < instant u.
Proof.
  destruct (exploded_index_exact new_year Millisecond 3) as (L & Z & _ & O).
  - split; split; by vm_compute.
  - by vm_compute.
  - by vm_compute.
  - split; by vm_compute.
  - split; by vm_compute.
  - split; [exact L|]. split; [apply Z; lia|exact O].
Defined.

Lemma sourced_interval_positive_witness :
  exists d, resolveSourcedInterval "dt" (fun fs => fs !! "dt") Millisecond {[ "dt" := VFloat64 (f64_of_Z 4) ]} = Ok d /\
    0 < d <= max_int64.
Proof.
  destruct (resolveSourcedInterval "dt" (fun fs => fs !! "dt") Millisecond {[ "dt" := VFloat64 (f64_of_Z 4) ]})
    as [d| |] eqn:E; [|by vm_compute in E..].
  exists d. split; [done|].
  apply (sourced_interval_positive "dt" (fun fs => fs !! "dt") "ms" Millisecond {[ "dt" := VFloat64 (f64_of_Z 4) ]} d eq_refl E).
Defined.

(** ** Source *)


Lemma ack_exact_witness :
  exists picked, Forall2 (fun q info => info ∈ Messages sample_batch /\ Sequence info = q) [12; 10] picked /\
    settles (fun _ => None) (InfoMsg <$> picked)
      (ackMessages (fun _ => None) (Messages sample_batch) [12; 10]).1
      (ackMessages (fun _ => None) (Messages sample_batch) [12; 10]).2.
Proof.
  apply (ack_exact (fun _ => None) (Messages sample_batch) [12; 10] (proj2 sample_batch_ok)).
  repeat constructor; by apply (bool_decide_unpack _).
Defined.

(** ** Health *)

(** A worker in one stage since 10, looked at at 5000. *)
Definition stuck_monitor : healthMonitor :=
  newHealthMonitor zero_probe [("worker-0", Begin 10 "write")] 1000.

Lemma evaluate_exact_witness :
  is_Some (active (evaluate stuck_monitor 5000 newHealthState) !! (condStuckPrefix +:+ "worker-0")) <->
  stuck 1000 5000 (Begin 10 "write").
Proof.
  destruct (evaluate_exact stuck_monitor 5000 newHealthState) as (S & _); [by apply (bool_decide_unpack _)|].
  apply S. right. left.
Defined.

Lemma probe_verdicts_exact_witness :
  (handleReadyz true (Health newHealthState [("worker-0", sample_breaker)])).1 = 200.
Proof.
  apply (probe_verdicts_exact newHealthState [("worker-0", sample_breaker)] true None 0).
  - by apply (bool_decide_unpack _).
  - split; [done|]. split; [done|]. by repeat constructor.
Defined.

(** ** Manager: two callers of one resource miss together, then create in turn *)

Definition two_callers : world := initial [Manager.WithDefaults 5 2 1000] ["qdb"; "qdb"].

Definition first_create : Manager * ptr := create_breaker 3 (mgr two_callers) "qdb".
Definition second_create : Manager * ptr := create_breaker 4 first_create.1 "qdb".

Lemma two_callers_done :
  rtc step two_callers {| mgr := second_create.1; callers := [Got "qdb" first_create.2; Got "qdb" second_create.2] |}.
Proof.
  eapply rtc_l; [by apply (step_read_miss _ _ 0%nat "qdb")|].
  eapply rtc_l; [by apply (step_read_miss _ _ 1%nat "qdb")|].
  eapply rtc_l; [by apply (step_write _ _ 0%nat "qdb" 3 first_create.1 first_create.2)|].
  eapply rtc_l; [by apply (step_write _ _ 1%nat "qdb" 4 second_create.1 second_create.2)|].
  apply rtc_refl.
Qed.

Lemma manager_one_breaker_per_resource_witness :
  first_create.2 = second_create.2 /\ GetBreaker second_create.1 "qdb" = Some first_create.2.
Proof.
  destruct (manager_one_breaker_per_resource _ _ _ two_callers_done) as (A & B & _).
  split; [apply (A "qdb" _ "qdb" _)|apply B]; cbn [callers]; first [done|left|right; left].
Defined.

(** ** Telemetry *)

Definition sample_entries : list entry :=
  [{| at_ := 0; table := "a"; erows := 5; emsgs := 1 |}; {| at_ := 61; table := "b"; erows := 7; emsgs := 2 |}].

Lemma window_exact_witness :
  exists w, add_all sample_entries newTableWindow = Ok w /\
    wrapu64 (TotalRows (report 120 3 w)) = wrapu64 (rows_in 2 sample_entries).
Proof.
  destruct (window_exact sample_entries 120 3) as (w & E & T & _).
  - cbn. repeat split; by vm_compute.
  - lia.
  - repeat constructor; by vm_compute.
  - exists w. split; [exact E|exact T].
Defined.

Definition sample_snapshot (a b n : Z) : HistogramSnapshot :=
  {| Count := n; Sum := f64_of_Z 0; Buckets := [{| UpperBound := f64_of_Z 1; CumulativeCount := a |};
                             {| UpperBound := f64_of_Z 2; CumulativeCount := b |}] |}.

Lemma bucketDeltas_exact_witness :
  bucketDeltas (sample_snapshot 1 2 3) (sample_snapshot 2 5 9) = Some [1; 2; 3] /\
  foldr Z.add 0 [1; 2; 3] = 6.
Proof.
  assert (E : bucketDeltas (sample_snapshot 1 2 3) (sample_snapshot 2 5 9) = Some [1; 2; 3]) by by vm_compute.
  split; [exact E|].
  destruct (bucketDeltas_exact (sample_snapshot 1 2 3) (sample_snapshot 2 5 9)) as [_ D].
  - split; [split; by vm_compute|repeat constructor; by vm_compute].
  - split; [split; by vm_compute|repeat constructor; by vm_compute].
  - apply (D _ E).
Defined.

(** ** Factory *)

Definition proto_config : YAMLConfig := {|
  Yaml.Compression := EmptyString; Yaml.Columns := [column "id" "string"];
  Transformations := [sstep "parse_protobuf" {[ "descriptor_file" := VString "x.desc"; "message_type" := VString "M" ]}];
  Yaml.Filters := no_filters |}.

Lemma resolve_paths_exact_witness :
  exists spec', Transformations (resolveDescriptorPaths proto_config "conf") !! 0%nat = Some spec' /\
    exists c', Config spec' = Some c' /\ c' !! "descriptor_file" = resolved "conf" (Some (VString "x.desc")).
Proof.
  destruct (resolve_paths_exact proto_config "conf" 0
    (sstep "parse_protobuf" {[ "descriptor_file" := VString "x.desc"; "message_type" := VString "M" ]}) eq_refl)
    as (spec' & E & _ & _ & _ & _ & D).
  exists spec'. split; [exact E|].
  destruct (D {[ "descriptor_file" := VString "x.desc"; "message_type" := VString "M" ]} eq_refl eq_refl) as (c' & C & K).
  exists c'. split; [exact C|]. exact (K "descriptor_file").
Defined.
