(* ===== verification/RunWitnesses.v ===== *)
(** * Witnesses of the properties of whole runs

    One run of a connector with one worker - a batch is fetched, dispatched and
    processed, then the context is cancelled and everything ends - and the
    telemetry, boot and loader properties at concrete inputs. *)
From stdpp Require Import relations.
From S2P Require Import Prelude GoInt GoStr GoParse GoUtf8 GoFloat GoTime Values GoJson Qdb FieldPath Convert Steps Filter Parser Yaml.
From S2P Require Import Backoff Breaker SinkOptions Sink Hooks Manager Source Stats Liveness Worker Health Connector.
From S2P Require Import Window Lag Telemetry Options Flags FlagLaws Factory System Orchestrator FetchThread Schedule Lifecycle Boot Server Loader.
From S2P Require Import TestLib Witnesses.
From Stdlib.Strings Require Import Byte.

(** ** The run *)

Definition run_source : Connector := with_source sample_connector (Connect nats_up sample_source).1.
Definition run_input : fetch_input := sample_fetch (inl (InfoMsg <$> Source.Messages sample_batch)).
Definition run_bo : Backoff := NewBackoff fetchBackoffBase fetchBackoffMax.
Definition run_fetched : Connector := fetched run_input (fetchOnce run_input (armed 0 run_source)).1 sample_batch.

Definition r0 : run_state := launch 0 run_source [sample_worker] None.
Definition r1 : run_state := set_fetch r0 (chans r0) (FFetch (armed 0 run_source) run_bo) [].
Definition r2 : run_state := set_fetch r1 (chans r1) (FDispatch run_fetched (Reset run_bo) sample_batch) [].
Definition r3 : run_state :=
  set_fetch r2 (with_work (chans r2) [sample_batch]) (FLoop (dispatched run_fetched sample_batch) (Reset run_bo)) [Sent sample_batch].
Definition r4 : run_state := set_worker r3 (chans r3) 0 (WSelect sample_worker) [].
Definition r5 : run_state :=
  set_worker r4 (with_work (chans r4) []) 0 (WBusy sample_worker (sample_env unavailable_once) sample_batch) [].
Definition r6 : run_state := set_worker r5 (chans r5) 0 (WSelect sample_after) [(sample_batch, sample_trace)].

(** The context is cancelled. *)
Definition r7 : run_state := set_ctx r6 (Some Canceled).
Definition run_last : Connector := dispatched run_fetched sample_batch.
Definition r8 : run_state := set_fetch r7 (chans r7) (FClosing run_last) [].
Definition r9 : run_state := set_fetch r8 (close_work (chans r8)) (FDone run_last) [Closed_workCh].
Definition r10 : run_state := set_worker r9 (chans r9) 0 (run_returned (close_sink sample_after) Canceled) [].
Definition r11 : run_state := set_monitor r10.
Definition r12 : run_state := set_main r11 (chans r11) (MWait (Some Canceled)).
Definition r13 : run_state :=
  set_main (cancel r12) (chans r12) (MReturned (Some Canceled) (Close (source (fetch_connector (fetch r12))))).

Lemma run_started : RunWithContext nats_up 0 sample_connector [sample_worker] None = inl r0.
Proof. reflexivity. Qed.

Lemma run_fetch_once : fetchOnce run_input (armed 0 run_source) = ((fetchOnce run_input (armed 0 run_source)).1, inl sample_batch).
Proof. by vm_compute. Qed.

Ltac own := eapply rtc_l; [left|].

Lemma run_to_r6 : rtc run_step r0 r6.
Proof.
  own. { apply (os_fetch r0 [] (chans r0)). by apply fs_check. }
  own. { apply (os_fetch r1 [] (chans r1)). apply fs_fetched, run_fetch_once. }
  own. { apply (os_fetch r2 [Sent sample_batch]). apply (fs_send 1 None (chans r2)); [done|cbn; unfold workCh_cap; lia]. }
  own. { apply (os_worker r3 0 (WConnect sample_worker) [] (chans r3)); [done|]. by apply ws_connected. }
  own. { apply (os_worker r4 0 (WSelect sample_worker) [] (with_work (chans r4) [])); [done|]. by apply ws_take. }
  own. { apply (os_worker r5 0 (WBusy sample_worker (sample_env unavailable_once) sample_batch) [(sample_batch, sample_trace)]
           (chans r5)); [done|]. by eapply ws_processed, sample_ran. }
  apply rtc_refl.
Qed.

Lemma run_to_r13 : rtc run_step r6 r13.
Proof.
  eapply rtc_l; [right; by apply (out_ctx r6 Canceled)|].
  own. { apply (os_fetch r7 [] (chans r7)). by apply fs_stop. }
  own. { apply (os_fetch r8 [Closed_workCh] (close_work (chans r8))). apply fs_close. }
  own. { apply (os_worker r9 0 (WSelect sample_after) [] (chans r9)); [done|]. by apply ws_done. }
  own. { by apply (os_monitor r10). }
  own. { by apply (os_done r11 Canceled). }
  own. { by apply (os_return r12 (Some Canceled)). }
  apply rtc_refl.
Qed.

Lemma run_r6 : running nats_up 0 sample_connector [sample_worker] None r6.
Proof. exists r0. split; [apply run_started|apply run_to_r6]. Qed.

Lemma run_r7 : running nats_up 0 sample_connector [sample_worker] None r7.
Proof.
  exists r0. split; [apply run_started|]. eapply rtc_r; [apply run_to_r6|]. right. by apply (out_ctx r6 Canceled).
Qed.

Lemma run_r13 : running nats_up 0 sample_connector [sample_worker] None r13.
Proof. exists r0. split; [apply run_started|]. etrans; [apply run_to_r6|apply run_to_r13]. Qed.

Lemma sample_launched : launched (columns (compiled row_config)) [sample_worker].
Proof.
  constructor; [|constructor]. split; [|done]. split; [apply sample_lawful|]. split; [done|].
  split; [apply sample_breaker_total|by vm_compute].
Qed.

(** ** Lifecycle *)

Abbreviation cols0 := (columns (compiled row_config)).

Lemma batches_conserved_witness :
  processed r6 = [(sample_batch, sample_trace)] /\ Forall settled (processed r6) /\
  sent (events r6) ≡ₚ (processed r6).*1 ++ concat (held <$> pool r6) ++ workCh (chans r6).
Proof.
  destruct (batches_conserved cols0 _ _ _ _ _ _ sample_launched run_r6) as (S & _ & D & _).
  split; [reflexivity|]. by split.
Defined.

(** The context's deadline passes while the worker waits: it reports that. *)
Definition r7' : run_state := set_ctx r6 (Some DeadlineExceeded).
Definition r8' : run_state := set_worker r7' (chans r7') 0 (WReport (close_sink sample_after) DeadlineExceeded) [].

Lemma run_r8' : running nats_up 0 sample_connector [sample_worker] None r8'.
Proof.
  exists r0. split; [apply run_started|]. eapply rtc_r; [eapply rtc_r; [apply run_to_r6|]|].
  - right. by apply (out_ctx r6 DeadlineExceeded).
  - left. apply (os_worker r7' 0 (WSelect sample_after) [] (chans r7')); [done|]. by apply (ws_done 1 _ _ _ DeadlineExceeded).
Qed.

Lemma error_channel_never_blocks_witness :
  pool r8' !! 0%nat = Some (WReport (close_sink sample_after) DeadlineExceeded) /\ (length (errCh (chans r8')) < 2)%nat.
Proof.
  split; [reflexivity|].
  exact (proj2 (error_channel_never_blocks cols0 _ _ _ _ _ _ sample_launched run_r8') 0%nat _ _ eq_refl).
Defined.

Lemma sample_backoff :
  0 < rebindBase sample_connector <= rebindMax sample_connector /\ rebindMax sample_connector <= max_int64 / 2 /\
  0 <= rebindAttempts sample_connector.
Proof. split_and!; by vm_compute. Qed.


Lemma connector_never_deadlocks_witness : exists s', own_step r6 s'.
Proof.
  apply (connector_never_deadlocks cols0 (sample_env unavailable_once) _ _ _ _ _ _ sample_launched ltac:(done) run_r6).
  intros [].
Defined.

Lemma shutdown_terminates_witness :
  (1 <= rank r7)%nat /\ exists s', own_step r8 s'.
Proof.
  destruct (shutdown_terminates cols0 (sample_env unavailable_once) _ _ _ _ _ r7 1 r8 sample_launched ltac:(done) run_r7)
    as [K P].
  - done.
  - eapply run_own; [|apply run_here]. apply (os_fetch r7 [] (chans r7)). by apply fs_stop.
  - split; [exact K|]. by apply P; intros [].
Defined.

Lemma returned_state_witness :
  main r13 = MReturned (Some Canceled) true /\ wg_zero r13 = true /\ workCh_closed (chans r13) = true /\
  sent (events r13) ≡ₚ (processed r13).*1 ++ workCh (chans r13).
Proof.
  destruct (returned_state cols0 _ _ _ _ _ _ (Some Canceled) true sample_launched run_r13 ltac:(reflexivity))
    as (_ & W & C & _ & _ & S & _).
  split; [reflexivity|]. by split_and!.
Defined.

(** ** Loader *)

Definition data_event (b : list byte) : adaptive_event :=
  EvBatch (EvMessage {| Data := b; Loader.Format := FormatJSONLines; MType := MessageTypeData |}).

(** Limits 1 to 5 (initially 2): two batches of two, a resize at eleven
    seconds (the rate is far below the target), one more message, the end. *)
Definition loader_events : list adaptive_event :=
  [data_event [x01]; data_event [x02]; data_event [x03]; data_event [x04]; EvAdjust (11 * Second); data_event [x05];
   EvBatch EvDone].

Lemma adaptive_lossless_witness :
  exists ab, adaptive_run (fun _ => true) (NewAdaptiveBatcher 0 1 5 100 0) loader_events = Ok (ab, true) /\
    currentSize ab = 3 /\ batcher_end 5 (viewed ab) [[x01]; [x02]; [x03]; [x04]; [x05]] true.
Proof.
  destruct (adaptive_lossless (fun _ => true) 0 1 5 100 0 loader_events ltac:(done)) as [[_ [i R]]|(ab & st & E & S & _ & D)].
  - discriminate R.
  - change (st = true) in S. subst st. exists ab. split; [exact E|]. split.
    + assert (C : (fun r => currentSize r.1) <$> adaptive_run (fun _ => true) (NewAdaptiveBatcher 0 1 5 100 0) loader_events = Ok 3)
        by by vm_compute.
      rewrite E in C. by injection C.
    + exact (proj1 D).
Defined.

(** ** Telemetry *)

Definition sample_src : StatsSource := {|
  Telemetry.src_health := Health (health sample_connector) [("worker-0", sample_breaker)]; src_natsConnected := true;
  src_workers := PerWorkerStats [("worker-0", zero_counters); ("worker-1", counters sample_after)];
  src_fetch := {| MessagesFetched := 3; TransientErrors := 1; SubscriptionErrors := 0; Stats.RebindAttempts := 0 |};
  src_depth := 2; src_breakers := BreakerStates [("worker-0", sample_breaker)]; src_pending := (5, None) |}.

(** Labels of printable ASCII characters. *)
Definition printable (s : string) : Prop :=
  Forall (fun c => 32 <= Z.of_N (Ascii.N_of_ascii c) < 127) (String.list_ascii_of_string s).
Definition sample_const_metric (d : Desc) (labels : list string) : option error :=
  if decide (length labels = length (variableLabels d) /\ Forall printable labels) then None else Some (LibError "bad labels").

Lemma scrape_exact_witness :
  Collect sample_const_metric sample_src = scrape sample_src /\ NoDup (series <$> Collect sample_const_metric sample_src).
Proof.
  destruct (scrape_exact printable sample_const_metric sample_src) as (E & _ & N).
  - intros d labels L U. unfold sample_const_metric. by rewrite decide_True.
  - split; by apply (bool_decide_unpack _); vm_compute.
  - repeat constructor; by apply (bool_decide_unpack _); vm_compute.
  - apply map_Forall_insert_2; [by apply (bool_decide_unpack _); vm_compute|apply map_Forall_empty].
  - by apply (bool_decide_unpack _); vm_compute.
  - by split.
Defined.

(** Two recorded writes of three, one tick between them. *)
Definition write_of (t : string) : TableWrite := {| Table := t; Rows := 4; Msgs := 2 |}.
Definition sample_ops : list stats_op :=
  [OpRecord [write_of "a"; write_of "b"]; OpTick (2 * Second) 2 None sample_src; OpConsume (fun _ => 3); OpRecord [write_of "c"]].

Lemma stats_accounting_witness :
  exists s kept lost, fold_res stats_apply sample_ops (NewStatsLogger (stats_snapshot None sample_src 0)) = Ok s /\
    [write_of "a"; write_of "b"; write_of "c"] ≡ₚ kept ++ lost /\ (length (queue s) <= 256)%nat.
Proof.
  destruct (stats_accounting sample_ops (stats_snapshot None sample_src 0)) as (s & kept & lost & times & E & P & _ & _ & _ & _ & L).
  - repeat constructor. intros i. cbn. lia.
  - exists s, kept, lost. split; [exact E|]. split; [exact P|exact L].
Defined.

(** ** Boot *)

Abbreviation sample_construction v :=
  (Boot.NewConnector (fun _ => inr []) (fun _ => inr row_config) (fun _ => None) (fun _ => None) (fun _ => true)
    0 sample_options v true true).

Definition parts_of (r : construction) : result (Connector * list Worker * option Manager) :=
  match r with Constructed c ws m => Ok (c, ws, m) | Refused err _ => Err err end.

Definition booted_state (p : Connector * list Worker * option Manager) : result run_state :=
  match RunWithContext nats_up 0 p.1.1 p.1.2 None with inl s => Ok s | inr err => Err err end.

Lemma sample_boots :
  exists v c ws m s, sample_construction v = Ok (Constructed c ws m) /\ RunWithContext nats_up 0 c ws None = inl s.
Proof.
  assert (E : is_ok (v ← sample_parsed; r ← sample_construction v; p ← parts_of r; booted_state p) = true) by by vm_compute.
  apply is_ok_inv in E as [s E]. inv_res. destruct x0 as [c ws m|]; [|done]. cbn in *. simplify_eq.
  unfold booted_state in *. cbn in *. case_match; simplify_eq. by eexists _, _, _, _, _.
Qed.

Lemma constructed_connector_ready_witness :
  exists v c ws m, sample_construction v = Ok (Constructed c ws m) /\ length ws = 2%nat /\ NoDup (workerID <$> ws) /\
    (exists cols, launched cols ws).
Proof.
  destruct sample_boots as (v & c & ws & m & s & E & _). exists v, c, ws, m.
  destruct (constructed_connector_ready _ _ _ _ _ _ _ _ _ _ _ _ _ E) as (L & _ & N & C & _).
  - right. by vm_compute.
  - split; by vm_compute.
  - by split_and!.
Defined.


(** Durations are written as nanoseconds; one variable is set. *)
#[export] Instance sample_process : Process := {|
  LookupEnv name := if String.eqb name "QDB_NATS_WORKERS" then Some "0x2" else None;
  Duration_String := FormatInt;
  Stat _ := None;
  SplitHostPort _ := true |}.

#[export] Instance sample_text_laws : TextLaws.
Proof.
  split; cbn -[ParseInt FormatInt String.eqb].
  - intros d D. destruct (String.eqb_spec (FormatInt d) "1ms") as [E|_]; [|by rewrite ParseInt_FormatInt].
    pose proof (ParseInt_FormatInt d D) as P. rewrite E in P. by vm_compute in P.
  - intros s d. case_match; [intros [= <-]; by vm_compute|]. destruct (ParseInt s) eqn:P; [|done..]. intros [= <-]. by eapply ParseInt_range.
  - intros s f. unfold digit_of. do 3 (destruct (s =? _)%string; [intros [= <-]; by vm_compute|]). done.
  - intros f. by repeat case_match.
Qed.

Definition sample_args : list string :=
  ["--stream"; "plant"; "--qdb"; "qdb://127.0.0.1:2836"; "--http-addr="; "--stats-interval=0"; "extra"; "-P/run/pid"; "--parser=yaml"; "--parser-config"; "conf/parser.yaml"].

Definition sample_main : main_env := {|
  me_args := sample_args; me_metrics := None; me_build_info := None; me_now := 0; me_collector := None; me_listen := None;
  me_watchdog := inr (30 * Second); me_run := Some Canceled; me_shutdown := None |}.

Abbreviation sample_runMain :=
  (runMain (fun _ => inr []) (fun _ => inr row_config) (fun _ => None) CompNone WriterDeduplicationModeDisabled sample_main).

Lemma process_cleans_up_witness :
  sample_runMain = Some (0, [WatchdogStarted (15 * Second); Ran; WatchdogStopped; ConnectorClosed]) /\
  exists up, Forall is_start up /\
    [WatchdogStarted (15 * Second); Ran; WatchdogStopped; ConnectorClosed] =
      up ++ [Ran] ++ (stop_of <$> reverse up) ++ [ConnectorClosed].
Proof.
  assert (E : sample_runMain = Some (0, [WatchdogStarted (15 * Second); Ran; WatchdogStopped; ConnectorClosed]))
    by by vm_compute.
  split; [exact E|].
  destruct (process_cleans_up _ _ _ _ _ _ _ _ E) as [D _]. destruct D as (up & U & X & _).
  - right. left.
  - exists up. by split.
Defined.

(** ** Flags *)

Definition sample_options_of : option Options.Options :=
  match LoadConfig CompNone WriterDeduplicationModeDisabled sample_args with Ok (Loaded o _) => Some o | _ => None end.

Example sample_flags :
  (fun o => (NatsStreamName o, Workers o, PidFile o, QdbPushMode o, HTTPAddr o)) <$> sample_options_of =
  Some ("plant", 2, "/run/pid", "async", EmptyString).
Proof. by vm_compute. Qed.

(** A leading zero makes a number octal, on the command line as in the
    environment. *)
Example octal_workers :
  match LoadConfig CompNone WriterDeduplicationModeDisabled ["--stream=s"; "-w"; "010"] with Ok (Loaded o _) => Some (Workers o) | _ => None end
  = Some 8.
Proof. by vm_compute. Qed.

Definition workers_flag : Flag := default (flag EmptyString (FInt 0)) (Lookup "workers").

Definition nats_flag : Flag := default (flag EmptyString (FInt 0)) (Lookup "nats").

Lemma environment_equals_command_line_witness :
  exists o v, @LoadConfig _ (with_env sample_process "QDB_NATS_WORKERS" "7") CompNone WriterDeduplicationModeDisabled ["--stream"; "plant"] =
    Ok (Loaded o v) /\ Workers o = 7 /\
    LoadConfig CompNone WriterDeduplicationModeDisabled ["--workers=7"; "--stream"; "plant"] = Ok (Loaded o v).
Proof.
  assert (E : match @LoadConfig _ (with_env sample_process "QDB_NATS_WORKERS" "7") CompNone WriterDeduplicationModeDisabled ["--stream"; "plant"] with
    Ok (Loaded o v) => Workers o = 7 | _ => False end) by by vm_compute.
  assert (T : @LoadConfig _ (with_env sample_process "QDB_NATS_WORKERS" "7") CompNone WriterDeduplicationModeDisabled ["--stream"; "plant"] =
    LoadConfig CompNone WriterDeduplicationModeDisabled ["--workers=7"; "--stream"; "plant"]).
  { apply (environment_equals_command_line CompNone WriterDeduplicationModeDisabled workers_flag "7" (FInt 7)).
    - by apply (list_elem_of_lookup_2 _ 6).
    - done.
    - done.
    - by vm_compute.
    - intros fs P. vm_compute in P. injection P as <-. by vm_compute. }
  rewrite T in E |- *. destruct (LoadConfig _ _ ["--workers=7"; "--stream"; "plant"]) as [[k| |o v]|e|]; try done. by exists o, v.
Defined.

Lemma checked_loaded zc zd o o' v : checked zc zd o = Ok (Loaded o' v) -> o = o'.
Proof. unfold checked. intros (w & _ & E)%res_bind_ok. case_match; [done|]. by injection E. Qed.

Definition stream_flag : Flag := default workers_flag (Lookup "stream").
Definition size_flag : Flag := default workers_flag (Lookup "batch-size").

Lemma sample_given :
  exists fs, parseArgs sample_args NewFlagSet = inr fs /\ showHelp fs = false /\ chosen fs workers_flag = Some (FInt 2) /\
    chosen fs stream_flag = Some (FString "plant") /\ chosen fs size_flag = Some (FInt 100).
Proof. eexists. split_and!; by vm_compute. Qed.

Lemma sample_loads : exists o v, LoadConfig CompNone WriterDeduplicationModeDisabled sample_args = Ok (Loaded o v).
Proof.
  assert (E : match LoadConfig CompNone WriterDeduplicationModeDisabled sample_args with Ok (Loaded _ _) => true | _ => false end = true)
    by by vm_compute.
  case_match; [|done..]. case_match; [done..|]. by do 2 eexists.
Qed.

Lemma configuration_exact_witness :
  exists o v, LoadConfig CompNone WriterDeduplicationModeDisabled sample_args = Ok (Loaded o v) /\
    field_of o (Name workers_flag) = Some (FInt 2) /\ field_of o (Name stream_flag) = Some (FString "plant") /\
    field_of o (Name size_flag) = Some (FInt 100).
Proof.
  pose proof (configuration_exact CompNone WriterDeduplicationModeDisabled sample_args) as C.
  destruct sample_given as (fs & P & S & W & St & B), sample_loads as (o & v & E). rewrite P, S, E in C.
  destruct C as [(o' & L & F)|(f & s & e & L & _)]; [|discriminate L]. exists o, v. split; [exact E|].
  symmetry in L. apply checked_loaded in L as ->. rewrite <- W, <- St, <- B.
  split_and!; apply F; first [by apply (list_elem_of_lookup_2 _ 6)|by apply (list_elem_of_lookup_2 _ 2)|by apply (list_elem_of_lookup_2 _ 7)|done].
Defined.

Lemma arguments_read_back_witness :
  parseArgs ["-w=8"; "extra"; "-n"; "nats://a"; "--stream"; "plant"; "--workers=0x10"; "--"; "-x"] NewFlagSet =
  inr {| actual := <["workers" := FInt 16]> (<["stream" := FString "plant"]> {["nats" := FString "nats://a"]}); args := ["extra"; "-x"] |}.
Proof.
  pose proof (arguments_read_back [Given workers_flag ShortEquals "8"; Plain "extra"; Given nats_flag ShortSeparate "nats://a";
    Given (flag "stream" (FString "")) Separate "plant"; Given workers_flag Equals "0x10"] ["-x"]) as R.
  etrans; [apply R|by vm_compute].
  repeat apply Forall_cons_2; try apply Forall_nil; try (by left); try exact I; (split; [|split; [by eexists|eexists; by vm_compute]]).
  - by apply (list_elem_of_lookup_2 _ 6).
  - by apply (list_elem_of_lookup_2 _ 1).
  - by apply (list_elem_of_lookup_2 _ 2).
  - by apply (list_elem_of_lookup_2 _ 6).
Defined.

(** ** The probe server *)

(** The heartbeat is fresh and a worker is stuck. *)
Definition stuck_health : HealthSummary := {|
  Healthy := false; FetchHealthy := true; Conditions := [condStuckPrefix +:+ "worker-0"]; LastFetchSuccess := Some 5; BreakerOpen := false;
  BreakerStates_of := {[ "worker-0" := "closed" ]} |}.
Definition stuck_source : HealthSource := {| Server.src_health := stuck_health; Server.src_heartbeat := Some 5; Server.src_connected := true |}.
Definition stamp (t : option Z) : string := match t with Some n => FormatInt n | None => "0001-01-01T00:00:00Z" end.

Lemma server_answers_witness :
  exists s r document, NewServer ":8080" None true = Ok s /\ handle stamp not_found (Start s) stuck_source 6 "/livez" = Some r /\
    json_answer r 503 document /\ has document ["alive"] (Json.JBool false) /\
    handle stamp not_found (Start s) stuck_source 6 "/debug/pprof" = Some not_found.
Proof.
  destruct (server_answers stamp not_found ":8080" true _ stuck_source 6 eq_refl) as (_ & _ & N & _ & (r & d & A & J & H & _) & _).
  eexists _, r, d. split; [reflexivity|]. split; [exact A|]. split; [exact J|]. split; [exact H|].
  apply N; [done|done|by right].
Defined.
