(* ===== verification/ToolWitnesses.v ===== *)
(** * Witnesses of the properties of the tools

    One load of a two-line file by one worker, a generator of two fields run by
    two workers, and the generators at concrete configurations; and the
    inputs that show where composite identifiers repeat. *)
From stdpp Require Import relations sorting.
From S2P Require Import Prelude GoInt GoStr GoFloat GoTime Values GoUtf8 GoJson Telemetry Loader Batching Feed Publish LoaderRun LoaderStop LoaderSystem.
From S2P Require Import TestLib.
From Stdlib.Strings Require Import Byte.

(** ** A load *)

Definition entry_le (a b : DetectorEntry) : Prop := Priority a <= Priority b.

#[export] Instance entry_le_dec a b : Decision (entry_le a b).
Proof. unfold entry_le. apply _. Defined.
#[export] Instance entry_le_total : Total entry_le.
Proof. intros a b. unfold entry_le. lia. Qed.
#[export] Instance entry_le_trans : Transitive entry_le.
Proof. intros a b c. unfold entry_le. lia. Qed.

#[export] Instance sample_sort : SortSlice.
Proof.
  refine {| sort_entries := merge_sort entry_le |}.
  - intros l. apply merge_sort_Permutation.
  - intros l. apply (StronglySorted_merge_sort entry_le).
Defined.

Definition line1 : list byte := [x7b; x7d].
Definition line2 : list byte := [x5b; x31; x5d].
Definition two_lines : source_file := {| file_data := with_newlines [line1; line2]; file_err := None |}.

Definition one_worker : loader_config := {|
  topic := "t"; stream := "s"; base64 := false; natsURL := "u"; LoaderRun.workers := 1; adaptive := false; batchSize := 0;
  batchTimeout := 0; minBatchSize := 1; maxBatchSize := 5; targetRate := 100 |}.

Definition two_lines_events : list parse_event :=
  [data_message FormatJSONLines line1; data_message FormatJSONLines line2; PMessage (tombstone_message FormatJSONLines)].

(** A timer fires between the two lines. *)
Definition batcher_sees : list adaptive_event :=
  [EvBatch (EvMessage {| Data := line1; Loader.Format := FormatJSONLines; MType := MessageTypeData |}); EvBatch EvTimer;
   EvBatch (EvMessage {| Data := line2; Loader.Format := FormatJSONLines; MType := MessageTypeData |});
   EvBatch (EvMessage (tombstone_message FormatJSONLines)); EvBatch EvClosed].

Definition two_batches : list Batch := [data_batch [line1]; data_batch [line2]; tombstone_batch].

(** Batches are published one after another: the pool after each step. *)
Definition pool (q todo : list Batch) (closed : bool) (slot : nat) (m b done : Z) (sent : list (list byte)) (w : pub_worker) (end_ : bool) : pub_state := {|
  sh := {| input := q; input_closed := closed; pub_ctx := None; semaphore := slot; messagesPublished := m; batchesProcessed := b;
           publishErrors := 0; workersCompleted := done; published := sent; abandoned := []; refusals := [] |};
  Publish.workers := [w]; pending := todo; completed := end_ |}.
Definition wk (p : pub_pc) (m b : Z) : pub_worker := {| pc := p; messagesHandled := m; batchesHandled := b |}.

Definition d1 : Batch := data_batch [line1].
Definition d2 : Batch := data_batch [line2].
Definition pool_end : pub_state := pool [] [] true 0 2 2 1 [line1; line2] (wk PDone 2 2) true.

Lemma work_step_eq cap s w s1 w1 s2 w2 : work_step cap s w s1 w1 -> s1 = s2 -> w1 = w2 -> work_step cap s w s2 w2.
Proof. by intros W <- <-. Defined.

Ltac next_state s := apply (pub_own _ _ s).
Ltac feed := match goal with |- pub_own_step ?s _ => refine (pos_feed s _ _ eq_refl _); cbn; unfold output_cap; lia end.
Ltac works rule := match goal with |- pub_own_step ?s _ => refine (pos_worker s 0%nat _ _ _ eq_refl _); eapply work_step_eq; [eapply rule; reflexivity || (cbn; lia)|vm_compute; reflexivity|vm_compute; reflexivity] end.

Lemma two_lines_published : pub_run 18 (NewPublisher 1 two_batches) pool_end.
Proof.
  next_state (pool [d1] [d2; tombstone_batch] false 0 0 0 0 [] (wk PIdle 0 0) false); [feed|].
  next_state (pool [d1; d2] [tombstone_batch] false 0 0 0 0 [] (wk PIdle 0 0) false); [feed|].
  next_state (pool [d1; d2; tombstone_batch] [] false 0 0 0 0 [] (wk PIdle 0 0) false);
    [feed|].
  next_state (pool [d1; d2; tombstone_batch] [] true 0 0 0 0 [] (wk PIdle 0 0) false); [by apply pos_close|].
  next_state (pool [d2; tombstone_batch] [] true 0 0 0 0 [] (wk (PAcquire d1) 0 0) false);
    [works (pw_batch 1)|].
  next_state (pool [d2; tombstone_batch] [] true 1 0 0 0 [] (wk (PSend d1 [line1]) 0 0) false);
    [works (pw_acquired 1)|].
  next_state (pool [d2; tombstone_batch] [] true 1 0 0 0 [] (wk (PPublish d1 line1 []) 0 0) false);
    [works (pw_publish 1)|].
  next_state (pool [d2; tombstone_batch] [] true 1 1 0 0 [line1] (wk (PSend d1 []) 0 0) false);
    [works (pw_published 1)|].
  next_state (pool [d2; tombstone_batch] [] true 1 1 0 0 [line1] (wk (PFlush d1) 0 0) false);
    [works (pw_flush 1)|].
  next_state (pool [d2; tombstone_batch] [] true 0 1 1 0 [line1] (wk PIdle 1 1) false);
    [works (pw_flushed 1)|].
  next_state (pool [tombstone_batch] [] true 0 1 1 0 [line1] (wk (PAcquire d2) 1 1) false);
    [works (pw_batch 1)|].
  next_state (pool [tombstone_batch] [] true 1 1 1 0 [line1] (wk (PSend d2 [line2]) 1 1) false);
    [works (pw_acquired 1)|].
  next_state (pool [tombstone_batch] [] true 1 1 1 0 [line1] (wk (PPublish d2 line2 []) 1 1) false);
    [works (pw_publish 1)|].
  next_state (pool [tombstone_batch] [] true 1 2 1 0 [line1; line2] (wk (PSend d2 []) 1 1) false);
    [works (pw_published 1)|].
  next_state (pool [tombstone_batch] [] true 1 2 1 0 [line1; line2] (wk (PFlush d2) 1 1) false);
    [works (pw_flush 1)|].
  next_state (pool [tombstone_batch] [] true 0 2 2 0 [line1; line2] (wk PIdle 2 2) false);
    [works (pw_flushed 1)|].
  next_state (pool [] [] true 0 2 2 1 [line1; line2] (wk PDone 2 2) false);
    [works (pw_tombstone 1)|].
  next_state pool_end; [by apply pos_complete|]. apply pub_here.
Defined.

Lemma two_batches_ok : stream_ok two_batches.
Proof. by exists [d1; d2], true; split; [|repeat constructor]. Qed.

Lemma two_lines_run : publishing 1 two_batches pool_end.
Proof. exact (pub_run_rtc _ _ _ two_lines_published). Qed.

Lemma publisher_accounting_witness : published (sh pool_end) ≡ₚ [line1; line2] /\ messagesPublished (sh pool_end) = 2.
Proof.
  destruct (publisher_accounting 1 two_batches pool_end two_batches_ok two_lines_run) as (_ & M & _ & D).
  destruct (D eq_refl eq_refl) as [_ P]. split; [by apply P|exact M].
Defined.

Lemma publisher_terminates_witness :
  (18 <= pub_rank (NewPublisher 1 two_batches))%nat /\ (completed pool_end = false -> exists s, pub_own_step pool_end s).
Proof. apply (publisher_terminates 1 two_batches 18 pool_end two_batches_ok two_lines_published). Defined.

Lemma two_lines_scanned : scan (with_newlines [line1; line2]) = ([line1; line2], false).
Proof.
  assert (forall l, x0a ∉ l -> (length l <= 3)%nat -> last l <> Some x0d -> line_ok l) as Ok_
    by (intros l N L D; split_and!; [done|unfold MaxScanTokenSize; lia|done]).
  apply scan_lines, Forall_cons. split; [by apply Ok_; [apply (bool_decide_unpack _); vm_compute|cbn; lia|]|].
  apply Forall_cons. split; [by apply Ok_; [apply (bool_decide_unpack _); vm_compute|cbn; lia|]|]. by apply Forall_nil.
Qed.

Lemma two_lines_opened :
  open_input one_worker (Ok (NewConnection "u")) (inr two_lines) = Ok two_lines_events.
Proof.
  unfold open_input. cbn [base64 one_worker]. assert (Detect (peek two_lines) = Ok FormatJSONLines) as -> by (vm_compute; reflexivity).
  cbn [mbind res_bind]. rewrite GetParser_jsonlines. cbn [mbind res_bind]. unfold JSONLines_Parse, parse_lines, scanner_err.
  cbn [file_data two_lines]. by rewrite two_lines_scanned.
Qed.

Lemma loader_publishes_input_witness :
  exists batches, run_batcher (fun _ => true) one_worker 0 batcher_sees = Ok (batches, true) /\
    loading one_worker batches pool_end /\ published (sh pool_end) ≡ₚ [line1; line2] /\ messagesPublished (sh pool_end) = 2.
Proof.
  destruct (loader_publishes_input (fun _ => true) one_worker 0 (Ok (NewConnection "u")) two_lines
    two_lines_events batcher_sees two_lines_opened eq_refl ltac:(done) ltac:(done))
    as ((batches & B & P) & _).
  exists batches. split; [exact B|]. assert (batches = two_batches) as -> by (vm_compute in B; by injection B as <-).
  pose proof two_lines_run as R. destruct (P pool_end R eq_refl eq_refl eq_refl) as [Pb M]. by split_and!.
Defined.

(** ** The end of a load *)

Definition good_line : Message := {| Data := [x7b]; Loader.Format := FormatJSONLines; MType := MessageTypeData |}.
Definition three_events : list parse_event :=
  [PMessage good_line; PError (LibError "bad line"); PMessage (tombstone_message FormatJSONLines)].

(** A run without an interrupt, and one that is interrupted before its first
    message. *)
Ltac next c := eapply rtc_l;
  [apply rs_goroutine; [reflexivity|eapply c; cbn; first [reflexivity|by auto|by unfold batch_input_cap; lia]]|cbn].

Lemma loaded_run :
  exists s, running false three_events s /\ returned s = Some Completed /\ cancelled s = false.
Proof.
  eexists. split.
  - unfold running. next gs_message. next gs_go_on. next gs_forward. next gs_error. next gs_message. next gs_go_on. next gs_forward.
    next gs_close_errors. next gs_close_messages. next gs_range_over. next gs_batch. next gs_batch. next gs_pool_ends. next gs_tracked.
    next gs_errors_over. next gs_waited. next gs_completed. apply rtc_refl.
  - by split.
Defined.

Lemma loader_run_returns_witness :
  exists s why, rtc (run_step true) (started three_events) s /\ returned s = Some why.
Proof.
  destruct (loader_run_returns three_events [good_line] (tombstone_message FormatJSONLines) true 0 (started three_events))
    as (_ & _ & s & why & R & W & _); [reflexivity|by repeat constructor|constructor|]. by exists s, why.
Defined.

Lemma loader_return_complete_witness :
  exists s, running false three_events s /\ batched s = [good_line; tombstone_message FormatJSONLines] /\ logged s = [LibError "bad line"].
Proof.
  destruct loaded_run as (s & R & W & C). exists s. split; [exact R|].
  destruct (loader_return_complete three_events [good_line] (tombstone_message FormatJSONLines) false s Completed)
    as [B L]; [reflexivity|by repeat constructor|exact R|exact W|].
  destruct (B C) as (_ & -> & _). by destruct (L ltac:(done)) as [-> _].
Defined.

(** The interrupted run waits for the five seconds. *)
Example cut_short_run :
  exists s, running true three_events s /\ returned s = Some Forced /\ forwarder s = FwDone /\
    parser s = Parsing [PMessage (tombstone_message FormatJSONLines)].
Proof.
  eexists. split_and!.
  - unfold running. eapply rtc_l; [by apply rs_signal|cbn]. next gs_message. next gs_stopping. next gs_break. next gs_error. next gs_tracked.
    next gs_batch_cancelled. next gs_forced. apply rtc_refl.
  - done.
  - done.
  - done.
Qed.

(** ** The loader as one system *)

Lemma own_turn {B : Type} `{Batching B} signal k s s1 s' :
  alive s -> load_step s s1 -> system_run signal k s1 s' -> system_run signal (S k) s s'.
Proof. intros A L R. by apply (sr_step _ k true _ _ _ (sy_own _ _ _ A L)). Defined.

(** One step of the program, its next state computed. *)
Ltac turn t := eapply own_turn; [by split|t|];
  match goal with |- system_run _ _ ?s _ => let s' := eval vm_compute in s in change s with s' end.
Ltac control rule := turn ltac:(eapply ld_control;
  [eapply rule; cbn; first [reflexivity|by auto|by unfold batch_input_cap; lia]|reflexivity|reflexivity|reflexivity]).
Ltac receives := turn ltac:(eapply ld_batch; [reflexivity|reflexivity|eapply tk_message; reflexivity|vm_compute; reflexivity]).
Ltac of_pool t := turn ltac:(eapply ld_pool; [t|first [by left|by right]]).
Ltac pool_feeds := of_pool ltac:(eapply pos_feed; [reflexivity|cbn; unfold output_cap; lia]).
Ltac pool_works rule := of_pool ltac:(eapply (pos_worker _ 0%nat); [reflexivity|eapply rule; reflexivity || (cbn; lia)]).
Ltac forwards := control gs_message; control gs_go_on; control gs_forward; receives.

(** From the start to the return, without an interrupt. *)
Lemma two_lines_system :
  exists k s, system_run false k (loaded 1 (fixed_batcher one_worker 0) two_lines_events) s /\
    returned (ctl s) = Some Completed /\ cancelled (ctl s) = false /\ refusals (sh (LoaderSystem.pool s)) = [].
Proof.
  eexists _, _. split.
  - do 3 forwards. control gs_close_errors. control gs_close_messages. control gs_range_over. control gs_errors_over.
    do 2 pool_feeds. of_pool ltac:(by eapply pos_close).
    pool_works pw_batch. pool_works pw_acquired. do 2 (pool_works pw_publish; pool_works pw_published).
    pool_works pw_flush. pool_works pw_flushed. pool_works pw_tombstone. of_pool ltac:(by eapply pos_complete).
    control gs_tracked. control gs_waited. control gs_completed. apply sr_here.
  - by split_and!.
Defined.

Lemma loader_end_to_end_witness :
  exists k c p cr, command_run false one_worker 0 two_lines_events k c p cr /\ returned c = Some Completed /\
    published (sh p) ≡ₚ [line1; line2] /\ messagesPublished (sh p) = 2.
Proof.
  destruct two_lines_system as (k & s & R & W & N & Rf).
  pose proof (cr_fixed false one_worker 0 two_lines_events k s eq_refl R) as C. eexists k, _, _, _. split; [exact C|]. split; [exact W|].
  destruct (loader_end_to_end one_worker 0 two_lines (Ok (NewConnection "u")) two_lines_events
    two_lines_opened ltac:(done) false k _ _ _ C) as [_ D].
  destruct (D ltac:(by rewrite W) N) as (_ & _ & P). destruct (P Rf) as [Pb M]. by split.
Defined.

(** With the adaptive batcher and an interrupt possible, from the start. *)
Definition one_adaptive_worker : loader_config := {|
  topic := "t"; stream := "s"; base64 := false; natsURL := "u"; LoaderRun.workers := 1; adaptive := true; batchSize := 0;
  batchTimeout := 0; minBatchSize := 1; maxBatchSize := 5; targetRate := 100 |}.

Lemma loader_terminates_witness :
  exists c p cr, command_run true one_adaptive_worker 0 two_lines_events 1 c p cr.
Proof.
  destruct (loader_terminates one_adaptive_worker 0 two_lines (Ok (NewConnection "u")) two_lines_events
    two_lines_opened ltac:(done) true 0 _ _ _ (cr_adaptive true one_adaptive_worker 0 two_lines_events 0 _ eq_refl (sr_here _ _)))
    as [_ N].
  by apply N.
Defined.
