(* ===== verification/GenWitnesses.v ===== *)
(** * Witnesses of the properties of the generator

    The generator at concrete configurations, and the inputs that show where
    its composite identifiers repeat or panic. *)
From S2P Require Import Prelude GoInt GoStr GoFloat GoTime Values GoUtf8 GoJson GenIterator GenPattern GenEngine GenParallel FloatOrder GenWaves GenFields GenRegistry GenRun.
From S2P Require Import TestLib.

(** ** Draws and codecs *)

Lemma zero_in_range (n : Z) : 0 < n -> 0 <= 0 < n.
Proof. lia. Qed.

Definition still_draw : draw := {|
  Float64 _ := f64_of_Z 0; NormFloat64 := f64_of_Z 3; Int63n _ := 0; Intn _ _ := 0; Now := new_year; Later := new_year; new_uuid := "id";
  map_order p := map_to_list (pcomponents p); Int63n_range := zero_in_range; Intn_range _ := zero_in_range |}.

Definition still : draws := fun _ => still_draw.

Definition whole_text (f : float64) : string := match f64_trunc f with Some n => FormatInt n | None => "x" end.

#[export] Instance sample_codecs : Codecs := {|
  codec_text := {| Json.float_text := whole_text; Json.float32_text := whole_text; Json.time_text _ := inr "t" |};
  gzip_compress _ b := b |}.

(** A sine of the right sign on the cycle: 1 in its first half, -1 in its second. *)
#[export] Instance sample_math : MathLib := {| math_Sin x := if f64_lt x (f64_of_Z 3) then f64_of_Z 1 else f64_of_Z (-1) |}.

Definition decimal (format : string) (n : Z) : string := FormatInt n.

(** ** Iteration *)

Lemma pair_ok (a b : string) : a <> b -> component_ok decimal (ArrayIterator [a; b]).
Proof.
  intros N. split; [done| |].
  - intros i [A B]. assert (i = 0 \/ i = 1) as [-> | ->] by (cbn in B; lia); by eexists.
  - intros i j s [A B] [A' B'] E E'. cbn in B, B'. assert (i = 0 \/ i = 1) as [-> | ->] by lia; assert (j = 0 \/ j = 1) as [-> | ->] by lia;
      try done; injection E as <-; injection E' as ?; congruence.
Qed.

Lemma one_to_three_ok : component_ok decimal (RangeIterator 1 3 "%d").
Proof.
  split; [done| |].
  - intros i _. by eexists.
  - intros i j s [A B] [A' B'] E E'. change (Size (RangeIterator 1 3 "%d")) with 3 in *.
    assert (i = 0 \/ i = 1 \/ i = 2) as [-> |[-> | ->]] by lia; assert (j = 0 \/ j = 1 \/ j = 2) as [-> |[-> | ->]] by lia;
      vm_compute in E, E'; congruence.
Qed.

Lemma iterator_enumerates_witness :
  exists rows it, iterate decimal 7 (NewPatternIterator [ArrayIterator ["A"; "B"]; RangeIterator 1 3 "%d"]) = Ok (rows, it) /\
    NoDup rows /\ rows = [["A"; "1"]; ["A"; "2"]; ["A"; "3"]; ["B"; "1"]; ["B"; "2"]; ["B"; "3"]].
Proof.
  destruct (iterator_enumerates decimal [ArrayIterator ["A"; "B"]; RangeIterator 1 3 "%d"]) as (rows & it & E & _ & N & _).
  - constructor; [by apply pair_ok|]. constructor; [apply one_to_three_ok|constructor].
  - by vm_compute.
  - exists rows, it. split; [exact E|]. split; [exact N|]. vm_compute in E. by injection E as <- _.
Defined.

(** ** Composite identifiers *)

Definition ab_values : componentDef := {| GenPattern.values := ["x"; "y"]; generator := None |}.
Definition ab_range : componentDef := {| GenPattern.values := []; generator := Some (sequencePatternGenerator 1 3) |}.
Definition ab_order : list (string * componentDef) := map_to_list {[ "a" := ab_values; "b" := ab_range ]}.
Definition ab_pattern : patternDef := {| weight := 1; GenPattern.template := "{a}-{b}"; pcomponents := {[ "a" := ab_values; "b" := ab_range ]} |}.

Lemma ab_regular : regular_pattern decimal ab_pattern.
Proof.
  intros nm c E. cbn [pcomponents ab_pattern] in E.
  apply lookup_insert_Some in E as [[<- <-]|[_ [<- <-]%lookup_singleton_Some]].
  - exists 2. apply (regular_values decimal ["x"; "y"]); [done|]. apply (bool_decide_unpack _). by vm_compute.
  - exists 3. apply (regular_sequence decimal 1 3); by unfold_range; lia.
Qed.

(** The third call reads the map the other way round. *)
Definition ab_orders (k : nat) (p : patternDef) : list (string * componentDef) :=
  if (k =? 2)%nat then reverse (map_to_list (pcomponents p)) else map_to_list (pcomponents p).

Lemma ab_orders_perm k p : ab_orders k p ≡ₚ map_to_list (pcomponents p).
Proof. unfold ab_orders. destruct (k =? 2)%nat; [apply reverse_Permutation|done]. Qed.

Definition ab_generator : patternCompositeGenerator := {|
  cardinality := 6; patterns := [ab_pattern]; currentIndex := 0; totalCombos := [6]; weightedSums := [1] |}.

Lemma single_pattern_enumerates_witness :
  combinations ab_pattern = 6 /\
  exists vss g', generate_ids decimal 7 ab_orders ab_generator = Ok (substitute (GenPattern.template ab_pattern) <$> vss, g') /\
    substitute (GenPattern.template ab_pattern) <$> vss = ["x-1"; "y-1"; "x-3"; "y-2"; "x-3"; "y-3"; "x-1"] /\
    (forall vs us, vss !! 0%nat = Some vs -> vss !! 6%nat = Some us -> vs = us).
Proof.
  split; [by vm_compute|].
  destruct (single_pattern_enumerates decimal ab_pattern 6 ab_generator 7 ab_orders ab_regular ab_orders_perm ltac:(done)
    ltac:(vm_compute; done) ltac:(done) ltac:(done) ltac:(vm_compute; reflexivity)) as (_ & vss & g' & E & _ & _ & Q).
  assert (C : fst <$> generate_ids decimal 7 ab_orders ab_generator = Ok ["x-1"; "y-1"; "x-3"; "y-2"; "x-3"; "y-3"; "x-1"]) by by vm_compute.
  rewrite E in C. injection C as C. exists vss, g'. split; [exact E|]. split; [exact C|].
  intros vs us L0 L6. exact (proj2 (Q 0%nat 6%nat vs us L0 L6 (or_introl eq_refl)) eq_refl).
Defined.

(** The order of the map changes between two calls: the second identifier
    repeats as the third, although four combinations were counted for four. *)
Definition cd_values : gmap string componentDef := {[ "a" := ab_values; "b" := ab_values ]}.
Definition cd_pattern : patternDef := {| weight := 1; GenPattern.template := "{a}{b}"; pcomponents := cd_values |}.

Lemma map_order_repeats_ids :
  exists g orders, calculateDistribution 4 [cd_pattern] = Ok g /\ (forall k p, orders k p ≡ₚ map_to_list (pcomponents p)) /\
    match generate_ids decimal 4 orders g with Ok (ids, _) => ids = ["xx"; "yx"; "yx"; "yy"] | _ => False end.
Proof.
  eexists _, ab_orders. split; [by vm_compute|]. split; [apply ab_orders_perm|by vm_compute].
Qed.

(** Two patterns of the same weight, one with a single value: the combinations
    of the other count for both, and half of the identifiers are the same. *)
Definition single_value : componentDef := {| GenPattern.values := ["only"]; generator := None |}.
Definition many_values : componentDef := {| GenPattern.values := []; generator := Some (sequencePatternGenerator 1 11) |}.
Definition uneven_patterns : list patternDef := [
  {| weight := 1; GenPattern.template := "{a}"; pcomponents := {[ "a" := single_value ]} |};
  {| weight := 1; GenPattern.template := "{a}"; pcomponents := {[ "a" := many_values ]} |}].

Lemma uneven_patterns_repeat_ids :
  exists g, calculateDistribution 4 uneven_patterns = Ok g /\
    match generate_ids decimal 4 (fun _ p => map_to_list (pcomponents p)) g with
    | Ok (ids, _) => ids = ["only"; "only"; "1"; "2"] | _ => False end.
Proof. eexists. split; [by vm_compute|by vm_compute]. Qed.

(** A range of widths: the first of ten combinations repeats. *)
Definition widths_pattern : patternDef := {|
  weight := 1; GenPattern.template := "{a}";
  pcomponents := {[ "a" := {| GenPattern.values := []; generator := Some (simplePatternGenerator "" "" 0 1) |} ]} |}.

Lemma digit_range_repeats_ids :
  exists g, calculateDistribution 10 [widths_pattern] = Ok g /\
    match generate_ids decimal 3 (fun _ p => map_to_list (pcomponents p)) g with
    | Ok (ids, _) => ids = ["0"; "1"; "0"] | _ => False end.
Proof. eexists. split; [by vm_compute|by vm_compute]. Qed.

(** A cardinality below one is accepted and divides by zero at the first call. *)
Lemma fractional_cardinality_panics :
  positive (Float64frombits 0x3fe0000000000000) = true /\ to_int64 (Float64frombits 0x3fe0000000000000) = 0 /\
  exists g, calculateDistribution 0 [ab_pattern] = Ok g /\ Generate_pattern decimal (fun _ => ab_order) g = Panic.
Proof. split; [done|]. split; [by vm_compute|]. eexists. split; [by vm_compute|by vm_compute]. Qed.

(** Patterns whose weights are all zero divide by zero in the constructor. *)
Lemma zero_weights_panic :
  calculateDistribution 1 [{| weight := 0; GenPattern.template := "{a}"; pcomponents := {[ "a" := single_value ]} |}] = Panic.
Proof. by vm_compute. Qed.

(** ** Field generators *)

Abbreviation fmt_time := (fun (_ : gotime) (_ : string) => "now").

Lemma brownian_bounded_witness :
  exists v, (run_field decimal fmt_time 2 (fun _ => still)
      (brownianMotionGenerator (f64_of_Z 22) (f64_of_Z 2) (f64_of_Z 20) (f64_of_Z 25) (f64_of_Z 0) (f64_of_Z 22) false)).1 !! 0%nat = Some (Ok (VFloat64 v)) /\
    f64_le (f64_of_Z 20) v = true /\ f64_le v (f64_of_Z 25) = true.
Proof.
  destruct (brownian_bounded decimal fmt_time (f64_of_Z 22) (f64_of_Z 2) (f64_of_Z 20) (f64_of_Z 25) (f64_of_Z 0) 2 (fun _ => still)
    eq_refl eq_refl eq_refl eq_refl eq_refl eq_refl eq_refl (fun _ => eq_refl)) as [_ F].
  apply Forall_cons in F as [(v & E & Lo & Hi) _]. exists v. split_and!; [|exact Lo|exact Hi]. rewrite <- E. reflexivity.
Defined.

Lemma sequence_exact_witness :
  (run_field decimal fmt_time 4 (fun _ => still) (sequenceGenerator 1 1 5 2 true)).1 !! 3%nat = Some (Ok (VInt64 1)).
Proof.
  assert (exists r, (run_field decimal fmt_time 4 (fun _ => still) (sequenceGenerator 1 1 5 2 true)).1 !! 3%nat = Some r) as [r E] by by eexists.
  rewrite E. f_equal. exact (sequence_exact decimal fmt_time 1 5 2 true 4 (fun _ => still) 3 r ltac:(lia) ltac:(lia)
    ltac:(unfold_range; lia) ltac:(unfold_range; lia) E).
Defined.

Definition no_scan_range (_ : string) : option (Z * Z) := None.
Definition no_scan (_ : string) : option Z := None.

Definition dice : fields := {[ "min" := VInt 1; "max" := VInt 7 ]}.
Definition chaotic_dice : fields :=
  {[ "modes" := VSlice [VMap {[ "type" := VString "null_injection"; "probability" := VFloat64 half ]}];
     "base" := VMap {[ "type" := VString "random_int"; "config" := VMap dice ]} ]}.

Lemma sample_out_of_range f : in_int64 (float_out_of_range f).
Proof. cbn [float_out_of_range sample_lib]. unfold_range. lia. Qed.

Lemma constructed_generators_safe_witness :
  exists g, create_nested no_scan_range no_scan 4 new_year "chaos" chaotic_dice = Ok g /\ gen_safe g.
Proof.
  eexists. split; [vm_compute; reflexivity|].
  eapply (constructed_generators_safe no_scan_range no_scan sample_out_of_range 4 new_year "chaos" chaotic_dice);
    [vm_compute; reflexivity|]. cbn. unfold_range. lia.
Defined.

(** ** A run of the engine *)

Definition field (name type : string) (config : fields) : FieldDefinition := {| Name := name; Type_ := type; Config := config; Internal := false |}.

Definition counter_template : Template := {|
  tmpl_Name := "counter"; Table := "t"; Pattern := ""; PostTransformations := [];
  Fields := [field "a" "sequence" ∅; field "b" "multiply" {[ "source" := VString "a"; "factor" := VFloat64 (f64_of_Z 10) ]}] |}.

Definition counter_engine : Engine FieldGen := {|
  GenEngine.template := counter_template;
  generators := {[ "a" := sequenceGenerator 1 1 max_int64 1 false; "b" := multiplyGenerator "a" (f64_of_Z 10) (f64_of_Z 0) ]} |}.

#[local] Instance sample_generator : FieldGenerator FieldGen draws := field_generator decimal fmt_time.

Lemma counter_paths : own_maps counter_template.
Proof.
  intros f g F G (x & r & E). assert (length (path_of f) = 1%nat /\ length (path_of g) = 1%nat) as [Lf Lg].
  { cbn in F, G. apply elem_of_cons in F as [->|F]; [|apply list_elem_of_singleton in F as ->];
      (apply elem_of_cons in G as [->|G]; [|apply list_elem_of_singleton in G as ->]); done. }
  rewrite E, length_app, Lf in Lg. cbn in Lg. lia.
Qed.

Lemma counter_safe : gens_ok gen_safe counter_template (generators counter_engine).
Proof.
  split.
  - intros f F. apply elem_of_cons in F as [->|F]; [by eexists|]. apply list_elem_of_singleton in F as ->. by eexists.
  - apply map_Forall_insert_2; [done|]. apply map_Forall_insert_2; [done|]. apply map_Forall_empty.
Qed.

(** Worker 1 takes the lock between the two turns of worker 0. *)
Definition turns_of_two : list (nat * option error) := [(0%nat, None); (1%nat, None); (0%nat, None)].

Definition counter_line (a b : string) : string := string_of_bytes (Json.print (Json.JObject [
  (bytes_of_string "$table", Json.JString (bytes_of_string "t")); (bytes_of_string "a", Json.number a); (bytes_of_string "b", Json.number b)])).


Lemma continuous_calculators_fail_witness :
  (run_continuous (H1 := field_generator decimal fmt_time) (fun _ => None) counter_template (fun _ _ => still) 1 0 (generators counter_engine)).1.1 = [].
Proof.
  pose proof (continuous_calculators_fail decimal fmt_time (fun _ => None) counter_template (fun _ _ => still) 1 (generators counter_engine) "b"
    (multiplyGenerator "a" (f64_of_Z 10) (f64_of_Z 0)) eq_refl ltac:(by eexists) ltac:(lia)) as P.
  destruct (run_continuous _ _ _ _ _ _) as [[lines r] gs]. exact (proj1 P).
Defined.
