(* ===== verification/ChainWitnesses.v ===== *)
(** * Witnesses of the chain of tools

    Decimal texts of floats that are exact, with a parser that reads them back,
    as an instance of the laws of JSON texts; and two records generated, packed,
    loaded and parsed. *)
From S2P Require Import Prelude GoInt GoStr GoUtf8 GoFloat GoTime Values GoJson Proto Yaml.
From S2P Require Import Loader Feed Publish LoaderRun LoaderStop Batching LoaderSystem GenIterator GenPattern GenEngine GenParallel FloatOrder GenWaves GenFields ToolChain.
From S2P Require Import TestLib ToolWitnesses GenWitnesses.
From Stdlib.Strings Require Import Byte.
From Stdlib Require Import Ascii SpecFloat.
From Stdlib Require DecimalString.

(** ** Exact decimal texts *)

(** m 2^e is N e-k, where N is m 2^e and k is 0, or N is m 5^k and k is -e. *)
Definition digits_of (m : BinNums.positive) (e : Z) : Z := if 0 <=? e then Zpos m * 2 ^ e else Zpos m * 5 ^ (- e).
Definition minus (s : bool) (text : string) : string := if s then String "-" text else text.
Definition exact_text (f : float64) : string :=
  match f with
  | S754_finite s m e => minus s (FormatInt (digits_of m e) +:+ String "e" (String "-" (FormatInt (Z.max 0 (- e)))))
  | S754_zero s => minus s "0e-0"
  | _ => "0"
  end.

Definition exact_float (s : bool) (n k : Z) : float64 :=
  if k =? 0 then let e := Z.max 0 (Z.log2 n - 52) in finite_of s (n / 2 ^ e) e else finite_of s (n / 5 ^ k) (- k).

(** The text before an exponent, and the exponent. *)
Fixpoint cut_e (s : string) : string * option string :=
  match s with
  | EmptyString => (EmptyString, None)
  | String c s => if Ascii.eqb c "e" then (EmptyString, Some s) else let '(a, b) := cut_e s in (String c a, b)
  end.

Definition unsigned (s : string) : option Z := Z.of_N <$> parse_digits s.
Definition strip_minus (s : string) : bool * string :=
  match s with String c rest => if Ascii.eqb c "-" then (true, rest) else (false, s) | EmptyString => (false, s) end.

Definition exact_parse (s : string) : result float64 :=
  let '(neg, body) := strip_minus s in
  let bad := Err (LibError "invalid syntax") in
  match cut_e body with
  | (n, None) => match unsigned n with Some n => Ok (f64_of_Z (if neg then - n else n)) | None => bad end
  | (n, Some k) => match unsigned n, unsigned (strip_minus k).2 with Some n, Some k => Ok (exact_float neg n k) | _, _ => bad end
  end.

(** *** Unsigned numbers *)

Lemma FormatInt_digits n : 0 <= n -> exists u, FormatInt n = DecimalString.NilEmpty.string_of_uint u /\ u <> Decimal.Nil.
Proof.
  intros N. destruct n as [|p|p]; [by exists (Decimal.D0 Decimal.Nil)| |lia]. exists (Pos.to_uint p). rewrite FormatInt_nonneg.
  split; [done|apply pos_to_uint_nonnil].
Qed.

Lemma unsigned_FormatInt n : 0 <= n -> unsigned (FormatInt n) = Some n.
Proof.
  intros N. unfold unsigned. destruct n as [|p|p]; [done| |lia]. rewrite FormatInt_nonneg, parse_digits_string_of_uint by apply pos_to_uint_nonnil.
  cbn. f_equal. unfold N.of_uint. by rewrite DecimalPos.Unsigned.of_to.
Qed.

Fixpoint no_e (s : string) : bool := match s with String c s => negb (Ascii.eqb c "e") && no_e s | EmptyString => true end.

Lemma cut_no_e a r : no_e a = true -> cut_e (a +:+ String "e" r) = (a, Some r) /\ cut_e a = (a, None).
Proof.
  induction a as [|c a IH]; [done|]. cbn [no_e]. rewrite andb_true_iff, negb_true_iff. intros [C N]. destruct (IH N) as [E1 E2].
  change (String c a +:+ String "e" r) with (String c (a +:+ String "e" r)). cbn [cut_e]. by rewrite C, E1, E2.
Qed.

Lemma cut_digits n r : 0 <= n -> cut_e (FormatInt n +:+ String "e" r) = (FormatInt n, Some r) /\ cut_e (FormatInt n) = (FormatInt n, None).
Proof. intros (u & -> & _)%FormatInt_digits. apply cut_no_e. by induction u. Qed.

Lemma strip_minus_digits s n r : 0 <= n -> strip_minus (minus s (FormatInt n +:+ r)) = (s, FormatInt n +:+ r).
Proof.
  intros (u & -> & Ne)%FormatInt_digits. destruct s; [done|]. by destruct u.
Qed.

(** *** The laws *)

Lemma digits_of_pos m e : 0 < digits_of m e.
Proof. unfold digits_of. destruct (Z.leb_spec 0 e); apply Z.mul_pos_pos; try apply Z.pow_pos_nonneg; lia. Qed.

Lemma exact_float_digits s m e : f64_valid (S754_finite s m e) = true -> exact_float s (digits_of m e) (Z.max 0 (- e)) = S754_finite s m e.
Proof.
  intros (R & U & L)%f64_bounded_spec. unfold exact_float, digits_of. destruct (Z.leb_spec 0 e) as [P|P].
  - rewrite Z.max_l by lia. cbn [Z.eqb]. assert (Z.log2 (Zpos m * 2 ^ e) = Z.log2 (Zpos m) + e) as -> by (rewrite Z.log2_mul_pow2; lia).
    assert (Z.max 0 (Z.log2 (Zpos m) + e - 52) = e) as ->.
    { assert (Z.log2 (Zpos m) = 52) as ->; [|lia]. apply Z.log2_unique; [lia|]. change (Z.succ 52) with 53. lia. }
    rewrite Z.div_mul; [done|]. apply Z.pow_nonzero; lia.
  - rewrite Z.max_r by lia. destruct (Z.eqb_spec (- e) 0); [lia|]. rewrite Z.div_mul, Z.opp_involutive; [done|]. apply Z.pow_nonzero; lia.
Qed.

Lemma exact_round_trip f : Json.float_ok f = true -> exact_parse (exact_text f) = Ok f.
Proof.
  unfold Json.float_ok. rewrite andb_true_iff. intros [Fi V]. destruct f as [s| | |s m e]; try done; [by destruct s|].
  unfold exact_parse, exact_text. pose proof (digits_of_pos m e). rewrite strip_minus_digits by lia.
  destruct (cut_digits (digits_of m e) (String "-" (FormatInt (Z.max 0 (- e)))) ltac:(lia)) as [-> _].
  rewrite unsigned_FormatInt by lia. cbn [strip_minus Ascii.eqb Bool.eqb snd]. change (strip_minus (String "-" ?x)).2 with x.
  rewrite unsigned_FormatInt by lia. by rewrite exact_float_digits.
Qed.

Lemma exact_integer n : exact_parse (FormatInt n) = Ok (f64_of_Z n).
Proof.
  assert (forall s k, 0 <= k -> exact_parse (minus s (FormatInt k)) = Ok (f64_of_Z (if s then - k else k))) as E.
  { intros s k K. pose proof (strip_minus_digits s k "" K) as St. rewrite app_string_nil_r in St. unfold exact_parse. rewrite St.
    destruct (cut_digits k "" K) as [_ ->]. by rewrite unsigned_FormatInt. }
  destruct n as [|p|p]; [by apply (E false)|by apply (E false)|]. specialize (E true (Zpos p)). cbn [minus] in E. rewrite FormatInt_nonneg in E.
  rewrite FormatInt_neg. by apply E.
Qed.

Lemma num_run_app p a b : Json.num_run p (a ++ b) = p' ← Json.num_run p a; Json.num_run p' b.
Proof. revert p. induction a as [|c a IH]; intros p; [done|]. cbn. destruct (Json.num_next p c); [apply IH|done]. Qed.

Lemma power_run u : Json.num_run Json.NPower (bytes_of_string (DecimalString.NilEmpty.string_of_uint u)) = Some Json.NPower.
Proof. by induction u. Qed.

Lemma exponent_run k : 0 <= k -> Json.num_run Json.NSign (bytes_of_string (FormatInt k)) = Some Json.NPower.
Proof. intros (u & -> & N)%FormatInt_digits. destruct u as [|u|u|u|u|u|u|u|u|u|u]; [done|..]; apply (power_run u). Qed.

(** A natural number, alone or after a sign. *)
Lemma natural_run n : 0 <= n -> exists p, (p = Json.NZero \/ p = Json.NInt) /\
  Json.num_phase_of (bytes_of_string (FormatInt n)) = Some p /\ Json.num_run Json.NNeg (bytes_of_string (FormatInt n)) = Some p.
Proof.
  intros N. destruct n as [|p|p]; [by exists Json.NZero; split; [left|]| |lia]. exists Json.NInt. split; [by right|]. rewrite FormatInt_nonneg.
  pose proof (pos_to_uint_nonnil p) as N0. pose proof (Json.to_uint_head p) as N1.
  destruct (Pos.to_uint p) as [|u|u|u|u|u|u|u|u|u|u]; try done; try (by destruct (N1 u)); split; apply (Json.digits_run u).
Qed.

Lemma bytes_of_app a b : bytes_of_string (a +:+ b) = bytes_of_string a ++ bytes_of_string b.
Proof.
  induction a as [|c a IH]; [done|]. change (String c a +:+ b) with (String c (a +:+ b)).
  change (bytes_of_string (String c ?x)) with (byte_of_ascii c :: bytes_of_string x). by rewrite IH.
Qed.

Lemma exact_number f : Json.float_ok f = true -> Json.number_text (bytes_of_string (exact_text f)) = true.
Proof.
  unfold Json.float_ok. rewrite andb_true_iff. intros [Fi V]. destruct f as [s| | |s m e]; try done; [by destruct s|].
  pose proof (digits_of_pos m e). destruct (natural_run (digits_of m e)) as (p & P & R & Rn); [lia|].
  set (exponent := String "e" (String "-" (FormatInt (Z.max 0 (- e))))).
  assert (forall q t, Json.num_run q t = Some p -> Json.num_run q (t ++ bytes_of_string exponent) = Some Json.NPower) as Run.
  { intros q t Q. rewrite num_run_app, Q. cbn [mbind option_bind]. unfold exponent.
    change (bytes_of_string (String "e" (String "-" ?x))) with (x65 :: x2d :: bytes_of_string x). cbn [Json.num_run].
    pose proof (exponent_run (Z.max 0 (- e)) ltac:(lia)). by destruct P as [-> | ->]. }
  unfold Json.number_text, exact_text. fold exponent. destruct s; cbn [minus].
  - change (bytes_of_string (String "-" ?x)) with (x2d :: bytes_of_string x). rewrite bytes_of_app.
    change (Json.num_phase_of (x2d :: ?t)) with (Json.num_run Json.NNeg t). by rewrite Run.
  - unfold Json.num_phase_of in *. rewrite bytes_of_app. destruct (bytes_of_string (FormatInt (digits_of m e))) as [|b t]; [done|].
    cbn [app]. destruct (Json.num_start b) as [q|]; [|done]. cbn [mbind option_bind] in *. by rewrite Run.
Qed.

(** ** Two records *)

#[local] Instance chain_lib : GoLib := {|
  gzip_NewReader := gzip_NewReader; gzip_ReadAll := gzip_ReadAll; ParseFloat := exact_parse; FormatFloat_g := exact_text;
  Sprintf_v := Sprintf_v; ParseDuration := ParseDuration; time_Parse := time_Parse; sha1_Sum := sha1_Sum; sha256_Sum256 := sha256_Sum256;
  trim_unicode := trim_unicode; float_out_of_range := float_out_of_range; native_is_little := native_is_little; MinTimespec := MinTimespec |}.

#[local] Instance chain_codecs : Codecs := {|
  codec_text := {| Json.float_text := exact_text; Json.float32_text := exact_text; Json.time_text _ := inr "t" |};
  gzip_compress _ b := x1f :: x8b :: b |}.

#[local] Instance chain_texts : Json.JsonTextLaws.
Proof. split; [apply exact_number|apply exact_round_trip|intros n _; apply exact_integer]. Qed.

#[local] Instance chain_gzip : GzipLaws.
Proof. by split. Qed.

#[local] Instance chain_generator : FieldGenerator FieldGen draws := field_generator decimal fmt_time.

Definition packed_engine : Engine FieldGen := {|
  GenEngine.template := {| tmpl_Name := "counter"; Table := "t"; Pattern := ""; PostTransformations := chain true; Fields := Fields counter_template |};
  generators := generators counter_engine |}.

Definition base64_worker : loader_config := {|
  topic := "t"; stream := "s"; base64 := true; natsURL := "u"; LoaderRun.workers := 1; adaptive := false; batchSize := 0;
  batchTimeout := 0; minBatchSize := 1; maxBatchSize := 5; targetRate := 100 |}.

(** The records of the run, which has integers, floats and a string. *)
Definition counter_record (a : Z) : fields :=
  {[ "$table" := VString "t"; "a" := VInt64 a; "b" := VFloat64 (f64_of_Z (10 * a)) ]}.

Lemma packed_records :
  exists gs, raw_records (template packed_engine) (fun _ _ => still) 2 0 (generators packed_engine) = Ok ([counter_record 1; counter_record 2], gs).
Proof. eexists. vm_compute. reflexivity. Qed.

Lemma short_line n : Z.of_nat n < 65536 -> (n < MaxScanTokenSize)%nat.
Proof. assert (Z.of_nat MaxScanTokenSize = 65536) as E by (unfold MaxScanTokenSize; by rewrite Nat2Z.inj_mul). lia. Qed.

(** The events of the loader over the file of that run, and the loader's run
    over them to its return. *)
Definition packed_lines : list string := (GenerateRecords (fun _ => None) packed_engine (fun _ _ => still) 2).1.1.
Definition packed_events : list parse_event :=
  match open_input base64_worker (Ok (NewConnection "u")) (inr (written packed_lines)) with Ok events => events | _ => [] end.

Lemma packed_system :
  exists k s, system_run false k (loaded 1 (fixed_batcher base64_worker 0) packed_events) s /\
    LoaderStop.returned (ctl s) = Some Completed /\ LoaderStop.cancelled (ctl s) = false /\ refusals (sh (LoaderSystem.pool s)) = [].
Proof.
  match goal with |- context [loaded 1 ?b packed_events] => let s' := eval vm_compute in (loaded 1 b packed_events) in change (loaded 1 b packed_events) with s' end.
  eexists _, _. split.
  - do 3 forwards. control gs_close_errors. control gs_close_messages. control gs_range_over. control gs_errors_over.
    do 2 pool_feeds. of_pool ltac:(by eapply pos_close).
    pool_works pw_batch. pool_works pw_acquired. do 2 (pool_works pw_publish; pool_works pw_published).
    pool_works pw_flush. pool_works pw_flushed. pool_works pw_tombstone. of_pool ltac:(by eapply pos_complete).
    control gs_tracked. control gs_waited. control gs_completed. apply sr_here.
  - by split_and!.
Defined.

Lemma packed_carried : Forall (carried true) [counter_record 1; counter_record 2].
Proof. repeat (apply Forall_cons_2; [split_and!; [by vm_compute|by vm_compute|apply short_line; by vm_compute]|]). by apply Forall_nil. Qed.

